(* ===== verification/_CoqProject ===== *)
-Q . S2P
Prelude.v
GoText.v
GoUrl.v
Utf8.v
GoJson.v
JsonRoundtrip.v
CtxUtil.v
Http.v
ApiError.v
JwtKeys.v
JwksFlight.v
JwtAuth.v
KeyWithdrawal.v
SocrateToken.v
Session.v
SessionStore.v
PostgresStore.v
SessionSpec.v
PendingLogin.v
PendingSpec.v
GoFloat.v
Numbers.v
BffMisc.v
Gateway.v
GatewaySpec.v
Pep.v
Tiering.v
Pagination.v
NarrationCache.v
Lru.v
RateLimit.v
RateIsolation.v
Cleanup.v
HttpWare.v
Limits.v
Stack.v
Downstream.v
SocrateService.v
SocrateHttp.v
SocrateUsers.v
SocrateAdmin.v
EventStream.v
SocrateCalls.v
SocrateRuns.v
Integration.v
Ailang.v
AiGateway.v
ContextTypes.v
GormLogger.v
Conformance.v
FixtureFiles.v
FixtureMatch.v
PublishedKeys.v
SignedTokens.v
StepUp.v
