(* ===== verification/Prelude.v ===== *)
(** * backendkit: a verification development

    The library under src/ is the shared server side of a suite of Go services:
    middleware that authenticates requests and limits them, a backend for
    frontends ("bff") that keeps OAuth tokens out of the browser, a policy
    enforcement point, feature gating by plan, and a client of the identity
    provider Socrate. This development translates its own logic into executable
    definitions, package by package, and proves what each package promises.

    ** How the parts interact

    A request passes [httpware] (request id, recovery, rate limits), then
    [jwtauth], which verifies its bearer token with keys of a cached JWKS and
    writes the identity into the context ([ctxutil]); handlers behind it ask the
    tenant guard, the role table, [tiering] gates and the enforcement point
    [pep], all of which read that context; refusals are written as [apierror]s.
    Browsers talk to the [bff] gateway instead: it looks a session up in a
    store, checks CSRF, refreshes tokens with the [socrate] client, and forwards
    the request with the session's access token, which [jwtauth] verifies
    upstream.

    ** Files and the code they model

    - [Prelude]: automation, hint database, 64-bit wrapping, time and durations,
      results, lemmas on lists and finite maps, and [simulation], which the
      refinements of stores share.
    - [GoText], [GoUrl], [GoJson], [GoFloat], [Http]: what the code uses of
      Go's [strings], [utf8], [strconv], [base64], [net/url],
      [encoding/json], float64 and [net/http]; [Utf8] and [JsonRoundtrip]
      prove that decoding undoes encoding for runes and for JSON values, [GoUrl]
      that parsing undoes escaping, [Numbers] that integers below 2^53 survive
      their decimal text and float64.
    - [CtxUtil] (ctxutil/context.go): a context is the list of its pairs;
      [ContextTypes]: the types its keys are read at and the contexts that the
      packages build.
    - [ApiError] (apierror/errors.go): errors and their writers.
    - [JwtKeys], [JwtAuth] (jwtauth/middleware.go): key parsing, [KeyCache] and
      [getKey]; options, claims, [validateToken] and [Handler]. [JwksFlight]:
      concurrent lookups and their single flight as a step relation;
      [KeyWithdrawal]: sequences of requests that share the cache.
    - [SocrateToken], [SocrateService] (socrate/bff.go, client.go,
      service_token_scopes.go, attribution.go, helpers.go, policy.go): token
      answers and errors; the service token, the bounded cache of scoped tokens,
      headers sent for a user, policy decisions.
    - [SocrateHttp] (socrate/client.go, bff.go): the HTTP side of the client as
      a state and error monad [M] over the client, the requests sent, the open
      response bodies and the clock; [SocrateUsers] (client.go, bff.go,
      policy.go, profile.go, signup.go), [SocrateAdmin] (admin.go,
      monitoring.go, dashboard.go, alerts.go, reports.go, settings.go) and
      [EventStream] (the event stream of monitoring.go): one definition per
      method, with the URL, the body and the decoding. [SocrateCalls] lists the
      methods as the type [call] with an abstract endpoint per method and a step
      relation; [SocrateRuns] proves sequences of calls against it.
    - [Conformance] (conformance/): loading and matching the fixtures;
      [FixtureFiles] holds the embedded files, [FixtureMatch] relates the loader
      and the matcher, [PublishedKeys] the published keys and [JwtKeys],
      [SignedTokens] signed fixtures and [JwtAuth]; [StepUp] carries a signed
      token on to [Pep].
    - [Integration]: the session gateway over the Socrate client, and the
      enforcement point over its policy endpoint. [Stack]: the middlewares of
      a service composed in front of its handler. [Downstream]: the gateway, its
      reverse proxy and a backend behind that stack.
    - [Session], [SessionStore], [PostgresStore], [PendingLogin], [BffMisc],
      [Gateway] (bff/): sessions as objects of a heap, the class [SessionStore]
      with its laws and its two implementations, the class [PendingLoginStore]
      with its two, cookies, PKCE, login binding and redirect targets, and the
      gateway, proved against the store interface. [Gateway.gateway.flight] is
      the single flight of [EnsureFresh] as a step relation. [PendingSpec]: the
      two stores of pending logins against one map. [SessionSpec]: the two
      session stores against one map, through the class [StoreView] that says
      what a store holds; [GatewaySpec]: the gateway over either store against a
      gateway whose sessions live in a map.
    - [Pep] (pep/pep.go, socrate/policy.go): modes, obligations, [Check] and its
      middleware, against the class-like parameter [Decider].
    - [Tiering] (tiering/): plan registry, gate, policy cells and the cached
      service over the interface of its repository.
    - [Pagination] (pagination/), [NarrationCache] (ainarration/) and [Lru],
      its specification as one list from the least to the most recently used,
      [RateLimit] (httpware/ratelimit.go, keyed_ratelimit.go), [RateIsolation],
      runs of the keyed limiter with and without the other callers, and
      [Cleanup], their background goroutines as a step relation, [HttpWare] (the
      other middlewares of httpware/), [Limits] (httpware/bodylimit.go,
      timeout.go, buildinfo/), [GormLogger] (gormlogger/).
    - [Ailang] (ailang/): the language check, the JSON-aware translator and the
      guard; [AiGateway] (aigateway/): the clients of language models, the safe
      client built on the guard, and the factory.

    Each definition that translates code names its file and symbol in the
    comment before it, and keeps the name of the Go identifier where it can
    (with a prefix or a trailing underscore where two methods share it).

    ** What the theorems show

    - Authentication: a request reaches the handler only with a token whose
      RS256 signature, registered claims, scopes, tenant and revocation state
      were checked, and the context holds exactly that token's identity; an
      empty audience or scope configuration admits nothing.
    - Keys: only strong RSA keys enter the cache; the endpoint is asked at most
      once per window by lookups that follow each other, and by concurrent ones
      only if they had looked before; a known key survives failed refreshes, a
      rotated key is found, and a withdrawn key is refused once the cache
      lifetime has passed.
    - Contexts: no type assertion on a request's context fails.
    - Sessions: logout is final in both stores; a stored session is read back;
      an OAuth state is accepted once; the stores stay bounded and well formed;
      the two stores of pending logins answer alike, as one simple map does, for
      logins with UTF-8 texts, and so do the two session stores, for requests on one session that do not
      overlap, also when a logout overtakes a request.
    - Gateway: only sessions that the store holds, with a valid CSRF token, are
      forwarded, with their own access token and without the browser's
      credentials; a refresh failure tears a session down exactly when the server
      rejected the token; of concurrent requests that share a session one at a
      time presents its refresh token, and none presents it again unless the
      answer to a refresh was lost; which store is behind the gateway cannot be
      observed by requests that do not overlap, while the database answers.
    - Policy: with an enforcing floor no check proceeds without an allowing
      decision and met obligations, those after an empty name excepted; outages fall back to the last mode; the
      optional mode field never costs a decision.
    - Service tokens: a scoped token is only handed out if the exchange that
      granted it asked for exactly the scopes of the call, and while it is
      alive; the cache is bounded.
    - The Socrate client: whatever was called before, every request carries the
      credential of its own call, the caller's token or the service token, and
      is the request of the method's endpoint, for the client's own application
      and with its arguments escaped; every
      response is closed when the application id is configured; a missing route
      is never taken for a missing user; the event stream delivers each frame
      once and in order.
    - Composition: a session dies only when the token endpoint rejected its
      refresh token; an action that an enforcing gate lets pass was allowed by
      the policy endpoint's answer; behind the whole stack a handler sees only
      requests on which token, tenant, rate limit, role, plan and policy agreed
      about one caller; and behind the gateway that caller is the session's user;
      an action that asks for a fresh sign-in with a second factor is reached
      exactly by users who signed in that way.
    - Background work: Stop of the keyed limiter may be called any number of
      times at once, returns, and lets the goroutine end; idle buckets are
      reclaimed; the narration cache is a least-recently-used cache.
    - Conformance fixtures (but the key set): what is loaded is accepted, in
      whatever order its members are written; what is accepted has exactly the fixture's members and values, the published keys are the
      keys the middleware reads, and a token signed from a sign-in fixture is
      admitted with the identity of its parameters.
    - Limits and gates: every request is counted in one bucket, address-keyed
      buckets are bounded and separate from the others, and what a tenant or a
      subject is answered does not depend on other callers; gates admit exactly the
      plans at or above theirs; policy updates are seen at once.
    - Generated text: a response marked valid passed the language check, the
      check does not depend on the order in which maps are visited, a JSON
      document is translated into a JSON document, the number of calls of the
      model is bounded, and a prompt is sent only to the configured provider, to
      Claude only for an allowed model.
    - The rest: server errors hide their message, request ids are safe to log,
      pages cover their items, redirect targets stay on the site.

    Some theorems exhibit behaviour the code does not intend; they stand beside
    the properties they limit: [removal_revives_logged_out_session],
    [logout_of_swept_session_is_undone], [invalid_text_is_replaced],
    [lost_answer_presents_again],
    [durable_store_spends_token_twice], [durable_store_loses_rotated_token],
    [empty_obligation_is_dropped], [huge_page_has_negative_offset],
    [expired_get_drops_fresh_value], [recorder_disagrees_with_response],
    [log_names_no_tenant], [wrong_language_is_returned], [openai_ignores_allowed_models],
    [failed_lookup_leaks_body], [ipv6_admin_host_loses_brackets],
    [route_limit_cannot_raise_the_global_one], [concurrent_misses_fetch_twice]
    and [session_text_is_a_credential].

    ** Conventions and bounds

    - A Go string is a [string] of 8-bit characters; [int] and [int64] are [Z]
      wrapped to 64 bits where the code can overflow; a [time.Time] is a [Z] of
      nanoseconds since the beginning of year 1, its zero value, unbounded
      except where [time.Unix] wraps.
    - Shared mutable objects (sessions, rate-limit buckets, cached scoped
      tokens) are locations of a heap or of a table of objects, so aliasing is
      part of the model. Code under a mutex is one step; where a function
      releases its lock in between, it is several definitions and its theorems
      quantify over what runs between them. The [sync.Once] of a limiter is
      stepped through with its flag and its mutex. The single-flight group is a
      library: the step relations have its documented rule, one flight per key
      whose result all who joined it receive.
    - The clock is read once per locked section and passed in; the answers of
      servers, statements and random sources are inputs.
    - Recursion is structural except in the JSON parser, whose fuel
      [2 * length + 2] covers two calls per byte, and in [itoa], whose 20 digits
      cover 64-bit integers.
    - Code outside the repository is a class with its documented laws: the JWT
      library, UUIDs, AES-GCM, SHA-256, the token bucket, IP parsing, the
      database driver's rounding, the snapshot codec, the JSON text of a time, the
      policy repository, the language model. So are Unicode's tables beyond Latin-1 and the decimal text
      of a float64. A property that assumes such laws has a witness with a concrete
      instance.

    ** Not modelled

    What is left out has no logic of its own, or none that can be stated without
    the libraries it calls. Log lines and the registration of metrics beyond
    their labels, the loggers and reporters that constructors store, and the
    constructors for tests; the texts of error messages beyond what callers
    inspect, and so the wording of the matcher's differences (but not how long a
    value they show); the schema migration texts; the deadline of a database
    statement, whose effect is an outcome of the statement; the nesting limit of
    encoding/json; the scanner's limit on the length of a line of the event stream
    is modelled, its buffering is not. [NewKey] of conformance only calls the
    cryptography library. The program under conformance/testdata fills the
    database of a server for tests, through that server's own packages, which are
    not part of the repository. The order in which Go visits a map while a
    fixture is resolved is fixed; fixtures whose keys collide after renaming are
    excluded where it would matter. *)

From Stdlib Require Export ZArith Lia Ascii String.
From stdpp Require Export base tactics option list list_numbers fin_maps gmap strings numbers sorting.

#[export] Set Default Goal Selector "!".
#[global] Open Scope Z_scope.

(** * Proof automation *)

Create HintDb backendkit discriminated.

(** Split every [match] and [if] whose scrutinee is visible, keeping the
    equations; congruent branches are closed on the way. *)
Ltac split_match :=
  match goal with
  | |- context [match ?x with _ => _ end] =>
      lazymatch x with
      | context [match _ with _ => _ end] => fail
      | _ => destruct x eqn:?
      end
  end.

Ltac split_match_in H :=
  match type of H with
  | context [match ?x with _ => _ end] =>
      lazymatch x with
      | context [match _ with _ => _ end] => fail
      | _ => destruct x eqn:?
      end
  end.

Ltac split_all := repeat (split_match; simplify_eq/=; try done).
Ltac split_all_in H := repeat (split_match_in H; simplify_eq/=; try done).

(** Turn boolean tests on integers into propositions. *)
Ltac bool_to_prop :=
  repeat match goal with
  | H : (_ && _)%bool = true |- _ => apply andb_true_iff in H as [? ?]
  | H : (_ || _)%bool = false |- _ => apply orb_false_iff in H as [? ?]
  | H : negb _ = true |- _ => apply negb_true_iff in H
  | H : negb _ = false |- _ => apply negb_false_iff in H
  | H : (_ <? _) = true |- _ => apply Z.ltb_lt in H
  | H : (_ <? _) = false |- _ => apply Z.ltb_ge in H
  | H : (_ <=? _) = true |- _ => apply Z.leb_le in H
  | H : (_ <=? _) = false |- _ => apply Z.leb_gt in H
  | H : (_ =? _) = true |- _ => apply Z.eqb_eq in H
  | H : (_ =? _) = false |- _ => apply Z.eqb_neq in H
  | H : bool_decide _ = true |- _ => apply bool_decide_eq_true in H
  | H : bool_decide _ = false |- _ => apply bool_decide_eq_false in H
  | H : String.eqb _ _ = true |- _ => apply String.eqb_eq in H
  | H : String.eqb _ _ = false |- _ => apply String.eqb_neq in H
  end.

(** * Results of fallible operations

    A Go [(T, error)] pair whose value is meaningful only without an error. *)
Inductive result (E A : Type) : Type :=
| Ok (a : A)
| Err (e : E).
Arguments Ok {E A} a.
Arguments Err {E A} e.

Definition is_ok {E A} (r : result E A) : bool :=
  match r with Ok _ => true | Err _ => false end.

Definition rbind {E A B} (r : result E A) (f : A → result E B) : result E B :=
  match r with Ok a => f a | Err e => Err e end.

Definition rmap_err {E F A} (f : E → F) (r : result E A) : result F A :=
  match r with Ok a => Ok a | Err e => Err (f e) end.

Definition rmap {E A B} (f : A → B) (r : result E A) : result E B := rbind r (λ a, Ok (f a)).

(** All results, or the first error. *)
Fixpoint rsequence {E A} (l : list (result E A)) : result E (list A) :=
  match l with
  | [] => Ok []
  | r :: l' => rbind r (λ a, rmap (cons a) (rsequence l'))
  end.

Lemma rsequence_ok {E A} (l : list (result E A)) xs : rsequence l = Ok xs ↔ Forall2 (λ r x, r = Ok x) l xs.
Proof.
  revert xs. induction l as [|r l IH]; intros xs; simpl.
  - split; [by intros [= <-]|by inversion 1].
  - destruct r as [a|e]; simpl.
    + unfold rmap. destruct (rsequence l) as [ys|e] eqn:Hl; simpl.
      * split; [intros [= <-]; constructor; [done|by apply IH]|].
        inversion 1; simplify_eq. f_equal. f_equal. assert (Ok ys = Ok l' :> result E (list A)) as [= ->]; [|done].
        by apply IH.
      * split; [done|]. inversion 1; simplify_eq. assert (Err e = Ok l' :> result E (list A)) by by apply IH. done.
    + split; [done|]. by inversion 1; simplify_eq.
Qed.

Declare Scope go_scope.
Delimit Scope go_scope with go.
Notation "'let?' x ':=' r 'in' k" := (rbind r (λ x, k))
  (at level 10, x pattern, r at level 100, k at level 200,
   format "'[v' 'let?'  x  ':='  r  'in' '/' k ']'") : go_scope.
#[global] Open Scope go_scope.

Lemma rbind_ok {E A B} (r : result E A) (f : A → result E B) b :
  rbind r f = Ok b ↔ ∃ a, r = Ok a ∧ f a = Ok b.
Proof. destruct r; naive_solver. Qed.

(** * Machine integers

    [int] and [int64] are 64 bits wide: arithmetic that can overflow is written
    with [wrap64]. *)
Definition int64_min : Z := - 2 ^ 63.
Definition int64_max : Z := 2 ^ 63 - 1.
Definition in_int64 (z : Z) : Prop := int64_min ≤ z ≤ int64_max.
Definition wrap64 (z : Z) : Z := (z + 2 ^ 63) mod 2 ^ 64 - 2 ^ 63.
Definition sat64 (z : Z) : Z := Z.max int64_min (Z.min int64_max z).

#[global] Instance in_int64_dec z : Decision (in_int64 z).
Proof. unfold in_int64. apply _. Defined.

Ltac int64 := unfold in_int64, int64_min, int64_max in *; lia.

Lemma wrap64_id z : in_int64 z → wrap64 z = z.
Proof. intros H. unfold wrap64. rewrite Z.mod_small; [lia|int64]. Qed.

Lemma wrap64_range z : in_int64 (wrap64 z).
Proof.
  unfold wrap64. pose proof (Z.mod_pos_bound (z + 2 ^ 63) (2 ^ 64)). int64.
Qed.

Lemma sat64_id z : in_int64 z → sat64 z = z.
Proof. unfold sat64. int64. Qed.

Lemma sat64_range z : in_int64 (sat64 z).
Proof. unfold sat64. int64. Qed.

Lemma sat64_mono a b : a ≤ b → sat64 a ≤ sat64 b.
Proof. unfold sat64. lia. Qed.

Lemma sat64_nonpos z : z ≤ 0 → sat64 z ≤ 0.
Proof. unfold sat64. int64. Qed.

#[export] Hint Resolve wrap64_range sat64_range : backendkit.
#[export] Hint Rewrite wrap64_id sat64_id using (first [done | int64]) : backendkit.

(** * Time

    A [time.Time] is a number of nanoseconds counted from Go's zero time
    (1 January of year 1, UTC), so that [Time.IsZero] is a test against 0. A
    [time.Duration] is an [int64] number of nanoseconds; [Time.Sub] saturates
    at its bounds. *)
Abbreviation Time := Z (only parsing).
Abbreviation Duration := Z (only parsing).

Definition Nanosecond : Duration := 1.
Definition Microsecond : Duration := 1000.
Definition Millisecond : Duration := 1000000.
Definition Second : Duration := 1000000000.
Definition Minute : Duration := 60 * Second.
Definition Hour : Duration := 60 * Minute.

Definition time_Add (t : Time) (d : Duration) : Time := t + d.
Definition time_Sub (t u : Time) : Duration := sat64 (t - u).
Definition time_Before (t u : Time) : bool := t <? u.
Definition time_IsZero (t : Time) : bool := t =? 0.

(** Seconds from the zero time to 1 January 1970. *)
Definition unix_epoch_seconds : Z := 62135596800.
Definition time_Unix (sec : Z) : Time := wrap64 (sec + unix_epoch_seconds) * Second.
Definition unix_of (t : Time) : Z := t / Second - unix_epoch_seconds.

(** [time.Duration(n) * time.Second]: an [int64] product. *)
Definition seconds (n : Z) : Duration := wrap64 (n * Second).

Lemma time_Sub_ge t u d : in_int64 d → d ≤ t - u → d ≤ time_Sub t u.
Proof. unfold time_Sub, sat64. int64. Qed.

Lemma time_Sub_ge_inv t u d :
  int64_min < d → d ≤ time_Sub t u → d ≤ t - u.
Proof. unfold time_Sub, sat64. int64. Qed.

Lemma time_Sub_lt t u d : in_int64 d → time_Sub t u < d → t - u < d.
Proof. unfold time_Sub, sat64. int64. Qed.

Lemma time_Sub_gt_iff t u d :
  int64_min ≤ d < int64_max → (d < time_Sub t u ↔ d < t - u).
Proof. unfold time_Sub, sat64. int64. Qed.

Lemma time_Sub_ge_iff t u d :
  int64_min < d ≤ int64_max → (d ≤ time_Sub t u ↔ d ≤ t - u).
Proof. unfold time_Sub, sat64. int64. Qed.

(** * Lists *)

(** [slices.Contains]. *)
Definition contains {A} `{EqDecision A} (l : list A) (x : A) : bool :=
  bool_decide (x ∈ l).

Lemma contains_spec {A} `{EqDecision A} (l : list A) x :
  contains l x = true ↔ x ∈ l.
Proof. unfold contains. by rewrite bool_decide_eq_true. Qed.

Lemma contains_false {A} `{EqDecision A} (l : list A) x :
  contains l x = false ↔ x ∉ l.
Proof. unfold contains. by rewrite bool_decide_eq_false. Qed.

(** The recurring Go loop that appends to [out] the values not yet in it. *)
Definition append_new {A} `{EqDecision A} (out : list A) (x : A) : list A :=
  if contains out x then out else out ++ [x].

Definition dedup_onto {A} `{EqDecision A} (out l : list A) : list A :=
  fold_left append_new l out.

Lemma append_new_elem {A} `{EqDecision A} (out : list A) x y :
  y ∈ append_new out x ↔ y ∈ out ∨ y = x.
Proof.
  unfold append_new. destruct (contains out x) eqn:E.
  - apply contains_spec in E. naive_solver.
  - set_solver.
Qed.

Lemma append_new_NoDup {A} `{EqDecision A} (out : list A) x :
  NoDup out → NoDup (append_new out x).
Proof.
  intros H. unfold append_new. destruct (contains out x) eqn:E; [done|].
  apply contains_false in E. apply NoDup_app. split_and!; [done| |apply NoDup_singleton].
  intros y Hy ->%list_elem_of_singleton. done.
Qed.

Lemma dedup_onto_elem {A} `{EqDecision A} (l out : list A) y :
  y ∈ dedup_onto out l ↔ y ∈ out ∨ y ∈ l.
Proof.
  unfold dedup_onto. revert out. induction l as [|x l IH]; intros out; simpl.
  - set_solver.
  - rewrite IH, append_new_elem. set_solver.
Qed.

Lemma dedup_onto_NoDup {A} `{EqDecision A} (l out : list A) :
  NoDup out → NoDup (dedup_onto out l).
Proof.
  unfold dedup_onto. revert out. induction l as [|x l IH]; intros out Hout; simpl; [done|].
  by apply IH, append_new_NoDup.
Qed.

#[export] Hint Resolve append_new_NoDup dedup_onto_NoDup NoDup_nil_2 : backendkit.

(** Removing the first occurrence of a value (Go's [append(l[:i], l[i+1:]...)]
    at the first index holding it). *)
Fixpoint remove_first {A} `{EqDecision A} (x : A) (l : list A) : list A :=
  match l with
  | [] => []
  | y :: l' => if decide (y = x) then l' else y :: remove_first x l'
  end.

Lemma remove_first_elem {A} `{EqDecision A} (x y : A) (l : list A) :
  NoDup l → (y ∈ remove_first x l ↔ y ∈ l ∧ y ≠ x).
Proof.
  induction l as [|z l IH]; simpl; intros Hnd; [set_solver|].
  apply NoDup_cons in Hnd as [Hz Hnd]. case_decide; subst; [set_solver|].
  rewrite elem_of_cons, IH by done. set_solver.
Qed.

Lemma remove_first_NoDup {A} `{EqDecision A} (x : A) (l : list A) :
  NoDup l → NoDup (remove_first x l).
Proof.
  induction l as [|z l IH]; simpl; intros Hnd; [done|].
  apply NoDup_cons in Hnd as [Hz Hnd]. case_decide; [done|].
  apply NoDup_cons. split; [|by apply IH]. rewrite remove_first_elem by done. naive_solver.
Qed.

Lemma remove_first_notin {A} `{EqDecision A} (x : A) (l : list A) :
  x ∉ l → remove_first x l = l.
Proof.
  induction l as [|z l IH]; simpl; intros Hx; [done|].
  case_decide; [set_solver|]. f_equal. apply IH. set_solver.
Qed.

Lemma remove_first_length {A} `{EqDecision A} (x : A) (l : list A) :
  x ∈ l → length l = S (length (remove_first x l)).
Proof.
  induction l as [|z l IH]; simpl; intros Hx; [set_solver|].
  case_decide; [done|]. simpl. f_equal. apply IH. set_solver.
Qed.

(** * Maps *)

(** Deleting every binding that satisfies a test (a Go [for k, v := range m]
    whose body deletes [k]). *)
Definition map_drop {K V} `{Countable K} (test : K → V → bool) (m : gmap K V) : gmap K V :=
  filter (λ kv, test kv.1 kv.2 = false) m.

Lemma map_drop_lookup {K V} `{Countable K} (test : K → V → bool) (m : gmap K V) k v :
  map_drop test m !! k = Some v ↔ m !! k = Some v ∧ test k v = false.
Proof. unfold map_drop. by rewrite map_lookup_filter_Some. Qed.

Lemma map_drop_None {K V} `{Countable K} (test : K → V → bool) (m : gmap K V) k :
  m !! k = None → map_drop test m !! k = None.
Proof.
  intros Hk. apply eq_None_not_Some. intros [v Hv]. apply map_drop_lookup in Hv. naive_solver.
Qed.

Lemma map_drop_true {K V} `{Countable K} (test : K → V → bool) (m : gmap K V) k v :
  m !! k = Some v → test k v = true → map_drop test m !! k = None.
Proof. intros Hk Ht. apply eq_None_not_Some. intros [v' [Hv' Hn]%map_drop_lookup]. congruence. Qed.

Lemma map_drop_size {K V} `{Countable K} (test : K → V → bool) (m : gmap K V) :
  (size (map_drop test m) ≤ size m)%nat.
Proof. apply map_subseteq_size, map_filter_subseteq. Qed.

Lemma alter_Some {K V} `{Countable K} (f : V → V) (m : gmap K V) k v :
  m !! k = Some v → alter f k m = <[k := f v]> m.
Proof.
  intros Hk. apply map_eq. intros i. destruct (decide (k = i)) as [<-|].
  - by rewrite lookup_alter_eq, Hk, lookup_insert_eq.
  - by rewrite lookup_alter_ne, lookup_insert_ne.
Qed.

(** * Sequences of calls *)

(** The answers a machine gives to a list of calls. *)
Fixpoint answers {S Op Ans} (step : S → Op → Ans * S) (s : S) (os : list Op) : list Ans :=
  match os with
  | [] => []
  | o :: os => let '(a, s) := step s o in a :: answers step s os
  end.

(** A step-by-step simulation gives the same answers. The relation may depend on
    the time of the last call, and on the calls to come; [before] says how the
    times of calls follow each other. *)
Lemma simulation {S T Op Ans} (at_ : Op → Z) (before : Z → Z → Prop)
    (step : S → Op → Ans * S) (spec : T → Op → Ans * T) (R : Z → list Op → S → T → Prop) :
  (∀ now o os s t, before now (at_ o) → R now (o :: os) s t →
     (step s o).1 = (spec t o).1 ∧ R (at_ o) os (step s o).2 (spec t o).2) →
  ∀ os now s t, StronglySorted before (now :: map at_ os) → R now os s t → answers step s os = answers spec t os.
Proof.
  intros Hstep os. induction os as [|o os IH]; intros now s t Hs HR; [done|]. simpl in *.
  apply StronglySorted_inv in Hs as [Hs Hnow]. apply Forall_cons in Hnow as [Hle _].
  destruct (Hstep now o os s t Hle HR) as [Ha HR']. destruct (step s o), (spec t o). simpl in *. subst. f_equal. eauto.
Qed.
