(* ===== verification/GoText.v ===== *)
(** The parts of Go's [strings], [unicode/utf8], [strconv] and
    [encoding/base64] packages that the modelled code calls. A Go string is a
    sequence of bytes: a [string], whose characters are 8 bits wide. *)

From S2P Require Import Prelude.

(** * Bytes *)

Definition byte_of (c : ascii) : Z := Z.of_N (N_of_ascii c).
Definition of_byte (z : Z) : ascii := ascii_of_N (Z.to_N z).
Definition slen (s : string) : Z := Z.of_nat (String.length s).

Fixpoint bytes (s : string) : list Z :=
  match s with
  | EmptyString => []
  | String c s' => byte_of c :: bytes s'
  end.

Fixpoint of_bytes (l : list Z) : string :=
  match l with
  | [] => EmptyString
  | b :: l' => String (of_byte b) (of_bytes l')
  end.

(** [for i := 0; i < len(s); i++] over the bytes, all of them passing a test. *)
Fixpoint all_bytes (test : Z → bool) (s : string) : bool :=
  match s with
  | EmptyString => true
  | String c s' => test (byte_of c) && all_bytes test s'
  end.

Lemma byte_of_range c : 0 ≤ byte_of c < 256.
Proof.
  unfold byte_of. pose proof (N_ascii_bounded c). lia.
Qed.

Lemma of_byte_of c : of_byte (byte_of c) = c.
Proof. unfold of_byte, byte_of. rewrite N2Z.id. apply ascii_N_embedding. Qed.

Lemma byte_of_inj c d : byte_of c = byte_of d → c = d.
Proof. intros H. rewrite <-(of_byte_of c), <-(of_byte_of d). by rewrite H. Qed.

Lemma of_bytes_bytes s : of_bytes (bytes s) = s.
Proof. induction s; simpl; [done|]. rewrite of_byte_of. congruence. Qed.

Lemma bytes_range s : Forall (λ b, 0 ≤ b < 256) (bytes s).
Proof. induction s; simpl; constructor; auto using byte_of_range. Qed.

Lemma all_bytes_spec test s :
  all_bytes test s = true ↔ Forall (λ b, test b = true) (bytes s).
Proof.
  induction s as [|c s IH]; simpl; [by rewrite Forall_nil|].
  by rewrite andb_true_iff, Forall_cons, IH.
Qed.

Lemma append_cons c s t : String c s +:+ t = String c (s +:+ t).
Proof. reflexivity. Qed.

Lemma append_nil s : "" +:+ s = s.
Proof. reflexivity. Qed.

Lemma append_assoc (s t u : string) : (s +:+ t) +:+ u = s +:+ (t +:+ u).
Proof. induction s; [done|]. rewrite !append_cons. congruence. Qed.

Lemma append_nil_r (s : string) : s +:+ "" = s.
Proof. induction s; [done|]. rewrite append_cons. congruence. Qed.

Lemma bytes_app s t : bytes (s +:+ t) = bytes s ++ bytes t.
Proof. induction s; [done|]. rewrite append_cons. simpl. congruence. Qed.

Lemma slen_nonneg s : 0 ≤ slen s.
Proof. unfold slen. lia. Qed.

Lemma slen_app s t : slen (s +:+ t) = slen s + slen t.
Proof. unfold slen. induction s; [done|]. rewrite append_cons. simpl in *. lia. Qed.

(** * [strings] on single bytes *)

Definition contains_byte (b : Z) (s : string) : bool :=
  negb (all_bytes (λ x, negb (x =? b)) s).

(** [strings.Split(s, sep)] for a one-byte separator. *)
Fixpoint str_split (sep : ascii) (s : string) : list string :=
  match s with
  | EmptyString => [EmptyString]
  | String c s' =>
      if Ascii.eqb c sep then EmptyString :: str_split sep s'
      else match str_split sep s' with
           | [] => [String c EmptyString]
           | w :: ws => String c w :: ws
           end
  end.

(** [strings.Cut(s, sep)] for a one-byte separator; [strings.SplitN(s, sep, 2)]
    has two parts exactly when the separator is found. *)
Fixpoint str_cut (sep : ascii) (s : string) : option (string * string) :=
  match s with
  | EmptyString => None
  | String c s' =>
      if Ascii.eqb c sep then Some (EmptyString, s')
      else match str_cut sep s' with
           | Some (a, b) => Some (String c a, b)
           | None => None
           end
  end.

(** [strings.HasPrefix]. *)
Definition has_prefix (s p : string) : bool := String.prefix p s.

(** [strings.HasSuffix] and the first and last index of a byte. *)
Fixpoint index_byte (c : ascii) (s : string) : option nat :=
  match s with
  | EmptyString => None
  | String d s' => if Ascii.eqb d c then Some 0%nat else S <$> index_byte c s'
  end.

Fixpoint last_index_byte (c : ascii) (s : string) : option nat :=
  match s with
  | EmptyString => None
  | String d s' =>
      match last_index_byte c s' with
      | Some i => Some (S i)
      | None => if Ascii.eqb d c then Some 0%nat else None
      end
  end.

(** [s[i:j]]. *)
Definition slice (i j : nat) (s : string) : string := String.substring i (j - i) s.

(** [strings.Join]. *)
Definition str_join (sep : string) (l : list string) : string := String.concat sep l.

Lemma str_cut_spec sep s a b :
  str_cut sep s = Some (a, b) → s = a +:+ String sep b ∧ index_byte sep a = None.
Proof.
  revert a b. induction s as [|c s IH]; intros a b; simpl; [done|].
  destruct (Ascii.eqb_spec c sep) as [->|Hne]; [naive_solver|].
  destruct (str_cut sep s) as [[a' b']|]; [|done]. intros [= <- <-].
  destruct (IH a' b') as [-> Hidx]; [done|]. split; [by rewrite append_cons|]. simpl.
  destruct (Ascii.eqb_spec c sep); [done|]. by rewrite Hidx.
Qed.

(** Joining and splitting at a byte that no part holds. *)
Lemma str_split_nosep sep w : Forall (λ b, b ≠ byte_of sep) (bytes w) → str_split sep w = [w].
Proof.
  induction w as [|c w IH]; intros Hw; [done|]. cbn [bytes] in Hw. apply Forall_cons in Hw as [Hc Hw].
  simpl. destruct (Ascii.eqb_spec c sep) as [->|]; [done|]. by rewrite (IH Hw).
Qed.

Lemma str_split_app sep w rest :
  Forall (λ b, b ≠ byte_of sep) (bytes w) → str_split sep (w +:+ String sep rest) = w :: str_split sep rest.
Proof.
  induction w as [|c w IH]; intros Hw.
  - rewrite append_nil. simpl. by rewrite Ascii.eqb_refl.
  - cbn [bytes] in Hw. apply Forall_cons in Hw as [Hc Hw]. rewrite append_cons. simpl.
    destruct (Ascii.eqb_spec c sep) as [->|]; [done|]. by rewrite (IH Hw).
Qed.

Lemma split_join sep l :
  l ≠ [] → Forall (λ w, Forall (λ b, b ≠ byte_of sep) (bytes w)) l →
  str_split sep (str_join (String sep EmptyString) l) = l.
Proof.
  induction l as [|w [|w' l] IH]; intros Hne Hl; [done| |].
  - apply Forall_cons in Hl as [Hw _]. simpl. by apply str_split_nosep.
  - apply Forall_cons in Hl as [Hw Hl].
    change (str_join (String sep EmptyString) (w :: w' :: l))
      with (w +:+ String sep EmptyString +:+ str_join (String sep EmptyString) (w' :: l)).
    rewrite append_cons, append_nil, str_split_app by done. by rewrite IH.
Qed.

(** ** The order of strings *)

(** [slices.Sort] of strings, bytewise. *)
Definition string_le (a b : string) : Prop := String.leb a b = true.
#[global] Instance string_le_dec a b : Decision (string_le a b).
Proof. unfold string_le. apply _. Defined.

Lemma ascii_compare_N a b : Ascii.compare a b = (N_of_ascii a ?= N_of_ascii b)%N.
Proof. reflexivity. Qed.

Lemma string_le_trans a b c : string_le a b → string_le b c → string_le a c.
Proof.
  unfold string_le, String.leb. revert b c.
  induction a as [|x a IH]; intros [|y b] [|z c]; simpl; try done.
  rewrite !ascii_compare_N.
  destruct (N.compare_spec (N_of_ascii x) (N_of_ascii y)) as [Hxy|Hxy|Hxy],
    (N.compare_spec (N_of_ascii y) (N_of_ascii z)) as [Hyz|Hyz|Hyz],
    (N.compare_spec (N_of_ascii x) (N_of_ascii z)) as [Hxz|Hxz|Hxz]; try done; try lia.
  apply IH.
Qed.

#[global] Instance string_le_trans' : Transitive string_le.
Proof. intros a b c. apply string_le_trans. Qed.
#[global] Instance string_le_total : Total string_le.
Proof. intros a b. apply String.leb_total. Qed.
#[global] Instance string_le_antisymm : AntiSymm (=) string_le.
Proof. intros a b. apply String.leb_antisym. Qed.

(** * UTF-8 and runes *)

Definition rune_error : Z := 65533.

Definition cont (b : Z) : bool := (128 <=? b) && (b <=? 191).

(** Acceptable second bytes of a three- and a four-byte sequence. *)
Definition second3 (b0 b1 : Z) : bool :=
  if b0 =? 224 then (160 <=? b1) && (b1 <=? 191)
  else if b0 =? 237 then (128 <=? b1) && (b1 <=? 159)
  else cont b1.

Definition second4 (b0 b1 : Z) : bool :=
  if b0 =? 240 then (144 <=? b1) && (b1 <=? 191)
  else if b0 =? 244 then (128 <=? b1) && (b1 <=? 143)
  else cont b1.

Definition lead2 (b : Z) : bool := (194 <=? b) && (b <=? 223).
Definition lead3 (b : Z) : bool := (224 <=? b) && (b <=? 239).
Definition lead4 (b : Z) : bool := (240 <=? b) && (b <=? 244).

(** A rune of a string with the bytes it was read from: [range s] yields the
    runes; an invalid byte is [rune_error] read from one byte. *)
Record rune := Rune { r_val : Z; r_raw : string }.

Definition rune_valid (r : rune) : bool :=
  negb ((r_val r =? rune_error) && (slen (r_raw r) =? 1)).

Fixpoint runes (s : string) : list rune :=
  match s with
  | EmptyString => []
  | String c0 s1 =>
      let b0 := byte_of c0 in
      if b0 <? 128 then Rune b0 (String c0 EmptyString) :: runes s1
      else match s1 with
      | EmptyString => Rune rune_error (String c0 EmptyString) :: runes s1
      | String c1 s2 =>
          let b1 := byte_of c1 in
          if lead2 b0 && cont b1 then
            Rune ((b0 - 192) * 64 + (b1 - 128)) (String c0 (String c1 EmptyString)) :: runes s2
          else match s2 with
          | EmptyString => Rune rune_error (String c0 EmptyString) :: runes s1
          | String c2 s3 =>
              let b2 := byte_of c2 in
              if lead3 b0 && second3 b0 b1 && cont b2 then
                Rune ((b0 - 224) * 4096 + (b1 - 128) * 64 + (b2 - 128))
                     (String c0 (String c1 (String c2 EmptyString))) :: runes s3
              else match s3 with
              | EmptyString => Rune rune_error (String c0 EmptyString) :: runes s1
              | String c3 s4 =>
                  let b3 := byte_of c3 in
                  if lead4 b0 && second4 b0 b1 && cont b2 && cont b3 then
                    Rune ((b0 - 240) * 262144 + (b1 - 128) * 4096 + (b2 - 128) * 64 + (b3 - 128))
                         (String c0 (String c1 (String c2 (String c3 EmptyString)))) :: runes s4
                  else Rune rune_error (String c0 EmptyString) :: runes s1
              end
          end
      end
  end.

Definition unrunes (l : list rune) : string :=
  fold_right (λ r acc, r_raw r +:+ acc) EmptyString l.

(** [utf8.AppendRune]. *)
Definition encode_rune (r : Z) : string :=
  if r <? 128 then of_bytes [r]
  else if r <? 2048 then of_bytes [192 + r / 64; 128 + r mod 64]
  else if (55296 <=? r) && (r <=? 57343) then of_bytes [239; 191; 189]
  else if r <? 65536 then of_bytes [224 + r / 4096; 128 + r / 64 mod 64; 128 + r mod 64]
  else of_bytes [240 + r / 262144; 128 + r / 4096 mod 64; 128 + r / 64 mod 64; 128 + r mod 64].

(** Every invalid byte replaced by U+FFFD. *)
Definition replace_invalid (s : string) : string :=
  unrunes ((λ r, if rune_valid r then r else Rune rune_error (encode_rune rune_error)) <$> runes s).

(** [unicode.IsSpace] and [unicode.IsControl]. *)
Definition is_space (r : Z) : bool :=
  ((9 <=? r) && (r <=? 13)) || (r =? 32) || (r =? 133) || (r =? 160) ||
  (r =? 5760) || ((8192 <=? r) && (r <=? 8202)) || (r =? 8232) || (r =? 8233) ||
  (r =? 8239) || (r =? 8287) || (r =? 12288).

Definition is_control (r : Z) : bool :=
  ((0 <=? r) && (r <? 32)) || ((127 <=? r) && (r <? 160)).

Fixpoint drop_while {A} (p : A → bool) (l : list A) : list A :=
  match l with
  | [] => []
  | x :: l' => if p x then drop_while p l' else l
  end.

(** [strings.TrimSpace]. *)
Definition trim_runes (l : list rune) : list rune :=
  let sp r := is_space (r_val r) in
  reverse (drop_while sp (reverse (drop_while sp l))).

Definition trim_space (s : string) : string := unrunes (trim_runes (runes s)).

(** [strings.Fields]: the maximal runs of non-space runes. [cur] holds the
    field being read. *)
Fixpoint fields_runes (l : list rune) (cur : string) : list string :=
  match l with
  | [] => if String.eqb cur "" then [] else [cur]
  | r :: l' =>
      if is_space (r_val r) then
        (if String.eqb cur "" then [] else [cur]) ++ fields_runes l' ""
      else fields_runes l' (cur +:+ r_raw r)
  end.

Definition fields (s : string) : list string := fields_runes (runes s) "".

(** The runes of a string are its bytes, cut. *)
Lemma unrunes_cons r l : unrunes (r :: l) = r_raw r +:+ unrunes l.
Proof. reflexivity. Qed.

Lemma unrunes_runes s : unrunes (runes s) = s.
Proof.
  assert (∀ n s, (String.length s ≤ n)%nat → unrunes (runes s) = s) as H; [|eauto].
  clear s. intros n. induction n as [|n IH]; intros [|c0 s1] Hs; simpl in Hs; try done; [lia|].
  cbn [runes]. cbv zeta.
  assert (unrunes (Rune rune_error (String c0 "") :: runes s1) = String c0 s1) as Hinv.
  { rewrite unrunes_cons, IH by lia. done. }
  repeat (case_match; try done; simpl in Hs);
    rewrite unrunes_cons, IH by (simpl; lia); done.
Qed.

Lemma drop_while_suffix {A} p (l : list A) : ∃ k, l = k ++ drop_while p l.
Proof.
  induction l as [|x l [k IH]]; simpl; [by exists []|].
  destruct (p x); [exists (x :: k); simpl; congruence | by exists []].
Qed.

Lemma unrunes_app k l : unrunes (k ++ l) = unrunes k +:+ unrunes l.
Proof.
  induction k as [|r k IH]; simpl; [done|]. by rewrite IH, append_assoc.
Qed.

Lemma trim_runes_split l : ∃ k k', l = k ++ trim_runes l ++ k'.
Proof.
  unfold trim_runes. set (p := λ r : rune, is_space (r_val r)).
  destruct (drop_while_suffix p l) as [k Hk].
  destruct (drop_while_suffix p (reverse (drop_while p l))) as [k' Hk'].
  exists k, (reverse k'). rewrite <-reverse_app, <-Hk', reverse_involutive. done.
Qed.

Lemma trim_space_length s : slen (trim_space s) ≤ slen s.
Proof.
  unfold trim_space. destruct (trim_runes_split (runes s)) as (k & k' & Hk).
  assert (slen s = slen (unrunes k) + (slen (unrunes (trim_runes (runes s)))
                                       + slen (unrunes k'))) as ->.
  { by rewrite <-!slen_app, <-!unrunes_app, <-Hk, unrunes_runes. }
  pose proof (slen_nonneg (unrunes k)). pose proof (slen_nonneg (unrunes k')). lia.
Qed.

(** No field is empty. *)
Lemma fields_runes_nonempty l cur : Forall (λ f, f ≠ "") (fields_runes l cur).
Proof.
  revert cur. induction l as [|r l IH]; intros cur; simpl.
  - case_match eqn:E; repeat constructor. by apply String.eqb_neq in E.
  - destruct (is_space (r_val r)); [|apply IH]. apply Forall_app. split; [|apply IH].
    case_match eqn:E; repeat constructor. by apply String.eqb_neq in E.
Qed.

Lemma fields_nonempty s : Forall (λ f, f ≠ "") (fields s).
Proof. apply fields_runes_nonempty. Qed.

(** * [strconv] *)

Definition digit_val (c : ascii) : option Z :=
  let b := byte_of c in
  if (48 <=? b) && (b <=? 57) then Some (b - 48) else None.

Fixpoint digits_val (acc : Z) (s : string) : option Z :=
  match s with
  | EmptyString => Some acc
  | String c s' =>
      match digit_val c with
      | Some d => digits_val (acc * 10 + d) s'
      | None => None
      end
  end.

(** [strconv.Atoi]: the value, and whether an error is returned. A syntax
    error comes with 0, a range error with the nearest [int]. *)
Definition atoi (s : string) : Z * bool :=
  let '(neg, ds) :=
    match s with
    | String c s' =>
        if Ascii.eqb c "-" then (true, s')
        else if Ascii.eqb c "+" then (false, s') else (false, s)
    | EmptyString => (false, s)
    end in
  match ds with
  | EmptyString => (0, true)
  | _ => match digits_val 0 ds with
         | None => (0, true)
         | Some n => let v := if neg : bool then - n else n in
                     (sat64 v, negb (bool_decide (in_int64 v)))
         end
  end.

Lemma atoi_range s : in_int64 (atoi s).1.
Proof.
  unfold atoi. repeat case_match; simplify_eq/=; try int64; apply sat64_range.
Qed.

(** [strconv.Itoa] and [fmt] %d: decimal digits, most significant first. [fuel]
    bounds the number of digits; 20 are enough for 64 bits. *)
Fixpoint digits_of (fuel : nat) (n : Z) (acc : string) : string :=
  match fuel with
  | O => acc
  | S fuel' =>
      let acc' := String (of_byte (48 + n mod 10)) acc in
      if n / 10 =? 0 then acc' else digits_of fuel' (n / 10) acc'
  end.

Definition itoa (z : Z) : string :=
  if z <? 0 then String "-" (digits_of 20 (- z) "") else digits_of 20 z "".

(** * [encoding/base64]: RawURLEncoding *)

Definition b64_val (c : ascii) : option Z :=
  let b := byte_of c in
  if (65 <=? b) && (b <=? 90) then Some (b - 65)
  else if (97 <=? b) && (b <=? 122) then Some (b - 71)
  else if (48 <=? b) && (b <=? 57) then Some (b + 4)
  else if b =? 45 then Some 62
  else if b =? 95 then Some 63
  else None.

Definition b64_char (v : Z) : ascii :=
  of_byte (if v <? 26 then v + 65 else if v <? 52 then v + 71
           else if v <? 62 then v - 4 else if v =? 62 then 45 else 95).

(** The decoder skips CR and LF, refuses any other byte outside the alphabet. *)
Fixpoint b64_vals (s : string) : option (list Z) :=
  match s with
  | EmptyString => Some []
  | String c s' =>
      if (byte_of c =? 10) || (byte_of c =? 13) then b64_vals s'
      else match b64_val c, b64_vals s' with
           | Some v, Some vs => Some (v :: vs)
           | _, _ => None
           end
  end.

Fixpoint b64_group (vs : list Z) : option (list Z) :=
  match vs with
  | [] => Some []
  | [_] => None
  | [a; b] => Some [a * 4 + b / 16]
  | [a; b; c] => Some [a * 4 + b / 16; (b mod 16) * 16 + c / 4]
  | a :: b :: c :: d :: vs' =>
      match b64_group vs' with
      | Some l => Some (a * 4 + b / 16 :: (b mod 16) * 16 + c / 4 :: (c mod 4) * 64 + d :: l)
      | None => None
      end
  end.

Definition b64_decode_bytes (s : string) : option (list Z) := b64_vals s ≫= b64_group.
Definition b64_decode (s : string) : option string := of_bytes <$> b64_decode_bytes s.

Fixpoint b64_encode_bytes (l : list Z) : list Z :=
  match l with
  | [] => []
  | [a] => [a / 4; (a mod 4) * 16]
  | [a; b] => [a / 4; (a mod 4) * 16 + b / 16; (b mod 16) * 4]
  | a :: b :: c :: l' =>
      a / 4 :: (a mod 4) * 16 + b / 16 :: (b mod 16) * 4 + c / 64 :: c mod 64
        :: b64_encode_bytes l'
  end.

Definition b64_encode (s : string) : string :=
  fold_right (λ v acc, String (b64_char v) acc) EmptyString (b64_encode_bytes (bytes s)).

Example b64_encode_ex : b64_encode "light w" = "bGlnaHQgdw".
Proof. reflexivity. Qed.
Example b64_decode_ex : b64_decode "bGlnaHQgdw" = Some "light w".
Proof. reflexivity. Qed.
Example trim_ex : trim_space "  a b " = "a b" ∧ fields " a  b c" = ["a"; "b"; "c"].
Proof. vm_compute. done. Qed.
Example atoi_ex : atoi "-12" = (-12, false) ∧ atoi "x" = (0, true).
Proof. vm_compute. done. Qed.
Example itoa_ex : itoa (-120) = "-120" ∧ itoa 0 = "0".
Proof. vm_compute. done. Qed.
