(* ===== verification/GoUrl.v ===== *)
(** What the code uses of [net/url]: percent-encoding of query parts and path
    segments, [url.Values] with its encoding, and the parsing of a query; with
    the proofs that a form is read back as it was written and that an escaped
    segment stays one segment. *)

From S2P Require Import Prelude GoText.

(** * [url.ParseQuery] *)

Definition unhex (c : ascii) : option Z :=
  let b := byte_of c in
  if (48 <=? b) && (b <=? 57) then Some (b - 48)
  else if (97 <=? b) && (b <=? 102) then Some (b - 87)
  else if (65 <=? b) && (b <=? 70) then Some (b - 55)
  else None.

(** [url.QueryUnescape]. *)
Fixpoint QueryUnescape (s : string) : option string :=
  match s with
  | EmptyString => Some EmptyString
  | String c s' =>
      if byte_of c =? 37 then
        match s' with
        | String h (String l s'') =>
            match unhex h, unhex l, QueryUnescape s'' with
            | Some a, Some b, Some t => Some (String (of_byte (a * 16 + b)) t)
            | _, _, _ => None
            end
        | _ => None
        end
      else
        match QueryUnescape s' with
        | Some t => Some (String (if byte_of c =? 43 then of_byte 32 else c) t)
        | None => None
        end
  end.

(** One pair of a query; one that is malformed is skipped. *)
Definition query_pair (part : string) : option (string * string) :=
  if contains_byte 59 part then None
  else if String.eqb part "" then None
  else
    let '(k, v) := match str_cut "=" part with Some kv => kv | None => (part, "") end in
    match QueryUnescape k, QueryUnescape v with
    | Some k, Some v => Some (k, v)
    | _, _ => None
    end.

(** [r.URL.Query().Get(key)]: the first value of the key. *)
Definition query_Get (rawQuery key : string) : string :=
  match list_find (λ kv : string * string, kv.1 = key) (omap query_pair (str_split "&" rawQuery)) with
  | Some (_, kv) => kv.2
  | None => ""
  end.

(** * Escaping *)

Definition url_alnum (b : Z) : bool :=
  ((48 <=? b) && (b <=? 57)) || ((65 <=? b) && (b <=? 90)) || ((97 <=? b) && (b <=? 122)).

(** RFC 3986 unreserved characters. *)
Definition url_unreserved (b : Z) : bool := url_alnum b || contains [45; 46; 95; 126] b.

(** What a path segment keeps besides: dollar, ampersand, plus, colon, equals
    and at signs. *)
Definition segment_keeps (b : Z) : bool := url_unreserved b || contains [36; 38; 43; 58; 61; 64] b.

Definition upper_hex (v : Z) : ascii := of_byte (if v <? 10 then 48 + v else 55 + v).

Definition percent (b : Z) : string :=
  String "%" (String (upper_hex (b / 16)) (String (upper_hex (b mod 16)) EmptyString)).

(** [url.QueryEscape]. *)
Fixpoint QueryEscape (s : string) : string :=
  match s with
  | EmptyString => EmptyString
  | String c s' =>
      let b := byte_of c in
      if url_unreserved b then String c (QueryEscape s')
      else if b =? 32 then String "+" (QueryEscape s')
      else percent b +:+ QueryEscape s'
  end.

(** [url.PathEscape]. *)
Fixpoint PathEscape (s : string) : string :=
  match s with
  | EmptyString => EmptyString
  | String c s' =>
      let b := byte_of c in
      if segment_keeps b then String c (PathEscape s') else percent b +:+ PathEscape s'
  end.

(** [url.PathUnescape]: a plus sign is kept. *)
Fixpoint PathUnescape (s : string) : option string :=
  match s with
  | EmptyString => Some EmptyString
  | String c s' =>
      if byte_of c =? 37 then
        match s' with
        | String h (String l s'') =>
            match unhex h, unhex l, PathUnescape s'' with
            | Some a, Some b, Some t => Some (String (of_byte (a * 16 + b)) t)
            | _, _, _ => None
            end
        | _ => None
        end
      else String c <$> PathUnescape s'
  end.

(** * [url.Values] *)

Abbreviation Values := (gmap string (list string)) (only parsing).

(** [Values.Set], and a literal with one value per key. *)
Definition values_Set (v : Values) (k x : string) : Values := <[k := [x]]> v.
Definition values_of (l : list (string * string)) : Values := list_to_map ((λ kv, (kv.1, [kv.2])) <$> l).

(** The pairs of a form, keys in order. *)
Definition values_pairs (v : Values) : list (string * string) :=
  k ← merge_sort string_le (elements (dom v)); pair k <$> default [] (v !! k).

(** [Values.Encode]. *)
Definition values_Encode (v : Values) : string :=
  str_join "&" ((λ kv, QueryEscape kv.1 +:+ "=" +:+ QueryEscape kv.2) <$> values_pairs v).

(** [Values.Add]. *)
Definition values_Add (v : Values) (kv : string * string) : Values :=
  <[kv.1 := default [] (v !! kv.1) ++ [kv.2]]> v.

(** [url.ParseQuery], malformed pairs skipped. *)
Definition ParseQuery (query : string) : Values :=
  fold_left values_Add (omap query_pair (str_split "&" query)) ∅.

Example QueryEscape_ex : QueryEscape "a b&c=d/é" = "a+b%26c%3Dd%2F%C3%A9".
Proof. reflexivity. Qed.
Example PathEscape_ex : PathEscape "42/revoke-tokens?x=1;y" = "42%2Frevoke-tokens%3Fx=1%3By".
Proof. reflexivity. Qed.
Example values_Encode_ex :
  values_Encode (values_Set (values_of [("token", "t&x"); ("client_id", "c")]) "client_secret" "s") =
  "client_id=c&client_secret=s&token=t%26x".
Proof. vm_compute. reflexivity. Qed.

(** * Lemmas: one byte at a time *)

(** A fact about bytes, checked on each of them. *)
Lemma all_256 (p : Z → bool) :
  forallb p (Z.of_nat <$> seq 0 256) = true → ∀ b, 0 ≤ b < 256 → p b = true.
Proof.
  intros Hp b Hb. rewrite forallb_forall in Hp. apply Hp, list_elem_of_In, list_elem_of_fmap.
  exists (Z.to_nat b). split; [lia|]. apply elem_of_seq. lia.
Qed.

Lemma unhex_percent b : 0 ≤ b < 256 →
  unhex (upper_hex (b / 16)) = Some (b / 16) ∧ unhex (upper_hex (b mod 16)) = Some (b mod 16).
Proof.
  intros Hb.
  apply (bool_decide_eq_true (_ ∧ _)).
  refine (all_256 (λ b, bool_decide (unhex (upper_hex (b / 16)) = Some (b / 16) ∧
    unhex (upper_hex (b mod 16)) = Some (b mod 16))) _ b Hb). vm_compute. reflexivity.
Qed.

Lemma byte_of_percent_sum c : of_byte (byte_of c / 16 * 16 + byte_of c mod 16) = c.
Proof. rewrite Z.mul_comm, <- Z.div_mod by lia. apply of_byte_of. Qed.

Lemma QueryUnescape_percent b s : 0 ≤ b < 256 →
  QueryUnescape (percent b +:+ s) = String (of_byte (b / 16 * 16 + b mod 16)) <$> QueryUnescape s.
Proof.
  intros Hb. unfold percent. rewrite !append_cons, append_nil. destruct (unhex_percent b Hb) as [Hh Hl].
  simpl. rewrite Hh, Hl. by destruct (QueryUnescape s).
Qed.

Lemma PathUnescape_percent b s : 0 ≤ b < 256 →
  PathUnescape (percent b +:+ s) = String (of_byte (b / 16 * 16 + b mod 16)) <$> PathUnescape s.
Proof.
  intros Hb. unfold percent. rewrite !append_cons, append_nil. destruct (unhex_percent b Hb) as [Hh Hl].
  simpl. rewrite Hh, Hl. by destruct (PathUnescape s).
Qed.

Lemma unreserved_spec b : url_unreserved b = true → b ≠ 37 ∧ b ≠ 43 ∧ b ≠ 38 ∧ b ≠ 59 ∧ b ≠ 61.
Proof.
  intros H. split_and!; intros ->; discriminate H.
Qed.

(** Unescaping undoes escaping. *)
Lemma QueryUnescape_Escape s : QueryUnescape (QueryEscape s) = Some s.
Proof.
  induction s as [|c s IH]; [done|]. cbn [QueryEscape].
  destruct (url_unreserved (byte_of c)) eqn:Hu.
  - apply unreserved_spec in Hu as (H37 & H43 & _). cbn [QueryUnescape].
    rewrite (proj2 (Z.eqb_neq _ _) H37), (proj2 (Z.eqb_neq _ _) H43), IH. done.
  - destruct (Z.eqb_spec (byte_of c) 32) as [H32|].
    + cbn. rewrite IH. f_equal. f_equal. by apply byte_of_inj.
    + rewrite QueryUnescape_percent by apply byte_of_range. rewrite IH. simpl.
      by rewrite byte_of_percent_sum.
Qed.

Lemma PathUnescape_Escape s : PathUnescape (PathEscape s) = Some s.
Proof.
  induction s as [|c s IH]; [done|]. cbn [PathEscape].
  destruct (segment_keeps (byte_of c)) eqn:Hu.
  - cbn [PathUnescape]. destruct (Z.eqb_spec (byte_of c) 37) as [H37|]; [by rewrite H37 in Hu|].
    by rewrite IH.
  - rewrite PathUnescape_percent by apply byte_of_range. rewrite IH. simpl. by rewrite byte_of_percent_sum.
Qed.

Lemma percent_bytes b : 0 ≤ b < 256 → Forall (λ x, url_alnum x = true ∨ x = 37) (bytes (percent b)).
Proof.
  intros Hb.
  pose proof (all_256 (λ b, forallb (λ x, url_alnum x || (x =? 37)) (bytes (percent b)))
                ltac:(vm_compute; reflexivity) b Hb) as H. rewrite forallb_forall in H.
  apply Forall_forall. intros x Hx%list_elem_of_In. specialize (H x Hx).
  apply orb_true_iff in H as [?|?%Z.eqb_eq]; auto.
Qed.

(** The bytes an escaped text is made of. *)
Lemma QueryEscape_bytes s : Forall (λ b, url_unreserved b = true ∨ b = 37 ∨ b = 43) (bytes (QueryEscape s)).
Proof.
  induction s as [|c s IH]; [constructor|]. cbn [QueryEscape].
  destruct (url_unreserved (byte_of c)) eqn:Hu; [constructor; auto|].
  destruct (_ =? 32); [constructor; auto|]. rewrite bytes_app. apply Forall_app. split; [|done].
  eapply Forall_impl; [apply percent_bytes, byte_of_range|]. intros b [H|H]; [|auto].
  left. unfold url_unreserved. by rewrite H.
Qed.

Lemma PathEscape_bytes s : Forall (λ b, segment_keeps b = true ∨ b = 37) (bytes (PathEscape s)).
Proof.
  induction s as [|c s IH]; [constructor|]. cbn [PathEscape].
  destruct (segment_keeps (byte_of c)) eqn:Hu; [constructor; auto|].
  rewrite bytes_app. apply Forall_app. split; [|done].
  eapply Forall_impl; [apply percent_bytes, byte_of_range|]. intros b [H|H]; [|auto].
  left. unfold segment_keeps, url_unreserved. by rewrite H.
Qed.

(** Nothing in an escaped segment can end it: no slash, question mark, hash,
    control byte or space. *)
Lemma PathEscape_clean s :
  Forall (λ b, b ≠ 47 ∧ b ≠ 63 ∧ b ≠ 35 ∧ 33 ≤ b < 127) (bytes (PathEscape s)).
Proof.
  eapply Forall_impl; [apply Forall_and; split; [apply PathEscape_bytes|apply bytes_range]|].
  intros b [[Hb| ->] Hr]; [|lia]. split_and!; try (intros ->; discriminate Hb).
  - destruct (Z.le_gt_cases 33 b); [done|].
    pose proof (all_256 (λ b, (33 <=? b) || negb (segment_keeps b)) ltac:(vm_compute; reflexivity) b Hr) as Hp.
    simpl in Hp. rewrite Hb, orb_false_r in Hp. by apply Z.leb_le in Hp.
  - pose proof (all_256 (λ b, (b <? 127) || negb (segment_keeps b)) ltac:(vm_compute; reflexivity) b Hr) as Hp.
    simpl in Hp. rewrite Hb, orb_false_r in Hp. by apply Z.ltb_lt in Hp.
Qed.

Lemma PathEscape_inj s t : PathEscape s = PathEscape t → s = t.
Proof.
  intros H. apply (f_equal PathUnescape) in H. rewrite !PathUnescape_Escape in H. congruence.
Qed.

(** * A form is read back as it was written *)

(** The values listed for a key. *)
Definition values_for (k : string) (l : list (string * string)) : list string :=
  snd <$> filter (λ kv, kv.1 = k) l.

Lemma values_for_cons k kv l :
  values_for k (kv :: l) = if decide (kv.1 = k) then kv.2 :: values_for k l else values_for k l.
Proof. unfold values_for. rewrite filter_cons. by case_decide. Qed.

Lemma values_for_app k l l' : values_for k (l ++ l') = values_for k l ++ values_for k l'.
Proof. unfold values_for. by rewrite filter_app, fmap_app. Qed.

Lemma values_for_group k k' l : values_for k (pair k' <$> l) = if decide (k' = k) then l else [].
Proof.
  induction l as [|x l IH]; [by case_decide|]. rewrite fmap_cons, values_for_cons, IH. simpl. by case_decide.
Qed.

Lemma fold_add_lookup l (m : Values) k :
  fold_left values_Add l m !! k =
  match values_for k l with [] => m !! k | xs => Some (default [] (m !! k) ++ xs) end.
Proof.
  revert m. induction l as [|kv l IH]; intros m; [done|]. cbn [fold_left].
  rewrite IH, values_for_cons. unfold values_Add. case_decide as Hk.
  - subst k. rewrite lookup_insert_eq. simpl. destruct (values_for kv.1 l); [done|].
    by rewrite <- app_assoc.
  - by rewrite lookup_insert_ne.
Qed.

Lemma values_pairs_for v k : values_for k (values_pairs v) = default [] (v !! k).
Proof.
  unfold values_pairs. set (ks := merge_sort string_le (elements (dom v))).
  assert (ks ≡ₚ elements (dom v)) as Hp by apply merge_sort_Permutation.
  assert (NoDup ks) as Hnd by (rewrite Hp; apply NoDup_elements).
  assert (k ∉ ks → v !! k = None) as Hk.
  { intros Hk. apply not_elem_of_dom. by rewrite <- elem_of_elements, <- Hp. }
  clear Hp. transitivity (if decide (k ∈ ks) then default [] (v !! k) else []).
  2:{ case_decide; [done|]. by rewrite Hk. }
  clear Hk. induction ks as [|k' ks IH]; [done|]. apply NoDup_cons in Hnd as [Hk' Hnd].
  cbn [mbind list_bind]. rewrite values_for_app, values_for_group, (IH Hnd).
  destruct (decide (k' = k)) as [->|Hne].
  - rewrite (decide_True (P := k ∈ k :: ks)) by set_solver. by rewrite decide_False, app_nil_r.
  - destruct (decide (k ∈ ks)); [by rewrite decide_True by set_solver|].
    by rewrite decide_False by set_solver.
Qed.

Lemma str_cut_first sep a b : Forall (λ x, x ≠ byte_of sep) (bytes a) → str_cut sep (a +:+ String sep b) = Some (a, b).
Proof.
  induction a as [|c a IH]; intros Ha.
  - rewrite append_nil. simpl. by rewrite Ascii.eqb_refl.
  - cbn [bytes] in Ha. apply Forall_cons in Ha as [Hc Ha]. rewrite append_cons. simpl.
    destruct (Ascii.eqb_spec c sep) as [->|]; [done|]. by rewrite (IH Ha).
Qed.

Definition pair_text (kv : string * string) : string := QueryEscape kv.1 +:+ "=" +:+ QueryEscape kv.2.

Lemma QueryEscape_avoids b s :
  b ≠ 37 → b ≠ 43 → url_unreserved b = false → Forall (λ x, x ≠ b) (bytes (QueryEscape s)).
Proof.
  intros H1 H2 Hu. eapply Forall_impl; [apply QueryEscape_bytes|]. intros x Hx ->. naive_solver congruence.
Qed.

Lemma pair_text_bytes b kv :
  b ≠ 37 → b ≠ 43 → b ≠ 61 → url_unreserved b = false → Forall (λ x, x ≠ b) (bytes (pair_text kv)).
Proof.
  intros H1 H2 H3 Hu. unfold pair_text. rewrite !bytes_app, !Forall_app.
  split_and!; [by apply QueryEscape_avoids| |by apply QueryEscape_avoids].
  constructor; [|constructor]. change (61 ≠ b). congruence.
Qed.

Lemma query_pair_text kv : query_pair (pair_text kv) = Some kv.
Proof.
  unfold query_pair.
  assert (contains_byte 59 (pair_text kv) = false) as ->.
  { unfold contains_byte. apply negb_false_iff, all_bytes_spec.
    eapply Forall_impl; [by apply (pair_text_bytes 59)|]. intros x Hx. by apply negb_true_iff, Z.eqb_neq. }
  assert (String.eqb (pair_text kv) "" = false) as ->.
  { apply String.eqb_neq. unfold pair_text. rewrite append_cons. by destruct (QueryEscape kv.1). }
  unfold pair_text. rewrite append_cons, append_nil, str_cut_first by (by apply QueryEscape_avoids).
  rewrite !QueryUnescape_Escape. by destruct kv.
Qed.

Lemma parse_pairs l : omap query_pair (str_split "&" (str_join "&" (pair_text <$> l))) = l.
Proof.
  destruct l as [|kv l]; [done|]. rewrite split_join; [|done|].
  - induction (kv :: l) as [|x l' IH]; [done|]. cbn [fmap list_fmap omap list_omap].
    rewrite query_pair_text. f_equal. exact IH.
  - apply Forall_fmap, Forall_true. intros x. by apply pair_text_bytes.
Qed.

(** Parsing an encoded form yields it, whatever bytes its keys and values
    hold. *)
Lemma ParseQuery_Encode (v : Values) : map_Forall (λ _ l, l ≠ []) v → ParseQuery (values_Encode v) = v.
Proof.
  intros Hv. unfold ParseQuery, values_Encode. change (λ kv, _) with pair_text. rewrite parse_pairs.
  apply map_eq. intros k. rewrite fold_add_lookup, values_pairs_for, lookup_empty.
  destruct (v !! k) as [[|x l]|] eqn:Hk; simpl; [|done|done].
  by apply Hv in Hk.
Qed.

Lemma values_Encode_inj (v w : Values) :
  map_Forall (λ _ l, l ≠ []) v → map_Forall (λ _ l, l ≠ []) w → values_Encode v = values_Encode w → v = w.
Proof. intros Hv Hw H. by rewrite <- (ParseQuery_Encode v Hv), H, ParseQuery_Encode. Qed.
