(* ===== verification/Utf8.v ===== *)
(** Facts about the UTF-8 decoding of [GoText]: encoding a scalar value and
    decoding it again, what the runes of a string are, and how decoding behaves
    on concatenations. *)

From S2P Require Import Prelude GoText.

(** A Unicode scalar value. *)
Definition scalar (v : Z) : Prop := 0 ≤ v < 55296 ∨ 57344 ≤ v < 1114112.

Lemma byte_of_of_byte b : 0 ≤ b < 256 → byte_of (of_byte b) = b.
Proof.
  intros Hb. unfold byte_of, of_byte. rewrite N_ascii_embedding by lia. lia.
Qed.

Ltac eval_tests :=
  repeat match goal with
         | |- context [?a <? ?b] =>
             first [rewrite (proj2 (Z.ltb_lt a b)) by lia | rewrite (proj2 (Z.ltb_ge a b)) by lia]
         | |- context [?a <=? ?b] =>
             first [rewrite (proj2 (Z.leb_le a b)) by lia | rewrite (proj2 (Z.leb_gt a b)) by lia]
         | |- context [?a =? ?b] =>
             first [rewrite (proj2 (Z.eqb_eq a b)) by lia | rewrite (proj2 (Z.eqb_neq a b)) by lia]
         end.

Lemma runes_encode v t : scalar v → runes (encode_rune v +:+ t) = Rune v (encode_rune v) :: runes t.
Proof.
  intros Hv. unfold encode_rune.
  pose proof (Z.div_mod v 64 ltac:(lia)). pose proof (Z.mod_pos_bound v 64 ltac:(lia)).
  pose proof (Z.div_mod (v / 64) 64 ltac:(lia)). pose proof (Z.mod_pos_bound (v / 64) 64 ltac:(lia)).
  pose proof (Z.div_mod (v / 4096) 64 ltac:(lia)). pose proof (Z.mod_pos_bound (v / 4096) 64 ltac:(lia)).
  assert (v / 64 / 64 = v / 4096) by (rewrite Z.div_div by lia; done).
  assert (v / 4096 / 64 = v / 262144) by (rewrite Z.div_div by lia; done).
  set (q1 := v / 64) in *. set (q2 := v / 4096) in *. set (q3 := v / 262144) in *.
  set (m0 := v mod 64) in *. set (m1 := q1 mod 64) in *. set (m2 := q2 mod 64) in *.
  clearbody q1 q2 q3 m0 m1 m2. unfold scalar in Hv.
  assert (v < 128 ∨ 128 ≤ v < 2048 ∨ 2048 ≤ v < 65536 ∨ 65536 ≤ v) as [Hr|[Hr|[Hr|Hr]]] by lia.
  - eval_tests. cbn [of_bytes]. rewrite !append_cons, append_nil. cbn [runes]. cbv zeta.
    rewrite byte_of_of_byte by lia. by eval_tests.
  - eval_tests. cbn [of_bytes]. rewrite !append_cons, append_nil. cbn [runes]. cbv zeta.
    unfold lead2, cont. rewrite !byte_of_of_byte by lia. eval_tests. simpl. f_equal. f_equal. lia.
  - assert ((55296 <=? v) && (v <=? 57343) = false) as Hs.
    { apply andb_false_iff. rewrite !Z.leb_gt. lia. }
    rewrite Hs. eval_tests. cbn [of_bytes]. rewrite !append_cons, append_nil. cbn [runes]. cbv zeta.
    unfold lead2, lead3, second3, cont. rewrite !byte_of_of_byte by lia.
    assert ((if 224 + q2 =? 224 then (160 <=? 128 + m1) && (128 + m1 <=? 191)
             else if 224 + q2 =? 237 then (128 <=? 128 + m1) && (128 + m1 <=? 159)
             else (128 <=? 128 + m1) && (128 + m1 <=? 191)) = true) as ->.
    { destruct (Z.eqb_spec (224 + q2) 224); [by eval_tests|].
      destruct (Z.eqb_spec (224 + q2) 237); by eval_tests. }
    eval_tests. simpl. f_equal. f_equal. lia.
  - assert ((55296 <=? v) && (v <=? 57343) = false) as Hs.
    { apply andb_false_iff. rewrite !Z.leb_gt. lia. }
    rewrite Hs. eval_tests. cbn [of_bytes]. rewrite !append_cons, append_nil. cbn [runes]. cbv zeta.
    unfold lead2, lead3, lead4, second4, cont. rewrite !byte_of_of_byte by lia.
    assert ((if 240 + q3 =? 240 then (144 <=? 128 + m2) && (128 + m2 <=? 191)
             else if 240 + q3 =? 244 then (128 <=? 128 + m2) && (128 + m2 <=? 143)
             else (128 <=? 128 + m2) && (128 + m2 <=? 191)) = true) as ->.
    { destruct (Z.eqb_spec (240 + q3) 240); [by eval_tests|].
      destruct (Z.eqb_spec (240 + q3) 244); by eval_tests. }
    eval_tests. simpl. f_equal. f_equal. lia.
Qed.

(** What a rune of a string is: a scalar value read from its encoding, or a byte
    that is not part of one. *)
Definition wf_rune (r : rune) : Prop :=
  scalar (r_val r) ∧ r_raw r = encode_rune (r_val r) ∨
  ∃ c, r = Rune rune_error (String c "") ∧ 128 ≤ byte_of c.

Lemma encode_rune2 c0 c1 :
  lead2 (byte_of c0) && cont (byte_of c1) = true →
  let v := (byte_of c0 - 192) * 64 + (byte_of c1 - 128) in
  scalar v ∧ String c0 (String c1 "") = encode_rune v.
Proof.
  intros H v. unfold lead2, cont in H. bool_to_prop.
  assert (v / 64 = byte_of c0 - 192 ∧ v mod 64 = byte_of c1 - 128) as [Hd Hm].
  { split; [symmetry; apply (Z.div_unique v 64 _ (byte_of c1 - 128)); lia|].
    symmetry. apply (Z.mod_unique v 64 (byte_of c0 - 192)); lia. }
  split; [unfold scalar; lia|]. unfold encode_rune.
  rewrite Hd, Hm. assert (128 ≤ v < 2048) by lia. eval_tests. cbn [of_bytes].
  replace (192 + (byte_of c0 - 192)) with (byte_of c0) by lia.
  replace (128 + (byte_of c1 - 128)) with (byte_of c1) by lia. by rewrite !of_byte_of.
Qed.

Lemma encode_rune3 c0 c1 c2 :
  lead3 (byte_of c0) && second3 (byte_of c0) (byte_of c1) && cont (byte_of c2) = true →
  let v := (byte_of c0 - 224) * 4096 + (byte_of c1 - 128) * 64 + (byte_of c2 - 128) in
  scalar v ∧ String c0 (String c1 (String c2 "")) = encode_rune v.
Proof.
  intros H v. unfold lead3, second3, cont in H. apply andb_true_iff in H as [H Hc2].
  apply andb_true_iff in H as [Hc0 Hc1]. bool_to_prop.
  assert (128 ≤ byte_of c1 ≤ 191 ∧ (byte_of c0 = 224 → 160 ≤ byte_of c1) ∧ (byte_of c0 = 237 → byte_of c1 ≤ 159))
    as (Hx1 & Hx2 & Hx3) by (repeat case_match; bool_to_prop; lia).
  assert (v / 64 = (byte_of c0 - 224) * 64 + (byte_of c1 - 128)) as Hd1.
  { symmetry. apply (Z.div_unique v 64 _ (byte_of c2 - 128)); lia. }
  assert (v mod 64 = byte_of c2 - 128) as Hm0.
  { symmetry. apply (Z.mod_unique v 64 ((byte_of c0 - 224) * 64 + (byte_of c1 - 128))); lia. }
  assert (v / 4096 = byte_of c0 - 224) as Hd2.
  { symmetry. apply (Z.div_unique v 4096 _ ((byte_of c1 - 128) * 64 + (byte_of c2 - 128))); lia. }
  assert ((v / 64) mod 64 = byte_of c1 - 128) as Hm1.
  { rewrite Hd1. symmetry. apply (Z.mod_unique _ 64 (byte_of c0 - 224)); lia. }
  assert (2048 ≤ v < 65536 ∧ (v < 55296 ∨ 57344 ≤ v)) as [Hv Hs] by lia.
  split; [unfold scalar; lia|]. unfold encode_rune.
  assert ((55296 <=? v) && (v <=? 57343) = false) as -> by (apply andb_false_iff; rewrite !Z.leb_gt; lia).
  rewrite Hm0, Hm1, Hd2. eval_tests. cbn [of_bytes].
  replace (224 + (byte_of c0 - 224)) with (byte_of c0) by lia.
  replace (128 + (byte_of c1 - 128)) with (byte_of c1) by lia.
  replace (128 + (byte_of c2 - 128)) with (byte_of c2) by lia. by rewrite !of_byte_of.
Qed.

Lemma encode_rune4 c0 c1 c2 c3 :
  lead4 (byte_of c0) && second4 (byte_of c0) (byte_of c1) && cont (byte_of c2) && cont (byte_of c3) = true →
  let v := (byte_of c0 - 240) * 262144 + (byte_of c1 - 128) * 4096 + (byte_of c2 - 128) * 64 + (byte_of c3 - 128) in
  scalar v ∧ String c0 (String c1 (String c2 (String c3 ""))) = encode_rune v.
Proof.
  intros H v. unfold lead4, second4, cont in H. apply andb_true_iff in H as [H Hc3].
  apply andb_true_iff in H as [H Hc2]. apply andb_true_iff in H as [Hc0 Hc1]. bool_to_prop.
  assert (128 ≤ byte_of c1 ≤ 191 ∧ (byte_of c0 = 240 → 144 ≤ byte_of c1) ∧ (byte_of c0 = 244 → byte_of c1 ≤ 143))
    as (Hx1 & Hx2 & Hx3) by (repeat case_match; bool_to_prop; lia).
  set (t1 := byte_of c0 - 240) in *. set (t2 := byte_of c1 - 128) in *.
  set (t3 := byte_of c2 - 128) in *. set (t4 := byte_of c3 - 128) in *.
  assert (v / 64 = t1 * 4096 + t2 * 64 + t3) as Hd1.
  { symmetry. apply (Z.div_unique v 64 _ t4); lia. }
  assert (v mod 64 = t4) as Hm0.
  { symmetry. apply (Z.mod_unique v 64 (t1 * 4096 + t2 * 64 + t3)); lia. }
  assert (v / 4096 = t1 * 64 + t2) as Hd2.
  { symmetry. apply (Z.div_unique v 4096 _ (t3 * 64 + t4)); lia. }
  assert (v / 262144 = t1) as Hd3.
  { symmetry. apply (Z.div_unique v 262144 _ (t2 * 4096 + t3 * 64 + t4)); lia. }
  assert ((v / 64) mod 64 = t3) as Hm1.
  { rewrite Hd1. symmetry. apply (Z.mod_unique _ 64 (t1 * 64 + t2)); lia. }
  assert ((v / 4096) mod 64 = t2) as Hm2.
  { rewrite Hd2. symmetry. apply (Z.mod_unique _ 64 t1); lia. }
  assert (65536 ≤ v < 1114112) as Hv by lia.
  split; [unfold scalar; lia|]. unfold encode_rune.
  assert ((55296 <=? v) && (v <=? 57343) = false) as -> by (apply andb_false_iff; rewrite !Z.leb_gt; lia).
  rewrite Hm0, Hm1, Hm2, Hd3. eval_tests. cbn [of_bytes].
  replace (240 + t1) with (byte_of c0) by lia. replace (128 + t2) with (byte_of c1) by lia.
  replace (128 + t3) with (byte_of c2) by lia. replace (128 + t4) with (byte_of c3) by lia.
  by rewrite !of_byte_of.
Qed.

(** Decoding, one rune at a time. *)
Lemma runes_step s :
  s ≠ "" → ∃ r s', s = r_raw r +:+ s' ∧ runes s = r :: runes s' ∧ wf_rune r.
Proof.
  destruct s as [|c0 s1]; [done|]. intros _. cbn [runes]. cbv zeta.
  destruct (Z.ltb_spec (byte_of c0) 128) as [Hc|Hc].
  { exists (Rune (byte_of c0) (String c0 "")), s1. split_and!; [done..|]. left. simpl.
    pose proof (byte_of_range c0). split; [unfold scalar; lia|]. unfold encode_rune. eval_tests.
    cbn [of_bytes]. by rewrite of_byte_of. }
  assert (∃ r s', String c0 s1 = r_raw r +:+ s' ∧
    Rune rune_error (String c0 "") :: runes s1 = r :: runes s' ∧ wf_rune r) as Hinv.
  { exists (Rune rune_error (String c0 "")), s1. split_and!; [done..|]. right. eauto. }
  destruct s1 as [|c1 s2]; [done|].
  destruct (lead2 _ && cont _) eqn:H2.
  { eexists (Rune _ _), s2. split_and!; [|reflexivity|left; by apply encode_rune2]. done. }
  destruct s2 as [|c2 s3]; [done|].
  destruct (lead3 _ && _ && _) eqn:H3.
  { eexists (Rune _ _), s3. split_and!; [|reflexivity|left; by apply encode_rune3]. done. }
  destruct s3 as [|c3 s4]; [done|].
  destruct (lead4 _ && _ && _ && _) eqn:H4; [|done].
  eexists (Rune _ _), s4. split_and!; [|reflexivity|left; by apply encode_rune4]. done.
Qed.

Lemma wf_rune_raw r : wf_rune r → r_raw r ≠ "".
Proof.
  intros [[_ ->]|(c & -> & _)]; [|done]. unfold encode_rune. by repeat case_match.
Qed.

Lemma runes_ind (P : string → Prop) :
  P "" →
  (∀ r s, wf_rune r → runes (r_raw r +:+ s) = r :: runes s → P s → P (r_raw r +:+ s)) →
  ∀ s, P s.
Proof.
  intros H0 HS s. remember (String.length s) as n eqn:Hn.
  assert (String.length s ≤ n)%nat as Hle by lia. clear Hn. revert s Hle.
  induction n as [|n IH]; intros s Hle; [destruct s; [done|simpl in Hle; lia]|].
  destruct (decide (s = "")) as [->|Hne]; [done|].
  destruct (runes_step s Hne) as (r & s' & -> & Hr & Hwf). apply HS; [done..|]. apply IH.
  pose proof (wf_rune_raw r Hwf). destruct (r_raw r) as [|c w]; [done|].
  rewrite append_cons in Hle. simpl in Hle.
  assert (slen (w +:+ s') = slen w + slen s') by apply slen_app. unfold slen in *. lia.
Qed.

Lemma runes_wf s : Forall wf_rune (runes s).
Proof. induction s as [|r s Hr -> IH] using runes_ind; by constructor. Qed.

(** A byte that is not part of an encoding stays so when the text after it is
    cut or when an ASCII byte is put behind it. *)
Lemma runes_invalid_cut c p q :
  128 ≤ byte_of c →
  runes (String c (p +:+ q)) = Rune rune_error (String c "") :: runes (p +:+ q) →
  runes (String c p) = Rune rune_error (String c "") :: runes p.
Proof.
  intros Hc. cbn [runes]. cbv zeta. rewrite (proj2 (Z.ltb_ge _ _) Hc).
  destruct p as [|c1 p]; [done|]. rewrite append_cons.
  destruct (lead2 _ && cont _); [done|].
  destruct p as [|c2 p]; [done|]. rewrite append_cons.
  destruct (lead3 _ && _ && _); [done|].
  destruct p as [|c3 p]; [done|]. rewrite append_cons.
  by destruct (lead4 _ && _ && _ && _).
Qed.

Lemma cont_ascii c : byte_of c < 128 → cont (byte_of c) = false.
Proof. intros H. unfold cont. by rewrite (proj2 (Z.leb_gt _ _) H). Qed.

Lemma second3_ascii b c : byte_of c < 128 → second3 b (byte_of c) = false.
Proof.
  intros H. unfold second3. rewrite (cont_ascii c H). destruct (b =? 224).
  - by rewrite (proj2 (Z.leb_gt 160 _)) by lia.
  - destruct (b =? 237); [|done]. by rewrite (proj2 (Z.leb_gt 128 _)) by lia.
Qed.

Lemma second4_ascii b c : byte_of c < 128 → second4 b (byte_of c) = false.
Proof.
  intros H. unfold second4. rewrite (cont_ascii c H). destruct (b =? 240).
  - by rewrite (proj2 (Z.leb_gt 144 _)) by lia.
  - destruct (b =? 244); [|done]. by rewrite (proj2 (Z.leb_gt 128 _)) by lia.
Qed.

Lemma runes_invalid_extend c s a t :
  128 ≤ byte_of c → byte_of a < 128 →
  runes (String c s) = Rune rune_error (String c "") :: runes s →
  runes (String c (s +:+ String a t)) = Rune rune_error (String c "") :: runes (s +:+ String a t).
Proof.
  intros Hc Ha. cbn [runes]. cbv zeta. rewrite (proj2 (Z.ltb_ge _ _) Hc).
  destruct s as [|c1 s].
  { intros _. rewrite append_nil. rewrite (cont_ascii a Ha), (second3_ascii _ a Ha), (second4_ascii _ a Ha).
    rewrite !andb_false_r. simpl. destruct t as [|? [|? ?]]; done. }
  rewrite append_cons. destruct (lead2 _ && cont _); [done|].
  destruct s as [|c2 s].
  { intros _. rewrite append_nil. rewrite (cont_ascii a Ha). rewrite !andb_false_r. simpl. by destruct t. }
  rewrite append_cons. destruct (lead3 _ && _ && _); [done|].
  destruct s as [|c3 s].
  { intros _. rewrite append_nil. rewrite (cont_ascii a Ha). by rewrite !andb_false_r. }
  rewrite append_cons. by destruct (lead4 _ && _ && _ && _).
Qed.

(** Decoding a concatenation whose second part starts with an ASCII byte. *)
Lemma runes_app_ascii s a t :
  byte_of a < 128 → runes (s +:+ String a t) = runes s ++ runes (String a t).
Proof.
  intros Ha. induction s as [|r s Hwf Hr IH] using runes_ind; [done|].
  rewrite append_assoc, Hr. cbn [app]. rewrite <- IH. destruct Hwf as [[Hv Hraw]|(c & -> & Hc)].
  - rewrite Hraw, runes_encode by done. rewrite <- Hraw. by destruct r.
  - simpl r_raw in *. rewrite append_cons, append_nil in *. by apply runes_invalid_extend.
Qed.

(** Cutting a text between two of its runes. *)
Lemma runes_cut s l1 l2 : runes s = l1 ++ l2 → runes (unrunes l1) = l1 ∧ runes (unrunes l2) = l2.
Proof.
  revert l1 l2. induction s as [|r s Hwf Hr IH] using runes_ind; intros l1 l2 Hl.
  { by destruct l1, l2. }
  destruct l1 as [|r1 l1]; simpl in Hl.
  { split; [done|]. by rewrite <- Hl, unrunes_runes. }
  rewrite Hr in Hl. injection Hl as <- Hl. destruct (IH l1 l2 Hl) as [H1 H2]. split; [|done].
  rewrite unrunes_cons. destruct Hwf as [[Hv Hraw]|(c & -> & Hc)].
  - rewrite Hraw, runes_encode, H1 by done. rewrite <- Hraw. by destruct r.
  - simpl r_raw in *. rewrite append_cons, append_nil in *.
    rewrite <- (unrunes_runes s), Hl, unrunes_app in Hr.
    rewrite (runes_invalid_cut c _ _ Hc Hr). by rewrite H1.
Qed.

Lemma runes_trim_space s : runes (trim_space s) = trim_runes (runes s).
Proof.
  unfold trim_space. destruct (trim_runes_split (runes s)) as (k & k' & Hk).
  destruct (runes_cut s k _ Hk) as [_ H2]. by destruct (runes_cut _ _ _ H2) as [H1 _].
Qed.

(** The bytes a rune was read from: its own value, or bytes above ASCII. *)
Lemma runes_raw s r : r ∈ runes s → Forall (λ b, 128 ≤ b ∨ b = r_val r) (bytes (r_raw r)).
Proof.
  assert (∀ n s, (String.length s ≤ n)%nat → ∀ r, r ∈ runes s →
    Forall (λ b, 128 ≤ b ∨ b = r_val r) (bytes (r_raw r))) as H; [|eauto].
  clear s r. intros n. induction n as [|n IH]; intros [|c0 s1] Hs r Hr; simpl in Hs;
    try (by apply elem_of_nil in Hr); [lia|].
  cbn [runes] in Hr. cbv zeta in Hr. unfold lead2, lead3, lead4, second3, second4, cont in Hr.
  destruct (byte_of c0 <? 128) eqn:Hc0.
  { apply elem_of_cons in Hr as [->|Hr]; [|apply (IH s1); [lia|done]]. simpl. constructor; [by right|constructor]. }
  apply Z.ltb_ge in Hc0.
  assert (r ∈ Rune rune_error (String c0 "") :: runes s1 → Forall (λ b, 128 ≤ b ∨ b = r_val r) (bytes (r_raw r))) as Hinv.
  { intros [->|Hr']%elem_of_cons; [|apply (IH s1); [lia|done]]. simpl. constructor; [by left|constructor]. }
  destruct s1 as [|c1 s2]; [by apply Hinv|]. simpl in Hs.
  destruct (_ && _) eqn:H2.
  { bool_to_prop. apply elem_of_cons in Hr as [->|Hr]; [|apply (IH s2); [lia|done]].
    simpl. repeat (constructor; [left; lia|]). constructor. }
  clear H2. destruct s2 as [|c2 s3]; [by apply Hinv|]. simpl in Hs.
  destruct (_ && _ && _) eqn:H3.
  { apply andb_true_iff in H3 as [H3 H3c]. bool_to_prop.
    assert (128 ≤ byte_of c1) by (repeat case_match; bool_to_prop; lia).
    apply elem_of_cons in Hr as [->|Hr]; [|apply (IH s3); [lia|done]].
    simpl. repeat (constructor; [left; lia|]). constructor. }
  clear H3. destruct s3 as [|c3 s4]; [by apply Hinv|]. simpl in Hs.
  destruct (_ && _ && _ && _) eqn:H4; [|by apply Hinv].
  apply andb_true_iff in H4 as [H4 H4c]. apply andb_true_iff in H4 as [H4 H4b]. bool_to_prop.
  assert (128 ≤ byte_of c1) by (repeat case_match; bool_to_prop; lia).
  apply elem_of_cons in Hr as [->|Hr]; [|apply (IH s4); [lia|done]].
  simpl. repeat (constructor; [left; lia|]). constructor.
Qed.

Lemma drop_while_fixed {A} (p : A → bool) l : (∀ x, head l = Some x → p x = false) → drop_while p l = l.
Proof. destruct l as [|x l]; [done|]. intros H. simpl. by rewrite (H x eq_refl). Qed.

Lemma drop_while_head {A} (p : A → bool) l x : head (drop_while p l) = Some x → p x = false.
Proof.
  induction l as [|y l IH]; [done|]. simpl. destruct (p y) eqn:Hy; [done|]. by intros [= <-].
Qed.

Lemma trim_space_idemp s : trim_space (trim_space s) = trim_space s.
Proof.
  unfold trim_space at 1. rewrite runes_trim_space. unfold trim_space at 1. f_equal.
  set (l := runes s). unfold trim_runes. set (p := λ r : rune, is_space (r_val r)).
  set (m := drop_while p l). set (r := drop_while p (reverse m)).
  assert (drop_while p (reverse r) = reverse r) as ->.
  { apply drop_while_fixed. intros x Hx.
    destruct (drop_while_suffix p (reverse m)) as [k Hk]. fold r in Hk.
    assert (m = reverse r ++ reverse k) as Hm.
    { rewrite <- (reverse_involutive m), Hk, reverse_app. done. }
    apply (drop_while_head p l). fold m. rewrite Hm. destruct (reverse r); [done|exact Hx]. }
  rewrite reverse_involutive. f_equal. apply drop_while_fixed. intros x. apply drop_while_head.
Qed.
