(* ===== verification/GoJson.v ===== *)
(** Go's [encoding/json] as the modelled code uses it: the grammar accepted by
    [json.Valid] and [json.Unmarshal], decoding into typed struct fields
    (case-insensitive names, the last duplicate wins, null leaves a plain field
    unchanged, a type mismatch is an error), and the compact encoder. A
    [json.RawMessage] read from a document is the parsed value of its text. *)

From S2P Require Import Prelude GoText.

(** Numbers keep their literal; objects keep the order and the duplicates of
    the text. *)
Inductive json :=
| JNull
| JBool (b : bool)
| JNum (lit : string)
| JStr (s : string)
| JArr (l : list json)
| JObj (l : list (string * json)).

Lemma json_ind' (P : json → Prop) :
  P JNull → (∀ b, P (JBool b)) → (∀ n, P (JNum n)) → (∀ s, P (JStr s)) →
  (∀ l, Forall P l → P (JArr l)) →
  (∀ l, Forall (λ kv, P kv.2) l → P (JObj l)) →
  ∀ v, P v.
Proof.
  intros H0 H1 H2 H3 H4 H5. fix IH 1. intros [| b | n | s | l | l].
  - apply H0.
  - apply H1.
  - apply H2.
  - apply H3.
  - apply H4. induction l as [|x l IHl]; constructor; auto.
  - apply H5. induction l as [|[k x] l IHl]; constructor; auto.
Qed.

(** * Lexing *)

Definition json_ws (c : ascii) : bool :=
  let b := byte_of c in (b =? 32) || (b =? 9) || (b =? 10) || (b =? 13).

Fixpoint skip_ws (s : string) : string :=
  match s with
  | String c s' => if json_ws c then skip_ws s' else s
  | EmptyString => EmptyString
  end.

Definition hex_val (c : ascii) : option Z :=
  let b := byte_of c in
  if (48 <=? b) && (b <=? 57) then Some (b - 48)
  else if (97 <=? b) && (b <=? 102) then Some (b - 87)
  else if (65 <=? b) && (b <=? 70) then Some (b - 55)
  else None.

Definition hex4 (a b c d : ascii) : option Z :=
  match hex_val a, hex_val b, hex_val c, hex_val d with
  | Some x, Some y, Some z, Some t => Some (((x * 16 + y) * 16 + z) * 16 + t)
  | _, _, _, _ => None
  end.

Definition json_escape (c : ascii) : option Z :=
  let b := byte_of c in
  if b =? 34 then Some 34 else if b =? 92 then Some 92 else if b =? 47 then Some 47
  else if b =? 98 then Some 8 else if b =? 102 then Some 12 else if b =? 110 then Some 10
  else if b =? 114 then Some 13 else if b =? 116 then Some 9 else None.

Definition high_surrogate (u : Z) : bool := (55296 <=? u) && (u <=? 56319).
Definition low_surrogate (u : Z) : bool := (56320 <=? u) && (u <=? 57343).

Definition prepend (p : string) (r : option (string * string)) : option (string * string) :=
  match r with Some (a, b) => Some (p +:+ a, b) | None => None end.

(** The text after an opening quote: the unescaped string and the rest. *)
Fixpoint str_body (s : string) : option (string * string) :=
  match s with
  | EmptyString => None
  | String c s1 =>
      if byte_of c =? 34 then Some (EmptyString, s1)
      else if byte_of c =? 92 then
        match s1 with
        | EmptyString => None
        | String e s2 =>
            match json_escape e with
            | Some b => prepend (of_bytes [b]) (str_body s2)
            | None =>
                if negb (byte_of e =? 117) then None else
                match s2 with
                | String h1 (String h2 (String h3 (String h4 s6))) =>
                    match hex4 h1 h2 h3 h4 with
                    | None => None
                    | Some u =>
                        if high_surrogate u then
                          match s6 with
                          | String bs (String uu (String g1 (String g2 (String g3 (String g4 s12))))) =>
                              match hex4 g1 g2 g3 g4 with
                              | Some u2 =>
                                  if (byte_of bs =? 92) && (byte_of uu =? 117) && low_surrogate u2
                                  then prepend (encode_rune ((u - 55296) * 1024 + (u2 - 56320) + 65536))
                                               (str_body s12)
                                  else prepend (encode_rune rune_error) (str_body s6)
                              | None => prepend (encode_rune rune_error) (str_body s6)
                              end
                          | _ => prepend (encode_rune rune_error) (str_body s6)
                          end
                        else prepend (encode_rune u) (str_body s6)
                    end
                | _ => None
                end
            end
        end
      else if byte_of c <? 32 then None
      else prepend (String c EmptyString) (str_body s1)
  end.

Definition is_digit (c : ascii) : bool := bool_decide (is_Some (digit_val c)).

Fixpoint span_digits (s : string) : string * string :=
  match s with
  | String c s' =>
      if is_digit c then let '(a, b) := span_digits s' in (String c a, b) else (EmptyString, s)
  | EmptyString => (EmptyString, EmptyString)
  end.

Definition lex_frac (s : string) : option (string * string) :=
  match s with
  | String c s' =>
      if byte_of c =? 46 then
        let '(d, r) := span_digits s' in
        if String.eqb d "" then None else Some (String c d, r)
      else Some (EmptyString, s)
  | EmptyString => Some (EmptyString, s)
  end.

Definition lex_exp (s : string) : option (string * string) :=
  match s with
  | String c s' =>
      if (byte_of c =? 101) || (byte_of c =? 69) then
        let '(sg, s2) := match s' with
                         | String g s2 => if (byte_of g =? 43) || (byte_of g =? 45)
                                          then (String g EmptyString, s2) else (EmptyString, s')
                         | EmptyString => (EmptyString, s')
                         end in
        let '(d, r) := span_digits s2 in
        if String.eqb d "" then None else Some (String c (sg +:+ d), r)
      else Some (EmptyString, s)
  | EmptyString => Some (EmptyString, s)
  end.

Definition lex_int (s : string) : option (string * string) :=
  match s with
  | String c s' =>
      if byte_of c =? 48 then Some (String c EmptyString, s')
      else let '(d, r) := span_digits s in if String.eqb d "" then None else Some (d, r)
  | EmptyString => None
  end.

Definition lex_number (s : string) : option (string * string) :=
  let '(sg, s1) := match s with
                   | String c s1 => if byte_of c =? 45 then (String c EmptyString, s1)
                                    else (EmptyString, s)
                   | EmptyString => (EmptyString, s)
                   end in
  match lex_int s1 with
  | None => None
  | Some (i, s2) =>
      match lex_frac s2 with
      | None => None
      | Some (f, s3) =>
          match lex_exp s3 with
          | None => None
          | Some (e, s4) => Some (sg +:+ i +:+ f +:+ e, s4)
          end
      end
  end.

(** * Parsing

    The fuel bounds the depth of the calls; every second call consumes a byte,
    so twice the length of the text is enough. *)
Fixpoint parse_value (n : nat) (s : string) : option (json * string) :=
  match n with
  | O => None
  | S n' =>
      match skip_ws s with
      | EmptyString => None
      | String c r as t =>
          if byte_of c =? 123 then
            match skip_ws r with
            | String d r' => if byte_of d =? 125 then Some (JObj [], r')
                             else match parse_members n' (skip_ws r) with
                                  | Some (l, r'') => Some (JObj l, r'')
                                  | None => None
                                  end
            | EmptyString => None
            end
          else if byte_of c =? 91 then
            match skip_ws r with
            | String d r' => if byte_of d =? 93 then Some (JArr [], r')
                             else match parse_elems n' (skip_ws r) with
                                  | Some (l, r'') => Some (JArr l, r'')
                                  | None => None
                                  end
            | EmptyString => None
            end
          else if byte_of c =? 34 then
            match str_body r with
            | Some (b, r') => Some (JStr (replace_invalid b), r')
            | None => None
            end
          else if has_prefix t "true" then Some (JBool true, String.substring 4 (String.length t) t)
          else if has_prefix t "false" then Some (JBool false, String.substring 5 (String.length t) t)
          else if has_prefix t "null" then Some (JNull, String.substring 4 (String.length t) t)
          else match lex_number t with
               | Some (lit, r') => Some (JNum lit, r')
               | None => None
               end
      end
  end
with parse_elems (n : nat) (s : string) : option (list json * string) :=
  match n with
  | O => None
  | S n' =>
      match parse_value n' s with
      | None => None
      | Some (v, r) =>
          match skip_ws r with
          | String c r' =>
              if byte_of c =? 44 then
                match parse_elems n' r' with
                | Some (l, r'') => Some (v :: l, r'')
                | None => None
                end
              else if byte_of c =? 93 then Some ([v], r')
              else None
          | EmptyString => None
          end
      end
  end
with parse_members (n : nat) (s : string) : option (list (string * json) * string) :=
  match n with
  | O => None
  | S n' =>
      match skip_ws s with
      | String q r0 =>
          if negb (byte_of q =? 34) then None else
          match str_body r0 with
          | None => None
          | Some (k, r1) =>
              match skip_ws r1 with
              | String c r2 =>
                  if negb (byte_of c =? 58) then None else
                  match parse_value n' r2 with
                  | None => None
                  | Some (v, r3) =>
                      match skip_ws r3 with
                      | String d r4 =>
                          if byte_of d =? 44 then
                            match parse_members n' r4 with
                            | Some (l, r5) => Some ((replace_invalid k, v) :: l, r5)
                            | None => None
                            end
                          else if byte_of d =? 125 then Some ([(replace_invalid k, v)], r4)
                          else None
                      | EmptyString => None
                      end
                  end
              | EmptyString => None
              end
          end
      | EmptyString => None
      end
  end.

(** The first value of the text ([Decoder.Decode]). *)
Definition json_decode_first (s : string) : option json :=
  fst <$> parse_value (2 * String.length s + 2) s.

(** The text as one value ([json.Unmarshal]'s syntax check, [json.Valid]). *)
Definition json_parse (s : string) : option json :=
  match parse_value (2 * String.length s + 2) s with
  | Some (v, r) => if String.eqb (skip_ws r) "" then Some v else None
  | None => None
  end.

Definition json_valid (s : string) : bool := bool_decide (is_Some (json_parse s)).

(** * Decoding into Go values *)

(** Field names match case-insensitively; two runes outside ASCII fold to
    ASCII letters. *)
Definition fold_rune (r : Z) : Z :=
  if (97 <=? r) && (r <=? 122) then r - 32
  else if r =? 383 then 83 else if r =? 8490 then 75 else r.

Definition fold_name (s : string) : list Z := fold_rune ∘ r_val <$> runes s.

(** The values an object gives to the struct field [name], in order. *)
Definition occurrences (name : string) (l : list (string * json)) : list json :=
  snd <$> filter (λ kv, fold_name kv.1 = fold_name name) l.

(** Decoding one value over the current content of a field of type [A]: [None]
    is a type mismatch. *)
Definition decode_string (cur : string) (v : json) : option string :=
  match v with JStr s => Some s | JNull => Some cur | _ => None end.

Definition decode_bool (cur : bool) (v : json) : option bool :=
  match v with JBool b => Some b | JNull => Some cur | _ => None end.

(** An integer literal without fraction or exponent, in range. *)
Definition int_literal (lit : string) : option Z :=
  let '(n, err) := atoi lit in if err : bool then None else Some n.

Definition decode_int (cur : Z) (v : json) : option Z :=
  match v with JNum lit => int_literal lit | JNull => Some cur | _ => None end.

Definition decode_ptr {A} (zero : A) (dec : A → json → option A) (_ : option A) (v : json)
  : option (option A) :=
  match v with JNull => Some None | _ => Some <$> dec zero v end.

Definition decode_raw (_ : option json) (v : json) : option (option json) := Some (Some v).

(** A nil slice is [None]. *)
Definition decode_strings (_ : option (list string)) (v : json) : option (option (list string)) :=
  match v with
  | JNull => Some None
  | JArr l => Some <$> mapM (decode_string "") l
  | _ => None
  end.

(** The entries are added to those the map holds. *)
Definition decode_string_map (cur : option (gmap string string)) (v : json)
  : option (option (gmap string string)) :=
  match v with
  | JNull => Some None
  | JObj l => (λ kvs, Some (list_to_map (reverse kvs) ∪ default ∅ cur)) <$>
                mapM (λ kv, (pair kv.1) <$> decode_string "" kv.2) l
  | _ => None
  end.

(** One field of a struct: the occurrences are decoded in order; a mismatch on
    any of them makes the whole [Unmarshal] fail. *)
Definition decode_field {A} (dec : A → json → option A) (zero : A) (name : string)
    (l : list (string * json)) : option A :=
  fold_left (λ acc v, acc ≫= λ cur, dec cur v) (occurrences name l) (Some zero).

(** Decoding into a struct-valued field or slice element, over its content. *)
Definition decode_object {A} (dec : A → list (string * json) → option A) (cur : A) (v : json) : option A :=
  match v with JObj l => dec cur l | JNull => Some cur | _ => None end.

(** Decoding an array over the content of a slice of structs. *)
Fixpoint decode_elems {A} (dec : A → json → option A) (zero : A) (cur : list A) (l : list json) : option (list A) :=
  match l with
  | [] => Some []
  | v :: l' =>
      x ← dec (default zero (head cur)) v;
      xs ← decode_elems dec zero (tail cur) l';
      Some (x :: xs)
  end.

Definition decode_slice {A} (dec : A → json → option A) (zero : A) (cur : list A) (v : json) : option (list A) :=
  match v with JArr l => decode_elems dec zero cur l | JNull => Some [] | _ => None end.

(** The digits and the power of ten of a number literal. *)
Fixpoint split_exp (s : string) : string * string :=
  match s with
  | EmptyString => (EmptyString, EmptyString)
  | String c s' => if (byte_of c =? 101) || (byte_of c =? 69) then (EmptyString, s')
                   else let '(a, b) := split_exp s' in (String c a, b)
  end.

Definition literal_digits (s : string) : Z * Z :=
  match str_cut "." s with
  | Some (i, f) => (default 0 (digits_val 0 (i +:+ f)), slen f)
  | None => (default 0 (digits_val 0 s), 0)
  end.

(** A number literal as sign, digits and power of ten. *)
Definition literal_parts (lit : string) : bool * Z * Z :=
  let '(neg, s) := match lit with
                   | String c s' => if byte_of c =? 45 then (true, s') else (false, lit)
                   | EmptyString => (false, lit)
                   end in
  let '(mant, ex) := split_exp s in
  let '(digits, frac) := literal_digits mant in
  let e := (match ex with
            | String c s' => if byte_of c =? 45 then - default 0 (digits_val 0 s')
                             else if byte_of c =? 43 then default 0 (digits_val 0 s') else default 0 (digits_val 0 ex)
            | EmptyString => 0
            end) - frac in
  (neg, digits, e).

(** A literal too large for a float64, on which [json.Unmarshal] fails: from
    half a unit beyond the largest finite value. *)
Definition float_overflows (lit : string) : bool :=
  let '(_, digits, e) := literal_parts lit in
  let limit := 2 ^ 1024 - 2 ^ 970 in
  if 0 <=? e then limit <=? digits * 10 ^ e else limit * 10 ^ (- e) <=? digits.

Fixpoint overflows (v : json) : bool :=
  match v with
  | JNum lit => float_overflows lit
  | JArr l => existsb overflows l
  | JObj l => existsb (λ kv, overflows kv.2) l
  | _ => false
  end.

(** An unsigned integer: digits only, below 2^64. *)
Definition uint_literal (lit : string) : option Z :=
  match lit with
  | EmptyString => None
  | _ => match digits_val 0 lit with
         | Some n => if n <? 2 ^ 64 then Some n else None
         | None => None
         end
  end.

Definition decode_uint (cur : Z) (v : json) : option Z :=
  match v with JNum lit => uint_literal lit | JNull => Some cur | _ => None end.

(** A float64 is kept as the literal it was read from. *)
Definition float_zero : string := "0".
Definition decode_float (cur : string) (v : json) : option string :=
  match v with
  | JNum lit => if float_overflows lit then None else Some lit
  | JNull => Some cur
  | _ => None
  end.

(** The JSON text of a [time.Time]. *)
Class TimeJson := { time_parse : string → option Time; time_format : Time → option string }.

Definition decode_time `{TimeJson} (cur : Time) (v : json) : option Time :=
  match v with JStr s => time_parse s | JNull => Some cur | _ => None end.

(** A slice, nil when it is [None]. *)
Definition decode_list {A} (dec : A → json → option A) (zero : A) (cur : option (list A)) (v : json)
  : option (option (list A)) :=
  match v with
  | JNull => Some None
  | JArr l => Some <$> decode_elems dec zero (default [] cur) l
  | _ => None
  end.

(** A [map[string]any]: the entries are added to those it holds, a later one
    replacing an earlier one; nested documents are kept as they were read. *)
Definition decode_any_map (cur : option (gmap string json)) (v : json) : option (option (gmap string json)) :=
  match v with
  | JNull => Some None
  | JObj l => if overflows v then None else Some (Some (list_to_map (reverse l) ∪ default ∅ cur))
  | _ => None
  end.

(** [json.Unmarshal] into a value of any of these types. *)
Definition unmarshal {A} (dec : A → json → option A) (zero : A) (text : string) : option A :=
  match json_parse text with Some v => dec zero v | None => None end.

(** The content of a field after an [Unmarshal] whose type errors are ignored:
    a mismatched value is skipped and the rest is still decoded. *)
Definition decode_field_lenient {A} (dec : A → json → option A) (zero : A) (name : string)
    (l : list (string * json)) : A :=
  fold_left (λ cur v, default cur (dec cur v)) (occurrences name l) zero.

(** A mismatched element of a slice is left at its zero value. *)
Definition decode_strings_lenient (_ : option (list string)) (v : json) : option (option (list string)) :=
  match v with
  | JNull => Some None
  | JArr l => Some (Some ((λ x, default EmptyString (decode_string EmptyString x)) <$> l))
  | _ => None
  end.

(** [json.Unmarshal(text, &struct)]: null is accepted and changes nothing. *)
Definition unmarshal_struct {A} (dec : list (string * json) → option A) (zero : A) (text : string)
  : option A :=
  match json_parse text with
  | Some (JObj l) => dec l
  | Some JNull => Some zero
  | _ => None
  end.

(** The struct after an [Unmarshal] whose error is ignored: a text that is not
    JSON, or not an object, changes nothing. *)
Definition unmarshal_struct_lenient {A} (dec : list (string * json) → A) (zero : A) (text : string) : A :=
  match json_parse text with
  | Some (JObj l) => dec l
  | _ => zero
  end.

(** [map[string]json.RawMessage]: exact names, the last duplicate wins. *)
Definition raw_map (l : list (string * json)) : gmap string json := list_to_map (reverse l).

(** * Encoding *)

Definition hex_digit (v : Z) : ascii := of_byte (if v <? 10 then 48 + v else 87 + v).

(** HTML-sensitive characters, control characters and line separators are
    escaped; invalid UTF-8 becomes an escaped U+FFFD. *)
Definition encode_rune_json (r : rune) : string :=
  let v := r_val r in
  let esc4 := String "\" (String "u" (String (hex_digit (v / 4096 mod 16))
                (String (hex_digit (v / 256 mod 16)) (String (hex_digit (v / 16 mod 16))
                  (String (hex_digit (v mod 16)) EmptyString))))) in
  if negb (rune_valid r) then "\ufffd"
  else if (v =? 34) || (v =? 92) then String "\" (r_raw r)
  else if v =? 8 then "\b" else if v =? 12 then "\f" else if v =? 10 then "\n"
  else if v =? 13 then "\r" else if v =? 9 then "\t"
  else if (v <? 32) || (v =? 60) || (v =? 62) || (v =? 38) || (v =? 8232) || (v =? 8233)
  then esc4
  else r_raw r.

Definition quote : string := of_bytes [34].

Definition encode_string (s : string) : string :=
  quote +:+ fold_right (λ r acc, encode_rune_json r +:+ acc) "" (runes s) +:+ quote.

Fixpoint json_encode (v : json) : string :=
  match v with
  | JNull => "null"
  | JBool true => "true"
  | JBool false => "false"
  | JNum lit => lit
  | JStr s => encode_string s
  | JArr l => "[" +:+ String.concat "," (json_encode <$> l) +:+ "]"
  | JObj l => "{" +:+ String.concat ","
                ((λ kv, encode_string kv.1 +:+ ":" +:+ json_encode kv.2) <$> l) +:+ "}"
  end.

(** Members of an encoded struct: omitted when empty or nil. *)
Definition omit_empty (name s : string) : list (string * json) :=
  if String.eqb s "" then [] else [(name, JStr s)].
Definition omit_nil {A} (name : string) (o : option A) (enc : A → json) : list (string * json) :=
  match o with Some x => [(name, enc x)] | None => [] end.
Definition enc_strings (o : option (list string)) : json :=
  match o with Some l => JArr (JStr <$> l) | None => JNull end.
Definition omit_strings (name : string) (o : option (list string)) : list (string * json) :=
  match o with Some (x :: l) => [(name, JArr (JStr <$> x :: l))] | _ => [] end.

(** A [map[string]string]: its keys in order. *)
Definition enc_string_map (m : gmap string string) : json :=
  JObj ((λ k, (k, JStr (default EmptyString (m !! k)))) <$> merge_sort string_le (elements (dom m))).

(** A [map[string]any], nil when it is [None]; a value that is [None] is one
    that cannot be marshalled, such as a channel or a NaN. *)
Abbreviation any_map := (option (gmap string (option json))) (only parsing).
Definition enc_any_entries (m : gmap string (option json)) : option (list (string * json)) :=
  mapM (λ k, pair k <$> default None (m !! k)) (merge_sort string_le (elements (dom m))).
Definition enc_any_map (o : any_map) : option json :=
  match o with Some m => JObj <$> enc_any_entries m | None => Some JNull end.
Definition omit_any_map (name : string) (o : any_map) : option (list (string * json)) :=
  match o with
  | Some m => if decide (m = ∅) then Some [] else (λ l, [(name, JObj l)]) <$> enc_any_entries m
  | None => Some []
  end.

Example json_ex1 :
  json_parse (of_bytes [123;34;97;34;58;91;49;44;32;116;114;117;101;93;125]) =
  Some (JObj [("a", JArr [JNum "1"; JBool true])]).
Proof. vm_compute. reflexivity. Qed.
Example json_ex2 : json_parse "[1,]" = None ∧ json_parse "01" = None ∧ json_valid " null " = true.
Proof. vm_compute. done. Qed.
Example json_ex3 :
  json_encode (JObj [("a<", JArr [JNum "1"; JStr "x"])]) =
  of_bytes [123;34;97;92;117;48;48;51;99;34;58;91;49;44;34;120;34;93;125].
Proof. vm_compute. reflexivity. Qed.

(** JSON text written with single quotes, for concrete documents. *)
Fixpoint dq (s : string) : string :=
  match s with
  | EmptyString => EmptyString
  | String c s' => String (if byte_of c =? 39 then of_byte 34 else c) (dq s')
  end.
