(* ===== verification/JsonRoundtrip.v ===== *)
(** Encoding a JSON value and parsing the text gives the value back, up to the
    replacement of invalid UTF-8 in its strings. *)

From S2P Require Import Prelude GoText Utf8 GoJson.

(** * Strings *)

(** What [encoding/json] makes of a rune. *)
Definition mend (r : rune) : rune := if rune_valid r then r else Rune rune_error (encode_rune rune_error).

Definition encoded (r : rune) : Prop := scalar (r_val r) ∧ r_raw r = encode_rune (r_val r).

Lemma encoded_valid r : encoded r → rune_valid r = true.
Proof.
  intros [_ Hraw]. unfold rune_valid. rewrite Hraw.
  destruct (Z.eqb_spec (r_val r) rune_error) as [->|]; reflexivity.
Qed.

Lemma mend_encoded r : wf_rune r → encoded (mend r).
Proof.
  intros [He|(c & -> & _)]; unfold mend.
  - by rewrite encoded_valid.
  - split; [|done]. right. unfold rune_error. simpl. lia.
Qed.

Lemma runes_unrunes l : Forall encoded l → runes (unrunes l) = l.
Proof.
  induction 1 as [|r l [Hv Hraw] Hl IH]; [done|].
  rewrite unrunes_cons, Hraw, runes_encode, IH by done. rewrite <- Hraw. by destruct r.
Qed.

Lemma replace_invalid_mend s : replace_invalid s = unrunes (mend <$> runes s).
Proof. reflexivity. Qed.

Lemma runes_mended s : Forall encoded (mend <$> runes s).
Proof.
  apply Forall_fmap. eapply Forall_impl; [apply runes_wf|]. intros r. apply mend_encoded.
Qed.

Lemma replace_invalid_idemp s : replace_invalid (replace_invalid s) = replace_invalid s.
Proof.
  rewrite (replace_invalid_mend (replace_invalid s)), replace_invalid_mend.
  rewrite runes_unrunes by apply runes_mended. f_equal.
  rewrite <- list_fmap_compose. apply list_fmap_ext. intros i r Hr. unfold compose.
  assert (encoded (mend r)) as He.
  { apply mend_encoded. eapply Forall_lookup_1; [apply runes_wf|done]. }
  unfold mend at 1. by rewrite encoded_valid.
Qed.

Lemma prepend_app a b r : prepend a (prepend b r) = prepend (a +:+ b) r.
Proof. destruct r as [[x y]|]; [|done]. simpl. by rewrite append_assoc. Qed.

Lemma prepend_nil r : prepend "" r = r.
Proof. by destruct r as [[x y]|]. Qed.

Definition plain_byte (b : Z) : Prop := 32 ≤ b ∧ b ≠ 34 ∧ b ≠ 92.

Lemma str_body_plain w t : Forall plain_byte (bytes w) → str_body (w +:+ t) = prepend w (str_body t).
Proof.
  induction w as [|c w IH]; intros Hw; [by rewrite append_nil, prepend_nil|].
  simpl bytes in Hw. apply Forall_cons in Hw as [(H1 & H2 & H3) Hw].
  rewrite append_cons. cbn [str_body]. eval_tests. rewrite IH by done. by rewrite prepend_app.
Qed.

Lemma encoded_bytes r : encoded r → Forall (λ b, 128 ≤ b ∨ b = r_val r) (bytes (r_raw r)).
Proof.
  intros [Hv Hraw]. apply (runes_raw (r_raw r)).
  rewrite Hraw, <- (append_nil_r (encode_rune _)), runes_encode by done. rewrite <- Hraw.
  apply elem_of_cons. left. by destruct r.
Qed.

Lemma hex_val_digit d : 0 ≤ d < 16 → hex_val (hex_digit d) = Some d.
Proof.
  intros Hd. unfold hex_val, hex_digit. destruct (Z.ltb_spec d 10).
  - rewrite byte_of_of_byte by lia. eval_tests. simpl. f_equal. lia.
  - rewrite byte_of_of_byte by lia. eval_tests. simpl. f_equal. lia.
Qed.

Lemma hex4_digits v :
  0 ≤ v < 65536 →
  hex4 (hex_digit (v / 4096 mod 16)) (hex_digit (v / 256 mod 16)) (hex_digit (v / 16 mod 16))
    (hex_digit (v mod 16)) = Some v.
Proof.
  intros Hv. unfold hex4. rewrite !hex_val_digit by (apply Z.mod_pos_bound; lia). f_equal.
  assert (v / 256 = v / 16 / 16) as -> by (rewrite Z.div_div by lia; done).
  assert (v / 4096 = v / 16 / 16 / 16) as -> by (rewrite !Z.div_div by lia; done).
  pose proof (Z.div_mod v 16 ltac:(lia)). pose proof (Z.div_mod (v / 16) 16 ltac:(lia)).
  pose proof (Z.div_mod (v / 16 / 16) 16 ltac:(lia)).
  assert (v / 16 / 16 / 16 < 16) by (rewrite !Z.div_div by lia; apply Z.div_lt_upper_bound; lia).
  assert (0 ≤ v / 16 / 16 / 16) by (rewrite !Z.div_div by lia; apply Z.div_pos; lia).
  rewrite (Z.mod_small (v / 16 / 16 / 16) 16) by lia. lia.
Qed.

(** One encoded rune is read back. *)
Lemma str_body_rune r t :
  wf_rune r → str_body (encode_rune_json r +:+ t) = prepend (r_raw (mend r)) (str_body t).
Proof.
  intros Hwf. unfold encode_rune_json, mend. destruct (rune_valid r) eqn:Hvalid; [|reflexivity].
  destruct Hwf as [He|(c & -> & _)]; [|done]. simpl negb. cbv iota.
  pose proof (encoded_bytes r He) as Hb. destruct He as [Hv Hraw].
  destruct ((_ =? 34) || (_ =? 92)) eqn:Hq.
  { rewrite Hraw. apply orb_true_iff in Hq as [->%Z.eqb_eq| ->%Z.eqb_eq]; reflexivity. }
  destruct (Z.eqb_spec (r_val r) 8) as [H8|]; [rewrite Hraw, H8; reflexivity|].
  destruct (Z.eqb_spec (r_val r) 12) as [H12|]; [rewrite Hraw, H12; reflexivity|].
  destruct (Z.eqb_spec (r_val r) 10) as [H10|]; [rewrite Hraw, H10; reflexivity|].
  destruct (Z.eqb_spec (r_val r) 13) as [H13|]; [rewrite Hraw, H13; reflexivity|].
  destruct (Z.eqb_spec (r_val r) 9) as [H9|]; [rewrite Hraw, H9; reflexivity|].
  destruct (_ || _ || _ || _ || _ || _) eqn:Hesc.
  - assert (0 ≤ r_val r < 55296) as Hr.
    { rewrite !orb_true_iff, !Z.eqb_eq, Z.ltb_lt in Hesc. unfold scalar in Hv. lia. }
    rewrite !append_cons, append_nil. cbn [str_body].
    change (byte_of "\" =? 34) with false. change (byte_of "\" =? 92) with true.
    change (json_escape "u") with (@None Z). change (byte_of "u" =? 117) with true. cbn [negb].
    rewrite hex4_digits by lia. unfold high_surrogate. rewrite (proj2 (Z.leb_gt 55296 _)) by lia.
    simpl. by rewrite Hraw.
  - apply str_body_plain. apply orb_false_iff in Hq as [?%Z.eqb_neq ?%Z.eqb_neq].
    rewrite !orb_false_iff, Z.ltb_ge in Hesc. eapply Forall_impl; [exact Hb|]. intros b Hx. simpl in Hx. unfold plain_byte. destruct Hesc as (((((? & _) & _) & _) & _) & _). lia.
Qed.

Lemma str_body_encode s t :
  str_body (fold_right (λ r acc, encode_rune_json r +:+ acc) "" (runes s) +:+ quote +:+ t)
  = Some (replace_invalid s, t).
Proof.
  rewrite replace_invalid_mend. pose proof (runes_wf s) as Hwf.
  induction Hwf as [|r l Hr _ IH]; [reflexivity|].
  cbn [fold_right fmap list_fmap]. rewrite append_assoc, str_body_rune, IH by done. reflexivity.
Qed.

(** * Numbers *)

(** A text that does not continue a number. *)
Definition stops (t : string) : Prop :=
  match t with
  | EmptyString => True
  | String c _ => is_digit c = false ∧ byte_of c ≠ 46 ∧ byte_of c ≠ 101 ∧ byte_of c ≠ 69
  end.

Lemma span_digits_app s a b t :
  span_digits s = (a, b) → stops t → span_digits (s +:+ t) = (a, b +:+ t).
Proof.
  revert a b. induction s as [|c s IH]; intros a b Hs Ht.
  - injection Hs as <- <-. rewrite append_nil. destruct t as [|c t]; [done|]. simpl. by destruct Ht as [-> _].
  - rewrite append_cons. simpl in *. destruct (is_digit c) eqn:Hc.
    + destruct (span_digits s) as [a' b'] eqn:Hs'. injection Hs as <- <-. by rewrite (IH a' b').
    + injection Hs as <- <-. by rewrite append_cons.
Qed.

Lemma lex_int_app s a b t : lex_int s = Some (a, b) → stops t → lex_int (s +:+ t) = Some (a, b +:+ t).
Proof.
  destruct s as [|c s]; [done|]. rewrite append_cons. unfold lex_int. intros Hs Ht.
  destruct (byte_of c =? 48); [by injection Hs as <- <-|].
  rewrite <- append_cons. destruct (span_digits (String c s)) as [d r] eqn:Hd.
  rewrite (span_digits_app _ _ _ _ Hd Ht). destruct (String.eqb d ""); [done|]. by injection Hs as <- <-.
Qed.

Lemma lex_frac_app s a b t : lex_frac s = Some (a, b) → stops t → lex_frac (s +:+ t) = Some (a, b +:+ t).
Proof.
  intros Hs Ht. destruct s as [|c s].
  - injection Hs as <- <-. rewrite append_nil. destruct t as [|c t]; [done|]. destruct Ht as (_ & H46 & _).
    unfold lex_frac. by rewrite (proj2 (Z.eqb_neq _ _) H46).
  - rewrite append_cons. unfold lex_frac in *. destruct (byte_of c =? 46).
    + destruct (span_digits s) as [d r] eqn:Hd. rewrite (span_digits_app _ _ _ _ Hd Ht).
      destruct (String.eqb d ""); [done|]. by injection Hs as <- <-.
    + injection Hs as <- <-. by rewrite append_cons.
Qed.

Lemma lex_exp_app s a b t : lex_exp s = Some (a, b) → stops t → lex_exp (s +:+ t) = Some (a, b +:+ t).
Proof.
  intros Hs Ht. destruct s as [|c s].
  - injection Hs as <- <-. rewrite append_nil. destruct t as [|c t]; [done|]. destruct Ht as (_ & _ & H1 & H2).
    unfold lex_exp. by rewrite (proj2 (Z.eqb_neq _ _) H1), (proj2 (Z.eqb_neq _ _) H2).
  - rewrite append_cons. unfold lex_exp in *. destruct (_ || _).
    + destruct s as [|g s]; [done|]. rewrite append_cons. destruct (_ || _).
      * destruct (span_digits s) as [d r] eqn:Hd. rewrite (span_digits_app _ _ _ _ Hd Ht).
        destruct (String.eqb d ""); [done|]. by injection Hs as <- <-.
      * rewrite <- append_cons. destruct (span_digits (String g s)) as [d r] eqn:Hd.
        rewrite (span_digits_app _ _ _ _ Hd Ht). destruct (String.eqb d ""); [done|]. by injection Hs as <- <-.
    + injection Hs as <- <-. by rewrite append_cons.
Qed.

Lemma lex_number_app s a b t :
  lex_number s = Some (a, b) → stops t → lex_number (s +:+ t) = Some (a, b +:+ t).
Proof.
  unfold lex_number. intros Hs Ht. destruct s as [|c s]; [done|]. rewrite append_cons.
  destruct (byte_of c =? 45).
  - destruct (lex_int s) as [[i s2]|] eqn:Hi; [|done]. rewrite (lex_int_app _ _ _ _ Hi Ht).
    destruct (lex_frac s2) as [[f s3]|] eqn:Hf; [|done]. rewrite (lex_frac_app _ _ _ _ Hf Ht).
    destruct (lex_exp s3) as [[e s4]|] eqn:He; [|done]. rewrite (lex_exp_app _ _ _ _ He Ht).
    by injection Hs as <- <-.
  - rewrite <- append_cons. destruct (lex_int (String c s)) as [[i s2]|] eqn:Hi; [|done].
    rewrite (lex_int_app _ _ _ _ Hi Ht).
    destruct (lex_frac s2) as [[f s3]|] eqn:Hf; [|done]. rewrite (lex_frac_app _ _ _ _ Hf Ht).
    destruct (lex_exp s3) as [[e s4]|] eqn:He; [|done]. rewrite (lex_exp_app _ _ _ _ He Ht).
    by injection Hs as <- <-.
Qed.

(** A JSON number literal. *)
Definition number_literal (lit : string) : Prop := lex_number lit = Some (lit, "").

Lemma is_digit_range c : is_digit c = true → 48 ≤ byte_of c ≤ 57.
Proof.
  unfold is_digit, digit_val. intros H%bool_decide_eq_true.
  destruct (_ && _) eqn:Hc; [|by destruct H]. bool_to_prop. lia.
Qed.

Lemma number_head lit : number_literal lit → ∃ c t, lit = String c t ∧ (byte_of c = 45 ∨ 48 ≤ byte_of c ≤ 57).
Proof.
  unfold number_literal, lex_number. destruct lit as [|c t]; [done|]. intros H. exists c, t. split; [done|].
  destruct (Z.eqb_spec (byte_of c) 45); [by left|right].
  destruct (lex_int (String c t)) as [[i s2]|] eqn:Hi; [|done]. unfold lex_int in Hi.
  destruct (Z.eqb_spec (byte_of c) 48); [lia|]. simpl in Hi.
  destruct (is_digit c) eqn:Hd; [by apply is_digit_range|]. done.
Qed.

(** * Values *)

(** The value a document is read as: strings are mended. *)
Fixpoint canon (v : json) : json :=
  match v with
  | JStr s => JStr (replace_invalid s)
  | JArr l => JArr (canon <$> l)
  | JObj l => JObj ((λ kv, (replace_invalid kv.1, canon kv.2)) <$> l)
  | _ => v
  end.

(** The number literals of the value are JSON numbers. *)
Fixpoint json_wf (v : json) : bool :=
  match v with
  | JNum lit => bool_decide (lex_number lit = Some (lit, ""))
  | JArr l => forallb json_wf l
  | JObj l => forallb (λ kv, json_wf kv.2) l
  | _ => true
  end.

Lemma skip_ws_head c w : json_ws c = false → skip_ws (String c w) = String c w.
Proof. intros H. simpl. by rewrite H. Qed.

Lemma encode_head v :
  json_wf v = true →
  ∃ c w, json_encode v = String c w ∧ json_ws c = false ∧ byte_of c ≠ 93 ∧ byte_of c ≠ 125.
Proof.
  destruct v as [|[]|lit|s|l|l]; intros Hwf; try (by eexists _, _; split_and!).
  simpl in Hwf. apply bool_decide_eq_true in Hwf.
  destruct (number_head lit Hwf) as (c & w & -> & Hc). exists c, w.
  unfold json_ws. split_and!; [done| |lia..]. rewrite !orb_false_iff, !Z.eqb_neq. lia.
Qed.

Lemma parse_number lit n t :
  number_literal lit → stops t → parse_value (S n) (lit +:+ t) = Some (JNum lit, t).
Proof.
  intros Hlit Ht. destruct (number_head lit Hlit) as (c & w & -> & Hc).
  pose proof (lex_number_app _ _ _ _ Hlit Ht) as Hlex. rewrite append_nil in Hlex.
  rewrite append_cons in *. cbn [parse_value]. rewrite skip_ws_head.
  2: { unfold json_ws. rewrite !orb_false_iff, !Z.eqb_neq. lia. }
  assert (∀ p q, byte_of p = 116 ∨ byte_of p = 102 ∨ byte_of p = 110 →
    has_prefix (String c (w +:+ t)) (String p q) = false) as Hp.
  { intros p q Hp. unfold has_prefix. simpl. destruct (ascii_dec p c) as [->|]; [lia|done]. }
  rewrite !Hp by (unfold byte_of; simpl; lia). eval_tests. by rewrite Hlex.
Qed.

Definition json_seq (l : list json) : string := String.concat "," (json_encode <$> l).
Definition member (kv : string * json) : string := encode_string kv.1 +:+ ":" +:+ json_encode kv.2.
Definition json_members (l : list (string * json)) : string := String.concat "," (member <$> l).

Lemma slength_app s t : String.length (s +:+ t) = (String.length s + String.length t)%nat.
Proof. pose proof (slen_app s t). unfold slen in *. lia. Qed.

(** The values of a list are read back. *)
Definition reads (v : json) : Prop :=
  json_wf v = true → ∀ n t, (2 * String.length (json_encode v) ≤ n)%nat → stops t →
  parse_value n (json_encode v +:+ t) = Some (canon v, t).

Lemma parse_elems_encode l v n t :
  Forall reads (v :: l) → forallb json_wf (v :: l) = true →
  (2 * String.length (json_seq (v :: l)) + 1 ≤ n)%nat →
  parse_elems n (json_seq (v :: l) +:+ "]" +:+ t) = Some (canon <$> (v :: l), t).
Proof.
  revert v n. induction l as [|v' l IH]; intros v n Hr Hwf Hn.
  - apply Forall_cons in Hr as [Hv _]. simpl in Hwf. rewrite andb_true_r in Hwf.
    destruct n as [|n]; [lia|]. change (json_seq [v]) with (json_encode v) in *.
    cbn [parse_elems]. rewrite (Hv Hwf) by (first [lia|done]). reflexivity.
  - apply Forall_cons in Hr as [Hv Hr]. cbn [forallb] in Hwf. apply andb_true_iff in Hwf as [Hwv Hwf].
    change (json_seq (v :: v' :: l)) with (json_encode v +:+ "," +:+ json_seq (v' :: l)) in *.
    rewrite !slength_app in Hn. change (String.length ",") with 1%nat in Hn.
    destruct n as [|n]; [lia|]. cbn [parse_elems]. rewrite append_assoc, (Hv Hwv) by (first [lia|done]).
    change (skip_ws (("," +:+ json_seq (v' :: l)) +:+ "]" +:+ t))
      with (String "," (json_seq (v' :: l) +:+ "]" +:+ t)).
    change (byte_of "," =? 44) with true. cbv iota. rewrite IH by (first [done|lia]). reflexivity.
Qed.

Lemma parse_members_encode l kv n t :
  Forall (λ kv, reads kv.2) (kv :: l) → forallb (λ kv, json_wf kv.2) (kv :: l) = true →
  (2 * String.length (json_members (kv :: l)) + 1 ≤ n)%nat →
  parse_members n (json_members (kv :: l) +:+ "}" +:+ t) =
    Some ((λ kv, (replace_invalid kv.1, canon kv.2)) <$> (kv :: l), t).
Proof.
  assert (∀ n kv u, reads kv.2 → json_wf kv.2 = true → (2 * String.length (member kv) ≤ n)%nat → stops u →
    parse_members (S n) (member kv +:+ u) =
      match skip_ws u with
      | String d r4 =>
          if byte_of d =? 44 then
            match parse_members n r4 with
            | Some (l, r5) => Some ((replace_invalid kv.1, canon kv.2) :: l, r5)
            | None => None
            end
          else if byte_of d =? 125 then Some ([(replace_invalid kv.1, canon kv.2)], r4)
          else None
      | EmptyString => None
      end) as Hone.
  { intros n' [k v] u Hv Hwv Hlen Hu. simpl in Hv, Hwv. unfold member in *. cbn [fst snd] in *.
    rewrite !slength_app in Hlen. unfold encode_string. rewrite !append_assoc. unfold quote at 1. cbn [of_bytes].
    rewrite append_cons, append_nil. cbn [parse_members]. rewrite skip_ws_head by reflexivity.
    change (byte_of (of_byte 34) =? 34) with true. cbn [negb].
    rewrite str_body_encode.
    change (skip_ws (":" +:+ json_encode v +:+ u)) with (String ":" (json_encode v +:+ u)).
    change (byte_of ":" =? 58) with true. cbn [negb]. rewrite (Hv Hwv) by (first [lia|done]).
    by rewrite replace_invalid_idemp. }
  revert kv n. induction l as [|kv' l IH]; intros kv n Hr Hwf Hn.
  - apply Forall_cons in Hr as [Hv _]. simpl in Hwf. rewrite andb_true_r in Hwf.
    change (json_members [kv]) with (member kv) in *. destruct n as [|n]; [lia|].
    rewrite Hone by (first [lia|done]). reflexivity.
  - apply Forall_cons in Hr as [Hv Hr]. cbn [forallb] in Hwf. apply andb_true_iff in Hwf as [Hwv Hwf].
    change (json_members (kv :: kv' :: l)) with (member kv +:+ "," +:+ json_members (kv' :: l)) in *.
    rewrite !slength_app in Hn. change (String.length ",") with 1%nat in Hn.
    destruct n as [|n]; [lia|]. rewrite append_assoc, Hone by (first [lia|done]).
    change (skip_ws (("," +:+ json_members (kv' :: l)) +:+ "}" +:+ t))
      with (String "," (json_members (kv' :: l) +:+ "}" +:+ t)).
    change (byte_of "," =? 44) with true. cbv iota. rewrite IH by (first [done|lia]). reflexivity.
Qed.

Lemma has_prefix_nil t : has_prefix t "" = true.
Proof. by destruct t. Qed.

Lemma substring_zero m t : (String.length t ≤ m)%nat → String.substring 0 m t = t.
Proof. revert m. induction t as [|c t IH]; intros [|m] Hm; simpl in *; [done..|lia|]. by rewrite IH by lia. Qed.

Lemma parse_encode v : reads v.
Proof.
  induction v as [|b|lit|s|l IH|l IH] using json_ind'; intros Hwf n t Hn Ht.
  - destruct n; [simpl in Hn; lia|]. simpl json_encode. rewrite !append_cons, append_nil.
    simpl. rewrite has_prefix_nil. by rewrite substring_zero by lia.
  - destruct n; [destruct b; simpl in Hn; lia|].
    destruct b; simpl json_encode; rewrite !append_cons, append_nil; simpl;
      rewrite has_prefix_nil; by rewrite substring_zero by lia.
  - simpl in Hwf. apply bool_decide_eq_true in Hwf.
    destruct (number_head lit Hwf) as (c & w & Hlit & _).
    destruct n; [rewrite Hlit in Hn; simpl in Hn; lia|]. by apply parse_number.
  - cbn [json_encode canon] in *. unfold encode_string in *. rewrite !slength_app in Hn.
    change (String.length quote) with 1%nat in Hn. destruct n as [|n]; [lia|].
    rewrite !append_assoc. unfold quote at 1. cbn [of_bytes]. rewrite append_cons, append_nil.
    cbn [parse_value]. rewrite skip_ws_head by reflexivity. simpl (byte_of _ =? _).
    rewrite str_body_encode. by rewrite replace_invalid_idemp.
  - change (json_encode (JArr l)) with ("[" +:+ json_seq l +:+ "]") in *.
    rewrite !slength_app in Hn. simpl (String.length _) in Hn at 1 3. destruct n as [|n]; [lia|].
    rewrite !append_assoc, append_cons, append_nil. cbn [parse_value]. rewrite skip_ws_head by reflexivity.
    simpl (byte_of "[" =? _). cbv iota. destruct l as [|v l]; [reflexivity|].
    destruct (encode_head v) as (c & w & Hc & Hws & Hc93 & _).
    { cbn [json_wf forallb] in Hwf. by apply andb_true_iff in Hwf as [? _]. }
    assert (∃ w', json_seq (v :: l) = String c w') as [w' Hw'].
    { unfold json_seq. cbn [fmap list_fmap]. rewrite Hc. destruct l; simpl; [eauto|]. rewrite append_cons. eauto. }
    assert (skip_ws (json_seq (v :: l) +:+ "]" +:+ t) = json_seq (v :: l) +:+ "]" +:+ t) as ->.
    { rewrite Hw', append_cons. by apply skip_ws_head. }
    rewrite parse_elems_encode by (first [done|lia]).
    rewrite Hw', append_cons. by rewrite (proj2 (Z.eqb_neq _ _) Hc93).
  - change (json_encode (JObj l)) with ("{" +:+ json_members l +:+ "}") in *.
    rewrite !slength_app in Hn. simpl (String.length _) in Hn at 1 3. destruct n as [|n]; [lia|].
    rewrite !append_assoc, append_cons, append_nil. cbn [parse_value]. rewrite skip_ws_head by reflexivity.
    simpl (byte_of "{" =? _). cbv iota. destruct l as [|kv l]; [reflexivity|].
    assert (∃ w', json_members (kv :: l) = String (of_byte 34) w') as [w' Hw'].
    { unfold json_members, member, encode_string. cbn [fmap list_fmap].
      destruct l; simpl; unfold quote; cbn [of_bytes]; rewrite ?append_cons; eauto. }
    assert (skip_ws (json_members (kv :: l) +:+ "}" +:+ t) = json_members (kv :: l) +:+ "}" +:+ t) as ->.
    { rewrite Hw', append_cons. by apply skip_ws_head. }
    rewrite parse_members_encode by (first [done|lia]).
    rewrite Hw', append_cons. reflexivity.
Qed.

(** Marshalling a value and unmarshalling the text gives the value. *)
Theorem json_roundtrip v : json_wf v = true → json_parse (json_encode v) = Some (canon v).
Proof.
  intros Hwf. unfold json_parse.
  pose proof (parse_encode v Hwf (2 * String.length (json_encode v) + 2)%nat "" ltac:(lia) I) as H.
  rewrite append_nil_r in H. by rewrite H.
Qed.

(** * What the parser returns is well formed *)

Definition nondigit (t : string) : Prop := match t with EmptyString => True | String c _ => is_digit c = false end.

Lemma span_digits_cut s a b u : span_digits s = (a, b) → nondigit u → span_digits (a +:+ u) = (a, u).
Proof.
  revert a b. induction s as [|c s IH]; intros a b Hs Hu.
  - injection Hs as <- <-. rewrite append_nil. destruct u as [|d u]; [done|]. simpl. by rewrite Hu.
  - simpl in Hs. destruct (is_digit c) eqn:Hc.
    + destruct (span_digits s) as [a' b'] eqn:Hs'. injection Hs as <- <-. rewrite append_cons. simpl.
      by rewrite Hc, (IH a' b').
    + injection Hs as <- <-. rewrite append_nil. destruct u as [|d u]; [done|]. simpl. by rewrite Hu.
Qed.

Lemma lex_int_cut s a b u : lex_int s = Some (a, b) → nondigit u → lex_int (a +:+ u) = Some (a, u).
Proof.
  destruct s as [|c s]; [done|]. unfold lex_int at 1. intros Hs Hu. destruct (byte_of c =? 48) eqn:H48.
  - injection Hs as <- <-. rewrite append_cons. simpl. by rewrite H48.
  - destruct (span_digits (String c s)) as [d r] eqn:Hd. destruct (String.eqb d "") eqn:He; [done|].
    injection Hs as <- <-. pose proof (span_digits_cut _ _ _ u Hd Hu) as Hcut.
    destruct d as [|c' d]; [done|]. assert (c' = c) as ->.
    { simpl in Hd. destruct (is_digit c); [|done]. destruct (span_digits s). by injection Hd. }
    rewrite append_cons in *. unfold lex_int. by rewrite H48, Hcut.
Qed.

Lemma lex_frac_cut s a b u :
  lex_frac s = Some (a, b) → nondigit u → (∀ c w, u = String c w → byte_of c ≠ 46) →
  lex_frac (a +:+ u) = Some (a, u) ∧ (a = "" ∨ ∃ w, a = String "." w).
Proof.
  intros Hs Hu Hdot. destruct s as [|c s].
  - injection Hs as <- <-. split; [|by left]. rewrite append_nil. destruct u as [|d u]; [done|].
    unfold lex_frac. by rewrite (proj2 (Z.eqb_neq _ _) (Hdot d u eq_refl)).
  - unfold lex_frac in Hs. destruct (Z.eqb_spec (byte_of c) 46) as [H46|].
    + destruct (span_digits s) as [d r] eqn:Hd. destruct (String.eqb d "") eqn:He; [done|].
      injection Hs as <- <-. split.
      * rewrite append_cons. unfold lex_frac. rewrite (proj2 (Z.eqb_eq _ _) H46).
        by rewrite (span_digits_cut _ _ _ u Hd Hu), He.
      * right. exists d. f_equal. by apply byte_of_inj.
    + injection Hs as <- <-. split; [|by left]. rewrite append_nil. destruct u as [|d u]; [done|].
      unfold lex_frac. by rewrite (proj2 (Z.eqb_neq _ _) (Hdot d u eq_refl)).
Qed.

Lemma lex_exp_cut s a b :
  lex_exp s = Some (a, b) →
  lex_exp a = Some (a, "") ∧ nondigit a ∧ (∀ c w, a = String c w → byte_of c ≠ 46).
Proof.
  intros Hs. destruct s as [|c s]; [by injection Hs as <- <-|].
  unfold lex_exp in Hs. destruct ((byte_of c =? 101) || _) eqn:Hc.
  2: { by injection Hs as <- <-. }
  assert (byte_of c = 101 ∨ byte_of c = 69) as Hc' by (rewrite orb_true_iff, !Z.eqb_eq in Hc; done).
  assert (nondigit (String c EmptyString)) as Hnd.
  { simpl. unfold is_digit, digit_val. rewrite bool_decide_eq_false.
    assert ((48 <=? byte_of c) && (byte_of c <=? 57) = false) as ->
      by (apply andb_false_iff; rewrite !Z.leb_gt; lia). by intros []. }
  assert (∀ sg s2, (sg = "" ∧ (∀ g w, s2 = String g w → ((byte_of g =? 43) || (byte_of g =? 45)) = false) ∨
                    ∃ g, sg = String g "" ∧ ((byte_of g =? 43) || (byte_of g =? 45)) = true) →
    ∀ d r, span_digits s2 = (d, r) → String.eqb d "" = false →
    lex_exp (String c (sg +:+ d)) = Some (String c (sg +:+ d), "")) as Hexp.
  { intros sg s2 Hsg d r Hd He. pose proof (span_digits_cut _ _ _ "" Hd I) as Hcut.
    rewrite append_nil_r in Hcut. unfold lex_exp. rewrite Hc. destruct Hsg as [[-> Hg]|(g & -> & Hg)].
    - rewrite append_nil. destruct d as [|g d]; [done|].
      assert ((byte_of g =? 43) || (byte_of g =? 45) = false) as ->.
      { destruct s2 as [|g' s2]; [done|]. simpl in Hd. destruct (is_digit g'); [|done].
        destruct (span_digits s2). injection Hd as -> _ _. by eapply Hg. }
      by rewrite Hcut.
    - rewrite append_cons, append_nil, Hg, Hcut, He. done. }
  destruct s as [|g s]; [done|]. destruct ((byte_of g =? 43) || (byte_of g =? 45)) eqn:Hg.
  - destruct (span_digits s) as [d r] eqn:Hd. destruct (String.eqb d "") eqn:He; [done|].
    injection Hs as <- <-. split_and!; [|done|intros ? ? [= <-]; lia].
    eapply Hexp; [right; eauto|done..].
  - destruct (span_digits (String g s)) as [d r] eqn:Hd. destruct (String.eqb d "") eqn:He; [done|].
    injection Hs as <- <-. split_and!; [|done|intros ? ? [= <- _]; lia].
    eapply (Hexp "" (String g s)); [left; split; [done|]; by intros ? ? [= <- _]|done..].
Qed.

Lemma lex_number_literal s lit r : lex_number s = Some (lit, r) → number_literal lit.
Proof.
  unfold number_literal. intros Hs.
  assert (∀ s1 i s2 f s3 e s4, lex_int s1 = Some (i, s2) → lex_frac s2 = Some (f, s3) → lex_exp s3 = Some (e, s4) →
    lex_int (i +:+ f +:+ e) = Some (i, f +:+ e) ∧ lex_frac (f +:+ e) = Some (f, e) ∧ lex_exp e = Some (e, "")) as Hcut.
  { intros s1 i s2 f s3 e s4 Hi Hf He. destruct (lex_exp_cut _ _ _ He) as (He' & Hnd & Hdot).
    destruct (lex_frac_cut _ _ _ e Hf Hnd Hdot) as [Hf' Hhead]. split_and!; [|done..].
    eapply lex_int_cut; [exact Hi|]. destruct Hhead as [->|[w ->]]; [by rewrite append_nil|done]. }
  unfold lex_number in Hs. destruct s as [|c s]; [done|]. destruct (byte_of c =? 45) eqn:Hc.
  - destruct (lex_int s) as [[i s2]|] eqn:Hi; [|done]. destruct (lex_frac s2) as [[f s3]|] eqn:Hf; [|done].
    destruct (lex_exp s3) as [[e s4]|] eqn:He; [|done]. injection Hs as <- <-.
    destruct (Hcut _ _ _ _ _ _ _ Hi Hf He) as (H1 & H2 & H3).
    rewrite append_cons, append_nil. unfold lex_number. rewrite Hc, H1, H2, H3. by rewrite append_cons, append_nil.
  - destruct (lex_int (String c s)) as [[i s2]|] eqn:Hi; [|done].
    destruct (lex_frac s2) as [[f s3]|] eqn:Hf; [|done].
    destruct (lex_exp s3) as [[e s4]|] eqn:He; [|done]. injection Hs as <- <-.
    destruct (Hcut _ _ _ _ _ _ _ Hi Hf He) as (H1 & H2 & H3). rewrite append_nil.
    assert (∃ w, i = String c w) as [w ->].
    { unfold lex_int in Hi. destruct (byte_of c =? 48); [injection Hi as <- <-; eauto|]. simpl in Hi.
      destruct (is_digit c); [|done]. destruct (span_digits s). simpl in Hi. injection Hi as <- <-. eauto. }
    rewrite append_cons in *. unfold lex_number. rewrite Hc, H1, H2, H3. by rewrite append_nil, append_cons.
Qed.

Lemma parse_wf n :
  (∀ s v r, parse_value n s = Some (v, r) → json_wf v = true) ∧
  (∀ s l r, parse_elems n s = Some (l, r) → forallb json_wf l = true) ∧
  (∀ s l r, parse_members n s = Some (l, r) → forallb (λ kv, json_wf kv.2) l = true).
Proof.
  induction n as [|n (IHv & IHe & IHm)]; [done|]. split_and!; intros s v r Hp.
  - cbn [parse_value] in Hp. destruct (skip_ws s) as [|c t]; [done|].
    destruct (byte_of c =? 123).
    { destruct (skip_ws t) as [|d t']; [done|]. destruct (byte_of d =? 125); [by injection Hp as <- <-|].
      destruct parse_members as [[l r']|] eqn:Hm; [|done]. injection Hp as <- <-. by eapply IHm. }
    destruct (byte_of c =? 91).
    { destruct (skip_ws t) as [|d t']; [done|]. destruct (byte_of d =? 93); [by injection Hp as <- <-|].
      destruct parse_elems as [[l r']|] eqn:He; [|done]. injection Hp as <- <-. by eapply IHe. }
    destruct (byte_of c =? 34).
    { destruct str_body as [[b r']|]; [|done]. by injection Hp as <- <-. }
    destruct has_prefix; [by injection Hp as <- <-|]. destruct has_prefix; [by injection Hp as <- <-|].
    destruct has_prefix; [by injection Hp as <- <-|].
    destruct lex_number as [[lit r']|] eqn:Hl; [|done]. injection Hp as <- <-.
    apply bool_decide_eq_true. by eapply lex_number_literal.
  - cbn [parse_elems] in Hp. destruct parse_value as [[x r1]|] eqn:Hv; [|done]. apply IHv in Hv.
    destruct (skip_ws r1) as [|c t]; [done|]. destruct (byte_of c =? 44).
    + destruct parse_elems as [[l r2]|] eqn:He; [|done]. injection Hp as <- <-. simpl. rewrite Hv. by eapply IHe.
    + destruct (byte_of c =? 93); [|done]. injection Hp as <- <-. simpl. by rewrite Hv.
  - cbn [parse_members] in Hp. destruct (skip_ws s) as [|q r0]; [done|]. destruct (negb _); [done|].
    destruct str_body as [[k r1]|]; [|done]. destruct (skip_ws r1) as [|c r2]; [done|].
    destruct (negb _); [done|]. destruct parse_value as [[x r3]|] eqn:Hv; [|done]. apply IHv in Hv.
    destruct (skip_ws r3) as [|d r4]; [done|]. destruct (byte_of d =? 44).
    + destruct parse_members as [[l r5]|] eqn:He; [|done]. injection Hp as <- <-. simpl. rewrite Hv. by eapply IHm.
    + destruct (byte_of d =? 125); [|done]. injection Hp as <- <-. simpl. by rewrite Hv.
Qed.

Lemma json_parse_wf s v : json_parse s = Some v → json_wf v = true.
Proof.
  unfold json_parse. destruct parse_value as [[x r]|] eqn:Hp; [|done].
  destruct String.eqb; [|done]. intros [= <-]. by eapply (proj1 (parse_wf _)).
Qed.
