(* ===== verification/CtxUtil.v ===== *)
(** Package [ctxutil] (src/ctxutil/context.go): typed context keys and the
    With/Get helpers over them, and the [context.WithValue] chain they use.
    Keys of the other packages that store values in a context (socrate,
    aigateway) are distinct constructors, as their Go types are distinct. *)

From S2P Require Import Prelude GoText.

(** A UUID is its 16 bytes read as one number; [uuid.Nil] is 0. Parsing,
    printing and hashing UUIDs belong to github.com/google/uuid and are
    parameters of the definitions that use them. *)
Abbreviation UUID := N (only parsing).
Definition uuid_Nil : UUID := 0%N.

(** [socrate.ClientAttribution], stored in contexts by the socrate package. *)
Record ClientAttribution := { ca_IP : string; ca_UserAgent : string }.

#[global] Instance ClientAttribution_eq_dec : EqDecision ClientAttribution.
Proof. solve_decision. Defined.

Module ctxutil.

(** The key type [contextKey] is unexported: a key of another package is never
    equal to one of these. *)
Inductive ctxkey :=
| contextKey (name : string)
| clientAttributionKey
| localeCtxKey
| moduleCtxKey.

#[global] Instance ctxkey_eq_dec : EqDecision ctxkey.
Proof. solve_decision. Defined.

(** The dynamic types of the values stored. A logger is identified by a
    number; a nil slice or map is [None]. *)
Inductive ctxvalue :=
| VUUID (u : UUID)
| VString (s : string)
| VStrMap (m : option (gmap string string))
| VInt (n : Z)
| VInt64 (n : Z)
| VStrings (l : option (list string))
| VLogger (l : Z)
| VAttribution (a : ClientAttribution).

(** A context: the chain of [context.WithValue] calls, innermost first. *)
Definition context := list (ctxkey * ctxvalue).
Definition Background : context := [].

Definition WithValue (ctx : context) (k : ctxkey) (v : ctxvalue) : context := (k, v) :: ctx.

Fixpoint Value (ctx : context) (k : ctxkey) : option ctxvalue :=
  match ctx with
  | [] => None
  | (k', v) :: ctx' => if decide (k' = k) then Some v else Value ctx' k
  end.

(** [ctxutil/context.go:27-27] tenantIDKey *)
Definition tenantIDKey := contextKey "tenant_id".
(** [ctxutil/context.go:28-28] userPlanKey *)
Definition userPlanKey := contextKey "user_plan".
(** [ctxutil/context.go:29-29] userIDKey *)
Definition userIDKey := contextKey "user_id".
(** [ctxutil/context.go:30-30] userRoleKey *)
Definition userRoleKey := contextKey "user_role".
(** [ctxutil/context.go:31-31] userEmailKey *)
Definition userEmailKey := contextKey "user_email".
(** [ctxutil/context.go:32-32] userNameKey *)
Definition userNameKey := contextKey "user_name".
(** [ctxutil/context.go:33-33] userSubKey *)
Definition userSubKey := contextKey "user_sub".
(** [ctxutil/context.go:34-34] appRolesKey *)
Definition appRolesKey := contextKey "app_roles".
(** [ctxutil/context.go:35-35] tokenVersionKey *)
Definition tokenVersionKey := contextKey "token_version".
(** [ctxutil/context.go:36-36] loggerKey *)
Definition loggerKey := contextKey "logger".
(** [ctxutil/context.go:37-37] requestIDKey *)
Definition requestIDKey := contextKey "request_id".
(** [ctxutil/context.go:38-38] rawJWTKey *)
Definition rawJWTKey := contextKey "raw_jwt".
(** [ctxutil/context.go:39-39] authTimeKey *)
Definition authTimeKey := contextKey "auth_time".
(** [ctxutil/context.go:40-40] amrKey *)
Definition amrKey := contextKey "amr".
(** [ctxutil/context.go:41-41] audiencesKey *)
Definition audiencesKey := contextKey "audiences".
(** [ctxutil/context.go:42-42] scopesKey *)
Definition scopesKey := contextKey "scopes".

(** [ctxutil/context.go:48-50] WithTenantID *)
Definition WithTenantID (ctx : context) (tenantID : UUID) : context :=
  WithValue ctx tenantIDKey (VUUID tenantID).

(** [ctxutil/context.go:53-58] GetTenantID *)
Definition GetTenantID (ctx : context) : UUID :=
  match Value ctx tenantIDKey with Some (VUUID v) => v | _ => uuid_Nil end.

(** [ctxutil/context.go:62-68] GetTenantIDStr *)
Definition GetTenantIDStr (uuid_String : UUID → string) (ctx : context) : string :=
  let id := GetTenantID ctx in
  if decide (id = uuid_Nil) then "" else uuid_String id.

(** [ctxutil/context.go:73-75] WithUserID *)
Definition WithUserID (ctx : context) (userID : UUID) : context :=
  WithValue ctx userIDKey (VUUID userID).

(** [ctxutil/context.go:78-83] GetUserID *)
Definition GetUserID (ctx : context) : UUID :=
  match Value ctx userIDKey with Some (VUUID v) => v | _ => uuid_Nil end.

(** [ctxutil/context.go:86-88] WithUserRole *)
Definition WithUserRole (ctx : context) (role : string) : context :=
  WithValue ctx userRoleKey (VString role).

(** [ctxutil/context.go:91-96] GetUserRole *)
Definition GetUserRole (ctx : context) : string :=
  match Value ctx userRoleKey with Some (VString v) => v | _ => "" end.

(** [ctxutil/context.go:99-101] WithUserPlan *)
Definition WithUserPlan (ctx : context) (plan : string) : context :=
  WithValue ctx userPlanKey (VString plan).

(** [ctxutil/context.go:105-110] GetUserPlan *)
Definition GetUserPlan (ctx : context) : string :=
  match Value ctx userPlanKey with
  | Some (VString v) => if String.eqb v "" then "freemium" else v
  | _ => "freemium"
  end.

(** [ctxutil/context.go:113-115] WithUserEmail *)
Definition WithUserEmail (ctx : context) (email : string) : context :=
  WithValue ctx userEmailKey (VString email).

(** [ctxutil/context.go:118-123] GetUserEmail *)
Definition GetUserEmail (ctx : context) : string :=
  match Value ctx userEmailKey with Some (VString v) => v | _ => "" end.

(** [ctxutil/context.go:126-128] WithUserName *)
Definition WithUserName (ctx : context) (name : string) : context :=
  WithValue ctx userNameKey (VString name).

(** [ctxutil/context.go:131-136] GetUserName *)
Definition GetUserName (ctx : context) : string :=
  match Value ctx userNameKey with Some (VString v) => v | _ => "" end.

(** [ctxutil/context.go:139-141] WithUserSub *)
Definition WithUserSub (ctx : context) (sub : string) : context :=
  WithValue ctx userSubKey (VString sub).

(** [ctxutil/context.go:144-149] GetUserSub *)
Definition GetUserSub (ctx : context) : string :=
  match Value ctx userSubKey with Some (VString v) => v | _ => "" end.

(** [ctxutil/context.go:154-156] WithAppRoles *)
Definition WithAppRoles (ctx : context) (roles : option (gmap string string)) : context :=
  WithValue ctx appRolesKey (VStrMap roles).

(** [ctxutil/context.go:160-165] GetAppRoles *)
Definition GetAppRoles (ctx : context) : option (gmap string string) :=
  match Value ctx appRolesKey with Some (VStrMap v) => v | _ => None end.

(** [ctxutil/context.go:169-175] GetAppRole *)
Definition GetAppRole (ctx : context) (clientID : string) : string :=
  match GetAppRoles ctx with
  | None => ""
  | Some roles => default "" (roles !! clientID)
  end.

(** [ctxutil/context.go:178-180] WithTokenVersion *)
Definition WithTokenVersion (ctx : context) (v : Z) : context :=
  WithValue ctx tokenVersionKey (VInt v).

(** [ctxutil/context.go:183-188] GetTokenVersion *)
Definition GetTokenVersion (ctx : context) : Z :=
  match Value ctx tokenVersionKey with Some (VInt v) => v | _ => 0 end.

(** [ctxutil/context.go:192-194] WithAuthTime *)
Definition WithAuthTime (ctx : context) (unix : Z) : context :=
  WithValue ctx authTimeKey (VInt64 unix).

(** [ctxutil/context.go:198-203] GetAuthTime *)
Definition GetAuthTime (ctx : context) : Z :=
  match Value ctx authTimeKey with Some (VInt64 v) => v | _ => 0 end.

(** [ctxutil/context.go:207-209] WithAMR *)
Definition WithAMR (ctx : context) (amr : option (list string)) : context :=
  WithValue ctx amrKey (VStrings amr).

(** [ctxutil/context.go:212-217] GetAMR *)
Definition GetAMR (ctx : context) : option (list string) :=
  match Value ctx amrKey with Some (VStrings v) => v | _ => None end.

(** [append([]string(nil), l...)]: a copy, nil when there is nothing to copy. *)
Definition copy_strings (l : list string) : option (list string) :=
  match l with [] => None | _ => Some l end.

(** [ctxutil/context.go:225-227] WithAudiences *)
Definition WithAudiences (ctx : context) (l : list string) : context :=
  WithValue ctx audiencesKey (VStrings (copy_strings l)).

(** [ctxutil/context.go:232-237] GetAudiences *)
Definition GetAudiences (ctx : context) : option (list string) :=
  match Value ctx audiencesKey with
  | Some (VStrings (Some v)) => copy_strings v
  | _ => None
  end.

(** [ctxutil/context.go:242-244] WithScopes *)
Definition WithScopes (ctx : context) (l : list string) : context :=
  WithValue ctx scopesKey (VStrings (copy_strings l)).

(** [ctxutil/context.go:248-253] GetScopes *)
Definition GetScopes (ctx : context) : option (list string) :=
  match Value ctx scopesKey with
  | Some (VStrings (Some v)) => copy_strings v
  | _ => None
  end.

(** [ctxutil/context.go:260-262] WithRawJWT *)
Definition WithRawJWT (ctx : context) (token : string) : context :=
  WithValue ctx rawJWTKey (VString token).

(** [ctxutil/context.go:266-271] GetRawJWT *)
Definition GetRawJWT (ctx : context) : string :=
  match Value ctx rawJWTKey with Some (VString v) => v | _ => "" end.

(** [ctxutil/context.go:276-278] WithLogger *)
Definition WithLogger (ctx : context) (logger : Z) : context :=
  WithValue ctx loggerKey (VLogger logger).

(** [ctxutil/context.go:282-287] GetLogger *)
Definition GetLogger (standard : Z) (ctx : context) : Z :=
  match Value ctx loggerKey with Some (VLogger v) => v | _ => standard end.

(** [ctxutil/context.go:292-294] WithRequestID *)
Definition WithRequestID (ctx : context) (reqID : string) : context :=
  WithValue ctx requestIDKey (VString reqID).

(** [ctxutil/context.go:297-302] GetRequestID *)
Definition GetRequestID (ctx : context) : string :=
  match Value ctx requestIDKey with Some (VString v) => v | _ => "" end.

(** [ctxutil/context.go:309-309] GetTenantTier *)
Definition GetTenantTier (ctx : context) : string := GetUserPlan ctx.

(** [ctxutil/context.go:314-316] WithTenantTier *)
Definition WithTenantTier (ctx : context) (tier : string) : context := WithUserPlan ctx tier.

(** * Lemmas *)

Lemma Value_WithValue_eq ctx k v : Value (WithValue ctx k v) k = Some v.
Proof. simpl. by rewrite decide_True. Qed.

Lemma Value_WithValue_ne ctx k k' v : k ≠ k' → Value (WithValue ctx k v) k' = Value ctx k'.
Proof. intros H. simpl. by rewrite decide_False. Qed.

End ctxutil.

(** Reading a value through any number of [With...] of other keys. *)
Ltac ctx_simpl :=
  repeat first
    [ rewrite ctxutil.Value_WithValue_eq
    | rewrite ctxutil.Value_WithValue_ne by discriminate ].
