(* ===== verification/Http.v ===== *)
(** The parts of [net/http] and [net/url] the modelled code relies on: headers
    with canonical keys, requests and responses, cookies, status texts, and
    middleware as a verdict on a request. *)

From S2P Require Import Prelude GoText GoJson CtxUtil.

(** * Headers *)

Definition is_upper (b : Z) : bool := (65 <=? b) && (b <=? 90).
Definition is_lower (b : Z) : bool := (97 <=? b) && (b <=? 122).
Definition is_dec (b : Z) : bool := (48 <=? b) && (b <=? 57).

(** RFC 7230 token characters. *)
Definition is_token_byte (b : Z) : bool :=
  is_upper b || is_lower b || is_dec b ||
  contains [33; 35; 36; 37; 38; 39; 42; 43; 45; 46; 94; 95; 96; 124; 126] b.

Fixpoint canonical_bytes (upper : bool) (s : string) : string :=
  match s with
  | EmptyString => EmptyString
  | String c s' =>
      let b := byte_of c in
      let b' := if upper && is_lower b then b - 32
                else if negb upper && is_upper b then b + 32 else b in
      String (of_byte b') (canonical_bytes (b =? 45) s')
  end.

(** [textproto.CanonicalMIMEHeaderKey]: a key with a byte that is not a token
    character is left as it is. *)
Definition canonical_key (k : string) : string :=
  if all_bytes is_token_byte k then canonical_bytes true k else k.

Abbreviation Header := (gmap string (list string)) (only parsing).

Definition header_Get (h : Header) (k : string) : string :=
  match h !! canonical_key k with Some (v :: _) => v | _ => "" end.
Definition header_Set (h : Header) (k v : string) : Header := <[canonical_key k := [v]]> h.
Definition header_Del (h : Header) (k : string) : Header := delete (canonical_key k) h.

Lemma header_Get_Set h k v : header_Get (header_Set h k v) k = v.
Proof. unfold header_Get, header_Set. by rewrite lookup_insert_eq. Qed.

Lemma header_Get_Set_ne h k k' v :
  canonical_key k ≠ canonical_key k' → header_Get (header_Set h k v) k' = header_Get h k'.
Proof. intros H. unfold header_Get, header_Set. by rewrite lookup_insert_ne. Qed.

Lemma header_Get_Del h k : header_Get (header_Del h k) k = "".
Proof. unfold header_Get, header_Del. by rewrite lookup_delete_eq. Qed.

(** * Requests and responses *)

Record Request := {
  req_Method : string;
  req_Path : string;
  req_RawQuery : string;
  req_Pattern : string;
  req_RemoteAddr : string;
  req_Header : Header;
  req_ctx : ctxutil.context;
}.

Definition with_ctx (r : Request) (ctx : ctxutil.context) : Request :=
  {| req_Method := req_Method r; req_Path := req_Path r; req_RawQuery := req_RawQuery r;
     req_Pattern := req_Pattern r; req_RemoteAddr := req_RemoteAddr r;
     req_Header := req_Header r; req_ctx := ctx |}.

Definition with_header (r : Request) (h : Header) : Request :=
  {| req_Method := req_Method r; req_Path := req_Path r; req_RawQuery := req_RawQuery r;
     req_Pattern := req_Pattern r; req_RemoteAddr := req_RemoteAddr r;
     req_Header := h; req_ctx := req_ctx r |}.

(** SameSite attribute of a cookie. *)
Inductive SameSite := SameSiteLax | SameSiteStrict.

#[global] Instance SameSite_eq_dec : EqDecision SameSite.
Proof. solve_decision. Defined.

Record Cookie := {
  ck_Name : string; ck_Value : string; ck_Path : string; ck_HttpOnly : bool;
  ck_Secure : bool; ck_SameSite : SameSite; ck_MaxAge : Z;
}.

(** The response being written: its headers, the cookies set on it, the status
    once it is sent, and the bytes of the body. *)
Record ResponseWriter := {
  rw_Header : Header;
  rw_Cookies : list Cookie;
  rw_Status : option Z;
  rw_Body : string;
}.

Definition new_response : ResponseWriter :=
  {| rw_Header := ∅; rw_Cookies := []; rw_Status := None; rw_Body := "" |}.

Definition rw_set_header (w : ResponseWriter) (k v : string) : ResponseWriter :=
  {| rw_Header := header_Set (rw_Header w) k v; rw_Cookies := rw_Cookies w;
     rw_Status := rw_Status w; rw_Body := rw_Body w |}.

Definition rw_del_header (w : ResponseWriter) (k : string) : ResponseWriter :=
  {| rw_Header := header_Del (rw_Header w) k; rw_Cookies := rw_Cookies w;
     rw_Status := rw_Status w; rw_Body := rw_Body w |}.

(** Only the first [WriteHeader] counts. *)
Definition rw_write_header (w : ResponseWriter) (code : Z) : ResponseWriter :=
  {| rw_Header := rw_Header w; rw_Cookies := rw_Cookies w;
     rw_Status := match rw_Status w with None => Some code | st => st end;
     rw_Body := rw_Body w |}.

(** [Write] sends status 200 if none was sent. *)
Definition rw_write (w : ResponseWriter) (b : string) : ResponseWriter :=
  {| rw_Header := rw_Header w; rw_Cookies := rw_Cookies w;
     rw_Status := match rw_Status w with None => Some 200 | st => st end;
     rw_Body := rw_Body w +:+ b |}.

Definition newline : string := of_bytes [10].

(** [http.Error]. *)
Definition http_Error (w : ResponseWriter) (msg : string) (code : Z) : ResponseWriter :=
  let w := rw_del_header w "Content-Length" in
  let w := rw_set_header w "Content-Type" "text/plain; charset=utf-8" in
  let w := rw_set_header w "X-Content-Type-Options" "nosniff" in
  rw_write (rw_write_header w code) (msg +:+ newline).

(** [json.NewEncoder(w).Encode(v)]. *)
Definition rw_encode (w : ResponseWriter) (v : json) : ResponseWriter :=
  rw_write w (json_encode v +:+ newline).

(** [http.StatusText]. *)
Definition StatusText (code : Z) : string :=
  match code with
  | 100 => "Continue" | 101 => "Switching Protocols" | 102 => "Processing"
  | 103 => "Early Hints" | 200 => "OK" | 201 => "Created" | 202 => "Accepted"
  | 203 => "Non-Authoritative Information" | 204 => "No Content" | 205 => "Reset Content"
  | 206 => "Partial Content" | 207 => "Multi-Status" | 208 => "Already Reported"
  | 226 => "IM Used" | 300 => "Multiple Choices" | 301 => "Moved Permanently"
  | 302 => "Found" | 303 => "See Other" | 304 => "Not Modified" | 305 => "Use Proxy"
  | 307 => "Temporary Redirect" | 308 => "Permanent Redirect" | 400 => "Bad Request"
  | 401 => "Unauthorized" | 402 => "Payment Required" | 403 => "Forbidden"
  | 404 => "Not Found" | 405 => "Method Not Allowed" | 406 => "Not Acceptable"
  | 407 => "Proxy Authentication Required" | 408 => "Request Timeout" | 409 => "Conflict"
  | 410 => "Gone" | 411 => "Length Required" | 412 => "Precondition Failed"
  | 413 => "Request Entity Too Large" | 414 => "Request URI Too Long"
  | 415 => "Unsupported Media Type" | 416 => "Requested Range Not Satisfiable"
  | 417 => "Expectation Failed" | 418 => "I'm a teapot" | 421 => "Misdirected Request"
  | 422 => "Unprocessable Entity" | 423 => "Locked" | 424 => "Failed Dependency"
  | 425 => "Too Early" | 426 => "Upgrade Required" | 428 => "Precondition Required"
  | 429 => "Too Many Requests" | 431 => "Request Header Fields Too Large"
  | 451 => "Unavailable For Legal Reasons" | 500 => "Internal Server Error"
  | 501 => "Not Implemented" | 502 => "Bad Gateway" | 503 => "Service Unavailable"
  | 504 => "Gateway Timeout" | 505 => "HTTP Version Not Supported"
  | 506 => "Variant Also Negotiates" | 507 => "Insufficient Storage"
  | 508 => "Loop Detected" | 510 => "Not Extended"
  | 511 => "Network Authentication Required"
  | _ => ""
  end.

(** * Cookies *)

(** [http.SetCookie]: a cookie whose name is not a token is dropped. *)
Definition SetCookie (w : ResponseWriter) (c : Cookie) : ResponseWriter :=
  if negb (String.eqb (ck_Name c) "") && all_bytes is_token_byte (ck_Name c) then
    {| rw_Header := rw_Header w; rw_Cookies := rw_Cookies w ++ [c];
       rw_Status := rw_Status w; rw_Body := rw_Body w |}
  else w.

(** Reading the Cookie header: parts separated by semicolons, trimmed of
    spaces and tabs, a token name, a value with allowed bytes, optionally
    quoted. *)
Definition ows (c : ascii) : bool := let b := byte_of c in (b =? 32) || (b =? 9).

Fixpoint trim_left_ows (s : string) : string :=
  match s with
  | String c s' => if ows c then trim_left_ows s' else s
  | EmptyString => EmptyString
  end.

Fixpoint trim_right_ows (s : string) : string :=
  match s with
  | EmptyString => EmptyString
  | String c s' =>
      match trim_right_ows s' with
      | EmptyString => if ows c then EmptyString else String c EmptyString
      | t => String c t
      end
  end.

Definition trim_ows (s : string) : string := trim_right_ows (trim_left_ows s).

Definition cookie_value_byte (b : Z) : bool :=
  (32 <=? b) && (b <? 127) && negb (b =? 34) && negb (b =? 59) && negb (b =? 92).

Definition unquote_cookie (v : string) : string :=
  let n := String.length v in
  match v with
  | String c _ =>
      if (1 <? n)%nat && (byte_of c =? 34) &&
         match last_index_byte (of_byte 34) v with Some i => (i =? n - 1)%nat | None => false end
      then String.substring 1 (n - 2) v else v
  | EmptyString => v
  end.

Definition parse_cookie_part (part : string) : option (string * string) :=
  let part := trim_ows part in
  if String.eqb part "" then None else
  let '(name, v) := match str_cut "=" part with Some p => p | None => (part, "") end in
  let name := trim_ows name in
  if String.eqb name "" || negb (all_bytes is_token_byte name) then None else
  let v := unquote_cookie v in
  if all_bytes cookie_value_byte v then Some (name, v) else None.

Definition read_cookies (h : Header) : list (string * string) :=
  match h !! "Cookie" with
  | None => []
  | Some lines => omap parse_cookie_part (mjoin (str_split ";" <$> lines))
  end.

(** [Request.Cookie(name)]: the value of the first cookie of that name. *)
Definition request_Cookie (r : Request) (name : string) : option string :=
  if String.eqb name "" then None
  else snd <$> (list_find (λ kv : string * string, kv.1 = name) (read_cookies (req_Header r))
                 ≫= λ p, Some p.2).

(** [net.SplitHostPort]: the host part, or [None] on an error. *)
Definition SplitHost (hostport : string) : option string :=
  match last_index_byte ":" hostport with
  | None => None
  | Some i =>
      let n := String.length hostport in
      match hostport with
      | String "[" _ =>
          match index_byte "]" hostport with
          | None => None
          | Some e =>
              if negb (S e =? i)%nat then None
              else if match index_byte "[" (slice 1 n hostport) with Some _ => true | None => false end then None
              else if match index_byte "]" (slice (S e) n hostport) with Some _ => true | None => false end then None
              else Some (slice 1 e hostport)
          end
      | _ =>
          let host := slice 0 i hostport in
          if match index_byte ":" host with Some _ => true | None => false end then None
          else if match index_byte "[" hostport with Some _ => true | None => false end then None
          else if match index_byte "]" hostport with Some _ => true | None => false end then None
          else Some host
      end
  end.

Example split_host_ex :
  SplitHost "1.2.3.4:80" = Some "1.2.3.4" ∧ SplitHost "[::1]:80" = Some "::1" ∧
  SplitHost "::1" = None ∧ SplitHost "host" = None.
Proof. vm_compute. done. Qed.

(** * Middleware

    What a middleware does with a request before its handler runs: answer it,
    or call the next handler with a response and a request. *)
Inductive verdict :=
| Reply (w : ResponseWriter)
| Next (w : ResponseWriter) (r : Request).

Definition Gate := ResponseWriter → Request → verdict.
Definition Handler := ResponseWriter → Request → ResponseWriter.

Definition serve (g : Gate) (next : Handler) : Handler :=
  λ w r, match g w r with Reply w' => w' | Next w' r' => next w' r' end.

(** One gate after another. *)
Definition chain (g1 g2 : Gate) : Gate :=
  λ w r, match g1 w r with Reply w' => Reply w' | Next w' r' => g2 w' r' end.

Lemma serve_chain g1 g2 next w r : serve (chain g1 g2) next w r = serve g1 (serve g2 next) w r.
Proof. unfold serve, chain. by destruct (g1 w r). Qed.

Example canonical_ex : canonical_key "X-CSRF-Token" = "X-Csrf-Token".
Proof. vm_compute. reflexivity. Qed.

Example cookie_ex :
  read_cookies {[ "Cookie" := ["a=1; sid=abc;bad name=2"; "q=" +:+ of_bytes [34; 120; 34]] ]} =
  [("a", "1"); ("sid", "abc"); ("q", "x")].
Proof. vm_compute. reflexivity. Qed.
