(* ===== verification/ApiError.v ===== *)
(** Package [apierror] (src/apierror/errors.go): the error type of the HTTP
    layer, its constructors, and the two ways it is written to a client. The
    theorems show that the status reaches the client and that the message and
    details of a 5xx error never do. *)

From S2P Require Import Prelude GoText GoJson CtxUtil Http.

Module apierror.

(** [apierror/errors.go:12-22] AppError
    [Details] is any JSON-serialisable value; nil is [None]. *)
Record AppError := {
  Code : string;
  Key : string;
  Message : string;
  StatusCode : Z;
  Details : option json;
}.

Definition mkError (code : string) (status : Z) (msg : string) (details : option json) : AppError :=
  {| Code := code; Key := ""; Message := msg; StatusCode := status; Details := details |}.

(** [apierror/errors.go:24-24] AppError.Error *)
Definition Error (e : AppError) : string := Message e.

(** [apierror/errors.go:30-33] AppError.WithKey *)
Definition WithKey (e : AppError) (key : string) : AppError :=
  {| Code := Code e; Key := key; Message := Message e; StatusCode := StatusCode e;
     Details := Details e |}.

(** [apierror/errors.go:36-39] AppError.WithDetails *)
Definition WithDetails (e : AppError) (details : option json) : AppError :=
  {| Code := Code e; Key := Key e; Message := Message e; StatusCode := StatusCode e;
     Details := details |}.

(** [apierror/errors.go:47-53] NotFound *)
Definition NotFound (entity id : string) : AppError :=
  mkError "not_found" 404 (entity +:+ " not found: " +:+ id) None.

(** [apierror/errors.go:56-63] ValidationError *)
Definition ValidationError (msg : string) (details : option json) : AppError :=
  mkError "validation_error" 422 msg details.

(** [apierror/errors.go:66-72] BadRequest *)
Definition BadRequest (msg : string) : AppError := mkError "bad_request" 400 msg None.

(** [apierror/errors.go:75-81] Unauthorized *)
Definition Unauthorized (msg : string) : AppError := mkError "unauthorized" 401 msg None.

(** [apierror/errors.go:84-90] Forbidden *)
Definition Forbidden (msg : string) : AppError := mkError "forbidden" 403 msg None.

(** [apierror/errors.go:93-99] Conflict *)
Definition Conflict (msg : string) : AppError := mkError "conflict" 409 msg None.

(** [apierror/errors.go:102-108] TooManyRequests *)
Definition TooManyRequests (msg : string) : AppError := mkError "too_many_requests" 429 msg None.

(** [apierror/errors.go:111-117] Internal *)
Definition Internal (msg : string) : AppError := mkError "internal_error" 500 msg None.

(** [apierror/errors.go:120-126] ServiceUnavailable *)
Definition ServiceUnavailable (msg : string) : AppError :=
  mkError "service_unavailable" 503 msg None.

(** [apierror/errors.go:129-135] BadGateway *)
Definition BadGateway (msg : string) : AppError := mkError "bad_gateway" 502 msg None.

(** [apierror/errors.go:162-187] codeForStatus *)
Definition codeForStatus (status : Z) : string :=
  match status with
  | 400 => "bad_request"
  | 401 => "unauthorized"
  | 403 => "forbidden"
  | 404 => "not_found"
  | 409 => "conflict"
  | 422 => "validation_error"
  | 429 => "too_many_requests"
  | 500 => "internal_error"
  | 502 => "bad_gateway"
  | 503 => "service_unavailable"
  | _ => "error"
  end.

(** [apierror/errors.go:142-148] New *)
Definition New (status : Z) (msg : string) : AppError :=
  mkError (codeForStatus status) status msg None.

(** The members of an object whose [omitempty] value is not empty. *)
Definition opt_str (k v : string) : list (string * json) :=
  if String.eqb v "" then [] else [(k, JStr v)].
Definition opt_json (k : string) (v : option json) : list (string * json) :=
  match v with None => [] | Some j => [(k, j)] end.

Definition AppError_json (e : AppError) : json :=
  JObj ([("code", JStr (Code e))] ++ opt_str "key" (Key e) ++ [("message", JStr (Message e))]
          ++ opt_json "details" (Details e)).

(** [apierror/errors.go:42-44] ErrorResponse *)
Definition ErrorResponse_json (e : AppError) : json := JObj [("error", AppError_json e)].

(** [apierror/errors.go:196-204] the copy [WriteJSON] serialises *)
Definition public_error (e : AppError) : AppError :=
  if 500 <=? StatusCode e then
    {| Code := Code e; Key := Key e;
       Message := if String.eqb (StatusText (StatusCode e)) ""
                  then "internal server error" else StatusText (StatusCode e);
       StatusCode := StatusCode e; Details := None |}
  else e.

(** [apierror/errors.go:195-208] AppError.WriteJSON *)
Definition WriteJSON (e : AppError) (w : ResponseWriter) : ResponseWriter :=
  let w := rw_set_header w "Content-Type" "application/json" in
  let w := rw_write_header w (StatusCode e) in
  rw_encode w (ErrorResponse_json (public_error e)).

(** [apierror/errors.go:154-156] Write *)
Definition Write (w : ResponseWriter) (status : Z) (msg : string) : ResponseWriter :=
  WriteJSON (New status msg) w.

(** [apierror/errors.go:224-232] Problem *)
Record Problem := {
  p_Type : string; p_Title : string; p_Status : Z; p_Detail : string;
  p_Code : string; p_Key : string; p_Details : option json;
}.

Definition Problem_json (p : Problem) : json :=
  JObj ([("type", JStr (p_Type p)); ("title", JStr (p_Title p));
         ("status", JNum (itoa (p_Status p)))]
          ++ opt_str "detail" (p_Detail p) ++ [("code", JStr (p_Code p))]
          ++ opt_str "key" (p_Key p) ++ opt_json "details" (p_Details p)).

(** [apierror/errors.go:240-254] the problem [WriteProblem] builds *)
Definition problem_of (e : AppError) : Problem :=
  let title := StatusText (StatusCode e) in
  let hide := 500 <=? StatusCode e in
  {| p_Type := "about:blank";
     p_Title := if String.eqb title "" then "Error" else title;
     p_Status := StatusCode e;
     p_Detail := if hide then "" else Message e;
     p_Code := Code e; p_Key := Key e;
     p_Details := if hide then None else Details e |}.

(** [apierror/errors.go:239-258] AppError.WriteProblem *)
Definition WriteProblem (e : AppError) (w : ResponseWriter) : ResponseWriter :=
  let w := rw_set_header w "Content-Type" "application/problem+json" in
  let w := rw_write_header w (StatusCode e) in
  rw_encode w (Problem_json (problem_of e)).

(** [apierror/errors.go:214-214] ErrorWriter *)
Definition ErrorWriter := ResponseWriter → Request → AppError → ResponseWriter.

(** [apierror/errors.go:217-217] JSONWriter *)
Definition JSONWriter : ErrorWriter := λ w _ e, WriteJSON e w.

(** [apierror/errors.go:220-220] ProblemWriter *)
Definition ProblemWriter : ErrorWriter := λ w _ e, WriteProblem e w.

(** * Properties *)

(** A response whose status is not sent yet gets the error's status. *)
Lemma WriteJSON_status e w : rw_Status w = None → rw_Status (WriteJSON e w) = Some (StatusCode e).
Proof. intros H. simpl. by rewrite H. Qed.

Lemma WriteProblem_status e w :
  rw_Status w = None → rw_Status (WriteProblem e w) = Some (StatusCode e).
Proof. intros H. simpl. by rewrite H. Qed.

(** A 5xx answer does not depend on the dev-facing message or details of
    the error: two errors with the same status, code and key are written as the
    same response by both writers, whatever their messages and details. *)
Theorem server_error_hides_message (e1 e2 : AppError) (w : ResponseWriter) :
  500 ≤ StatusCode e1 → StatusCode e1 = StatusCode e2 → Code e1 = Code e2 → Key e1 = Key e2 →
  WriteJSON e1 w = WriteJSON e2 w ∧ WriteProblem e1 w = WriteProblem e2 w.
Proof.
  intros H Hs Hc Hk. unfold WriteJSON, WriteProblem, public_error, problem_of.
  rewrite <-Hs, <-Hc, <-Hk. by rewrite (proj2 (Z.leb_le _ _) H).
Qed.

Lemma server_error_hides_message_witness :
  WriteJSON (Internal "pq: password authentication failed") new_response =
  WriteJSON (Internal "") new_response ∧
  WriteProblem (Internal "pq: password authentication failed") new_response =
  WriteProblem (Internal "") new_response.
Proof. apply server_error_hides_message; [simpl; lia|reflexivity..]. Defined.

(** The typed constructors agree with [New]: an error built from a status
    the constructors know carries the same code as the constructor, so the
    client sees the same response whichever way it was built. *)
Lemma constructors_agree_with_New (msg : string) :
  BadRequest msg = New 400 msg ∧ Unauthorized msg = New 401 msg ∧ Forbidden msg = New 403 msg ∧
  (∀ entity id, NotFound entity id = New 404 (entity +:+ " not found: " +:+ id)) ∧
  Conflict msg = New 409 msg ∧ ValidationError msg None = New 422 msg ∧
  TooManyRequests msg = New 429 msg ∧ Internal msg = New 500 msg ∧
  BadGateway msg = New 502 msg ∧ ServiceUnavailable msg = New 503 msg.
Proof. repeat split. Qed.

End apierror.
