(* ===== verification/JwtKeys.v ===== *)
(** The signing keys of package [jwtauth] (src/jwtauth/middleware.go): parsing
    a JWKS document, the key cache with its cooldown and its negative cache,
    and the lookup of a token's key. The state of the cache is explicit; the
    answer of the JWKS endpoint and the clock readings of a call are its
    inputs. *)

From S2P Require Import Prelude GoText GoJson.

Module jwtkeys.

(** [rsa.PublicKey]. *)
Record PublicKey := { pk_N : Z; pk_E : Z }.

#[global] Instance PublicKey_eq_dec : EqDecision PublicKey.
Proof. solve_decision. Defined.

(** [jwtauth/middleware.go: jwksKey] *)
Record jwksKey := { Kty : string; Kid : string; Use : string; Alg : string; N : string; E : string }.

Definition zero_jwksKey : jwksKey :=
  {| Kty := ""; Kid := ""; Use := ""; Alg := ""; N := ""; E := "" |}.

Definition decode_jwksKey (_ : jwksKey) (v : json) : option jwksKey :=
  match v with
  | JObj l =>
      kty ← decode_field decode_string "" "kty" l;
      kid ← decode_field decode_string "" "kid" l;
      use ← decode_field decode_string "" "use" l;
      alg ← decode_field decode_string "" "alg" l;
      n ← decode_field decode_string "" "n" l;
      e ← decode_field decode_string "" "e" l;
      Some {| Kty := kty; Kid := kid; Use := use; Alg := alg; N := n; E := e |}
  | JNull => Some zero_jwksKey
  | _ => None
  end.

(** [jwtauth/middleware.go: jwksResponse] *)
Definition decode_jwks (v : json) : option (list jwksKey) :=
  match v with
  | JObj l =>
      decode_field (λ _ v, match v with
                           | JArr ks => mapM (decode_jwksKey zero_jwksKey) ks
                           | JNull => Some []
                           | _ => None
                           end) [] "keys" l
  | JNull => Some []
  | _ => None
  end.

(** * Keys *)

(** [jwtauth/middleware.go:812-812] maxJWKSBytes *)
Definition maxJWKSBytes : Z := 1048576.
(** [jwtauth/middleware.go:816-816] minRSAKeyBits *)
Definition minRSAKeyBits : Z := 2048.
(** [jwtauth/middleware.go:820-820] maxRSAExponent *)
Definition maxRSAExponent : Z := 2 ^ 31.

(** [big.Int.SetBytes], [BitLen] and [IsInt64] of a non-negative number. *)
Definition big_of_bytes (l : list Z) : Z := fold_left (λ acc b, acc * 256 + b) l 0.
Definition bit_len (n : Z) : Z := if n =? 0 then 0 else Z.log2 n + 1.

(** [jwtauth/middleware.go: parseRSAPublicKey] *)
Definition parseRSAPublicKey (nStr eStr : string) : option PublicKey :=
  match b64_decode_bytes nStr with
  | None => None
  | Some nBytes =>
      match b64_decode_bytes eStr with
      | None => None
      | Some eBytes =>
          let n := big_of_bytes nBytes in
          if bit_len n <? minRSAKeyBits then None
          else
            let e := big_of_bytes eBytes in
            if negb (bool_decide (in_int64 e)) then None
            else if (e <? 3) || (maxRSAExponent <? e) || (Z.land e 1 =? 0) then None
            else Some {| pk_N := n; pk_E := e |}
      end
  end.

(** The keys of a JWKS document: RSA signing keys that parse; a kid listed
    twice keeps its last key. *)
Definition usable_key (k : jwksKey) : option PublicKey :=
  if negb (String.eqb (Kty k) "RSA") || negb (String.eqb (Use k) "sig") then None
  else parseRSAPublicKey (N k) (E k).

(** [jwtauth/middleware.go:781-792] the loop of fetchJWKS *)
Definition collect_keys (l : list jwksKey) : gmap string PublicKey :=
  fold_left (λ m k, match usable_key k with
                    | None => m
                    | Some pub => <[Kid k := pub]> m
                    end) l ∅.

(** * The cache *)

(** What the JWKS endpoint answers to one GET. *)
Inductive http_result := HttpErr | HttpResp (status : Z) (body : string).

(** The settings of the middleware that the cache uses. *)
Record KeyConfig := {
  jwksURL : string;
  cacheTTL : Duration;
  minRefetchInterval : Duration;
  negativeCacheTTL : Duration;
}.

(** [jwtauth/middleware.go:158-162] the mutable fields of Middleware
    A nil negative cache is [None]. *)
Record KeyCache := {
  keys : gmap string PublicKey;
  lastFetch : Time;
  lastRefetchAttempt : Time;
  negativeCache : option (gmap string Time);
}.

Definition empty_cache : KeyCache :=
  {| keys := ∅; lastFetch := 0; lastRefetchAttempt := 0; negativeCache := None |}.

(** The document fetched: the keys, or [None] on any failure. *)
Definition fetched_keys (cfg : KeyConfig) (answer : http_result) : option (gmap string PublicKey) :=
  if String.eqb (jwksURL cfg) "" then None
  else match answer with
       | HttpErr => None
       | HttpResp status body =>
           if negb (status =? 200) then None
           else
             match json_decode_first (String.substring 0 (Z.to_nat maxJWKSBytes) body) ≫= decode_jwks with
             | None => None
             | Some ks =>
                 let m := collect_keys ks in
                 if bool_decide (size m = 0%nat) then None else Some m
             end
       end.

(** [jwtauth/middleware.go: fetchJWKS]
    [now] is when the keys are stored; [None] is an error. *)
Definition fetchJWKS (cfg : KeyConfig) (st : KeyCache) (answer : http_result) (now : Time)
  : option KeyCache :=
  match fetched_keys cfg answer with
  | None => None
  | Some m => Some {| keys := m; lastFetch := now; lastRefetchAttempt := lastRefetchAttempt st;
                      negativeCache := None |}
  end.

(** [jwtauth/middleware.go: rememberUnknownKid] *)
Definition rememberUnknownKid (cfg : KeyConfig) (st : KeyCache) (kid : string) (now : Time) : KeyCache :=
  let m := default ∅ (negativeCache st) in
  let pruned := map_drop (λ _ t, negativeCacheTTL cfg <=? time_Sub now t) m in
  {| keys := keys st; lastFetch := lastFetch st; lastRefetchAttempt := lastRefetchAttempt st;
     negativeCache := Some (<[kid := now]> pruned) |}.

(** The clock readings of one lookup, in the order the code takes them: when
    the cache is read, when a refetch is recorded, when fetched keys are
    stored, when an unknown kid is recorded. *)
Record Clock := { c_read : Time; c_attempt : Time; c_stored : Time; c_unknown : Time }.

Definition clock_ok (c : Clock) : Prop :=
  c_read c ≤ c_attempt c ∧ c_attempt c ≤ c_stored c ∧ c_stored c ≤ c_unknown c.

(** What getKey does at once, from the values read under the read lock; or
    the decision to refetch. *)
Inductive lookup := Found (k : PublicKey) | NotFound | Refetch.

(** [jwtauth/middleware.go:688-717] getKey, before the refetch *)
Definition classify (cfg : KeyConfig) (st : KeyCache) (kid : string) (now : Time) : lookup :=
  let key := keys st !! kid in
  let expired := cacheTTL cfg <? time_Sub now (lastFetch st) in
  let inCooldown := time_Sub now (lastRefetchAttempt st) <? minRefetchInterval cfg in
  let negFresh := match default ∅ (negativeCache st) !! kid with
                  | Some negAt => time_Sub now negAt <? negativeCacheTTL cfg
                  | None => false
                  end in
  match key with
  | Some k => if negb expired then Found k else if inCooldown then Found k else Refetch
  | None => if negFresh then NotFound else if inCooldown then NotFound else Refetch
  end.

Definition mark_attempt (st : KeyCache) (now : Time) : KeyCache :=
  {| keys := keys st; lastFetch := lastFetch st; lastRefetchAttempt := now;
     negativeCache := negativeCache st |}.

(** [jwtauth/middleware.go: getKey]
    The key or an error, the new cache, and whether the endpoint was asked. *)
Definition getKey (cfg : KeyConfig) (st : KeyCache) (kid : string) (c : Clock) (answer : http_result)
  : option PublicKey * KeyCache * bool :=
  match classify cfg st kid (c_read c) with
  | Found k => (Some k, st, false)
  | NotFound => (None, st, false)
  | Refetch =>
      let st1 := mark_attempt st (c_attempt c) in
      match fetchJWKS cfg st1 answer (c_stored c) with
      | None => (keys st !! kid, st1, true)
      | Some st2 =>
          match keys st2 !! kid with
          | Some k => (Some k, st2, true)
          | None => (None, rememberUnknownKid cfg st2 kid (c_unknown c), true)
          end
      end
  end.

(** A sequence of lookups, one after the other, and the instants at which the
    endpoint was asked. *)
Record Lookup := { l_kid : string; l_clock : Clock; l_answer : http_result }.

Fixpoint run_lookups (cfg : KeyConfig) (st : KeyCache) (l : list Lookup) : KeyCache * list Time :=
  match l with
  | [] => (st, [])
  | q :: l' =>
      let '(_, st1, asked) := getKey cfg st (l_kid q) (l_clock q) (l_answer q) in
      let '(st2, ts) := run_lookups cfg st1 l' in
      (st2, if asked then c_attempt (l_clock q) :: ts else ts)
  end.

(** Clocks that move forward from one lookup to the next. *)
Fixpoint clocks_ok (from : Time) (l : list Lookup) : Prop :=
  match l with
  | [] => True
  | q :: l' => from ≤ c_read (l_clock q) ∧ clock_ok (l_clock q) ∧ clocks_ok (c_unknown (l_clock q)) l'
  end.

(** * Key strength *)

(** What every key in use satisfies: a modulus of at least 2048 bits, an odd
    exponent between 3 and 2^31. *)
Definition strong (k : PublicKey) : Prop :=
  2 ^ (minRSAKeyBits - 1) ≤ pk_N k ∧ 3 ≤ pk_E k ≤ maxRSAExponent ∧ Z.odd (pk_E k) = true.

Definition strong_keys (m : gmap string PublicKey) : Prop := map_Forall (λ _ k, strong k) m.

Lemma big_of_bytes_nonneg l acc :
  0 ≤ acc → Forall (λ b, 0 ≤ b) l → 0 ≤ fold_left (λ acc b, acc * 256 + b) l acc.
Proof.
  revert acc. induction l as [|b l IH]; intros acc Ha Hl; simpl; [done|].
  apply Forall_cons in Hl as [Hb Hl]. apply IH; [lia|done].
Qed.

Lemma bit_len_lower n : 0 ≤ n → minRSAKeyBits ≤ bit_len n ↔ 2 ^ (minRSAKeyBits - 1) ≤ n.
Proof.
  intros Hn. unfold bit_len, minRSAKeyBits.
  change (2048 - 1) with 2047.
  destruct (Z.eqb_spec n 0) as [->|Hne].
  - split; [lia|]. pose proof (Z.pow_pos_nonneg 2 2047). lia.
  - rewrite (Z.log2_le_pow2 n 2047) by lia. lia.
Qed.

Lemma parseRSAPublicKey_Some nStr eStr k :
  parseRSAPublicKey nStr eStr = Some k →
  ∃ nb eb, b64_decode_bytes nStr = Some nb ∧ b64_decode_bytes eStr = Some eb ∧
    k = {| pk_N := big_of_bytes nb; pk_E := big_of_bytes eb |} ∧
    minRSAKeyBits ≤ bit_len (big_of_bytes nb) ∧
    3 ≤ big_of_bytes eb ≤ maxRSAExponent ∧ Z.land (big_of_bytes eb) 1 ≠ 0.
Proof.
  unfold parseRSAPublicKey. intros H. split_all_in H. bool_to_prop. naive_solver lia.
Qed.

Lemma land_1_odd e : Z.land e 1 ≠ 0 ↔ Z.odd e = true.
Proof.
  change 1 with (Z.ones 1). rewrite Z.land_ones by lia. change (2 ^ 1) with 2.
  rewrite Zmod_odd. by destruct (Z.odd e).
Qed.

Lemma b64_val_nonneg c v : b64_val c = Some v → 0 ≤ v.
Proof. unfold b64_val. intros H. split_all_in H; bool_to_prop; lia. Qed.

Lemma b64_vals_nonneg s vs : b64_vals s = Some vs → Forall (λ b, 0 ≤ b) vs.
Proof.
  revert vs. induction s as [|c s IH]; simpl; intros vs H; [by simplify_eq|].
  split_all_in H; eauto using Forall_cons_2, b64_val_nonneg.
Qed.

Lemma b64_group_nonneg vs bs :
  Forall (λ b, 0 ≤ b) vs → b64_group vs = Some bs → Forall (λ b, 0 ≤ b) bs.
Proof.
  assert (∀ n vs bs, (length vs ≤ n)%nat → Forall (λ b, 0 ≤ b) vs →
    b64_group vs = Some bs → Forall (λ b, 0 ≤ b) bs) as H; [|eauto].
  clear vs bs. intros n. induction n as [|n IH]; intros vs bs Hl Hvs Hg.
  { destruct vs; [|simpl in *; lia]. by simplify_eq/=. }
  destruct vs as [|a [|b [|c [|d vs]]]]; simplify_eq/=;
    decompose_Forall_hyps; repeat constructor; try lia; try (by apply Z.div_pos; lia).
  - pose proof (Z.div_pos b 16); lia.
  - pose proof (Z.div_pos b 16); lia.
  - pose proof (Z.div_pos c 4). pose proof (Z.mod_pos_bound b 16). lia.
  - destruct (b64_group vs) as [bs'|] eqn:E; simplify_eq.
    repeat constructor.
    + pose proof (Z.div_pos b 16); lia.
    + pose proof (Z.div_pos c 4). pose proof (Z.mod_pos_bound b 16). lia.
    + pose proof (Z.mod_pos_bound c 4). lia.
    + apply (IH vs); [simpl in *; lia|done|done].
Qed.

Lemma b64_decode_bytes_nonneg s bs : b64_decode_bytes s = Some bs → Forall (λ b, 0 ≤ b) bs.
Proof.
  unfold b64_decode_bytes. intros (vs & Hvs & Hbs)%bind_Some.
  eauto using b64_group_nonneg, b64_vals_nonneg.
Qed.

Lemma big_nonneg s bs : b64_decode_bytes s = Some bs → 0 ≤ big_of_bytes bs.
Proof. intros H. apply big_of_bytes_nonneg; eauto using b64_decode_bytes_nonneg. lia. Qed.
#[global] Hint Resolve big_nonneg : backendkit.

(** [parseRSAPublicKey] accepts exactly the well-formed base64url pairs whose
    modulus has at least 2048 bits and whose exponent is odd and between 3 and
    2^31, and returns those very numbers (no truncation). *)
Theorem parseRSAPublicKey_spec (nStr eStr : string) (k : PublicKey) :
  parseRSAPublicKey nStr eStr = Some k ↔
  ∃ nb eb, b64_decode_bytes nStr = Some nb ∧ b64_decode_bytes eStr = Some eb ∧
    pk_N k = big_of_bytes nb ∧ pk_E k = big_of_bytes eb ∧ strong k.
Proof.
  split.
  - intros (nb & eb & Hn & He & -> & Hbits & Hrange & Hodd)%parseRSAPublicKey_Some.
    exists nb, eb. unfold strong; simpl. rewrite <-land_1_odd.
    rewrite <-bit_len_lower by eauto with backendkit. done.
  - destruct k as [n e]. intros (nb & eb & Hn & He & HN & HE & Hbits & Hrange & Hodd).
    simpl in *. subst n e. unfold parseRSAPublicKey. rewrite Hn, He.
    rewrite <-land_1_odd in Hodd. rewrite <-bit_len_lower in Hbits by eauto with backendkit.
    rewrite (proj2 (Z.ltb_ge _ _)) by done.
    rewrite bool_decide_true by (unfold maxRSAExponent in *; int64). simpl.
    rewrite (proj2 (Z.ltb_ge _ _)), (proj2 (Z.ltb_ge _ _)), (proj2 (Z.eqb_neq _ _)) by lia.
    done.
Qed.

Lemma usable_key_strong k pub : usable_key k = Some pub → strong pub.
Proof.
  unfold usable_key. intros H. split_all_in H.
  apply parseRSAPublicKey_Some in H as (nb & eb & Hn & He & -> & Hbits & Hrange & Hodd).
  unfold strong; simpl. rewrite <-land_1_odd.
  rewrite <-bit_len_lower by eauto with backendkit. done.
Qed.

Lemma collect_keys_from l m0 :
  strong_keys m0 →
  strong_keys (fold_left (λ m k, match usable_key k with
                                 | None => m
                                 | Some pub => <[Kid k := pub]> m
                                 end) l m0).
Proof.
  revert m0. induction l as [|k l IH]; intros m0 Hm; simpl; [done|]. apply IH.
  destruct (usable_key k) eqn:E; [|done].
  apply map_Forall_insert_2; eauto using usable_key_strong.
Qed.

Lemma fetched_keys_strong cfg answer m : fetched_keys cfg answer = Some m → strong_keys m.
Proof.
  unfold fetched_keys. intros H. split_all_in H. apply collect_keys_from, map_Forall_empty.
Qed.

(** * The lookup *)

Lemma fetchJWKS_keys cfg st answer now st' :
  fetchJWKS cfg st answer now = Some st' → fetched_keys cfg answer = Some (keys st').
Proof. unfold fetchJWKS. intros H. by split_all_in H. Qed.

Lemma fetchJWKS_attempt cfg st answer now st' :
  fetchJWKS cfg st answer now = Some st' → lastRefetchAttempt st' = lastRefetchAttempt st.
Proof. unfold fetchJWKS. intros H. by split_all_in H. Qed.

Lemma classify_Found cfg st kid now k : classify cfg st kid now = Found k → keys st !! kid = Some k.
Proof. unfold classify. intros H. by split_all_in H. Qed.

Lemma classify_NotFound cfg st kid now : classify cfg st kid now = NotFound → keys st !! kid = None.
Proof. unfold classify. intros H. by split_all_in H. Qed.

(** A refetch is decided only once the cooldown has elapsed. *)
Lemma classify_Refetch cfg st kid now :
  classify cfg st kid now = Refetch → minRefetchInterval cfg ≤ time_Sub now (lastRefetchAttempt st).
Proof. unfold classify. intros H. split_all_in H; by bool_to_prop. Qed.

(** Where the key returned by a lookup comes from: the cache before the call,
    or the document fetched by the call. *)
Lemma getKey_Some cfg st kid c answer k st' asked :
  getKey cfg st kid c answer = (Some k, st', asked) →
  keys st !! kid = Some k ∨ ∃ m, asked = true ∧ fetched_keys cfg answer = Some m ∧ m !! kid = Some k.
Proof.
  unfold getKey. destruct (classify cfg st kid (c_read c)) eqn:E; intros H.
  - apply classify_Found in E. naive_solver.
  - done.
  - destruct (fetchJWKS _ _ _ _) as [st2|] eqn:F; [|naive_solver].
    apply fetchJWKS_keys in F. destruct (keys st2 !! kid) eqn:K; naive_solver.
Qed.

(** The keys after a lookup: unchanged, or those of the document fetched. *)
Lemma getKey_keys cfg st kid c answer r st' asked :
  getKey cfg st kid c answer = (r, st', asked) →
  keys st' = keys st ∨ fetched_keys cfg answer = Some (keys st').
Proof.
  unfold getKey. destruct (classify cfg st kid (c_read c)) eqn:E; intros H; [naive_solver..|].
  destruct (fetchJWKS _ _ _ _) as [st2|] eqn:F; [|naive_solver].
  apply fetchJWKS_keys in F. destruct (keys st2 !! kid) eqn:K; naive_solver.
Qed.

Lemma getKey_strong cfg st kid c answer r st' asked :
  strong_keys (keys st) → getKey cfg st kid c answer = (r, st', asked) → strong_keys (keys st').
Proof.
  intros Hs [->|H]%getKey_keys; [done|]. by eapply fetched_keys_strong.
Qed.

Lemma run_lookups_strong cfg l st :
  strong_keys (keys st) → strong_keys (keys (run_lookups cfg st l).1).
Proof.
  revert st. induction l as [|q l IH]; intros st Hs; simpl; [done|].
  destruct (getKey _ _ _ _ _) as [[r st1] asked] eqn:G.
  specialize (IH st1 (getKey_strong _ _ _ _ _ _ _ _ Hs G)).
  by destruct (run_lookups cfg st1 l).
Qed.

(** C36: whatever sequence of tokens is presented and whatever the JWKS endpoint
    answers, a key handed out by [getKey] is strong: at least 2048 bits and a
    sane odd exponent (INV-13). *)
Theorem getKey_only_strong_keys (cfg : KeyConfig) (history : list Lookup) (kid : string)
    (c : Clock) (answer : http_result) (k : PublicKey) st' asked :
  getKey cfg (run_lookups cfg empty_cache history).1 kid c answer = (Some k, st', asked) →
  strong k.
Proof.
  intros H. pose proof (run_lookups_strong cfg history empty_cache (map_Forall_empty _)) as Hs.
  apply getKey_Some in H as [H|(m & _ & Hm & H)].
  - exact (Hs _ _ H).
  - exact (fetched_keys_strong _ _ _ Hm _ _ H).
Qed.

(** A lookup that asks the endpoint records when it did, after the cooldown; a
    lookup that does not leaves the instant of the last attempt alone. *)
Lemma getKey_attempt cfg st kid c answer r st' asked :
  getKey cfg st kid c answer = (r, st', asked) →
  if asked then lastRefetchAttempt st' = c_attempt c ∧
                minRefetchInterval cfg ≤ time_Sub (c_read c) (lastRefetchAttempt st)
  else lastRefetchAttempt st' = lastRefetchAttempt st.
Proof.
  unfold getKey. destruct (classify cfg st kid (c_read c)) eqn:E; intros H; [by simplify_eq..|].
  apply classify_Refetch in E.
  destruct (fetchJWKS _ _ _ _) as [st2|] eqn:F; [|by simplify_eq/=].
  apply fetchJWKS_attempt in F. simpl in F. destruct (keys st2 !! kid); by simplify_eq/=.
Qed.

(** Every instant of [ts] is at least [d] after the previous one, starting
    from [from]. *)
Fixpoint spaced (d : Duration) (from : Time) (ts : list Time) : Prop :=
  match ts with
  | [] => True
  | t :: ts' => from + d ≤ t ∧ spaced d t ts'
  end.

Lemma spaced_app_bound d from ts t ts' :
  0 ≤ d → spaced d from (ts ++ t :: ts') → from + d * (Z.of_nat (length ts) + 1) ≤ t.
Proof.
  intros Hd. revert from. induction ts as [|u ts IH]; intros from; simpl.
  - intros [? _]. lia.
  - intros [? H]. apply IH in H. lia.
Qed.

(** An attacker presenting any stream of kids cannot force one outbound
    JWKS fetch per request: over any sequence of lookups, whatever kids and
    answers, two fetches are at least [minRefetchInterval] apart. *)
Theorem refetches_are_spaced (cfg : KeyConfig) (l : list Lookup) (st : KeyCache) (from : Time) :
  0 < minRefetchInterval cfg ≤ int64_max →
  clocks_ok from l →
  spaced (minRefetchInterval cfg) (lastRefetchAttempt st) (run_lookups cfg st l).2.
Proof.
  intros Hmin. revert st from. induction l as [|q l IH]; intros st from Hc; simpl; [done|].
  destruct Hc as (_ & (Hc1 & _) & Hc).
  destruct (getKey _ _ _ _ _) as [[r st1] asked] eqn:G. apply getKey_attempt in G.
  specialize (IH st1 _ Hc). destruct (run_lookups cfg st1 l) as [st2 ts]. simpl in *.
  destruct asked; simpl.
  - destruct G as [G1 G2]. rewrite G1 in IH. split; [|done].
    apply time_Sub_ge_inv in G2; [lia|int64].
  - by rewrite G in IH.
Qed.

Definition demo_cfg : KeyConfig :=
  {| jwksURL := "https://socrate/jwks"; cacheTTL := Hour; minRefetchInterval := 15 * Second;
     negativeCacheTTL := 30 * Second |}.

(** Three unknown kids in a row: the second is refused during the cooldown. *)
Definition demo_lookups : list Lookup :=
  let at_ t := {| c_read := t; c_attempt := t; c_stored := t; c_unknown := t |} in
  [ {| l_kid := "a"; l_clock := at_ (time_Unix 1000); l_answer := HttpErr |};
    {| l_kid := "b"; l_clock := at_ (time_Unix 1005); l_answer := HttpErr |};
    {| l_kid := "c"; l_clock := at_ (time_Unix 1015); l_answer := HttpErr |} ].

Lemma refetches_are_spaced_witness :
  (run_lookups demo_cfg empty_cache demo_lookups).2 = [time_Unix 1000; time_Unix 1015] ∧
  spaced (15 * Second) 0 (run_lookups demo_cfg empty_cache demo_lookups).2.
Proof.
  split; [vm_compute; reflexivity|].
  apply (refetches_are_spaced demo_cfg demo_lookups empty_cache 0).
  - vm_compute. split; [reflexivity|discriminate].
  - vm_compute. repeat split; discriminate.
Defined.

(** A failed refresh never costs a working key: a kid in the cache is
    answered with a key by every lookup whose fetch fails or is not made, and
    the keys of the cache stay as they were. *)
Theorem stale_key_survives_failed_refresh (cfg : KeyConfig) (st : KeyCache) (kid : string)
    (k : PublicKey) (c : Clock) (answer : http_result) :
  keys st !! kid = Some k → fetched_keys cfg answer = None →
  ∃ st' asked, getKey cfg st kid c answer = (Some k, st', asked) ∧ keys st' = keys st.
Proof.
  intros Hk Hf. unfold getKey. destruct (classify cfg st kid (c_read c)) eqn:E.
  - apply classify_Found in E. naive_solver.
  - apply classify_NotFound in E. congruence.
  - unfold fetchJWKS. rewrite Hf, Hk. eauto.
Qed.

Definition demo_key : PublicKey := {| pk_N := 2 ^ 2047 + 1; pk_E := 65537 |}.
Definition demo_cache : KeyCache :=
  {| keys := {[ "k1" := demo_key ]}; lastFetch := time_Unix 1000;
     lastRefetchAttempt := time_Unix 1000; negativeCache := None |}.
Definition demo_late : Clock :=
  {| c_read := time_Unix 9000; c_attempt := time_Unix 9000; c_stored := time_Unix 9001;
     c_unknown := time_Unix 9001 |}.

Lemma stale_key_survives_failed_refresh_witness :
  ∃ st' asked, getKey demo_cfg demo_cache "k1" demo_late HttpErr = (Some demo_key, st', asked) ∧
    keys st' = keys demo_cache.
Proof. apply stale_key_survives_failed_refresh; vm_compute; reflexivity. Defined.

(** C37: a rotated key is picked up: once the cooldown has elapsed, a kid that is
    neither cached nor remembered as unknown is looked up in a fresh document,
    and the key that document publishes for it is returned. *)
Theorem rotated_key_resolves (cfg : KeyConfig) (st : KeyCache) (kid : string) (k : PublicKey)
    (c : Clock) (answer : http_result) (m : gmap string PublicKey) :
  keys st !! kid = None →
  default ∅ (negativeCache st) !! kid = None →
  minRefetchInterval cfg ≤ time_Sub (c_read c) (lastRefetchAttempt st) →
  fetched_keys cfg answer = Some m → m !! kid = Some k →
  getKey cfg st kid c answer =
    (Some k, {| keys := m; lastFetch := c_stored c; lastRefetchAttempt := c_attempt c;
                negativeCache := None |}, true).
Proof.
  intros Hk Hneg Hcool Hf Hm. unfold getKey, classify. rewrite Hk, Hneg.
  rewrite (proj2 (Z.ltb_ge _ _)) by done. unfold fetchJWKS. rewrite Hf. simpl. by rewrite Hm.
Qed.

(** The negative cache holds only recent entries after each insertion. *)
Lemma rememberUnknownKid_fresh cfg st kid now k t :
  0 < negativeCacheTTL cfg ≤ int64_max →
  default ∅ (negativeCache (rememberUnknownKid cfg st kid now)) !! k = Some t →
  time_Sub now t < negativeCacheTTL cfg.
Proof.
  intros Hp. simpl. rewrite lookup_insert. case_decide.
  - intros [= <-]. unfold time_Sub. rewrite Z.sub_diag. unfold sat64. int64.
  - intros [_ Hd]%map_drop_lookup. by bool_to_prop.
Qed.

(** * Concrete documents *)

(** A JWKS document publishing [demo_key] as k1, and a key too short as k0. *)
Definition demo_modulus : string := b64_encode (of_bytes (128 :: replicate 254 0 ++ [1])).
Definition demo_jwks : string :=
  dq ("{'keys':[{'kty':'RSA','kid':'k0','use':'sig','n':'AQAB','e':'AQAB'},"
      +:+ "{'kty':'RSA','kid':'k1','use':'sig','alg':'RS256','n':'" +:+ demo_modulus
      +:+ "','e':'AQAB'}]}").

Lemma getKey_only_strong_keys_witness : strong demo_key.
Proof.
  eapply (getKey_only_strong_keys demo_cfg demo_lookups "k1" demo_late (HttpResp 200 demo_jwks)).
  vm_compute. reflexivity.
Defined.

Lemma rotated_key_resolves_witness :
  getKey demo_cfg empty_cache "k1" demo_late (HttpResp 200 demo_jwks) =
    (Some demo_key, {| keys := {[ "k1" := demo_key ]}; lastFetch := time_Unix 9001;
                       lastRefetchAttempt := time_Unix 9000; negativeCache := None |}, true).
Proof.
  apply rotated_key_resolves; vm_compute; reflexivity || discriminate.
Defined.

End jwtkeys.
