(* ===== verification/JwksFlight.v ===== *)
(** Concurrent key lookups (getKey, src/jwtauth/middleware.go): every call reads
    the cache under the read lock, may decide to fetch, and then joins or leads
    the one flight of the single-flight group. The calls interleave as a step
    relation over the shared cache; each locked section is one step. What is
    shown is which calls may fetch, not that they return. *)

From S2P Require Import Prelude GoText GoJson JwtKeys.

Module flights.
Import jwtkeys.

(** * Calls and worlds *)

(** Where a call is: before its first read; decided to fetch, with the key it
    read and when it read; waiting for the flight, as its leader or not; after
    the flight, with whether the fetch succeeded; about to remember that the kid
    is unknown; answered. *)
Inductive phase :=
| Arrived (kid : string)
| Missed (kid : string) (known : option PublicKey) (readAt : Time)
| Waiting (kid : string) (known : option PublicKey)
| Landed (kid : string) (known : option PublicKey) (ok : bool)
| Absent (kid : string)
| Answered (r : option PublicKey).

(** The clock, the cache, whether a flight is in progress, the calls by number,
    and the fetches so far, the latest first: when each was made, and when the
    call that leads it had read the cache. *)
Record world := {
  now : Time; cache : KeyCache; flying : bool; calls : list phase; fetches : list (Time * Time);
}.

Definition set_call (w : world) (i : nat) (p : phase) : world :=
  {| now := now w; cache := cache w; flying := flying w; calls := <[i := p]> (calls w); fetches := fetches w |}.

(** [jwtauth/middleware.go:688-717] the first read of getKey *)
Definition after_read (cfg : KeyConfig) (w : world) (kid : string) : phase :=
  match classify cfg (cache w) kid (now w) with
  | Found k => Answered (Some k)
  | NotFound => Answered None
  | Refetch => Missed kid (keys (cache w) !! kid) (now w)
  end.

(** [jwtauth/middleware.go:721-724] the flight starts: the attempt is recorded *)
Definition take_off (w : world) (i : nat) (kid : string) (known : option PublicKey) (readAt : Time) : world :=
  {| now := now w; cache := mark_attempt (cache w) (now w); flying := true;
     calls := <[i := Waiting kid known]> (calls w); fetches := (now w, readAt) :: fetches w |}.

(** [jwtauth/middleware.go:725-726] the function of the flight returns
    What fetchJWKS did to the cache, and whether it succeeded. *)
Definition land (cfg : KeyConfig) (w : world) (answer : http_result) : KeyCache * bool :=
  match fetchJWKS cfg (cache w) answer (now w) with
  | Some c => (c, true)
  | None => (cache w, false)
  end.

(** The documented behaviour of the single-flight group (a library): the callers
    that wait for the flight all receive its result, and the next call of Do
    starts a new one. *)
Definition release (ok : bool) (p : phase) : phase :=
  match p with Waiting kid known => Landed kid known ok | _ => p end.
Definition shared (w : world) (r : KeyCache * bool) : world :=
  {| now := now w; cache := r.1; flying := false; calls := release r.2 <$> calls w; fetches := fetches w |}.

(** [jwtauth/middleware.go:727-737] what getKey does after the flight *)
Definition after_flight (w : world) (kid : string) (known : option PublicKey) (ok : bool) : phase :=
  if ok then match keys (cache w) !! kid with Some k => Answered (Some k) | None => Absent kid end
  else Answered known.

(** [jwtauth/middleware.go:738-741] the kid is remembered as unknown *)
Definition remember (cfg : KeyConfig) (w : world) (i : nat) (kid : string) : world :=
  {| now := now w; cache := rememberUnknownKid cfg (cache w) kid (now w); flying := flying w;
     calls := <[i := Answered None]> (calls w); fetches := fetches w |}.

(** A step of one of the calls, or the end of the flight. A call that decided to
    fetch leads a flight, or joins the one in progress. A flight may end at any
    time with any answer of the endpoint or with an error; the time-out of the
    HTTP client rules some of these out. *)
Inductive work (cfg : KeyConfig) : world → world → Prop :=
| Read w i kid : calls w !! i = Some (Arrived kid) → work cfg w (set_call w i (after_read cfg w kid))
| Lead w i kid known t : calls w !! i = Some (Missed kid known t) → flying w = false → work cfg w (take_off w i kid known t)
| Join w i kid known t : calls w !! i = Some (Missed kid known t) → flying w = true → work cfg w (set_call w i (Waiting kid known))
| Land w answer : flying w = true → work cfg w (shared w (land cfg w answer))
| Finish w i kid known ok : calls w !! i = Some (Landed kid known ok) → work cfg w (set_call w i (after_flight w kid known ok))
| Remember w i kid : calls w !! i = Some (Absent kid) → work cfg w (remember cfg w i kid).

(** Any step: time passes, a request arrives, or one of those. *)
Inductive step (cfg : KeyConfig) : world → world → Prop :=
| Tick w d : 0 ≤ d → step cfg w
    {| now := now w + d; cache := cache w; flying := flying w; calls := calls w; fetches := fetches w |}
| Arrive w kid : step cfg w
    {| now := now w; cache := cache w; flying := flying w; calls := calls w ++ [Arrived kid]; fetches := fetches w |}
| Work w w' : work cfg w w' → step cfg w w'.

(** A service that has just started. *)
Definition fresh (t : Time) : world := {| now := t; cache := empty_cache; flying := false; calls := []; fetches := [] |}.

(** * The spacing of the fetches *)

(** Two fetches, the later one first: it was decided a whole interval after the
    earlier one, or before the earlier one had even started. *)
Definition apart (d : Duration) (late early : Time * Time) : Prop := early.1 + d ≤ late.2 ∨ late.2 ≤ early.1.

Definition decided (d : Duration) (fs : list (Time * Time)) (p : phase) : Prop :=
  match p with Missed _ _ t => Forall (λ f, f.1 + d ≤ t ∨ t ≤ f.1) fs | _ => True end.

Record spaced_inv (d : Duration) (w : world) : Prop := {
  inv_attempt : match fetches w with [] => True | f :: _ => lastRefetchAttempt (cache w) = f.1 end;
  inv_past : Forall (λ f, f.1 ≤ match fetches w with [] => now w | g :: _ => g.1 end) (fetches w);
  inv_now : match fetches w with [] => True | g :: _ => g.1 ≤ now w end;
  inv_calls : Forall (decided d (fetches w)) (calls w);
  inv_reads : Forall (λ p, match p with Missed _ _ t => t ≤ now w | _ => True end) (calls w);
  inv_apart : ForallOrdPairs (apart d) (fetches w);
}.

(** A call moves to a phase in which it has decided nothing. *)
Lemma inv_set_call d w i p :
  spaced_inv d w → (∀ kid known t, p ≠ Missed kid known t) → spaced_inv d (set_call w i p).
Proof.
  intros [Ha Hp Hn Hc Hr Hf] Hm. split; try done; apply Forall_insert; try done; by destruct p; try done; edestruct Hm.
Qed.

Lemma inv_read cfg w i kid :
  int64_min < minRefetchInterval cfg → spaced_inv (minRefetchInterval cfg) w →
  spaced_inv (minRefetchInterval cfg) (set_call w i (after_read cfg w kid)).
Proof.
  intros Hd Hinv. unfold after_read. destruct (classify cfg (cache w) kid (now w)) eqn:Hc; [by apply inv_set_call..|].
  apply classify_Refetch in Hc. apply time_Sub_ge_inv in Hc; [|done]. destruct Hinv as [Ha Hp Hn Hcs Hr Hf].
  split; try done; apply Forall_insert; try done. simpl. destruct (fetches w) as [|g l]; [constructor|].
  apply (Forall_impl _ _ _ Hp). intros f Hle. left. lia.
Qed.

Lemma inv_lead d w i kid known t :
  calls w !! i = Some (Missed kid known t) → spaced_inv d w → spaced_inv d (take_off w i kid known t).
Proof.
  intros Hi [Ha Hp Hn Hc Hr Hf]. pose proof (Forall_lookup_1 _ _ _ _ Hc Hi) as Hdec. simpl in Hdec.
  assert (Forall (λ f, f.1 ≤ now w) (fetches w)) as Hpast.
  { destruct (fetches w) as [|g l]; [done|]. apply (Forall_impl _ _ _ Hp). intros f. simpl. lia. }
  split; simpl; try done.
  - by constructor.
  - apply Forall_insert; [|done]. rewrite Forall_lookup in *. intros j p Hj. specialize (Hc j p Hj). specialize (Hr j p Hj).
    destruct p; try done. constructor; [by right|done].
  - by apply Forall_insert.
  - constructor; [|done]. apply (Forall_impl _ _ _ Hdec). unfold apart. simpl. done.
Qed.

Lemma inv_land cfg d w answer : spaced_inv d w → spaced_inv d (shared w (land cfg w answer)).
Proof.
  intros [Ha Hp Hn Hc Hr Hf]. split; simpl; try done.
  - unfold land. destruct (fetchJWKS _ _ _ _) as [c|] eqn:He; [|done]. simpl. by rewrite (fetchJWKS_attempt _ _ _ _ _ He).
  - apply Forall_fmap, (Forall_impl _ _ _ Hc). by intros [].
  - apply Forall_fmap, (Forall_impl _ _ _ Hr). by intros [].
Qed.

Lemma step_spaced cfg w w' :
  int64_min < minRefetchInterval cfg → spaced_inv (minRefetchInterval cfg) w → step cfg w w' →
  spaced_inv (minRefetchInterval cfg) w'.
Proof.
  intros Hd Hinv. destruct 1 as [w d' Hd'|w kid|w w' Hw].
  - destruct Hinv as [Ha Hp Hn Hc Hr Hf]. split; simpl; try done.
    + destruct (fetches w); [done|]. exact Hp.
    + destruct (fetches w); [done|]. lia.
    + apply (Forall_impl _ _ _ Hr). intros []; lia.
  - destruct Hinv as [Ha Hp Hn Hc Hr Hf]. split; simpl; try done; apply Forall_app; split; try done; by repeat constructor.
  - destruct Hw as [w i kid Hi|w i kid known t Hi _|w i kid known t Hi _|w answer _|w i kid known ok Hi|w i kid Hi].
    + by apply inv_read.
    + by apply inv_lead.
    + by apply inv_set_call.
    + by apply inv_land.
    + apply inv_set_call; [done|]. intros. unfold after_flight. destruct ok; [|done]. by destruct (_ !! kid).
    + destruct Hinv as [Ha Hp Hn Hc Hr Hf]. split; simpl; try done; by apply Forall_insert.
Qed.

(** C25: only a call that had already looked can repeat a fetch. In every
    interleaving of lookups, of any two outbound fetches the later one was led by
    a call that read the cache either a whole minRefetchInterval after the
    earlier fetch, or before the earlier fetch was made: a call that looks during
    the interval never causes one. *)
Theorem fetches_are_decided_apart (cfg : KeyConfig) (t : Time) (w : world) (pre mid post : list (Time * Time))
    (late early : Time * Time) :
  int64_min < minRefetchInterval cfg → rtc (step cfg) (fresh t) w →
  fetches w = pre ++ late :: mid ++ early :: post →
  early.1 + minRefetchInterval cfg ≤ late.2 ∨ late.2 ≤ early.1.
Proof.
  intros Hd Hr Hf. assert (spaced_inv (minRefetchInterval cfg) w) as [_ _ _ _ _ Hap].
  { revert Hr. apply (rtc_ind_r (λ w, spaced_inv (minRefetchInterval cfg) w)).
    - split; try done; constructor.
    - intros x y _ Hs Hx. by eapply step_spaced. }
  rewrite Hf in Hap. clear Hf. induction pre as [|f pre IH]; simpl in Hap; [|apply IH; by inversion Hap].
  inversion Hap as [|? ? Hall _]; subst. rewrite Forall_app, Forall_cons in Hall. exact (proj1 (proj2 Hall)).
Qed.

(** * Two calls that looked at the same time *)

Module sample.

Definition t0 : Time := time_Unix 1000.
Definition start : world :=
  {| now := t0; cache := empty_cache; flying := false; calls := [Arrived "a"; Arrived "b"]; fetches := [] |}.

(** Both calls look and miss; one fetches, without success, and returns; then
    the other one is scheduled again. *)
Definition looked : world :=
  let w := set_call start 0 (after_read demo_cfg start "a") in set_call w 1 (after_read demo_cfg w "b").
Definition returned : world :=
  let w := take_off looked 0 "a" None t0 in
  let w := shared w (land demo_cfg w HttpErr) in
  set_call w 0 (after_flight w "a" None false).
Definition later : world :=
  {| now := now returned + Second; cache := cache returned; flying := flying returned; calls := calls returned;
     fetches := fetches returned |}.
Definition again : world := take_off later 1 "b" None t0.

Lemma again_reachable : rtc (step demo_cfg) (fresh t0) again.
Proof.
  eapply rtc_l; [apply (Arrive _ _ "a")|]. eapply rtc_l; [apply (Arrive _ _ "b")|].
  eapply rtc_l; [apply Work, (Read _ _ 0 "a"); reflexivity|]. eapply rtc_l; [apply Work, (Read _ _ 1 "b"); reflexivity|].
  eapply rtc_l; [apply Work, (Lead _ looked 0 "a" None t0); vm_compute; reflexivity|].
  eapply rtc_l; [apply Work, (Land _ _ HttpErr); reflexivity|].
  eapply rtc_l; [apply Work, (Finish _ _ 0 "a" None false); vm_compute; reflexivity|].
  eapply rtc_l; [apply (Tick _ returned Second); vm_compute; discriminate|].
  eapply rtc_l; [apply Work, (Lead _ later 1 "b" None t0); vm_compute; reflexivity|]. apply rtc_refl.
Qed.

(** Two fetches one second apart, with a minimum interval of fifteen: the second
    call does not look again when the flight it leads begins. *)
Theorem concurrent_misses_fetch_twice :
  rtc (step demo_cfg) (fresh t0) again ∧ minRefetchInterval demo_cfg = 15 * Second ∧
  fetches again = [(t0 + Second, t0); (t0, t0)].
Proof. split; [exact again_reachable|]. vm_compute. done. Qed.

Lemma fetches_are_decided_apart_witness :
  fetches again = [] ++ (t0 + Second, t0) :: [] ++ (t0, t0) :: [] ∧
  ((t0, t0).1 + 15 * Second ≤ (t0 + Second, t0).2 ∨ (t0 + Second, t0).2 ≤ (t0, t0).1).
Proof.
  assert (fetches again = [] ++ (t0 + Second, t0) :: [] ++ (t0, t0) :: []) as Hf by (vm_compute; reflexivity).
  split; [exact Hf|].
  apply (fetches_are_decided_apart demo_cfg t0 again [] [] [] (t0 + Second, t0) (t0, t0));
    [vm_compute; reflexivity|exact again_reachable|exact Hf].
Defined.

End sample.

End flights.
