(* ===== verification/JwtAuth.v ===== *)
(** Package [jwtauth] (src/jwtauth/middleware.go): the middleware's options,
    the scope and tenant claims, token validation and the HTTP handler. The
    signing keys and their cache are in [JwtKeys].

    github.com/golang-jwt/jwt (decoding a compact JWS, verifying an RS256
    signature, validating the registered claims) and github.com/google/uuid are
    parameters, with the behaviour they document as laws. *)

From S2P Require Import Prelude GoText GoJson CtxUtil Http ApiError JwtKeys.

(** [jwt.RegisteredClaims]. *)
Record RegisteredClaims := {
  rc_Issuer : string;
  rc_Subject : string;
  rc_Audience : list string;
  rc_ExpiresAt : option Time;
  rc_NotBefore : option Time;
  rc_IssuedAt : option Time;
  rc_ID : string;
}.

(** [jwtauth/middleware.go: SocrateClaims]
    Nil maps and slices are [None]; [scopesErr] is whether it is non-nil. *)
Record SocrateClaims := {
  Role : string;
  AppRoles : option (gmap string string);
  TokenVersion : Z;
  AuthTime : Z;
  Amr : option (list string);
  TenantID : string;
  Plan : string;
  Email : string;
  Name : string;
  Registered : RegisteredClaims;
  scopes : list string;
  scopesErr : bool;
}.

(** The header of a token: its algorithm and its kid when that is a string. *)
Record JoseHeader := { jh_alg : string; jh_kid : option string }.

(** The parser options [validateToken] builds. *)
Record ParserOptions := {
  po_leeway : Duration;
  po_issuer : option string;
  po_audiences : option (list string);
}.

(** What github.com/golang-jwt/jwt provides. *)
Class JwtLib := {
  jwt_decode : string → option (JoseHeader * SocrateClaims);
  jwt_verify : string → jwtkeys.PublicKey → bool;
  jwt_claims_valid : ParserOptions → Time → RegisteredClaims → bool;
}.

(** Its documented claim validation: exp is required, and exp, iss and aud are
    checked as the options say. *)
Class JwtLibLaws `{JwtLib} := {
  jwt_exp_checked o now c :
    jwt_claims_valid o now c = true →
    ∃ exp, rc_ExpiresAt c = Some exp ∧ now < exp + po_leeway o;
  jwt_issuer_checked o now c i :
    jwt_claims_valid o now c = true → po_issuer o = Some i → rc_Issuer c = i;
  jwt_audience_checked o now c l :
    jwt_claims_valid o now c = true → po_audiences o = Some l →
    ∃ a, a ∈ l ∧ a ∈ rc_Audience c;
}.

(** What github.com/google/uuid provides; [uuid_of_sub] is
    [uuid.NewSHA1(uuid.NameSpaceDNS, "socrate:"+sub)]. *)
Class UuidLib := {
  uuid_Parse : string → option UUID;
  uuid_of_sub : string → UUID;
}.

(** [fmt]'s %q verb. *)
Class QuoteLib := { go_quote : string → string }.

Module jwtauth.

(** [jwtauth/middleware.go: RevocationChecker]
    Whether the checker returns an error. *)
Definition RevocationChecker := ctxutil.context → SocrateClaims → bool.

(** [jwtauth/middleware.go:111-152] the settings of Middleware *)
Record Middleware := {
  m_jwksURL : string;
  m_issuer : string;
  m_audiences : list string;
  m_audienceSet : bool;
  m_revocationCheck : option RevocationChecker;
  m_writeErr : option apierror.ErrorWriter;
  m_tenantClaim : string;
  m_tenantClaimSet : bool;
  m_requiredScopes : list string;
  m_requiredScopesSet : bool;
  m_cacheTTL : Duration;
  m_leeway : Duration;
  m_minRefetchInterval : Duration;
  m_negativeCacheTTL : Duration;
}.

Definition key_config (m : Middleware) : jwtkeys.KeyConfig :=
  {| jwtkeys.jwksURL := m_jwksURL m; jwtkeys.cacheTTL := m_cacheTTL m;
     jwtkeys.minRefetchInterval := m_minRefetchInterval m;
     jwtkeys.negativeCacheTTL := m_negativeCacheTTL m |}.

(** [jwtauth/middleware.go: Option] *)
Definition Option_ := Middleware → Middleware.

Definition set_audiences (m : Middleware) (l : list string) (on : bool) : Middleware :=
  {| m_jwksURL := m_jwksURL m; m_issuer := m_issuer m; m_audiences := l; m_audienceSet := on;
     m_revocationCheck := m_revocationCheck m; m_writeErr := m_writeErr m; m_tenantClaim :=
     m_tenantClaim m; m_tenantClaimSet := m_tenantClaimSet m; m_requiredScopes :=
     m_requiredScopes m; m_requiredScopesSet := m_requiredScopesSet m; m_cacheTTL := m_cacheTTL
     m; m_leeway := m_leeway m; m_minRefetchInterval := m_minRefetchInterval m;
     m_negativeCacheTTL := m_negativeCacheTTL m |}.

(** [jwtauth/middleware.go: WithAudience] *)
Definition WithAudience (expectedAudience : string) : Option_ :=
  λ m, if String.eqb expectedAudience "" then set_audiences m [] false
       else set_audiences m [expectedAudience] true.

(** The loop shared by [WithAudiences] and [RequireScopes]: the non-empty
    values, once each. *)
Definition nonempty_set (l : list string) : list string :=
  fold_left (λ set a, if negb (String.eqb a "") && negb (contains set a) then set ++ [a] else set) l [].

(** [jwtauth/middleware.go: WithAudiences] *)
Definition WithAudiences (expectedAudiences : list string) : Option_ :=
  λ m, set_audiences m (nonempty_set expectedAudiences) true.

(** [jwtauth/middleware.go: WithErrorWriter] *)
Definition WithErrorWriter (write : option apierror.ErrorWriter) : Option_ :=
  λ m, {| m_jwksURL := m_jwksURL m; m_issuer := m_issuer m; m_audiences := m_audiences m;
     m_audienceSet := m_audienceSet m; m_revocationCheck := m_revocationCheck m; m_writeErr :=
     write; m_tenantClaim := m_tenantClaim m; m_tenantClaimSet := m_tenantClaimSet m;
     m_requiredScopes := m_requiredScopes m; m_requiredScopesSet := m_requiredScopesSet m;
     m_cacheTTL := m_cacheTTL m; m_leeway := m_leeway m; m_minRefetchInterval :=
     m_minRefetchInterval m; m_negativeCacheTTL := m_negativeCacheTTL m |}.

(** [jwtauth/middleware.go: WithRevocationCheck] *)
Definition WithRevocationCheck (fn : option RevocationChecker) : Option_ :=
  λ m, {| m_jwksURL := m_jwksURL m; m_issuer := m_issuer m; m_audiences := m_audiences m;
     m_audienceSet := m_audienceSet m; m_revocationCheck := fn; m_writeErr := m_writeErr m;
     m_tenantClaim := m_tenantClaim m; m_tenantClaimSet := m_tenantClaimSet m; m_requiredScopes
     := m_requiredScopes m; m_requiredScopesSet := m_requiredScopesSet m; m_cacheTTL :=
     m_cacheTTL m; m_leeway := m_leeway m; m_minRefetchInterval := m_minRefetchInterval m;
     m_negativeCacheTTL := m_negativeCacheTTL m |}.

(** [jwtauth/middleware.go: WithTenantClaim] *)
Definition WithTenantClaim (name : string) : Option_ :=
  λ m, {| m_jwksURL := m_jwksURL m; m_issuer := m_issuer m; m_audiences := m_audiences m;
     m_audienceSet := m_audienceSet m; m_revocationCheck := m_revocationCheck m; m_writeErr :=
     m_writeErr m; m_tenantClaim := trim_space name; m_tenantClaimSet := true; m_requiredScopes
     := m_requiredScopes m; m_requiredScopesSet := m_requiredScopesSet m; m_cacheTTL :=
     m_cacheTTL m; m_leeway := m_leeway m; m_minRefetchInterval := m_minRefetchInterval m;
     m_negativeCacheTTL := m_negativeCacheTTL m |}.

(** [jwtauth/middleware.go: RequireScopes] *)
Definition RequireScopes (scs : list string) : Option_ :=
  λ m, {| m_jwksURL := m_jwksURL m; m_issuer := m_issuer m; m_audiences := m_audiences m;
     m_audienceSet := m_audienceSet m; m_revocationCheck := m_revocationCheck m; m_writeErr :=
     m_writeErr m; m_tenantClaim := m_tenantClaim m; m_tenantClaimSet := m_tenantClaimSet m;
     m_requiredScopes := nonempty_set (trim_space <$> scs); m_requiredScopesSet := true;
     m_cacheTTL := m_cacheTTL m; m_leeway := m_leeway m; m_minRefetchInterval :=
     m_minRefetchInterval m; m_negativeCacheTTL := m_negativeCacheTTL m |}.

(** [jwtauth/middleware.go: WithLeeway] *)
Definition WithLeeway (d : Duration) : Option_ :=
  λ m, if 0 <=? d then {| m_jwksURL := m_jwksURL m; m_issuer := m_issuer m; m_audiences := m_audiences m;
     m_audienceSet := m_audienceSet m; m_revocationCheck := m_revocationCheck m; m_writeErr :=
     m_writeErr m; m_tenantClaim := m_tenantClaim m; m_tenantClaimSet := m_tenantClaimSet m;
     m_requiredScopes := m_requiredScopes m; m_requiredScopesSet := m_requiredScopesSet m;
     m_cacheTTL := m_cacheTTL m; m_leeway := d; m_minRefetchInterval := m_minRefetchInterval m;
     m_negativeCacheTTL := m_negativeCacheTTL m |}
     else m.

(** [jwtauth/middleware.go: WithMinRefetchInterval] *)
Definition WithMinRefetchInterval (d : Duration) : Option_ :=
  λ m, if 0 <? d then {| m_jwksURL := m_jwksURL m; m_issuer := m_issuer m; m_audiences := m_audiences m;
     m_audienceSet := m_audienceSet m; m_revocationCheck := m_revocationCheck m; m_writeErr :=
     m_writeErr m; m_tenantClaim := m_tenantClaim m; m_tenantClaimSet := m_tenantClaimSet m;
     m_requiredScopes := m_requiredScopes m; m_requiredScopesSet := m_requiredScopesSet m;
     m_cacheTTL := m_cacheTTL m; m_leeway := m_leeway m; m_minRefetchInterval := d;
     m_negativeCacheTTL := m_negativeCacheTTL m |}
     else m.

(** [jwtauth/middleware.go: WithNegativeCacheTTL] *)
Definition WithNegativeCacheTTL (d : Duration) : Option_ :=
  λ m, if 0 <? d then {| m_jwksURL := m_jwksURL m; m_issuer := m_issuer m; m_audiences := m_audiences m;
     m_audienceSet := m_audienceSet m; m_revocationCheck := m_revocationCheck m; m_writeErr :=
     m_writeErr m; m_tenantClaim := m_tenantClaim m; m_tenantClaimSet := m_tenantClaimSet m;
     m_requiredScopes := m_requiredScopes m; m_requiredScopesSet := m_requiredScopesSet m;
     m_cacheTTL := m_cacheTTL m; m_leeway := m_leeway m; m_minRefetchInterval :=
     m_minRefetchInterval m; m_negativeCacheTTL := d |}
     else m.

(** [jwtauth/middleware.go: New]
    The options are applied in order, over the defaults. *)
Definition New (url issuer : string) (opts : list Option_) : Middleware :=
  fold_left (λ m opt, opt m) opts
    {| m_jwksURL := url; m_issuer := issuer; m_audiences := []; m_audienceSet := false;
     m_revocationCheck := None; m_writeErr := None; m_tenantClaim := ""; m_tenantClaimSet :=
     false; m_requiredScopes := []; m_requiredScopesSet := false; m_cacheTTL := Hour; m_leeway :=
     60 * Second; m_minRefetchInterval := 15 * Second; m_negativeCacheTTL := 30 * Second |}.

(** * Claims read from the verified payload *)

(** The payload of a compact token, decoded. *)
Definition token_payload (token : string) : option string :=
  match str_split "." token with
  | [_; p; _] => b64_decode p
  | _ => None
  end.

(** A raw claim read as a string; null is not one. *)
Definition as_string (raw : json) : option string :=
  match raw with JStr s => Some s | _ => None end.

(** [json.Unmarshal] into a list of strings; null elements are empty strings. *)
Definition as_strings (raw : json) : option (list string) :=
  match raw with JArr l => mapM (decode_string "") l | _ => None end.

(** [jwtauth/middleware.go:622-630] the add closure of scopeClaims *)
Definition add_scopes (out : list string) (values : list string) : list string :=
  fold_left (λ out v, dedup_onto out (fields v)) values out.

(** [jwtauth/middleware.go:631-650] one claim of scopeClaims *)
Definition add_claim (out : list string) (raw : option json) (arrayToo : bool) : option (list string) :=
  match raw with
  | None | Some JNull => Some out
  | Some v =>
      match as_string v with
      | Some single => Some (add_scopes out [single])
      | None => if arrayToo then add_scopes out <$> as_strings v else None
      end
  end.

(** [jwtauth/middleware.go: scopeClaims]
    [None] is an error. *)
Definition scopeClaims (token : string) : option (list string) :=
  match token_payload token with
  | None => None
  | Some payload =>
      match unmarshal_struct (λ l, scope ← decode_field decode_raw None "scope" l;
                                   scp ← decode_field decode_raw None "scp" l;
                                   Some (scope, scp)) (None, None) payload with
      | None => None
      | Some (scope, scp) =>
          match add_claim [] scope false with
          | None => None
          | Some out => add_claim out scp true
          end
      end
  end.

(** [jwtauth/middleware.go: stringClaim] *)
Definition stringClaim (token name : string) : option string :=
  if String.eqb name "" then None
  else
    match token_payload token with
    | None => None
    | Some payload =>
        match unmarshal_struct (λ l, Some (raw_map l)) ∅ payload with
        | None => None
        | Some all =>
            match all !! name with
            | None => Some ""
            | Some raw => as_string raw
            end
        end
    end.

(** [jwtauth/middleware.go: SocrateClaims.Scopes] *)
Definition Scopes (c : SocrateClaims) : list string := scopes c.

Definition set_scopes (c : SocrateClaims) (r : option (list string)) : SocrateClaims :=
  {| Role := Role c; AppRoles := AppRoles c; TokenVersion := TokenVersion c; AuthTime := AuthTime c;
     Amr := Amr c; TenantID := TenantID c; Plan := Plan c; Email := Email c; Name := Name c;
     Registered := Registered c; scopes := default [] r;
     scopesErr := match r with None => true | Some _ => false end |}.

Definition set_tenant (c : SocrateClaims) (tenant : string) : SocrateClaims :=
  {| Role := Role c; AppRoles := AppRoles c; TokenVersion := TokenVersion c; AuthTime := AuthTime c;
     Amr := Amr c; TenantID := tenant; Plan := Plan c; Email := Email c; Name := Name c;
     Registered := Registered c; scopes := scopes c; scopesErr := scopesErr c |}.

(** [jwtauth/middleware.go: missingScopes]
    A nil result (the token passes) is [None]. *)
Definition missingScopes (m : Middleware) (claims : SocrateClaims) : option (list string) :=
  match m_requiredScopes m with
  | [] => Some []
  | _ =>
      if scopesErr claims then Some (m_requiredScopes m)
      else match filter (λ sc, contains (scopes claims) sc = false) (m_requiredScopes m) with
           | [] => None
           | missing => Some missing
           end
  end.

(** [jwtauth/middleware.go: acceptedAudiences] *)
Definition acceptedAudiences (m : Middleware) (tokenAud : list string) : list string :=
  fold_left (λ out a,
    if String.eqb a "" || contains out a then out
    else if m_audienceSet m && negb (contains (m_audiences m) a) then out
    else out ++ [a]) tokenAud [].

(** [jwtauth/middleware.go: extractBearer] *)
Definition extractBearer (r : Request) : option string :=
  let h := header_Get (req_Header r) "Authorization" in
  if String.eqb h "" then None
  else match str_cut " " h with
       | Some (scheme, token) => if String.eqb scheme "Bearer" then Some token else None
       | None => None
       end.

(** [jwtauth/middleware.go: writeError] *)
Definition writeError (m : Middleware) (w : ResponseWriter) (r : Request) (e : apierror.AppError)
  : ResponseWriter :=
  match m_writeErr m with
  | Some write => write w r e
  | None => apierror.WriteJSON e w
  end.

(** * Sets built from options and claims *)

Lemma acceptedAudiences_from m l out :
  let acc := fold_left (λ out a,
    if String.eqb a "" || contains out a then out
    else if m_audienceSet m && negb (contains (m_audiences m) a) then out
    else out ++ [a]) l out in
  (NoDup out → NoDup acc) ∧
  ∀ a, a ∈ acc ↔ a ∈ out ∨ (a ∈ l ∧ a ≠ "" ∧ (m_audienceSet m = true → a ∈ m_audiences m)).
Proof.
  revert out. induction l as [|x l IH]; intros out; cbn [fold_left].
  { split; [done|]. set_solver. }
  destruct (String.eqb_spec x "") as [->|Hx]; cbn [orb].
  { destruct (IH out) as [IH1 IH2]. split; [done|]. intros a. rewrite IH2. set_solver. }
  destruct (contains out x) eqn:Hc.
  { apply contains_spec in Hc. destruct (IH out) as [IH1 IH2]. split; [done|].
    intros a. rewrite IH2. set_solver. }
  destruct (m_audienceSet m && negb (contains (m_audiences m) x)) eqn:Hs.
  { destruct (IH out) as [IH1 IH2]. split; [done|]. intros a. rewrite IH2.
    apply andb_true_iff in Hs as [Hs1 Hs2]. apply negb_true_iff, contains_false in Hs2. set_solver. }
  destruct (IH (out ++ [x])) as [IH1 IH2]. apply contains_false in Hc. split.
  - intros Hnd. apply IH1. apply NoDup_app. split_and!; [done|set_solver|apply NoDup_singleton].
  - intros a. rewrite IH2.
    assert (m_audienceSet m = true → x ∈ m_audiences m) as Hin.
    { intros Hset. rewrite Hset in Hs. simpl in Hs. by apply negb_false_iff, contains_spec in Hs. }
    set_solver.
Qed.

Lemma acceptedAudiences_elem m l a :
  a ∈ acceptedAudiences m l ↔ a ∈ l ∧ a ≠ "" ∧ (m_audienceSet m = true → a ∈ m_audiences m).
Proof. unfold acceptedAudiences. rewrite (proj2 (acceptedAudiences_from m l [])). set_solver. Qed.

Lemma acceptedAudiences_NoDup m l : NoDup (acceptedAudiences m l).
Proof. unfold acceptedAudiences. apply (proj1 (acceptedAudiences_from m l [])). constructor. Qed.

Lemma nonempty_set_elem l a : a ∈ nonempty_set l ↔ a ∈ l ∧ a ≠ "".
Proof.
  unfold nonempty_set.
  assert (∀ out, a ∈ fold_left (λ set a, if negb (String.eqb a "") && negb (contains set a)
                                then set ++ [a] else set) l out ↔ a ∈ out ∨ (a ∈ l ∧ a ≠ "")) as Hgen.
  { induction l as [|x l IH]; intros out; cbn [fold_left]; [set_solver|]. rewrite IH.
    destruct (String.eqb_spec x ""); cbn [negb andb]; [set_solver|].
    destruct (contains out x) eqn:E; cbn [negb].
    - apply contains_spec in E. set_solver.
    - set_solver. }
  rewrite Hgen. set_solver.
Qed.

Section WithLibraries.
Context `{JwtLib, UuidLib, QuoteLib}.

(** The environment of one request: the clock of a key lookup, the answer the
    JWKS endpoint would give, and when the claims are checked. *)
Record Env := { e_clock : jwtkeys.Clock; e_answer : jwtkeys.http_result; e_now : Time }.

(** [jwtauth/middleware.go:536-553] the parser options of validateToken *)
Definition parser_options (m : Middleware) : ParserOptions :=
  {| po_leeway := m_leeway m;
     po_issuer := if String.eqb (m_issuer m) "" then None else Some (m_issuer m);
     po_audiences := if m_audienceSet m then Some (m_audiences m) else None |}.

(** [jwt.ParseWithClaims] with the key function of validateToken: the token is
    decoded, its algorithm must be RS256, the key function looks its kid up,
    then the signature and the claims are checked. *)
Definition ParseWithClaims (m : Middleware) (st : jwtkeys.KeyCache) (env : Env) (token : string)
  : option SocrateClaims * jwtkeys.KeyCache :=
  match jwt_decode token with
  | None => (None, st)
  | Some (header, claims) =>
      if negb (String.eqb (jh_alg header) "RS256") then (None, st)
      else
        match jh_kid header with
        | None | Some "" => (None, st)
        | Some kid =>
            let '(key, st', _) := jwtkeys.getKey (key_config m) st kid (e_clock env) (e_answer env) in
            match key with
            | None => (None, st')
            | Some k =>
                if jwt_verify token k && jwt_claims_valid (parser_options m) (e_now env) (Registered claims)
                then (Some claims, st') else (None, st')
            end
        end
  end.

(** [jwtauth/middleware.go: validateToken] *)
Definition validateToken (m : Middleware) (st : jwtkeys.KeyCache) (env : Env) (token : string)
  : option SocrateClaims * jwtkeys.KeyCache :=
  if m_audienceSet m && bool_decide (m_audiences m = []) then (None, st)
  else
    match ParseWithClaims m st env token with
    | (None, st') => (None, st')
    | (Some claims, st') =>
        let claims := set_scopes claims (scopeClaims token) in
        if m_tenantClaimSet m then
          match stringClaim token (m_tenantClaim m) with
          | None => (None, st')
          | Some tenant => (Some (set_tenant claims tenant), st')
          end
        else (Some claims, st')
    end.

(** [jwtauth/middleware.go:447-488] the identity values Handler injects *)
Definition inject_identity (m : Middleware) (ctx : ctxutil.context) (claims : SocrateClaims)
  : ctxutil.context :=
  let sub := rc_Subject (Registered claims) in
  let ctx := if String.eqb sub "" then ctx
             else let userID := match uuid_Parse sub with
                                | Some u => u
                                | None => uuid_of_sub sub
                                end in
                  ctxutil.WithUserSub (ctxutil.WithUserID ctx userID) sub in
  let ctx := if String.eqb (Email claims) "" then ctx else ctxutil.WithUserEmail ctx (Email claims) in
  let ctx := if String.eqb (Name claims) "" then ctx else ctxutil.WithUserName ctx (Name claims) in
  let ctx := if String.eqb (Role claims) "" then ctx else ctxutil.WithUserRole ctx (Role claims) in
  let ctx := if String.eqb (Plan claims) "" then ctx else ctxutil.WithUserPlan ctx (Plan claims) in
  let ctx := if bool_decide (default ∅ (AppRoles claims) = ∅) then ctx
             else ctxutil.WithAppRoles ctx (AppRoles claims) in
  let ctx := if TokenVersion claims =? 0 then ctx
             else ctxutil.WithTokenVersion ctx (TokenVersion claims) in
  let ctx := if AuthTime claims =? 0 then ctx else ctxutil.WithAuthTime ctx (AuthTime claims) in
  let ctx := match Amr claims with None => ctx | amr => ctxutil.WithAMR ctx amr end in
  match acceptedAudiences m (rc_Audience (Registered claims)) with
  | [] => ctx
  | aud => ctxutil.WithAudiences ctx aud
  end.

(** [jwtauth/middleware.go: Handler]
    The verdict on a request and the key cache after it. *)
Definition Handler (m : Middleware) (st : jwtkeys.KeyCache) (env : Env) (w : ResponseWriter)
    (r : Request) : verdict * jwtkeys.KeyCache :=
  match extractBearer r with
  | None => (Reply (writeError m w r
               (apierror.Unauthorized "missing or invalid authorization header")), st)
  | Some token =>
      match validateToken m st env token with
      | (None, st') => (Reply (writeError m w r (apierror.Unauthorized "invalid or expired token")), st')
      | (Some claims, st') =>
          let ctx := ctxutil.WithRawJWT (req_ctx r) token in
          if match m_revocationCheck m with Some fn => fn ctx claims | None => false end
          then (Reply (writeError m w r (apierror.Unauthorized "token revoked")), st')
          else if m_requiredScopesSet m && bool_decide (missingScopes m claims ≠ None)
          then (Reply (writeError m
                  (rw_set_header w "WWW-Authenticate"
                     ("Bearer error=" +:+ quote +:+ "insufficient_scope" +:+ quote +:+ ", scope="
                        +:+ go_quote (str_join " " (m_requiredScopes m))))
                  r (apierror.Forbidden "insufficient scope")), st')
          else
            let ctx := match Scopes claims with [] => ctx | sc => ctxutil.WithScopes ctx sc end in
            if String.eqb (TenantID claims) "" then
              (Next w (with_ctx r (inject_identity m ctx claims)), st')
            else
              match uuid_Parse (TenantID claims) with
              | None => (Reply (writeError m w r (apierror.Unauthorized "invalid tenant_id")), st')
              | Some tenantID =>
                  (Next w (with_ctx r (inject_identity m (ctxutil.WithTenantID ctx tenantID) claims)), st')
              end
      end
  end.

(** * What an admitted request has passed *)

Lemma ParseWithClaims_Some m st env token claims st' :
  ParseWithClaims m st env token = (Some claims, st') →
  ∃ header kid key asked,
    jwt_decode token = Some (header, claims) ∧ jh_alg header = "RS256" ∧
    jh_kid header = Some kid ∧ kid ≠ "" ∧
    jwtkeys.getKey (key_config m) st kid (e_clock env) (e_answer env) = (Some key, st', asked) ∧
    jwt_verify token key = true ∧
    jwt_claims_valid (parser_options m) (e_now env) (Registered claims) = true.
Proof.
  unfold ParseWithClaims. intros Heq.
  destruct (jwt_decode token) as [[header cl]|] eqn:?; [|done].
  destruct (String.eqb (jh_alg header) "RS256") eqn:?; simpl in Heq; [|done].
  destruct (jh_kid header) as [[|c kid]|] eqn:?; [done| |done].
  destruct (jwtkeys.getKey _ _ _ _ _) as [[[key|] st2] asked] eqn:G; [|done].
  destruct (jwt_verify token key) eqn:?; simpl in Heq; [|done].
  destruct (jwt_claims_valid _ _ _) eqn:?; simplify_eq. bool_to_prop.
  by eexists _, _, _, _.
Qed.

(** The claims a valid token yields: those the library decoded, with the
    scopes and the tenant read from the payload. *)
Lemma validateToken_Some m st env token claims st' :
  validateToken m st env token = (Some claims, st') →
  ∃ claims0,
    ParseWithClaims m st env token = (Some claims0, st') ∧
    (m_audienceSet m = true → m_audiences m ≠ []) ∧
    Registered claims = Registered claims0 ∧
    scopes claims = default [] (scopeClaims token) ∧
    scopesErr claims = bool_decide (scopeClaims token = None) ∧
    (if m_tenantClaimSet m then stringClaim token (m_tenantClaim m) = Some (TenantID claims)
     else TenantID claims = TenantID claims0).
Proof.
  unfold validateToken. intros Heq.
  destruct (m_audienceSet m && bool_decide (m_audiences m = [])) eqn:Haud; [done|].
  destruct (ParseWithClaims m st env token) as [[claims0|] st2] eqn:HP; [|done].
  exists claims0. assert (m_audienceSet m = true → m_audiences m ≠ []) as Hne.
  { intros Hset Hnil. by rewrite Hset, bool_decide_true in Haud. }
  destruct (m_tenantClaimSet m).
  - destruct (stringClaim token (m_tenantClaim m)) eqn:HT; simplify_eq. simpl.
    by destruct (scopeClaims token).
  - simplify_eq. simpl. by destruct (scopeClaims token).
Qed.

Lemma missingScopes_None m claims :
  missingScopes m claims = None →
  m_requiredScopes m ≠ [] ∧ scopesErr claims = false ∧
  Forall (λ sc, sc ∈ scopes claims) (m_requiredScopes m).
Proof.
  unfold missingScopes. intros Heq.
  destruct (m_requiredScopes m) as [|sc l] eqn:Hreq; [done|]. rewrite <-Hreq in *.
  destruct (scopesErr claims); [done|]. split; [by rewrite Hreq|]. split; [done|].
  apply Forall_forall. intros x Hx. apply contains_spec.
  destruct (contains (scopes claims) x) eqn:Hc; [done|]. exfalso.
  destruct (filter _ _) eqn:Hf; [|done].
  assert (x ∈ filter (λ sc, contains (scopes claims) sc = false) (m_requiredScopes m)) as Hin
    by (by apply list_elem_of_filter).
  rewrite Hf in Hin. set_solver.
Qed.

Lemma Handler_Next m st env w r w' r' st' :
  Handler m st env w r = (Next w' r', st') →
  ∃ token claims,
    extractBearer r = Some token ∧ validateToken m st env token = (Some claims, st') ∧
    w' = w ∧
    (∀ fn, m_revocationCheck m = Some fn →
       fn (ctxutil.WithRawJWT (req_ctx r) token) claims = false) ∧
    (m_requiredScopesSet m = true → missingScopes m claims = None) ∧
    ∃ tenant,
      (if String.eqb (TenantID claims) "" then tenant = None
       else tenant = uuid_Parse (TenantID claims) ∧ tenant ≠ None) ∧
      let ctx := ctxutil.WithRawJWT (req_ctx r) token in
      let ctx := match Scopes claims with [] => ctx | sc => ctxutil.WithScopes ctx sc end in
      let ctx := match tenant with None => ctx | Some t => ctxutil.WithTenantID ctx t end in
      r' = with_ctx r (inject_identity m ctx claims).
Proof.
  unfold Handler. intros Heq.
  destruct (extractBearer r) as [token|]; [|done].
  destruct (validateToken m st env token) as [[claims|] st2] eqn:Hv; [|done].
  destruct (match m_revocationCheck m with Some _ => _ | None => _ end) eqn:Hrev; [done|].
  destruct (m_requiredScopesSet m && _) eqn:Hsc; [done|].
  assert (m_requiredScopesSet m = true → missingScopes m claims = None) as Hmiss.
  { intros Hset. rewrite Hset in Hsc. simpl in Hsc. bool_to_prop. by apply dec_stable. }
  destruct (String.eqb (TenantID claims) "") eqn:Ht.
  - simplify_eq. exists token, claims. do 3 (split; [done|]). split; [|split; [done|]].
    + intros fn Hfn. by rewrite Hfn in Hrev.
    + exists None. by rewrite Ht.
  - destruct (uuid_Parse (TenantID claims)) as [t|] eqn:Hu; simplify_eq.
    exists token, claims. do 3 (split; [done|]). split; [|split; [done|]].
    + intros fn Hfn. by rewrite Hfn in Hrev.
    + exists (Some t). by rewrite Ht.
Qed.

(** C1: no request reaches the next handler without a token that the library
    decoded as RS256, that a key of the cache (or of the document just fetched)
    verifies and whose registered claims are valid; a configured revocation
    check has accepted it, and it carries every required scope. *)
Theorem Handler_admits_only_verified_tokens m st env w r w' r' st' :
  Handler m st env w r = (Next w' r', st') →
  ∃ token header kid key asked claims,
    extractBearer r = Some token ∧
    jwt_decode token = Some (header, claims) ∧ jh_alg header = "RS256" ∧ jh_kid header = Some kid ∧
    jwtkeys.getKey (key_config m) st kid (e_clock env) (e_answer env) = (Some key, st', asked) ∧
    jwt_verify token key = true ∧
    jwt_claims_valid (parser_options m) (e_now env) (Registered claims) = true ∧
    (∀ fn, m_revocationCheck m = Some fn → ∃ cl, Registered cl = Registered claims ∧
       fn (ctxutil.WithRawJWT (req_ctx r) token) cl = false) ∧
    (m_requiredScopesSet m = true →
       m_requiredScopes m ≠ [] ∧
       ∃ granted, scopeClaims token = Some granted ∧ m_requiredScopes m ⊆ granted).
Proof.
  intros (token & claims & Hb & Hv & -> & Hrev & Hmiss & _)%Handler_Next.
  apply validateToken_Some in Hv as (claims0 & HP & _ & Hreg & Hsc & Herr & _).
  apply ParseWithClaims_Some in HP as (header & kid & key & asked & ? & ? & ? & ? & ? & ? & ?).
  exists token, header, kid, key, asked, claims0. split_and!; try done.
  - intros fn Hfn. exists claims. eauto.
  - intros Hset. apply Hmiss, missingScopes_None in Hset as (Hne & Hok & Hall).
    split; [done|]. rewrite Hok in Herr. symmetry in Herr. bool_to_prop.
    destruct (scopeClaims token) as [granted|]; [|done]. exists granted. split; [done|].
    simpl in Hsc. rewrite Hsc in Hall. intros x Hx. by eapply Forall_forall in Hall.
Qed.

(** The fail-closed settings: with an audience check given no audience, a
    scope requirement given no scope, or a tenant claim given no name, no
    request at all reaches the next handler. *)
Theorem empty_settings_reject_everything m st env w r :
  (m_audienceSet m = true ∧ m_audiences m = []) ∨
  (m_requiredScopesSet m = true ∧ m_requiredScopes m = []) ∨
  (m_tenantClaimSet m = true ∧ m_tenantClaim m = "") →
  ∃ w' st', Handler m st env w r = (Reply w', st').
Proof.
  intros Hset. destruct (Handler m st env w r) as [[w'|w' r'] st'] eqn:HH; [by eauto|].
  exfalso. apply Handler_Next in HH as (token & claims & Hb & Hv & -> & _ & Hmiss & _).
  apply validateToken_Some in Hv as (claims0 & _ & Haud & _ & _ & _ & Hten).
  destruct Hset as [[Hs He]|[[Hs He]|[Hs He]]].
  - by apply Haud in Hs.
  - apply Hmiss, missingScopes_None in Hs. naive_solver.
  - rewrite Hs, He in Hten. done.
Qed.

(** * The context of an admitted request *)

(** A layer of the context that the reader of another key sees through. *)
Lemma Value_if_skip (b : bool) ctx k v k' :
  k ≠ k' → ctxutil.Value (if b then ctx else ctxutil.WithValue ctx k v) k' = ctxutil.Value ctx k'.
Proof. intros Hne. destruct b; [done|]. by apply ctxutil.Value_WithValue_ne. Qed.

Lemma Value_if_hit (b : bool) ctx k v :
  ctxutil.Value (if b then ctx else ctxutil.WithValue ctx k v) k =
  if b then ctxutil.Value ctx k else Some v.
Proof. destruct b; [done|]. apply ctxutil.Value_WithValue_eq. Qed.

Lemma Value_amr_skip ctx amr k' :
  ctxutil.amrKey ≠ k' →
  ctxutil.Value match amr with None => ctx | Some a => ctxutil.WithAMR ctx (Some a) end k' =
  ctxutil.Value ctx k'.
Proof. intros Hne. destruct amr; [|done]. by apply ctxutil.Value_WithValue_ne. Qed.

Lemma Value_aud_skip ctx aud k' :
  ctxutil.audiencesKey ≠ k' →
  ctxutil.Value match aud with [] => ctx | a :: l => ctxutil.WithAudiences ctx (a :: l) end k' =
  ctxutil.Value ctx k'.
Proof. intros Hne. destruct aud; [done|]. by apply ctxutil.Value_WithValue_ne. Qed.

Lemma Value_sub_skip (b : bool) ctx u v k' :
  ctxutil.userSubKey ≠ k' → ctxutil.userIDKey ≠ k' →
  ctxutil.Value (if b then ctx
                 else ctxutil.WithValue (ctxutil.WithValue ctx ctxutil.userIDKey u)
                        ctxutil.userSubKey v) k' = ctxutil.Value ctx k'.
Proof.
  intros H1' H2'. destruct b; [done|].
  by rewrite !ctxutil.Value_WithValue_ne.
Qed.

Ltac see_through :=
  unfold inject_identity; cbv zeta;
  rewrite ?Value_aud_skip by discriminate;
  rewrite ?Value_amr_skip by discriminate;
  unfold ctxutil.WithUserEmail, ctxutil.WithUserName, ctxutil.WithUserRole, ctxutil.WithUserPlan,
    ctxutil.WithAppRoles, ctxutil.WithTokenVersion, ctxutil.WithAuthTime, ctxutil.WithUserSub,
    ctxutil.WithUserID;
  rewrite ?Value_if_skip by discriminate;
  rewrite ?Value_sub_skip by discriminate.

(** Keys the identity injection does not write. *)
Lemma inject_identity_other m ctx claims k :
  k ∉ [ctxutil.userSubKey; ctxutil.userIDKey; ctxutil.userEmailKey; ctxutil.userNameKey;
       ctxutil.userRoleKey; ctxutil.userPlanKey; ctxutil.appRolesKey; ctxutil.tokenVersionKey;
       ctxutil.authTimeKey; ctxutil.amrKey; ctxutil.audiencesKey] →
  ctxutil.Value (inject_identity m ctx claims) k = ctxutil.Value ctx k.
Proof.
  intros Hk. rewrite !not_elem_of_cons in Hk. destruct_and! Hk.
  unfold inject_identity; cbv zeta. rewrite Value_aud_skip, Value_amr_skip by congruence.
  unfold ctxutil.WithUserEmail, ctxutil.WithUserName, ctxutil.WithUserRole, ctxutil.WithUserPlan,
    ctxutil.WithAppRoles, ctxutil.WithTokenVersion, ctxutil.WithAuthTime, ctxutil.WithUserSub,
    ctxutil.WithUserID.
  rewrite !Value_if_skip by congruence. by rewrite Value_sub_skip by congruence.
Qed.

Lemma inject_role m ctx claims :
  ctxutil.Value ctx ctxutil.userRoleKey = None →
  ctxutil.GetUserRole (inject_identity m ctx claims) = Role claims.
Proof.
  intros Hn. unfold ctxutil.GetUserRole. see_through. rewrite Value_if_hit. see_through.
  rewrite Hn. by destruct (String.eqb_spec (Role claims) "").
Qed.

Lemma inject_sub m ctx claims :
  ctxutil.Value ctx ctxutil.userSubKey = None →
  ctxutil.GetUserSub (inject_identity m ctx claims) = rc_Subject (Registered claims).
Proof.
  intros Hn. unfold ctxutil.GetUserSub. see_through.
  destruct (String.eqb_spec (rc_Subject (Registered claims)) ""); [by rewrite Hn|].
  by rewrite ctxutil.Value_WithValue_eq.
Qed.

Lemma inject_plan m ctx claims :
  ctxutil.Value ctx ctxutil.userPlanKey = None →
  ctxutil.GetUserPlan (inject_identity m ctx claims) =
  if String.eqb (Plan claims) "" then "freemium" else Plan claims.
Proof.
  intros Hn. unfold ctxutil.GetUserPlan. see_through. rewrite Value_if_hit. see_through.
  rewrite Hn. destruct (String.eqb (Plan claims) "") eqn:E; [done|]. by rewrite E.
Qed.

Lemma inject_auth m ctx claims :
  ctxutil.Value ctx ctxutil.authTimeKey = None → ctxutil.Value ctx ctxutil.amrKey = None →
  ctxutil.GetAuthTime (inject_identity m ctx claims) = AuthTime claims ∧
  ctxutil.GetAMR (inject_identity m ctx claims) = Amr claims.
Proof.
  intros Hn1 Hn2. unfold ctxutil.GetAuthTime, ctxutil.GetAMR. split.
  - see_through. rewrite Value_if_hit. see_through. rewrite Hn1.
    by destruct (Z.eqb_spec (AuthTime claims) 0).
  - unfold inject_identity; cbv zeta. rewrite Value_aud_skip by discriminate.
    destruct (Amr claims) as [amr|].
    + unfold ctxutil.WithAMR. by rewrite ctxutil.Value_WithValue_eq.
    + see_through. by rewrite Hn2.
Qed.

Lemma inject_audiences m ctx claims :
  ctxutil.Value ctx ctxutil.audiencesKey = None →
  ctxutil.GetAudiences (inject_identity m ctx claims) =
  ctxutil.copy_strings (acceptedAudiences m (rc_Audience (Registered claims))).
Proof.
  intros Hn. unfold ctxutil.GetAudiences, inject_identity; cbv zeta.
  destruct (acceptedAudiences m _) as [|a l].
  - rewrite Value_amr_skip by discriminate. see_through. by rewrite Hn.
  - unfold ctxutil.WithAudiences. by rewrite ctxutil.Value_WithValue_eq.
Qed.

(** No ctxutil value is set on the incoming request, except those that the
    middlewares before this one set: its request id and its logger. *)
Definition clean (ctx : ctxutil.context) : Prop :=
  ∀ k, k ∉ ["request_id"; "logger"] → ctxutil.Value ctx (ctxutil.contextKey k) = None.

(** The context of an admitted request. *)
Lemma admitted_identity m st env w r w' r' st' :
  Handler m st env w r = (Next w' r', st') → clean (req_ctx r) →
  ∃ token claims,
    extractBearer r = Some token ∧ validateToken m st env token = (Some claims, st') ∧
    ctxutil.GetRawJWT (req_ctx r') = token ∧
    ctxutil.GetUserSub (req_ctx r') = rc_Subject (Registered claims) ∧
    ctxutil.GetUserRole (req_ctx r') = Role claims ∧
    ctxutil.GetUserPlan (req_ctx r') = (if String.eqb (Plan claims) "" then "freemium" else Plan claims) ∧
    ctxutil.GetAuthTime (req_ctx r') = AuthTime claims ∧
    ctxutil.GetAMR (req_ctx r') = Amr claims ∧
    ctxutil.GetScopes (req_ctx r') = ctxutil.copy_strings (scopes claims) ∧
    ctxutil.GetTenantID (req_ctx r') =
      (if String.eqb (TenantID claims) "" then uuid_Nil else default uuid_Nil (uuid_Parse (TenantID claims))).
Proof.
  intros (token & claims & Hb & Hv & _ & _ & _ & tenant & Ht & ->)%Handler_Next Hclean.
  exists token, claims. split; [done|]. split; [done|]. simpl req_ctx.
  set (ctx1 := match Scopes claims with [] => _ | _ => _ end).
  set (ctx2 := match tenant with None => _ | Some _ => _ end).
  assert (∀ k, k ∉ ["raw_jwt"; "scopes"; "tenant_id"; "request_id"; "logger"] →
    ctxutil.Value ctx2 (ctxutil.contextKey k) = None) as Hother.
  { intros k Hk. rewrite !not_elem_of_cons in Hk. destruct Hk as (? & ? & ? & ? & ? & _).
    unfold ctx2, ctx1. destruct tenant; destruct (Scopes claims);
      unfold ctxutil.WithTenantID, ctxutil.WithScopes, ctxutil.WithRawJWT;
      rewrite ?ctxutil.Value_WithValue_ne by (unfold ctxutil.tenantIDKey, ctxutil.scopesKey,
        ctxutil.rawJWTKey; congruence); apply Hclean; set_solver. }
  split_and!.
  - unfold ctxutil.GetRawJWT. rewrite inject_identity_other by (rewrite !not_elem_of_cons; split_and!; try done; set_solver).
    unfold ctx2, ctx1. destruct tenant; destruct (Scopes claims);
      unfold ctxutil.WithTenantID, ctxutil.WithScopes, ctxutil.WithRawJWT; by ctx_simpl.
  - apply inject_sub, Hother. set_solver.
  - apply inject_role, Hother. set_solver.
  - apply inject_plan, Hother. set_solver.
  - apply (inject_auth m ctx2 claims); apply Hother; set_solver.
  - apply (inject_auth m ctx2 claims); apply Hother; set_solver.
  - unfold ctxutil.GetScopes. rewrite inject_identity_other by (rewrite !not_elem_of_cons; split_and!; try done; set_solver).
    unfold ctx2, ctx1, Scopes. destruct tenant; destruct (scopes claims);
      unfold ctxutil.WithTenantID, ctxutil.WithScopes, ctxutil.WithRawJWT; ctx_simpl;
      try done; unfold ctxutil.scopesKey; by rewrite Hclean by set_solver.
  - unfold ctxutil.GetTenantID. rewrite inject_identity_other by (rewrite !not_elem_of_cons; split_and!; try done; set_solver).
    unfold ctx2. destruct (String.eqb (TenantID claims) "") eqn:E.
    + subst tenant. unfold ctx1. destruct (Scopes claims);
        unfold ctxutil.WithScopes, ctxutil.WithRawJWT; ctx_simpl;
        unfold ctxutil.tenantIDKey; by rewrite Hclean by set_solver.
    + destruct Ht as [Ht Hne]. destruct tenant as [t|]; [|done]. rewrite <-Ht.
      unfold ctxutil.WithTenantID. by ctx_simpl.
Qed.

Lemma admitted_audiences m st env w r w' r' st' :
  Handler m st env w r = (Next w' r', st') → clean (req_ctx r) →
  ∃ token claims,
    extractBearer r = Some token ∧ validateToken m st env token = (Some claims, st') ∧
    ctxutil.GetAudiences (req_ctx r') = ctxutil.copy_strings (acceptedAudiences m (rc_Audience (Registered claims))).
Proof.
  intros (token & claims & Hb & Hv & _ & _ & _ & tenant & Ht & ->)%Handler_Next Hclean.
  exists token, claims. split_and!; [done|done|]. simpl req_ctx. apply inject_audiences.
  destruct tenant; destruct (Scopes claims); unfold ctxutil.WithTenantID, ctxutil.WithScopes,
    ctxutil.WithRawJWT; ctx_simpl; apply Hclean; set_solver.
Qed.


(** C15: an admitted token is bound to this service. On a request whose context
    holds no identity yet, of a middleware whose audiences do not include the empty
    text (which its options drop), what the handler is reached with is the bearer
    token of that very request: the claims the library decoded from it are not
    expired (within the leeway) and name the configured issuer, if one is; and when
    an audience check is configured the token's audience intersects the configured
    set, and the audiences recorded in the context are exactly that intersection,
    each once. *)
Theorem admitted_token_is_bound `{!JwtLibLaws} m st env w r w' r' st' :
  Handler m st env w r = (Next w' r', st') → clean (req_ctx r) → "" ∉ m_audiences m →
  ∃ token header claims,
    extractBearer r = Some token ∧ ctxutil.GetRawJWT (req_ctx r') = token ∧
    jwt_decode token = Some (header, claims) ∧
    (∃ exp, rc_ExpiresAt (Registered claims) = Some exp ∧ e_now env < exp + m_leeway m) ∧
    (m_issuer m ≠ "" → rc_Issuer (Registered claims) = m_issuer m) ∧
    (m_audienceSet m = true →
       ∃ auds, ctxutil.GetAudiences (req_ctx r') = Some auds ∧ auds ≠ [] ∧ NoDup auds ∧
         ∀ a, a ∈ auds ↔ a ∈ rc_Audience (Registered claims) ∧ a ≠ "" ∧ a ∈ m_audiences m).
Proof.
  intros Hh Hclean Haud. destruct (admitted_audiences _ _ _ _ _ _ _ _ Hh Hclean) as (token & claims & Hb & Hv & Hauds).
  destruct (admitted_identity _ _ _ _ _ _ _ _ Hh Hclean) as (token' & claims' & Hb' & _ & Hraw & _).
  rewrite Hb in Hb'. injection Hb' as <-.
  apply validateToken_Some in Hv as (claims0 & HP & _ & Hreg & _).
  apply ParseWithClaims_Some in HP as (header & kid & key & asked & Hdec & _ & _ & _ & _ & _ & Hval).
  exists token, header, claims0. rewrite <-Hreg in Hval |- *. split_and!; [done|done|done|..].
  - apply jwt_exp_checked in Hval. done.
  - intros Hi. eapply jwt_issuer_checked; [done|]. simpl.
    by destruct (String.eqb_spec (m_issuer m) "").
  - intros Hset. exists (acceptedAudiences m (rc_Audience (Registered claims))).
    destruct (jwt_audience_checked _ _ _ (m_audiences m) Hval) as (a & Ha1 & Ha2).
    { simpl. by rewrite Hset. }
    assert (a ∈ acceptedAudiences m (rc_Audience (Registered claims))) as Hin.
    { apply acceptedAudiences_elem. split_and!; [done| |done]. by intros ->. }
    split_and!.
    + rewrite Hauds. destruct (acceptedAudiences m _); [set_solver|done].
    + intros Hnil. rewrite Hnil in Hin. set_solver.
    + apply acceptedAudiences_NoDup.
    + intros b. rewrite acceptedAudiences_elem. naive_solver.
Qed.

End WithLibraries.

(** * A concrete instance of the libraries

    Tokens are accepted as decoded when their payload parses; every claim check
    is performed; the signature of a token is correct for [jwtkeys.demo_key]. *)
Module Demo.

Definition registered : RegisteredClaims :=
  {| rc_Issuer := "https://socrate"; rc_Subject := "42"; rc_Audience := ["other"; "api"];
     rc_ExpiresAt := Some (time_Unix 10000); rc_NotBefore := None; rc_IssuedAt := None; rc_ID := "j" |}.

Definition claims : SocrateClaims :=
  {| Role := "admin"; AppRoles := None; TokenVersion := 1; AuthTime := 8000; Amr := Some ["pwd"];
     TenantID := ""; Plan := ""; Email := ""; Name := ""; Registered := registered;
     scopes := []; scopesErr := false |}.

Definition claims_valid (o : ParserOptions) (now : Time) (c : RegisteredClaims) : bool :=
  match rc_ExpiresAt c with
  | None => false
  | Some exp =>
      (now <? exp + po_leeway o) &&
      match po_issuer o with Some i => String.eqb (rc_Issuer c) i | None => true end &&
      match po_audiences o with
      | Some l => existsb (λ a, contains (rc_Audience c) a) l
      | None => true
      end
  end.

#[export] Instance lib : JwtLib :=
  {| jwt_decode token :=
       match token_payload token with
       | Some _ => Some ({| jh_alg := "RS256"; jh_kid := Some "k1" |}, claims)
       | None => None
       end;
     jwt_verify _ k := bool_decide (k = jwtkeys.demo_key);
     jwt_claims_valid := claims_valid |}.

#[export] Instance lib_laws : JwtLibLaws.
Proof.
  split; simpl; unfold claims_valid.
  - intros o now c Hv. destruct (rc_ExpiresAt c) as [exp|]; [|done]. exists exp. bool_to_prop. done.
  - intros o now c i Hv Hi. rewrite Hi in Hv. destruct (rc_ExpiresAt c); [|done]. by bool_to_prop.
  - intros o now c l Hv Hl. rewrite Hl in Hv. destruct (rc_ExpiresAt c); [|done]. bool_to_prop.
    match goal with Hx : existsb _ _ = true |- _ =>
      apply existsb_exists in Hx as (a & Ha1 & Ha2) end.
    exists a. split; [by apply list_elem_of_In|]. by apply contains_spec.
Qed.

#[export] Instance uuids : UuidLib := {| uuid_Parse _ := None; uuid_of_sub _ := 7%N |}.
#[export] Instance quotes : QuoteLib := {| go_quote s := quote +:+ s +:+ quote |}.

Definition token : string := "h." +:+ b64_encode (dq "{'scope':'api worker','sub':'42'}") +:+ ".s".
Definition request : Request :=
  {| req_Method := "GET"; req_Path := "/"; req_RawQuery := ""; req_Pattern := ""; req_RemoteAddr := "";
     req_Header := {[ "Authorization" := ["Bearer " +:+ token] ]}; req_ctx := [] |}.
Definition mw : Middleware :=
  New "https://socrate/jwks" "https://socrate" [WithAudience "api"; RequireScopes ["worker"; ""]].
Definition env : Env :=
  {| e_clock := jwtkeys.demo_late; e_answer := jwtkeys.HttpResp 200 jwtkeys.demo_jwks;
     e_now := time_Unix 9000 |}.

(** The outcome of the demo request. *)
Definition outcome : verdict * jwtkeys.KeyCache :=
  Handler mw jwtkeys.empty_cache env new_response request.
Definition next_request : Request :=
  match outcome.1 with Next _ r => r | Reply _ => request end.

Lemma admitted : outcome = (Next new_response next_request, outcome.2).
Proof. vm_compute. reflexivity. Qed.

End Demo.
Import (hints) Demo.

Lemma Handler_admits_only_verified_tokens_witness :
  ∃ kid key asked,
    jwtkeys.getKey (key_config Demo.mw) jwtkeys.empty_cache kid (e_clock Demo.env)
      (e_answer Demo.env) = (Some key, Demo.outcome.2, asked) ∧
    jwt_verify Demo.token key = true.
Proof.
  destruct (Handler_admits_only_verified_tokens Demo.mw jwtkeys.empty_cache Demo.env new_response
    Demo.request new_response Demo.next_request Demo.outcome.2 Demo.admitted)
    as (token & header & kid & key & asked & cl & Hb & _ & _ & _ & Hk & Hv & _).
  exists kid, key, asked. split; [exact Hk|].
  assert (token = Demo.token) as -> by (vm_compute in Hb; by injection Hb as <-). exact Hv.
Defined.

Lemma empty_settings_reject_everything_witness :
  ∃ w' st', Handler (New "u" "i" [WithAudiences [""]]) jwtkeys.empty_cache Demo.env new_response
    Demo.request = (Reply w', st').
Proof. apply empty_settings_reject_everything. left. split; reflexivity. Defined.


Lemma admitted_token_is_bound_witness :
  ∃ auds claims header,
    jwt_decode Demo.token = Some (header, claims) ∧ rc_Issuer (Registered claims) = "https://socrate" ∧
    ctxutil.GetAudiences (req_ctx Demo.next_request) = Some auds ∧ auds = ["api"] ∧
    ∀ a, a ∈ auds ↔ a ∈ rc_Audience (Registered claims) ∧ a ≠ "" ∧ a ∈ m_audiences Demo.mw.
Proof.
  destruct (admitted_token_is_bound Demo.mw jwtkeys.empty_cache Demo.env new_response
    Demo.request new_response Demo.next_request Demo.outcome.2 Demo.admitted)
    as (token & header & claims & Hb & _ & Hd & _ & Hi & Ha); [intros k _; reflexivity|vm_compute; set_solver|].
  assert (token = Demo.token) as -> by (vm_compute in Hb; by injection Hb as <-).
  destruct (Ha eq_refl) as (auds & Hauds & _ & _ & Hiff). exists auds, claims, header.
  split; [exact Hd|]. split; [apply Hi; discriminate|]. split; [exact Hauds|]. split; [|exact Hiff].
  vm_compute in Hauds. congruence.
Defined.

End jwtauth.
