(* ===== verification/KeyWithdrawal.v ===== *)
(** Withdrawal of a signing key (src/jwtauth/middleware.go): how long a key that
    the identity provider no longer publishes is still accepted, over a sequence
    of requests that share the key cache. *)

From S2P Require Import Prelude GoText GoJson CtxUtil Http ApiError JwtKeys JwtAuth.

Module withdrawal.
Import jwtkeys.

(** The endpoint answers, and does not publish [k] under [kid]. *)
Definition withdrawn (cfg : KeyConfig) (kid : string) (k : PublicKey) (answer : http_result) : Prop :=
  ∃ m, fetched_keys cfg answer = Some m ∧ m !! kid ≠ Some k.

(** Either the cache has dropped the key, or it has not asked since [t0]. *)
Definition dropped_or_old (t0 : Time) (kid : string) (k : PublicKey) (st : KeyCache) : Prop :=
  keys st !! kid ≠ Some k ∨ lastFetch st ≤ t0 ∧ lastRefetchAttempt st ≤ t0.

(** A lookup, of whatever kid, that asks the endpoint drops the key. *)
Lemma getKey_drops cfg t0 kid k st kid' c answer r st' asked :
  withdrawn cfg kid k answer → dropped_or_old t0 kid k st → getKey cfg st kid' c answer = (r, st', asked) →
  dropped_or_old t0 kid k st'.
Proof.
  intros (m & Hf & Hm) Hinv. unfold getKey, fetchJWKS. rewrite Hf.
  destruct (classify cfg st kid' (c_read c)); [by intros [= _ <- _]..|]. simpl.
  destruct (m !! kid'); intros [= _ <- _]; by left.
Qed.

(** Once the cache and the pause between two fetches have run out, the key is
    not returned. *)
Lemma getKey_refuses cfg t0 kid k st c answer :
  int64_min ≤ cacheTTL cfg < int64_max → in_int64 (minRefetchInterval cfg) →
  withdrawn cfg kid k answer → dropped_or_old t0 kid k st →
  t0 + cacheTTL cfg < c_read c → t0 + minRefetchInterval cfg ≤ c_read c →
  (getKey cfg st kid c answer).1.1 ≠ Some k.
Proof.
  intros Httl Hmin (m & Hf & Hm) Hinv Hlate Hcool. unfold getKey.
  assert (classify cfg st kid (c_read c) ≠ Found k) as Hfound.
  { intros Hc. destruct Hinv as [Hk|[Hlf Hla]]; [by apply classify_Found in Hc|].
    unfold classify in Hc. destruct (keys st !! kid); [|by split_all_in Hc].
    rewrite (proj2 (Z.ltb_lt _ _)) in Hc by (apply time_Sub_gt_iff; [done|lia]). simpl in Hc.
    rewrite (proj2 (Z.ltb_ge _ _)) in Hc by (apply time_Sub_ge; [done|lia]). done. }
  destruct (classify cfg st kid (c_read c)); simpl; [congruence|done|].
  unfold fetchJWKS. rewrite Hf. simpl. by destruct (m !! kid).
Qed.

Section requests.
Context `{JwtLib, UuidLib, QuoteLib}.
Import jwtauth.

(** Requests served one after the other. *)
Definition after (m : Middleware) (st : KeyCache) (reqs : list (Env * ResponseWriter * Request)) : KeyCache :=
  fold_left (λ st '(env, w, r), (Handler m st env w r).2) reqs st.

(** A request changes the cache only by looking its key up. *)
Lemma ParseWithClaims_cache m st env token :
  (ParseWithClaims m st env token).2 = st ∨
  ∃ kid, (ParseWithClaims m st env token).2 = (getKey (key_config m) st kid (e_clock env) (e_answer env)).1.2.
Proof.
  unfold ParseWithClaims. destruct (jwt_decode token) as [[header claims]|]; [|by left]. destruct (negb _); [by left|].
  destruct (jh_kid header) as [[|c kid]|]; [by left| |by left]. right. exists (String c kid).
  destruct (getKey _ _ _ _ _) as [[[key|] st'] asked]; [|done]. by destruct (_ && _).
Qed.

Lemma validateToken_cache m st env token :
  (validateToken m st env token).2 = st ∨
  ∃ kid, (validateToken m st env token).2 = (getKey (key_config m) st kid (e_clock env) (e_answer env)).1.2.
Proof.
  unfold validateToken. destruct (_ && _); [by left|]. pose proof (ParseWithClaims_cache m st env token) as Hp.
  destruct (ParseWithClaims m st env token) as [[claims|] st']; [|done]. by repeat case_match.
Qed.

Lemma Handler_cache m st env w r :
  (Handler m st env w r).2 = st ∨
  ∃ kid, (Handler m st env w r).2 = (getKey (key_config m) st kid (e_clock env) (e_answer env)).1.2.
Proof.
  unfold Handler. destruct (extractBearer r) as [token|]; [|by left]. pose proof (validateToken_cache m st env token) as Hv.
  destruct (validateToken m st env token) as [[claims|] st']; [|done].
  set (revoked := match m_revocationCheck m with Some _ => _ | None => _ end). destruct revoked; [done|].
  destruct (m_requiredScopesSet m && _); [done|]. destruct (String.eqb (TenantID claims) ""); [done|].
  by destruct (uuid_Parse (TenantID claims)).
Qed.

Lemma after_dropped m t0 kid k reqs st :
  Forall (λ q, withdrawn (key_config m) kid k (e_answer q.1.1)) reqs → dropped_or_old t0 kid k st →
  dropped_or_old t0 kid k (after m st reqs).
Proof.
  revert st. induction reqs as [|[[env w] r] reqs IH]; intros st Hall Hinv; [done|].
  apply Forall_cons in Hall as [Hw Hall]. simpl. apply IH; [done|].
  destruct (Handler_cache m st env w r) as [->|[kid' ->]]; [done|].
  destruct (getKey _ _ _ _ _) as [[x st'] asked] eqn:Hg. exact (getKey_drops _ _ _ _ _ _ _ _ _ _ _ Hw Hinv Hg).
Qed.

(** C13: a key the provider withdraws stops being accepted. From the instant the
    JWKS endpoint no longer publishes a key under its kid, and as long as it
    answers, whatever requests come in between: once the cache lifetime and the
    pause between two fetches have passed, a request whose token only that key
    verifies is answered 401, and never reaches the handler. *)
Theorem withdrawn_key_is_refused (m : Middleware) (st : KeyCache) (t0 : Time) (kid : string) (k : PublicKey)
    (reqs : list (Env * ResponseWriter * Request)) (env : Env) (w : ResponseWriter) (r : Request) (token : string)
    (header : JoseHeader) (claims : SocrateClaims) :
  int64_min ≤ m_cacheTTL m < int64_max → in_int64 (m_minRefetchInterval m) →
  lastFetch st ≤ t0 → lastRefetchAttempt st ≤ t0 →
  Forall (λ q, withdrawn (key_config m) kid k (e_answer q.1.1)) reqs → withdrawn (key_config m) kid k (e_answer env) →
  t0 + m_cacheTTL m < c_read (e_clock env) → t0 + m_minRefetchInterval m ≤ c_read (e_clock env) →
  extractBearer r = Some token → jwt_decode token = Some (header, claims) → jh_kid header = Some kid →
  (∀ k', jwt_verify token k' = true → k' = k) →
  (Handler m (after m st reqs) env w r).1 = Reply (writeError m w r (apierror.Unauthorized "invalid or expired token")).
Proof.
  intros Httl Hmin Hlf Hla Hall Hw Hlate Hcool Hb Hd Hkid Honly.
  pose proof (after_dropped m t0 kid k reqs st Hall (or_intror (conj Hlf Hla))) as Hinv. set (st' := after m st reqs) in *.
  pose proof (getKey_refuses (key_config m) t0 kid k st' (e_clock env) (e_answer env) Httl Hmin Hw Hinv Hlate Hcool) as Hno.
  assert ((validateToken m st' env token).1 = None) as Hv.
  { destruct (validateToken m st' env token) as [[cl|] st2] eqn:Hv; [|done]. exfalso.
    apply validateToken_Some in Hv as (cl0 & Hp & _). apply ParseWithClaims_Some in Hp
      as (header' & kid' & key & asked & Hd' & _ & Hkid' & _ & Hg & Hver & _).
    rewrite Hd in Hd'. injection Hd' as <- <-. rewrite Hkid in Hkid'. injection Hkid' as <-.
    rewrite Hg in Hno. apply Hno. simpl. by rewrite (Honly key Hver). }
  unfold Handler. rewrite Hb. destruct (validateToken m st' env token) as [[cl|] st2]; [done|done].
Qed.

End requests.

(** * A withdrawal *)

Module sample.
Import jwtauth.Demo.

(** The provider publishes another key under another kid only. *)
Definition rotated : http_result :=
  HttpResp 200 (dq ("{'keys':[{'kty':'RSA','kid':'k2','use':'sig','n':'" +:+ demo_modulus +:+ "','e':'AQAB'}]}")).
Definition at_ (t : Z) : jwtauth.Env :=
  let now := time_Unix t in
  {| jwtauth.e_clock := {| c_read := now; c_attempt := now; c_stored := now; c_unknown := now |};
     jwtauth.e_answer := rotated; jwtauth.e_now := now |}.

(** Within the hour the cached key still serves; an hour after the withdrawal
    the same token is refused. *)
Lemma withdrawn_key_is_refused_witness :
  (∃ r', (jwtauth.Handler mw demo_cache (at_ 4000) new_response request).1 = Next new_response r') ∧
  (jwtauth.Handler mw (after mw demo_cache [(at_ 4000, new_response, request)]) (at_ 4701) new_response request).1 =
    Reply (jwtauth.writeError mw new_response request (apierror.Unauthorized "invalid or expired token")).
Proof.
  split; [eexists; vm_compute; reflexivity|].
  assert (withdrawn (jwtauth.key_config mw) "k1" demo_key rotated) as Hw.
  { exists {[ "k2" := demo_key ]}. split; [vm_compute; reflexivity|vm_compute; discriminate]. }
  apply (withdrawn_key_is_refused mw demo_cache (time_Unix 1100) "k1" demo_key [(at_ 4000, new_response, request)] (at_ 4701)
    new_response request token {| jh_alg := "RS256"; jh_kid := Some "k1" |} claims).
  - vm_compute. split; [discriminate|reflexivity].
  - vm_compute. split; discriminate.
  - vm_compute. discriminate.
  - vm_compute. discriminate.
  - constructor; [exact Hw|constructor].
  - exact Hw.
  - vm_compute. reflexivity.
  - vm_compute. discriminate.
  - vm_compute. reflexivity.
  - vm_compute. reflexivity.
  - reflexivity.
  - intros k' Hk. exact (bool_decide_eq_true_1 _ Hk).
Defined.

End sample.

End withdrawal.
