(* ===== verification/SocrateToken.v ===== *)
(** The token types of package [socrate] that the BFF consumes
    (src/socrate/bff.go): OAuth errors, token sets, and the decoding of the
    token endpoint's answers; and the errors of the Socrate client as a tree of
    wrapped errors, searched by [errors.Is] and [errors.As]. *)

From S2P Require Import Prelude GoText GoJson.

Module socrate.

(** [socrate/bff.go: OAuthError] *)
Record OAuthError := { oe_StatusCode : Z; oe_Code : string; oe_Description : string }.

#[global] Instance OAuthError_eq_dec : EqDecision OAuthError.
Proof. solve_decision. Defined.

(** Errors of the client: a message, a sentinel, an OAuth error, or a message
    wrapping other errors ([fmt.Errorf] with %w); a [SignupError] carries the
    server's text. *)
Inductive goerr :=
| EMsg (msg : string)
| ESentinel (name : string)
| EOAuth (e : OAuthError)
| ESignup (msg : string)
| EWrap (msg : string) (inner : goerr)
| EWrap2 (a b : goerr).

(** [errors.As] for an OAuth error, and [errors.Is] for a sentinel: a
    depth-first search of the tree. *)
Fixpoint errors_As_OAuth (e : goerr) : option OAuthError :=
  match e with
  | EMsg _ | ESentinel _ | ESignup _ => None
  | EOAuth oe => Some oe
  | EWrap _ inner => errors_As_OAuth inner
  | EWrap2 a b => match errors_As_OAuth a with Some oe => Some oe | None => errors_As_OAuth b end
  end.

Fixpoint errors_Is (e : goerr) (sentinel : string) : bool :=
  match e with
  | EMsg _ | EOAuth _ | ESignup _ => false
  | ESentinel n => String.eqb n sentinel
  | EWrap _ inner => errors_Is inner sentinel
  | EWrap2 a b => errors_Is a sentinel || errors_Is b sentinel
  end.

(** [socrate/bff.go: OAuthError.Error] *)
Definition OAuthError_Error (e : OAuthError) : string :=
  if negb (String.eqb (oe_Code e) "") then
    "token endpoint: " +:+ oe_Code e +:+ ": " +:+ oe_Description e
  else "token endpoint HTTP " +:+ itoa (oe_StatusCode e) +:+ ": " +:+ oe_Description e.

(** [socrate/bff.go: newOAuthError] *)
Definition newOAuthError (status : Z) (b : string) : OAuthError :=
  let body := unmarshal_struct (λ l, err ← decode_field decode_string "" "error" l;
                                     desc ← decode_field decode_string "" "error_description" l;
                                     Some (err, desc)) ("", "") b in
  match body with
  | Some (err, desc) =>
      if negb (String.eqb err "")
      then {| oe_StatusCode := status; oe_Code := err; oe_Description := desc |}
      else {| oe_StatusCode := status; oe_Code := ""; oe_Description := b |}
  | None => {| oe_StatusCode := status; oe_Code := ""; oe_Description := b |}
  end.

(** [socrate/bff.go: TokenSet] *)
Record TokenSet := {
  AccessToken : string;
  RefreshToken : string;
  IDToken : string;
  TokenType : string;
  ExpiresIn : Z;
  Scope : string;
  Roles : option (list string);
  AppRoles : option (gmap string string);
}.

Definition zero_TokenSet : TokenSet :=
  {| AccessToken := ""; RefreshToken := ""; IDToken := ""; TokenType := ""; ExpiresIn := 0;
     Scope := ""; Roles := None; AppRoles := None |}.

Definition decode_TokenSet_fields (l : list (string * json)) : option TokenSet :=
  access ← decode_field decode_string "" "access_token" l;
  refresh ← decode_field decode_string "" "refresh_token" l;
  id ← decode_field decode_string "" "id_token" l;
  typ ← decode_field decode_string "" "token_type" l;
  exp ← decode_field decode_int 0 "expires_in" l;
  scope ← decode_field decode_string "" "scope" l;
  roles ← decode_field decode_strings None "roles" l;
  approles ← decode_field decode_string_map None "app_roles" l;
  Some {| AccessToken := access; RefreshToken := refresh; IDToken := id; TokenType := typ;
          ExpiresIn := exp; Scope := scope; Roles := roles; AppRoles := approles |}.

(** [socrate/bff.go: LoginResult] *)
Record LoginResult := {
  lr_AccessToken : string;
  lr_RefreshToken : string;
  lr_IDToken : string;
  lr_TokenType : string;
  lr_ExpiresIn : Z;
  lr_UserID : Z;
  lr_Roles : option (list string);
  lr_AppRoles : option (gmap string string);
  lr_MustChangePassword : bool;
}.

(** [socrate/bff.go: LoginResult.TokenSet]
    A nil result yields nil; copying an empty list of roles yields nil. *)
Definition LoginResult_TokenSet (r : option LoginResult) : option TokenSet :=
  match r with
  | None => None
  | Some r =>
      Some {| AccessToken := lr_AccessToken r; RefreshToken := lr_RefreshToken r;
              IDToken := lr_IDToken r; TokenType := lr_TokenType r; ExpiresIn := lr_ExpiresIn r;
              Scope := "";
              Roles := match lr_Roles r with Some (x :: l) => Some (x :: l) | _ => None end;
              AppRoles := lr_AppRoles r |}
  end.

(** An answer of the server to one request: a transport error, an error while
    the body is read, or a status and a body. *)
Inductive http_answer :=
| TransportError
| BodyError (status : Z)
| Answer (status : Z) (body : string).

(** [socrate/client.go:185-185] maxResponseBytes *)
Definition maxResponseBytes : Z := 10485760.

(** [socrate/client.go: readBody]
    The whole body, or [None] when it cannot be read or is too large. *)
Definition readBody (a : http_answer) : option string :=
  match a with
  | Answer _ body => if maxResponseBytes <? slen body then None else Some body
  | _ => None
  end.

Definition status_of (a : http_answer) : Z :=
  match a with TransportError => 0 | BodyError s => s | Answer s _ => s end.

(** [socrate/bff.go: decodeTokenSet] *)
Definition decodeTokenSet (a : http_answer) : result goerr TokenSet :=
  match readBody a with
  | None => Err (EWrap "read token response" (EMsg "read"))
  | Some b =>
      if negb (status_of a =? 200) then Err (EOAuth (newOAuthError (status_of a) b))
      else match unmarshal_struct decode_TokenSet_fields zero_TokenSet b with
           | None => Err (EWrap "decode token response" (EMsg "json"))
           | Some ts => Ok ts
           end
  end.

(** A transport failure is wrapped with the name of the operation; any answer
    is decoded. *)
Definition token_answer (label : string) (a : http_answer) : result goerr TokenSet :=
  match a with
  | TransportError => Err (EWrap label (EMsg "transport"))
  | _ => decodeTokenSet a
  end.

(** The answer decides the class of the error: only a non-200 answer whose
    body could be read yields an OAuth error. *)
Lemma token_answer_oauth label a oe :
  (∃ e, token_answer label a = Err e ∧ errors_As_OAuth e = Some oe) ↔
  ∃ b, readBody a = Some b ∧ status_of a ≠ 200 ∧ oe = newOAuthError (status_of a) b.
Proof.
  unfold token_answer, decodeTokenSet. split.
  - intros (e & He & Ho). destruct a; [by simplify_eq/=| |]; split_all_in He.
    bool_to_prop. naive_solver.
  - intros (b & Hb & Hs & ->). destruct a as [| |s body]; [done|done|]. rewrite Hb.
    rewrite (proj2 (Z.eqb_neq _ _)) by done. simpl. eauto.
Qed.

End socrate.
