(* ===== verification/Session.v ===== *)
(** Sessions of package [bff] (src/bff/session.go, src/bff/crypto.go,
    src/bff/cookie.go) and the heap they live in. The in-memory store hands
    out the live session pointer while the durable store rehydrates a new
    object on every read: a session is therefore a location of a heap, and
    aliasing is what distinguishes the stores. *)

From S2P Require Import Prelude GoText CtxUtil Http SocrateToken.

Module session.

(** [bff/session.go: UserInfo] *)
Record UserInfo := { Sub : string; Email : string; Name : string; Roles : option (list string) }.

(** [bff/session.go: Session] *)
Record Session := {
  id : string;
  accessToken : string;
  refreshToken : string;
  idToken : string;
  accessExpiry : Time;
  csrf : string;
  created : Time;
  lastSeen : Time;
  user : UserInfo;
}.

Definition no_user : UserInfo := {| Sub := ""; Email := ""; Name := ""; Roles := None |}.

(** [bff/session.go: Session.applyTokens] *)
Definition applyTokens (s : Session) (ts : option socrate.TokenSet) (now : Time) : Session :=
  match ts with
  | None => s
  | Some ts =>
      {| id := id s;
         accessToken := socrate.AccessToken ts;
         refreshToken := if negb (String.eqb (socrate.RefreshToken ts) "")
                         then socrate.RefreshToken ts else refreshToken s;
         idToken := if negb (String.eqb (socrate.IDToken ts) "") then socrate.IDToken ts else idToken s;
         accessExpiry := if 0 <? socrate.ExpiresIn ts
                         then time_Add now (seconds (socrate.ExpiresIn ts)) else accessExpiry s;
         csrf := csrf s; created := created s; lastSeen := lastSeen s; user := user s |}
  end.

(** [bff/session.go: Session.SetUser] *)
Definition SetUser (s : Session) (u : UserInfo) : Session :=
  {| id := id s; accessToken := accessToken s; refreshToken := refreshToken s; idToken := idToken s;
     accessExpiry := accessExpiry s; csrf := csrf s; created := created s; lastSeen := lastSeen s;
     user := u |}.

(** [bff/session.go: Session.Touch] *)
Definition Touch (s : Session) (now : Time) : Session :=
  {| id := id s; accessToken := accessToken s; refreshToken := refreshToken s; idToken := idToken s;
     accessExpiry := accessExpiry s; csrf := csrf s; created := created s; lastSeen := now;
     user := user s |}.

(** [bff/session.go: NewSession] *)
Definition NewSession (sid csrf : string) (ts : option socrate.TokenSet) (user : UserInfo) (now : Time)
  : Session :=
  let s := {| id := sid; accessToken := ""; refreshToken := ""; idToken := ""; accessExpiry := 0;
              csrf := csrf; created := now; lastSeen := 0; user := no_user |} in
  Touch (SetUser (applyTokens s ts now) user) now.

(** [bff/session.go: Session.SetTokens] *)
Definition SetTokens (s : Session) (ts : option socrate.TokenSet) (now : Time) : Session :=
  applyTokens s ts now.

(** [bff/session.go: Session.LastSeen] *)
Definition LastSeen (s : Session) : Time := lastSeen s.

(** [bff/session.go: Session.AccessValid] *)
Definition AccessValid (s : Session) (now : Time) (leeway : Duration) : bool :=
  negb (String.eqb (accessToken s) "") && time_Before (time_Add now leeway) (accessExpiry s).

(** [bff/session.go: Session.AccessToken] *)
Definition AccessToken (s : Session) : string := accessToken s.
(** [bff/session.go: Session.RefreshToken] *)
Definition RefreshToken (s : Session) : string := refreshToken s.
(** [bff/session.go: Session.IDToken] *)
Definition IDToken (s : Session) : string := idToken s.
(** [bff/session.go: Session.CSRF] *)
Definition CSRF (s : Session) : string := csrf s.
(** [bff/session.go: Session.ID] *)
Definition ID (s : Session) : string := id s.

(** [bff/crypto.go: ConstantTimeEqual] *)
Definition ConstantTimeEqual (a b : string) : bool := String.eqb a b.

(** [bff/session.go: Session.MatchCSRF] *)
Definition MatchCSRF (s : Session) (token : string) : bool :=
  if String.eqb (csrf s) "" then false else ConstantTimeEqual token (csrf s).

(** [bff/session.go: Session.User]
    The roles are copied; a copy of an empty list is nil. *)
Definition User (s : Session) : UserInfo :=
  {| Sub := Sub (user s); Email := Email (user s); Name := Name (user s);
     Roles := match Roles (user s) with Some (r :: l) => Some (r :: l) | _ => None end |}.

(** [bff/session.go: Session.String]
    [format] is [UTC().Format(time.RFC3339)]. *)
Definition Session_String (format : Time → string) (s : Session) : string :=
  "bff.Session{id=" +:+ id s +:+ " sub=" +:+ Sub (user s) +:+ " accessExpiry=" +:+ format (accessExpiry s) +:+ "}".

(** [bff/session.go: Session.GoString] *)
Definition GoString (format : Time → string) (s : Session) : string := Session_String format s.

(** [bff/session.go: SessionSnapshot] *)
Record SessionSnapshot := {
  sn_ID : string;
  sn_AccessToken : string;
  sn_RefreshToken : string;
  sn_IDToken : string;
  sn_AccessExpiry : Time;
  sn_CSRF : string;
  sn_Created : Time;
  sn_LastSeen : Time;
  sn_User : UserInfo;
}.

(** [bff/session.go: Session.Snapshot] *)
Definition Snapshot (s : Session) : SessionSnapshot :=
  {| sn_ID := id s; sn_AccessToken := accessToken s; sn_RefreshToken := refreshToken s;
     sn_IDToken := idToken s; sn_AccessExpiry := accessExpiry s; sn_CSRF := csrf s;
     sn_Created := created s; sn_LastSeen := lastSeen s; sn_User := user s |}.

(** [bff/session.go: NewSessionFromSnapshot] *)
Definition NewSessionFromSnapshot (snap : SessionSnapshot) : Session :=
  {| id := sn_ID snap; accessToken := sn_AccessToken snap; refreshToken := sn_RefreshToken snap;
     idToken := sn_IDToken snap; accessExpiry := sn_AccessExpiry snap; csrf := sn_CSRF snap;
     created := sn_Created snap; lastSeen := sn_LastSeen snap; user := sn_User snap |}.

(** [bff/session.go:266-278] the expiry test shared by both stores *)
Definition expired_at (idle absolute : Duration) (now created lastSeen : Time) : bool :=
  ((0 <? absolute) && (absolute <=? time_Sub now created)) ||
  ((0 <? idle) && (idle <=? time_Sub now lastSeen)).

(** * The heap *)

Abbreviation loc := positive (only parsing).
Abbreviation heap := (gmap positive Session) (only parsing).

Definition alloc (h : heap) (s : Session) : loc * heap :=
  let l := fresh (dom h) in (l, <[l := s]> h).

Lemma alloc_fresh (h : heap) s l h' : alloc h s = (l, h') → h !! l = None ∧ h' = <[l := s]> h.
Proof.
  unfold alloc. intros [= <- <-]. split; [|done]. apply not_elem_of_dom, is_fresh.
Qed.

(** * Lemmas *)

Lemma Snapshot_roundtrip s : NewSessionFromSnapshot (Snapshot s) = s.
Proof. by destruct s. Qed.

Lemma NewSessionFromSnapshot_Snapshot snap : Snapshot (NewSessionFromSnapshot snap) = snap.
Proof. by destruct snap. Qed.

Lemma applyTokens_id s ts now : id (applyTokens s ts now) = id s.
Proof. by destruct ts. Qed.

Lemma applyTokens_csrf s ts now : csrf (applyTokens s ts now) = csrf s.
Proof. by destruct ts. Qed.

Lemma applyTokens_created s ts now :
  created (applyTokens s ts now) = created s ∧ lastSeen (applyTokens s ts now) = lastSeen s.
Proof. by destruct ts. Qed.

(** A refreshed session is valid until its new expiry, provided the lifetime
    fits a duration. *)
Lemma SetTokens_valid s ts now leeway :
  socrate.AccessToken ts ≠ "" → 0 < socrate.ExpiresIn ts → in_int64 (socrate.ExpiresIn ts * Second) →
  leeway < socrate.ExpiresIn ts * Second →
  AccessValid (SetTokens s (Some ts) now) now leeway = true.
Proof.
  intros Ha He Hr Hl. unfold AccessValid, SetTokens, applyTokens; simpl.
  destruct (String.eqb_spec (socrate.AccessToken ts) ""); [done|]. simpl.
  rewrite (proj2 (Z.ltb_lt _ _) He). unfold seconds, time_Before, time_Add.
  rewrite wrap64_id by done. apply Z.ltb_lt. lia.
Qed.

(** The CSRF comparison fails closed: a token is accepted exactly when it
    equals the session's CSRF secret and that secret is not empty, so a session
    without a secret accepts nothing, not even the empty token. *)
Theorem MatchCSRF_spec (s : Session) (token : string) :
  MatchCSRF s token = true ↔ token = csrf s ∧ csrf s ≠ "".
Proof.
  unfold MatchCSRF, ConstantTimeEqual. destruct (String.eqb_spec (csrf s) "") as [->|Hne].
  - naive_solver.
  - rewrite String.eqb_eq. naive_solver.
Qed.

(** Refreshing tokens touches only the tokens: whatever the token set, the
    session keeps its id, CSRF secret, creation and idle timestamps and user;
    an answer without a refresh or ID token keeps the previous one, so a
    non-rotating server does not lose it. *)
Theorem SetTokens_frame (s : Session) (ts : socrate.TokenSet) (now : Time) :
  let s' := SetTokens s (Some ts) now in
  id s' = id s ∧ csrf s' = csrf s ∧ created s' = created s ∧ lastSeen s' = lastSeen s ∧
  user s' = user s ∧ accessToken s' = socrate.AccessToken ts ∧
  (socrate.RefreshToken ts = "" → refreshToken s' = refreshToken s) ∧
  (socrate.RefreshToken ts ≠ "" → refreshToken s' = socrate.RefreshToken ts) ∧
  (socrate.IDToken ts = "" → idToken s' = idToken s) ∧
  (socrate.ExpiresIn ts ≤ 0 → accessExpiry s' = accessExpiry s).
Proof.
  simpl. split_and!; try done.
  - intros ->. done.
  - intros Hne. by destruct (String.eqb_spec (socrate.RefreshToken ts) "").
  - intros ->. done.
  - intros Hle. by rewrite (proj2 (Z.ltb_ge _ _)).
Qed.

End session.
