(* ===== verification/SessionStore.v ===== *)
(** The session stores of package [bff]: the interface [SessionStore] and its
    laws, and [MemoryStore] (src/bff/session.go), which implements it. The
    clock is read once per locked section and is passed in as [now]. *)

From S2P Require Import Prelude GoText CtxUtil Http SocrateToken Session.

Module store.
Import session.

(** * The interface *)

(** [bff/session.go: SessionStore]
    [Get] may allocate the session it returns; [Put] takes the pointer of a
    session in the heap. *)
Class SessionStore (St : Type) := {
  store_Get : Time → heap → St → string → option loc * (heap * St);
  store_Put : heap → St → loc → St;
  store_Delete : Time → St → string → St;
  store_Sweep : Time → heap → St → St;
}.

(** [bff/postgres_store.go: PostgresStoreTombstoneTTL] *)
Definition PostgresStoreTombstoneTTL : Duration := Hour.

(** What a store promises its clients. [store_wf] relates the store to the
    heap its pointers live in; [store_dead st id t] says that the store
    remembers a deletion of [id] made at [t] or later; [store_deletes st id]
    says that the next [Delete] of [id] takes effect. *)
Class SessionStoreLaws (St : Type) `{SessionStore St} := {
  store_wf : heap → St → Prop;
  store_dead : St → string → Time → Prop;
  store_deletes : St → string → Prop;
  store_expired : St → Time → Session → bool;

  wf_Get now h st sid : store_wf h st → store_wf (store_Get now h st sid).2.1 (store_Get now h st sid).2.2;
  wf_Put h st l : store_wf h st → store_wf h (store_Put h st l);
  wf_Delete now h st sid : store_wf h st → store_wf h (store_Delete now st sid);
  wf_Sweep now h st : store_wf h st → store_wf h (store_Sweep now h st);
  wf_update h st l s s' :
    store_wf h st → h !! l = Some s → id s' = id s → store_wf (<[l := s']> h) st;

  (** a session that [Get] returns is in the heap, is the one asked for and
      has not expired; [Get] changes no session that was there before *)
  Get_session now h st sid l h' st' :
    store_wf h st → store_Get now h st sid = (Some l, (h', st')) →
    ∃ s, h' !! l = Some s ∧ id s = sid ∧ store_expired st now s = false;
  Get_frame now h st sid : h ⊆ (store_Get now h st sid).2.1;

  dead_Get now h st sid t : store_dead st sid t → (store_Get now h st sid).1 = None;
  Delete_dead now st sid : store_deletes st sid → store_dead (store_Delete now st sid) sid now;

  kept_Get now h st sid x t : store_dead st x t → store_dead (store_Get now h st sid).2.2 x t;
  kept_Put h st l x t : store_dead st x t → store_dead (store_Put h st l) x t;
  kept_Delete now st sid x t : t ≤ now → store_dead st x t → store_dead (store_Delete now st sid) x t;
  kept_Sweep now h st x t :
    now ≤ t + PostgresStoreTombstoneTTL → store_dead st x t → store_dead (store_Sweep now h st) x t;
}.

(** ** Runs of operations against a store *)

(** One step of a client: a store operation at some time, or a change of a
    session in the heap (a touch, new tokens) that keeps its id. *)
Inductive op :=
| OGet (now : Time) (sid : string)
| OPut (now : Time) (l : loc)
| ODelete (now : Time) (sid : string)
| OSweep (now : Time)
| OUpdate (now : Time) (l : loc) (s : Session).

Definition op_time (o : op) : Time :=
  match o with
  | OGet now _ | OPut now _ | ODelete now _ | OSweep now | OUpdate now _ _ => now
  end.

Definition run_op {St} `{SessionStore St} (c : heap * St) (o : op) : heap * St :=
  let '(h, st) := c in
  match o with
  | OGet now sid => (store_Get now h st sid).2
  | OPut _ l => (h, store_Put h st l)
  | ODelete now sid => (h, store_Delete now st sid)
  | OSweep now => (h, store_Sweep now h st)
  | OUpdate _ l s =>
      match h !! l with
      | Some s0 => if String.eqb (id s) (id s0) then (<[l := s]> h, st) else (h, st)
      | None => (h, st)
      end
  end.

Definition run_ops {St} `{SessionStore St} (c : heap * St) (os : list op) : heap * St :=
  fold_left run_op os c.

(** Every operation happens between [t] and the end of the tombstone's life. *)
Definition within_ttl (t : Time) (os : list op) : Prop :=
  Forall (λ o, t ≤ op_time o ≤ t + PostgresStoreTombstoneTTL) os.

#[global] Instance within_ttl_dec t os : Decision (within_ttl t os).
Proof. unfold within_ttl. apply _. Defined.

Section client.
Context {St : Type} `{SessionStoreLaws St}.

Lemma run_op_wf c o : store_wf c.1 c.2 → store_wf (run_op c o).1 (run_op c o).2.
Proof.
  destruct c as [h st], o; simpl; intros Hwf.
  - by apply wf_Get.
  - by apply wf_Put.
  - by apply wf_Delete.
  - by apply wf_Sweep.
  - destruct (h !! l) as [s0|] eqn:Hl; simpl; [|done].
    destruct (String.eqb_spec (id s) (id s0)); simpl; [|done]. by eapply wf_update.
Qed.

Lemma run_ops_wf os c : store_wf c.1 c.2 → store_wf (run_ops c os).1 (run_ops c os).2.
Proof.
  unfold run_ops. revert c. induction os as [|o os IH]; intros c Hc; simpl; [done|].
  by apply IH, run_op_wf.
Qed.

Lemma run_op_dead c o x t :
  t ≤ op_time o ≤ t + PostgresStoreTombstoneTTL →
  store_dead c.2 x t → store_dead (run_op c o).2 x t.
Proof.
  destruct c as [h st], o; simpl; intros Ht Hd.
  - by apply kept_Get.
  - by apply kept_Put.
  - apply kept_Delete; [lia|done].
  - apply kept_Sweep; [lia|done].
  - by destruct (h !! l); [destruct String.eqb|].
Qed.

Lemma run_ops_dead os c x t :
  within_ttl t os → store_dead c.2 x t → store_dead (run_ops c os).2 x t.
Proof.
  unfold run_ops. revert c. induction os as [|o os IH]; intros c Hos Hd; simpl; [done|].
  apply Forall_cons in Hos as [Ho Hos]. apply IH; [done|]. by apply run_op_dead.
Qed.

(** Logout is final for every store that satisfies the interface. *)
Lemma deleted_session_stays_deleted (h : heap) (st : St) (sid : string) (t now : Time) (os : list op) :
  store_deletes st sid → within_ttl t os →
  let c := run_ops (run_op (h, st) (ODelete t sid)) os in
  (store_Get now c.1 c.2 sid).1 = None.
Proof.
  intros Hd Hos. simpl. apply (dead_Get _ _ _ _ t), run_ops_dead; [done|]. simpl.
  by apply Delete_dead.
Qed.

End client.

(** * The in-memory store *)

(** [bff/session.go: MemoryStore] *)
Record MemoryStore := {
  sessions : gmap string loc;
  tombstones : gmap string Time;
  idle : Duration;
  absolute : Duration;
}.

(** [bff/session.go: NewMemoryStore] *)
Definition NewMemoryStore (idle absolute : Duration) : MemoryStore :=
  {| sessions := ∅; tombstones := ∅; idle := idle; absolute := absolute |}.

(** [bff/session.go: MemoryStore.expired] *)
Definition mem_expired (now : Time) (h : heap) (m : MemoryStore) (l : loc) : bool :=
  match h !! l with
  | Some s => expired_at (idle m) (absolute m) now (created s) (lastSeen s)
  | None => false
  end.

(** [bff/session.go: MemoryStore.Delete] *)
Definition mem_Delete (now : Time) (m : MemoryStore) (sid : string) : MemoryStore :=
  {| sessions := delete sid (sessions m); tombstones := <[sid := now]> (tombstones m);
     idle := idle m; absolute := absolute m |}.

(** [bff/session.go: MemoryStore.Get] *)
Definition mem_Get (now : Time) (h : heap) (m : MemoryStore) (sid : string)
  : option loc * (heap * MemoryStore) :=
  match sessions m !! sid with
  | None => (None, (h, m))
  | Some l => if mem_expired now h m l then (None, (h, mem_Delete now m sid)) else (Some l, (h, m))
  end.

(** [bff/session.go: MemoryStore.Put] *)
Definition mem_Put (h : heap) (m : MemoryStore) (l : loc) : MemoryStore :=
  match h !! l with
  | None => m
  | Some s =>
      match tombstones m !! id s with
      | Some _ => m
      | None => {| sessions := <[id s := l]> (sessions m); tombstones := tombstones m;
                   idle := idle m; absolute := absolute m |}
      end
  end.

(** [bff/session.go: MemoryStore.Sweep] *)
Definition mem_Sweep (now : Time) (h : heap) (m : MemoryStore) : MemoryStore :=
  let cutoff := time_Add now (- PostgresStoreTombstoneTTL) in
  {| sessions := map_drop (λ _ l, mem_expired now h m l) (sessions m);
     tombstones := map_drop (λ _ at_, time_Before at_ cutoff) (tombstones m);
     idle := idle m; absolute := absolute m |}.

#[global] Instance memory_store : SessionStore MemoryStore :=
  {| store_Get := mem_Get; store_Put := mem_Put; store_Delete := mem_Delete; store_Sweep := mem_Sweep |}.

(** ** Invariant: an entry is filed under the id of the session it points to,
    and no id is both stored and deleted. *)
Record mem_wf (h : heap) (m : MemoryStore) : Prop := {
  keyed : ∀ sid l, sessions m !! sid = Some l → ∃ s, h !! l = Some s ∧ id s = sid;
  apart : ∀ sid l, sessions m !! sid = Some l → tombstones m !! sid = None;
}.

Definition mem_dead (m : MemoryStore) (sid : string) (t : Time) : Prop :=
  sessions m !! sid = None ∧ ∃ at_, tombstones m !! sid = Some at_ ∧ t ≤ at_.

Lemma mem_wf_Delete now h m sid : mem_wf h m → mem_wf h (mem_Delete now m sid).
Proof.
  intros [Hk Ha]. split; simpl; intros x l [? Hx]%lookup_delete_Some; [by apply Hk|].
  rewrite lookup_insert_ne by done. by eapply Ha.
Qed.

Lemma mem_wf_Get now h m sid :
  mem_wf h m → mem_wf (mem_Get now h m sid).2.1 (mem_Get now h m sid).2.2.
Proof.
  intros Hwf. unfold mem_Get. destruct (sessions m !! sid) as [l|]; [|done].
  destruct mem_expired; [by apply mem_wf_Delete|done].
Qed.

Lemma mem_wf_Put h m l : mem_wf h m → mem_wf h (mem_Put h m l).
Proof.
  intros [Hk Ha]. unfold mem_Put. destruct (h !! l) as [s|] eqn:Hl; [|done].
  destruct (tombstones m !! id s) eqn:Ht; [done|].
  split; simpl; intros x l' Hx; apply lookup_insert_Some in Hx as [[<- <-]|[Hne Hx]]; eauto.
Qed.

Lemma mem_wf_Sweep now h m : mem_wf h m → mem_wf h (mem_Sweep now h m).
Proof.
  intros [Hk Ha]. split; simpl; intros x l [Hx _]%map_drop_lookup; [by apply Hk|].
  apply map_drop_None. by eapply Ha.
Qed.

Lemma mem_wf_update h m l s s' :
  mem_wf h m → h !! l = Some s → id s' = id s → mem_wf (<[l := s']> h) m.
Proof.
  intros [Hk Ha] Hl Hid. split; [|done]. intros x l' Hx.
  destruct (Hk _ _ Hx) as (s0 & Hs0 & <-). destruct (decide (l' = l)) as [->|Hne].
  - exists s'. rewrite lookup_insert_eq. split; [done|]. congruence.
  - exists s0. by rewrite lookup_insert_ne.
Qed.

Lemma mem_dead_Delete now m sid x t :
  t ≤ now → mem_dead m x t → mem_dead (mem_Delete now m sid) x t.
Proof.
  intros Ht [Hs (a & Ha & Hle)]. split; simpl.
  - apply lookup_delete_None. by right.
  - destruct (decide (sid = x)) as [->|Hne].
    + exists now. by rewrite lookup_insert_eq.
    + exists a. by rewrite lookup_insert_ne.
Qed.

Lemma mem_dead_Get now h m sid x t :
  mem_dead m x t → mem_dead (mem_Get now h m sid).2.2 x t.
Proof.
  intros Hd. unfold mem_Get. destruct (sessions m !! sid) as [l|] eqn:Hs; [|done].
  destruct mem_expired; [simpl|done]. destruct Hd as [Hx (a & Ha & Hle)]. split; simpl.
  - apply lookup_delete_None. by right.
  - exists a. rewrite lookup_insert_ne; [done|]. congruence.
Qed.

Lemma mem_dead_Put h m l x t : mem_dead m x t → mem_dead (mem_Put h m l) x t.
Proof.
  intros [Hx (a & Ha & Hle)]. unfold mem_Put. destruct (h !! l) as [s|]; [|by split; eauto].
  destruct (tombstones m !! id s) eqn:Ht; [by split; eauto|].
  split; simpl; [|by eauto]. rewrite lookup_insert_ne; [done|]. congruence.
Qed.

Lemma mem_dead_Sweep now h m x t :
  now ≤ t + PostgresStoreTombstoneTTL → mem_dead m x t → mem_dead (mem_Sweep now h m) x t.
Proof.
  intros Hnow [Hx (a & Ha & Hle)]. split; simpl; [by apply map_drop_None|].
  exists a. split; [|done]. apply map_drop_lookup. split; [done|].
  unfold time_Before, time_Add. apply Z.ltb_ge. lia.
Qed.

#[global, refine] Instance memory_store_laws : SessionStoreLaws MemoryStore := {|
  store_wf := mem_wf;
  store_dead := mem_dead;
  store_deletes _ _ := True;
  store_expired m now s := expired_at (idle m) (absolute m) now (created s) (lastSeen s);
|}.
Proof.
  - apply mem_wf_Get.
  - apply mem_wf_Put.
  - apply mem_wf_Delete.
  - apply mem_wf_Sweep.
  - apply mem_wf_update.
  - intros now h m sid l h' m' [Hk _]. simpl. unfold mem_Get.
    destruct (sessions m !! sid) as [l'|] eqn:Hs; [|done].
    destruct (Hk _ _ Hs) as (s & Hl & Hid). unfold mem_expired. rewrite Hl.
    destruct expired_at eqn:He; [done|]. intros [= <- <- <-]. eauto.
  - intros now h m sid. simpl. unfold mem_Get.
    by destruct (sessions m !! sid); [destruct mem_expired|].
  - intros now h m sid t [Hs _]. simpl. unfold mem_Get. by rewrite Hs.
  - intros now m sid _. split; simpl; [apply lookup_delete_eq|].
    exists now. by rewrite lookup_insert_eq.
  - apply mem_dead_Get.
  - apply mem_dead_Put.
  - apply mem_dead_Delete.
  - apply mem_dead_Sweep.
Defined.

(** ** Behaviour *)

(** In every state the in-memory store can reach, an entry points to a live
    session filed under that session's own id, and no id is both stored and
    tombstoned; the locked sections of [Get] are a lookup and possibly a
    [Delete], so the statement covers their interleavings with other requests. *)
Theorem memory_store_invariant (idle absolute : Duration) (h : heap) (os : list op) :
  let c := run_ops (h, NewMemoryStore idle absolute) os in
  ∀ sid l, sessions c.2 !! sid = Some l →
    tombstones c.2 !! sid = None ∧ ∃ s, c.1 !! l = Some s ∧ id s = sid.
Proof.
  intros c sid l Hl. assert (store_wf c.1 c.2) as [Hk Ha]; [|by eauto].
  apply run_ops_wf.
  split; simpl; intros ? ? Hx; by rewrite lookup_empty in Hx.
Qed.

Lemma mem_Get_hit now h m sid l s :
  sessions m !! sid = Some l → h !! l = Some s →
  expired_at (idle m) (absolute m) now (created s) (lastSeen s) = false →
  mem_Get now h m sid = (Some l, (h, m)).
Proof. intros Hs Hl He. unfold mem_Get, mem_expired. by rewrite Hs, Hl, He. Qed.

(** A session that was put is the very object that is read back, until it
    has been idle or alive for too long or was deleted: the store hands out the
    shared pointer, so a change made through it is seen by every later reader. *)
Theorem memory_Get_after_Put (h : heap) (m : MemoryStore) (l : loc) (s s' : Session) (now : Time) :
  h !! l = Some s → tombstones m !! id s = None → id s' = id s →
  expired_at (idle m) (absolute m) now (created s') (lastSeen s') = false →
  store_Get now (<[l := s']> h) (store_Put h m l) (id s) =
    (Some l, (<[l := s']> h, store_Put h m l)).
Proof.
  intros Hl Ht Hid He. simpl. apply mem_Get_hit with s'.
  - unfold mem_Put. rewrite Hl, Ht. apply lookup_insert_eq.
  - apply lookup_insert_eq.
  - unfold mem_Put. by rewrite Hl, Ht.
Qed.

(** Sweeping is not observable: at any moment, reading a session before or
    after a sweep gives the same answer. *)
Theorem memory_Sweep_transparent (h : heap) (m : MemoryStore) (now : Time) (sid : string) :
  (store_Get now h (store_Sweep now h m) sid).1 = (store_Get now h m sid).1.
Proof.
  simpl. unfold mem_Get. simpl.
  destruct (sessions m !! sid) as [l|] eqn:Hs.
  - destruct (mem_expired now h m l) eqn:He.
    + by rewrite (map_drop_true _ _ _ l).
    + rewrite (proj2 (map_drop_lookup _ _ _ l)); [|done]. unfold mem_expired in *; simpl. by rewrite He.
  - by rewrite map_drop_None.
Qed.

(** ** Examples *)

Definition demo_session : Session :=
  NewSession "s1" "csrf-secret" None no_user (1000 * Second).

Definition demo_heap : heap := {[ 1%positive := demo_session ]}.
Definition demo_store : MemoryStore := mem_Put demo_heap (NewMemoryStore (600 * Second) (3600 * Second)) 1.

Lemma memory_store_invariant_witness :
  let c := run_ops (demo_heap, NewMemoryStore (600 * Second) 0)
             [OPut (1001 * Second) 1%positive; OGet (1002 * Second) "s1"] in
  tombstones c.2 !! "s1" = None ∧ ∃ s, c.1 !! 1%positive = Some s ∧ id s = "s1".
Proof.
  apply (memory_store_invariant (600 * Second) 0 demo_heap
           [OPut (1001 * Second) 1%positive; OGet (1002 * Second) "s1"]).
  vm_compute. reflexivity.
Defined.

Lemma memory_Get_after_Put_witness :
  let s' := Touch demo_session (1500 * Second) in
  let m := NewMemoryStore (600 * Second) (3600 * Second) in
  store_Get (1600 * Second) (<[1%positive := s']> demo_heap) (store_Put demo_heap m 1) "s1" =
    (Some 1%positive, (<[1%positive := s']> demo_heap, store_Put demo_heap m 1)).
Proof.
  apply (memory_Get_after_Put demo_heap (NewMemoryStore (600 * Second) (3600 * Second)) 1 demo_session
           (Touch demo_session (1500 * Second)) (1600 * Second)); vm_compute; reflexivity.
Defined.

End store.
