(* ===== verification/PostgresStore.v ===== *)
(** The durable session store of package [bff] (src/bff/postgres_store.go): the
    rows of its table, the statements it runs, which may fail, and its
    implementation of the session-store interface. AES-GCM, the driver's
    rounding of timestamps and the JSON codec of snapshots are parameters. *)

From S2P Require Import Prelude GoText CtxUtil Http SocrateToken Session SessionStore.

(** * Parts shared by the Postgres-backed stores *)
Module pg.

(** AES-256-GCM under a key: sealing and opening with a nonce and additional
    data; what is sealed opens again. *)
Class Aead := {
  nonce_size : nat;
  aead_Seal : string → string → string → string → string;
  aead_Open : string → string → string → string → option string;
}.
Class AeadLaws `{Aead} := {
  Open_Seal key nonce plain aad :
    String.length nonce = nonce_size →
    aead_Open key nonce (aead_Seal key nonce plain aad) aad = Some plain;
}.

(** A timestamp as a [timestamptz] column keeps it; rounding is monotone. *)
Class Driver := { column : Time → Time }.
Class DriverLaws `{Driver} := { column_mono t u : t ≤ u → column t ≤ column u }.

(** The outcome of a statement: it ran, it failed without effect, or it ran but
    the caller saw an error (a timeout after the server committed). *)
Inductive outcome := Done | Failed | Lost.

(** A store's view of its database: the rows of its table, the outcomes of the
    statements to come (all succeed when none is listed), the nonces the CSPRNG
    will give, and the operations reported to the error handler. *)
Record Db (R : Type) := {
  rows : gmap string R;
  outcomes : list outcome;
  randoms : list (option string);
  reported : list string;
}.
Arguments rows {R} d.
Arguments outcomes {R} d.
Arguments randoms {R} d.
Arguments reported {R} d.
Arguments Build_Db {R}.

Definition report {R} (d : Db R) (op : string) : Db R :=
  {| rows := rows d; outcomes := outcomes d; randoms := randoms d; reported := reported d ++ [op] |}.

Definition next_outcome {R} (d : Db R) : outcome := default Done (head (outcomes d)).

Definition set_rows {R} (d : Db R) (m : gmap string R) : Db R :=
  {| rows := m; outcomes := tail (outcomes d); randoms := randoms d; reported := reported d |}.

(** [ExecContext] of a statement that changes the table by [f]; the boolean is
    [err == nil]. *)
Definition exec {R} (d : Db R) (f : gmap string R → gmap string R) : bool * Db R :=
  match next_outcome d with
  | Done => (true, set_rows d (f (rows d)))
  | Failed => (false, set_rows d (rows d))
  | Lost => (false, set_rows d (f (rows d)))
  end.

(** [QueryRowContext(...).Scan]: a statement that reads and possibly changes the
    table; the answer is lost with the statement. *)
Definition query {R A} (d : Db R) (f : gmap string R → A * gmap string R) : option A * Db R :=
  let '(a, m) := f (rows d) in
  match next_outcome d with
  | Done => (Some a, set_rows d m)
  | Failed => (None, set_rows d (rows d))
  | Lost => (None, set_rows d m)
  end.

(** [rand.Read] into a nonce. *)
Definition read_nonce {R} (d : Db R) : option string * Db R :=
  (mjoin (head (randoms d)),
   {| rows := rows d; outcomes := outcomes d; randoms := tail (randoms d); reported := reported d |}).

(** [bff/postgres_store.go: PostgresStore.seal] *)
Definition seal `{Aead} {R} (key : string) (d : Db R) (sid plaintext : string) : option string * Db R :=
  let '(nonce, d) := read_nonce d in
  (match nonce with
   | None => None
   | Some nonce => Some (nonce +:+ aead_Seal key nonce plaintext sid)
   end, d).

(** [bff/postgres_store.go: PostgresStore.open] *)
Definition open `{Aead} (key : string) (sid data : string) : option string :=
  if (String.length data <? nonce_size)%nat then None
  else aead_Open key (slice 0 nonce_size data) (slice nonce_size (String.length data) data) sid.

(** ** Opening a store *)

(** [bff/postgres_store.go: tableNamePattern] *)
Definition tableNamePattern (name : string) : bool :=
  match name with
  | EmptyString => false
  | String c rest =>
      let b := byte_of c in
      (is_lower b || (b =? 95)) &&
      all_bytes (λ b, is_lower b || is_dec b || (b =? 95)) rest &&
      (slen rest <=? 62)
  end.

(** What a database answers at start-up; an error is a message. *)
Record Database := {
  Ping : option string;
  SelectColumns : string → string → option string;
  CloseRows : option string;
  has_table_privilege : string → string → result string bool;
  CreateTable : string → option string;
  CreateIndex : string → option string;
}.

Fixpoint check_privileges (db : Database) (table : string) (privileges : list string) : option string :=
  match privileges with
  | [] => None
  | priv :: rest =>
      match has_table_privilege db table priv with
      | Err e => Some e
      | Ok false => Some ("the role lacks " +:+ priv +:+ " on the table")
      | Ok true => check_privileges db table rest
      end
  end.

(** [bff/postgres_store.go: checkTable] *)
Definition checkTable (db : Database) (table columns : string) (privileges : list string) : option string :=
  match SelectColumns db table columns with
  | Some e => Some e
  | None =>
      match CloseRows db with
      | Some e => Some e
      | None => check_privileges db table privileges
      end
  end.

Inductive NewError :=
| NilDB
| KeyLength (n : Z)
| InvalidTableName (name : string)
| ContradictoryOptions
| PingError (e : string)
| ManagedTable (table e : string)
| CreateTableError (e : string)
| CreateIndexError (e : string).

(** What the options of a constructor can set. An error handler is given an
    operation and an error; its value is what it records. *)
Record StoreConfig := {
  sc_table : string;
  sc_onError : string → string → string;
  sc_managed : bool;
  sc_auto : bool;
}.

(** The checks shared by the constructors of both stores, from the nil check to
    the schema options. *)
Definition check_config (db : option Database) (key : string) (c : StoreConfig) : result NewError Database :=
  match db with
  | None => Err NilDB
  | Some db =>
      if negb (slen key =? 32) then Err (KeyLength (slen key))
      else if negb (tableNamePattern (sc_table c)) then Err (InvalidTableName (sc_table c))
      else if sc_managed c && sc_auto c then Err ContradictoryOptions
      else Ok db
  end.

(** The start-up warning of a store called [name] whose schema options are
    [managed] and [auto]. *)
Definition schema_warning (name managed auto : string) (c : StoreConfig) : list string :=
  if negb (sc_managed c) && negb (sc_auto c) then
    ["bff: " +:+ name +:+ ": neither " +:+ managed +:+ " nor " +:+ auto +:+ " given; creating table " +:+ sc_table c +:+
     " at start-up. Pass " +:+ auto +:+ " to keep this, or create the table in your migrations and pass " +:+ managed +:+
     " (see its doc comment)"]
  else [].

(** ** Lemmas *)

Lemma check_privileges_all db table privs :
  check_privileges db table privs = None ↔
  Forall (λ p, has_table_privilege db table p = Ok true) privs.
Proof.
  induction privs as [|p privs IH]; simpl; [by split|]. rewrite Forall_cons.
  destruct (has_table_privilege db table p) as [[]|e]; naive_solver.
Qed.

Lemma checkTable_None db table columns privs :
  checkTable db table columns privs = None ↔
  SelectColumns db table columns = None ∧ CloseRows db = None ∧
  Forall (λ p, has_table_privilege db table p = Ok true) privs.
Proof.
  unfold checkTable. rewrite <- check_privileges_all.
  destruct SelectColumns, (CloseRows db); naive_solver.
Qed.

Lemma check_config_Ok db key c db' :
  check_config db key c = Ok db' ↔
  db = Some db' ∧ slen key = 32 ∧ tableNamePattern (sc_table c) = true ∧ sc_managed c && sc_auto c = false.
Proof.
  unfold check_config. destruct db as [db|]; [|naive_solver].
  destruct (Z.eqb_spec (slen key) 32); simpl; [|naive_solver].
  destruct (tableNamePattern (sc_table c)); simpl; [|naive_solver].
  destruct (sc_managed c && sc_auto c); naive_solver.
Qed.

(** An accepted table name consists of identifier bytes only, so splicing it
    into a statement cannot change the statement's shape. *)
Lemma tableNamePattern_safe name :
  tableNamePattern name = true →
  name ≠ "" ∧ slen name ≤ 63 ∧ Forall (λ b, is_lower b || is_dec b || (b =? 95) = true) (bytes name).
Proof.
  destruct name as [|c rest]; simpl; [done|]. intros Hp. bool_to_prop.
  split_and!; [done| |].
  - unfold slen in *. simpl. lia.
  - apply Forall_cons. split; [|by apply all_bytes_spec].
    destruct (is_lower (byte_of c)); [done|]. simpl in *. by destruct is_dec.
Qed.

Lemma exec_next {R} (d : Db R) f :
  next_outcome d ≠ Failed → rows (exec d f).2 = f (rows d).
Proof. unfold exec. by destruct next_outcome. Qed.

Lemma exec_rows {R} (d : Db R) f :
  rows (exec d f).2 = f (rows d) ∨ rows (exec d f).2 = rows d.
Proof. unfold exec. destruct next_outcome; simpl; auto. Qed.

Lemma substring_app_l (a b : string) : String.substring 0 (String.length a) (a +:+ b) = a.
Proof. induction a as [|c a IH]; [by destruct b|]. rewrite append_cons. simpl. by rewrite IH. Qed.

Lemma substring_all (b : string) : String.substring 0 (String.length b) b = b.
Proof. induction b as [|c b IH]; [done|]. simpl. by rewrite IH. Qed.

Lemma substring_app_r (a b : string) :
  String.substring (String.length a) (String.length b) (a +:+ b) = b.
Proof.
  induction a as [|c a IH].
  - rewrite append_nil. apply substring_all.
  - rewrite append_cons. simpl. exact IH.
Qed.

Lemma open_sealed `{AeadLaws} key sid nonce plain :
  String.length nonce = nonce_size →
  open key sid (nonce +:+ aead_Seal key nonce plain sid) = Some plain.
Proof.
  intros Hn. unfold open.
  assert (String.length (nonce +:+ aead_Seal key nonce plain sid) =
          nonce_size + String.length (aead_Seal key nonce plain sid))%nat as Hlen.
  { pose proof (slen_app nonce (aead_Seal key nonce plain sid)). unfold slen in *. lia. }
  rewrite (proj2 (Nat.ltb_ge _ _)) by lia. unfold slice. rewrite Hlen.
  replace (nonce_size - 0)%nat with (String.length nonce) by lia.
  replace (nonce_size + String.length (aead_Seal key nonce plain sid) - nonce_size)%nat
    with (String.length (aead_Seal key nonce plain sid)) by lia.
  rewrite substring_app_l. rewrite <- Hn at 1. rewrite substring_app_r. by apply Open_Seal.
Qed.

(** The database answers every statement and the CSPRNG its next [n] reads. *)
Definition healthy `{Aead} {R} (n : nat) (d : Db R) : Prop :=
  outcomes d = [] ∧ ∃ ns, randoms d = map Some ns ∧ Forall (λ s, String.length s = nonce_size) ns ∧ (n ≤ length ns)%nat.

Section healthy.
Context `{Aead} {R : Type}.
Implicit Types d : Db R.

Lemma healthy_exec n d f : healthy n d → exec d f = (true, set_rows d (f (rows d))) ∧ healthy n (set_rows d (f (rows d))).
Proof. intros [Ho Hr]. unfold exec, next_outcome, healthy. rewrite Ho. simpl. by rewrite Ho. Qed.

Lemma healthy_query {A} n d (f : gmap string R → A * gmap string R) :
  healthy n d → query d f = (Some (f (rows d)).1, set_rows d (f (rows d)).2) ∧ healthy n (set_rows d (f (rows d)).2).
Proof.
  intros [Ho Hr]. unfold query, next_outcome, healthy. rewrite Ho. simpl. destruct (f (rows d)). by rewrite Ho.
Qed.

Lemma healthy_le n n' d : (n' ≤ n)%nat → healthy n d → healthy n' d.
Proof. intros Hle [Ho (ns & ? & ? & ?)]. split; [done|]. exists ns. split_and!; [done..|lia]. Qed.

Lemma healthy_nonce n d key x plain :
  healthy (S n) d → ∃ nonce d',
    seal key d x plain = (Some (nonce +:+ aead_Seal key nonce plain x), d') ∧
    String.length nonce = nonce_size ∧ rows d' = rows d ∧ healthy n d'.
Proof.
  intros [Ho ([|nonce ns] & Hr & Hall & Hlen)]; simpl in Hlen; [lia|]. apply Forall_cons in Hall as [Hn Hall].
  unfold seal, read_nonce. rewrite Hr. simpl. eexists nonce, _. split_and!; [done|done|done|]. split; [done|].
  exists ns. split_and!; [done|done|lia].
Qed.

End healthy.

End pg.

(** * The session store *)
Module pgstore.
Import session store pg.

(** The JSON encoding of a snapshot; a snapshot whose strings are valid UTF-8
    decodes to itself. *)
Class SnapshotCodec := {
  json_Marshal : SessionSnapshot → option string;
  json_Unmarshal : string → option SessionSnapshot;
}.
Definition utf8_valid (s : string) : bool := forallb rune_valid (runes s).
Definition snapshot_valid (sn : SessionSnapshot) : bool :=
  forallb utf8_valid
    ([sn_ID sn; sn_AccessToken sn; sn_RefreshToken sn; sn_IDToken sn; sn_CSRF sn;
      Sub (sn_User sn); Email (sn_User sn); Name (sn_User sn)] ++ default [] (Roles (sn_User sn))).
Class SnapshotCodecLaws `{SnapshotCodec} := {
  Unmarshal_Marshal sn b : snapshot_valid sn = true → json_Marshal sn = Some b → json_Unmarshal b = Some sn;
}.

(** [bff/postgres_store.go:154-160] a row of the store's table *)
Record row := {
  data : string;
  created_at : Time;
  last_seen : Time;
  deleted_at : option Time;
}.

(** [bff/postgres_store.go: PostgresStore] *)
Record PostgresStore := {
  db : Db row;
  key : string;
  pg_idle : Duration;
  pg_absolute : Duration;
}.

Definition set_db (p : PostgresStore) (d : Db row) : PostgresStore :=
  {| db := d; key := key p; pg_idle := pg_idle p; pg_absolute := pg_absolute p |}.

(** Report a failed statement of operation [op]. *)
Definition or_report (p : PostgresStore) (op : string) (r : bool * Db row) : PostgresStore :=
  set_db p (if r.1 then r.2 else report r.2 op).

Section operations.
Context `{Aead, Driver, SnapshotCodec}.

(** [bff/postgres_store.go: PostgresStore.expired] *)
Definition pg_expired (p : PostgresStore) (now created lastSeen : Time) : bool :=
  if (0 <? pg_absolute p) && (pg_absolute p <=? time_Sub now created) then true
  else (0 <? pg_idle p) && (pg_idle p <=? time_Sub now lastSeen).

(** The statements, as changes of the table. *)

(** [bff/postgres_store.go:238-239] SELECT data WHERE id and deleted_at IS NULL *)
Definition sql_select (sid : string) (m : gmap string row) : option string * gmap string row :=
  (match m !! sid with
   | Some r => match deleted_at r with None => Some (data r) | Some _ => None end
   | None => None
   end, m).

(** [bff/postgres_store.go:278-281] INSERT ... ON CONFLICT DO UPDATE WHERE deleted_at IS NULL *)
Definition sql_upsert (sid d : string) (created lastSeen : Time) (m : gmap string row) : gmap string row :=
  match m !! sid with
  | None => <[sid := {| data := d; created_at := column created; last_seen := column lastSeen;
                        deleted_at := None |}]> m
  | Some r =>
      match deleted_at r with
      | None => <[sid := {| data := d; created_at := created_at r; last_seen := column lastSeen;
                            deleted_at := None |}]> m
      | Some _ => m
      end
  end.

(** [bff/postgres_store.go:292-293] UPDATE SET data = '', deleted_at = now *)
Definition sql_tombstone (sid : string) (now : Time) (m : gmap string row) : gmap string row :=
  match m !! sid with
  | None => m
  | Some r => <[sid := {| data := ""; created_at := created_at r; last_seen := last_seen r;
                          deleted_at := Some (column now) |}]> m
  end.

(** [bff/postgres_store.go:302-302] DELETE WHERE id *)
Definition sql_delete (sid : string) (m : gmap string row) : gmap string row := delete sid m.

(** [bff/postgres_store.go:310-320] the WHERE clause of the sweep *)
Definition sweep_where (p : PostgresStore) (now : Time) (r : row) : bool :=
  match deleted_at r with
  | Some at_ => at_ <? column (time_Add now (- PostgresStoreTombstoneTTL))
  | None => ((0 <? pg_absolute p) && (created_at r <=? column (time_Add now (- pg_absolute p)))) ||
            ((0 <? pg_idle p) && (last_seen r <=? column (time_Add now (- pg_idle p))))
  end.

(** [bff/postgres_store.go: PostgresStore.remove] *)
Definition pg_remove (p : PostgresStore) (sid : string) : PostgresStore :=
  or_report p "remove" (exec (db p) (sql_delete sid)).

(** What [Get] makes of the SELECT's answer, up to the removal of an expired
    row: an operation to report, an expired session, or the session. *)
Inductive read := RNone (reported : option string) | RExpired | RLive (s : Session).

(** [bff/postgres_store.go:246-260] the part of Get after the SELECT *)
Definition read_row (p : PostgresStore) (now : Time) (sid d : string) : read :=
  match open (key p) sid d with
  | None => RNone (Some "get: decrypt")
  | Some plain =>
      match json_Unmarshal plain with
      | None => RNone (Some "get: decode")
      | Some snap =>
          if negb (String.eqb (sn_ID snap) sid) then RNone (Some "get: decode")
          else if pg_expired p now (sn_Created snap) (sn_LastSeen snap) then RExpired
          else RLive (NewSessionFromSnapshot snap)
      end
  end.

(** [bff/postgres_store.go: PostgresStore.Get] *)
Definition pg_Get (now : Time) (h : heap) (p : PostgresStore) (sid : string)
  : option loc * (heap * PostgresStore) :=
  let '(ans, d) := query (db p) (sql_select sid) in
  let p := set_db p d in
  match ans with
  | None => (None, (h, set_db p (report d "get")))
  | Some None => (None, (h, p))
  | Some (Some data) =>
      match read_row p now sid data with
      | RNone None => (None, (h, p))
      | RNone (Some op) => (None, (h, set_db p (report (db p) op)))
      | RExpired => (None, (h, pg_remove p sid))
      | RLive s => let '(l, h) := alloc h s in (Some l, (h, p))
      end
  end.

(** [bff/postgres_store.go: PostgresStore.Put] *)
Definition pg_Put (h : heap) (p : PostgresStore) (l : loc) : PostgresStore :=
  match h !! l with
  | None => p
  | Some s =>
      let snap := Snapshot s in
      match json_Marshal snap with
      | None => set_db p (report (db p) "put: encode")
      | Some plain =>
          let '(sealed, d) := seal (key p) (db p) (sn_ID snap) plain in
          match sealed with
          | None => set_db p (report d "put: encrypt")
          | Some data =>
              or_report p "put" (exec d (sql_upsert (sn_ID snap) data (sn_Created snap) (sn_LastSeen snap)))
          end
      end
  end.

(** [bff/postgres_store.go: PostgresStore.Delete] *)
Definition pg_Delete (now : Time) (p : PostgresStore) (sid : string) : PostgresStore :=
  or_report p "delete" (exec (db p) (sql_tombstone sid now)).

(** [bff/postgres_store.go: PostgresStore.Sweep] *)
Definition pg_Sweep (now : Time) (h : heap) (p : PostgresStore) : PostgresStore :=
  or_report p "sweep" (exec (db p) (map_drop (λ _ r, sweep_where p now r))).

#[global] Instance postgres_store : SessionStore PostgresStore :=
  {| store_Get := pg_Get; store_Put := pg_Put; store_Delete := pg_Delete; store_Sweep := pg_Sweep |}.

End operations.

(** ** Opening the store *)

(** [bff/postgres_store.go: PostgresStoreOption] *)
Definition PostgresStoreOption : Type := StoreConfig → StoreConfig.

(** [bff/postgres_store.go: WithPostgresTable] *)
Definition WithPostgresTable (name : string) : PostgresStoreOption := λ c,
  {| sc_table := name; sc_onError := sc_onError c; sc_managed := sc_managed c; sc_auto := sc_auto c |}.

(** [bff/postgres_store.go: WithPostgresErrorHandler] *)
Definition WithPostgresErrorHandler (f : string → string → string) : PostgresStoreOption := λ c,
  {| sc_table := sc_table c; sc_onError := f; sc_managed := sc_managed c; sc_auto := sc_auto c |}.

(** [bff/postgres_store.go: WithPostgresManagedSchema] *)
Definition WithPostgresManagedSchema : PostgresStoreOption := λ c,
  {| sc_table := sc_table c; sc_onError := sc_onError c; sc_managed := true; sc_auto := sc_auto c |}.

(** [bff/postgres_store.go: WithPostgresAutoSchema] *)
Definition WithPostgresAutoSchema : PostgresStoreOption := λ c,
  {| sc_table := sc_table c; sc_onError := sc_onError c; sc_managed := sc_managed c; sc_auto := true |}.

(** [bff/postgres_store.go: PostgresStore.checkManagedTable] *)
Definition checkManagedTable (db : Database) (table : string) : option string :=
  checkTable db table "id, data, created_at, last_seen, deleted_at" ["SELECT"; "INSERT"; "UPDATE"; "DELETE"].

(** The configuration before the options. *)
Definition default_config : StoreConfig :=
  {| sc_table := "bff_store_sessions"; sc_onError op err := "bff: postgres store: " +:+ op +:+ ": " +:+ err;
     sc_managed := false; sc_auto := false |}.

Definition configured (opts : list PostgresStoreOption) : StoreConfig := fold_left (λ c opt, opt c) opts default_config.

(** [bff/postgres_store.go: NewPostgresStore]
    The lines logged at start-up, and the configuration the store will use. *)
Definition NewPostgresStore (db : option Database) (key : string) (opts : list PostgresStoreOption)
  : list string * result NewError StoreConfig :=
  let c := configured opts in
  match check_config db key c with
  | Err e => ([], Err e)
  | Ok db =>
      (schema_warning "postgres store" "WithPostgresManagedSchema" "WithPostgresAutoSchema" c,
       match Ping db with
       | Some e => Err (PingError e)
       | None =>
           if sc_managed c then
             match checkManagedTable db (sc_table c) with
             | Some e => Err (ManagedTable (sc_table c) e)
             | None => Ok c
             end
           else
             match CreateTable db (sc_table c) with
             | Some e => Err (CreateTableError e)
             | None =>
                 match CreateIndex db (sc_table c) with
                 | Some e => Err (CreateIndexError e)
                 | None => Ok c
                 end
             end
       end)
  end.

(** ** The interface's laws *)

Definition pg_dead `{Driver} (p : PostgresStore) (sid : string) (t : Time) : Prop :=
  ∃ r at_, rows (db p) !! sid = Some r ∧ deleted_at r = Some at_ ∧ column t ≤ at_.

Definition pg_deletes (p : PostgresStore) (sid : string) : Prop :=
  is_Some (rows (db p) !! sid) ∧ next_outcome (db p) ≠ Failed.

Section laws.
Context `{Aead, DriverLaws, SnapshotCodec}.

Lemma or_report_rows p op r : rows (db (or_report p op r)) = rows r.2.
Proof. by destruct r as [[] d]. Qed.

(** A change of the table keeps a deletion in mind when the statement does. *)
Lemma exec_dead p op f x t :
  (∀ m r at_, m !! x = Some r → deleted_at r = Some at_ → column t ≤ at_ →
    ∃ r' at', f m !! x = Some r' ∧ deleted_at r' = Some at' ∧ column t ≤ at') →
  pg_dead p x t → pg_dead (or_report p op (exec (db p) f)) x t.
Proof.
  intros Hf (r & a & Hr & Ha & Hle). unfold pg_dead. rewrite or_report_rows.
  destruct (exec_rows (db p) f) as [->| ->]; [by eapply Hf|by eauto].
Qed.

Lemma sql_upsert_dead sid d c s m x r a :
  m !! x = Some r → deleted_at r = Some a → sql_upsert sid d c s m !! x = Some r.
Proof.
  intros Hr Ha. unfold sql_upsert. destruct (decide (sid = x)) as [->|Hne].
  - by rewrite Hr, Ha.
  - destruct (m !! sid) as [r'|]; [destruct (deleted_at r'); [done|]|]; by rewrite lookup_insert_ne.
Qed.

Lemma pg_dead_select (p : PostgresStore) sid t :
  pg_dead p sid t → (sql_select sid (rows (db p))).1 = None.
Proof. intros (r & a & Hr & Ha & _). simpl. by rewrite Hr, Ha. Qed.

Lemma query_select_rows (d : Db row) sid : rows (query d (sql_select sid)).2 = rows d.
Proof. unfold query. simpl. by destruct next_outcome. Qed.

Lemma query_select_ans (d : Db row) sid a :
  (query d (sql_select sid)).1 = Some a → a = (sql_select sid (rows d)).1.
Proof. unfold query. simpl. destruct next_outcome; naive_solver. Qed.

Lemma pg_Get_dead now h p sid t : pg_dead p sid t → (pg_Get now h p sid).1 = None.
Proof.
  intros Hd%pg_dead_select. unfold pg_Get.
  pose proof (query_select_ans (db p) sid) as Hans.
  destruct (query (db p) (sql_select sid)) as [[a|] d]; [|done].
  rewrite (Hans a eq_refl), Hd. done.
Qed.

(** [Get] leaves the table alone, or drops the row of a session that expired. *)
Lemma pg_Get_rows now h p sid :
  rows (db (pg_Get now h p sid).2.2) = rows (db p) ∨
  rows (db (pg_Get now h p sid).2.2) = delete sid (rows (db p)) ∧
    (sql_select sid (rows (db p))).1 ≠ None.
Proof.
  unfold pg_Get. pose proof (query_select_rows (db p) sid) as Hrows.
  pose proof (query_select_ans (db p) sid) as Hans.
  destruct (query (db p) (sql_select sid)) as [[[x|]|] d]; simpl in *; [|by left|by left].
  destruct read_row as [[op|]| |s]; cbn [fst snd]; [by left|by left| |].
  - unfold pg_remove. rewrite or_report_rows. simpl.
    destruct (exec_rows d (sql_delete sid)) as [->| ->]; [right|by left].
    unfold sql_delete. rewrite Hrows. split; [done|]. rewrite <- (Hans _ eq_refl). done.
  - by left.
Qed.

Lemma pg_dead_Get now h p sid x t : pg_dead p x t → pg_dead (pg_Get now h p sid).2.2 x t.
Proof.
  intros Hd. unfold pg_dead. destruct (pg_Get_rows now h p sid) as [->|[-> Hsel]]; [done|].
  destruct (decide (sid = x)) as [->|Hne].
  - by rewrite (pg_dead_select _ _ _ Hd) in Hsel.
  - rewrite lookup_delete_ne by done. done.
Qed.

Lemma pg_dead_Put h p l x t : pg_dead p x t → pg_dead (pg_Put h p l) x t.
Proof.
  intros Hd. unfold pg_Put. destruct (h !! l) as [s|]; [|done].
  destruct json_Marshal as [plain|]; [|done]. unfold seal, read_nonce.
  destruct (mjoin _) as [nonce|]; simpl; [|done].
  set (d := {| rows := rows (db p) |}).
  apply (exec_dead (set_db p d) "put"); [|done].
  intros m r a Hr Ha Hle. exists r, a. split_and!; [|done..]. by eapply sql_upsert_dead.
Qed.

Lemma pg_dead_Delete now p sid x t : t ≤ now → pg_dead p x t → pg_dead (pg_Delete now p sid) x t.
Proof.
  intros Ht. apply exec_dead. intros m r a Hr Ha Hle. unfold sql_tombstone.
  destruct (decide (sid = x)) as [->|Hne].
  - rewrite Hr, lookup_insert_eq. eexists _, _. split_and!; [done..|]. by apply column_mono.
  - destruct (m !! sid); [rewrite lookup_insert_ne by done|]; eauto.
Qed.

Lemma pg_dead_Sweep now h p x t :
  now ≤ t + PostgresStoreTombstoneTTL → pg_dead p x t → pg_dead (pg_Sweep now h p) x t.
Proof.
  intros Ht. apply exec_dead. intros m r a Hr Ha Hle. exists r, a. split_and!; [|done..].
  apply map_drop_lookup. split; [done|]. unfold sweep_where. rewrite Ha. apply Z.ltb_ge.
  etrans; [|exact Hle]. apply column_mono. unfold time_Add. lia.
Qed.

Lemma pg_expired_at p now c s :
  pg_expired p now c s = expired_at (pg_idle p) (pg_absolute p) now c s.
Proof. unfold pg_expired, expired_at. by destruct (_ && _). Qed.

Lemma pg_Get_Some now h p sid l h' p' :
  pg_Get now h p sid = (Some l, (h', p')) →
  ∃ d s, (sql_select sid (rows (db p))).1 = Some d ∧ read_row p now sid d = RLive s ∧
    alloc h s = (l, h').
Proof.
  unfold pg_Get. pose proof (query_select_ans (db p) sid) as Hans.
  destruct (query (db p) (sql_select sid)) as [[[x|]|] d]; simpl in *; [|done|done].
  destruct (read_row _ now sid x) as [[op|]| |s] eqn:Hr; [done..|].
  destruct (alloc h s) as [l' h''] eqn:Hal. intros [= <- <- <-]. exists x, s.
  split_and!; [|done..]. by rewrite <- (Hans _ eq_refl).
Qed.

Lemma read_row_live p now sid d s :
  read_row p now sid d = RLive s →
  id s = sid ∧ expired_at (pg_idle p) (pg_absolute p) now (created s) (lastSeen s) = false.
Proof.
  unfold read_row. destruct open as [plain|]; [|done]. destruct json_Unmarshal as [snap|]; [|done].
  destruct (String.eqb_spec (sn_ID snap) sid); [|done]. simpl. rewrite pg_expired_at.
  destruct expired_at eqn:He; [done|]. by intros [= <-].
Qed.

#[global, refine] Instance postgres_store_laws : SessionStoreLaws PostgresStore := {|
  store_wf _ _ := True;
  store_dead := pg_dead;
  store_deletes := pg_deletes;
  store_expired p now s := expired_at (pg_idle p) (pg_absolute p) now (created s) (lastSeen s);
|}.
Proof.
  all: try done.
  - intros now h p sid l h' p' _ (d & s & _ & Hr%read_row_live & [Hf ->]%alloc_fresh)%pg_Get_Some.
    exists s. rewrite lookup_insert_eq. naive_solver.
  - intros now h p sid. simpl. destruct (pg_Get now h p sid) as [[l|] [h' p']] eqn:Hg.
    + apply pg_Get_Some in Hg as (d & s & _ & _ & [Hf ->]%alloc_fresh). by apply insert_subseteq.
    + revert Hg. unfold pg_Get. destruct query as [[[x|]|] d]; [|naive_solver..].
      destruct read_row as [[op|]| |s]; [naive_solver..|]. by destruct alloc.
  - apply pg_Get_dead.
  - intros now p sid [[r Hr] Hne]. simpl. unfold pg_dead, pg_Delete.
    rewrite or_report_rows, exec_next by done. unfold sql_tombstone. rewrite Hr, lookup_insert_eq.
    by eexists _, _.
  - apply pg_dead_Get.
  - apply pg_dead_Put.
  - apply pg_dead_Delete.
  - apply pg_dead_Sweep.
Defined.

(** C7: logout is final: once [Delete] of a session has taken effect, no
    sequence of reads, write-backs of sessions held by requests in flight,
    further deletions and sweeps during the tombstone's lifetime makes the
    session readable again, in memory and in PostgreSQL (where the row must
    exist and its statement succeed for the deletion to take effect, and where
    later statements may fail). *)
Theorem logout_is_final (h : heap) (m : MemoryStore) (p : PostgresStore) (sid : string) (t now : Time)
    (os : list op) :
  within_ttl t os →
  (let c := run_ops (run_op (h, m) (ODelete t sid)) os in (mem_Get now c.1 c.2 sid).1 = None) ∧
  (pg_deletes p sid →
   let c := run_ops (run_op (h, p) (ODelete t sid)) os in (pg_Get now c.1 c.2 sid).1 = None).
Proof.
  intros Hos. split.
  - exact (deleted_session_stays_deleted h m sid t now os I Hos).
  - intros Hd. exact (deleted_session_stays_deleted h p sid t now os Hd Hos).
Qed.

End laws.

(** ** Interleavings of statements

    Several BFF instances share the table, so the unit of interleaving is the
    statement. *)
Inductive stmt :=
| SUpsert (sid d : string) (created lastSeen : Time)
| STombstone (sid : string) (now : Time)
| SRemove (sid : string)
| SSweep (p : PostgresStore) (now : Time).

Definition run_stmt `{Driver} (m : gmap string row) (s : stmt) : gmap string row :=
  match s with
  | SUpsert sid d c l => sql_upsert sid d c l m
  | STombstone sid now => sql_tombstone sid now m
  | SRemove sid => sql_delete sid m
  | SSweep p now => map_drop (λ _ r, sweep_where p now r) m
  end.

(** A statement other than the removal of [x], run during the lifetime of a
    tombstone set at [t]. *)
Definition spares (x : string) (t : Time) (s : stmt) : Prop :=
  match s with
  | SUpsert _ _ _ _ => True
  | STombstone _ now => t ≤ now
  | SRemove sid => sid ≠ x
  | SSweep _ now => now ≤ t + PostgresStoreTombstoneTTL
  end.

#[global] Instance spares_dec x t s : Decision (spares x t s).
Proof. destruct s; simpl; apply _. Defined.

Definition tombstoned `{Driver} (m : gmap string row) (x : string) (t : Time) : Prop :=
  ∃ r at_, m !! x = Some r ∧ deleted_at r = Some at_ ∧ column t ≤ at_.

(** A row that is tombstoned holds no session data. *)
Definition wiped (m : gmap string row) : Prop :=
  ∀ x r, m !! x = Some r → deleted_at r ≠ None → data r = "".

Section interleavings.
Context `{DriverLaws}.

Lemma run_stmt_tombstoned m s x t : spares x t s → tombstoned m x t → tombstoned (run_stmt m s) x t.
Proof.
  intros Hs (r & a & Hr & Ha & Hle). destruct s as [sid d c l|sid now|sid|p now]; simpl in *.
  - exists r, a. split_and!; [|done..]. by eapply sql_upsert_dead.
  - unfold sql_tombstone. destruct (decide (sid = x)) as [->|Hne].
    + rewrite Hr. unfold tombstoned. rewrite lookup_insert_eq. eexists _, _.
      split_and!; [done..|]. by apply column_mono.
    + unfold tombstoned. destruct (m !! sid); [rewrite lookup_insert_ne by done|]; eauto.
  - exists r, a. unfold sql_delete. by rewrite lookup_delete_ne.
  - exists r, a. split_and!; [|done..]. apply map_drop_lookup. split; [done|].
    unfold sweep_where. rewrite Ha. apply Z.ltb_ge. etrans; [|exact Hle].
    apply column_mono. unfold time_Add. lia.
Qed.

Lemma run_stmt_wiped m s : wiped m → wiped (run_stmt m s).
Proof.
  intros Hw x r. destruct s as [sid d c l|sid now|sid|p now]; simpl.
  - unfold sql_upsert. destruct (m !! sid) as [r0|]; [destruct (deleted_at r0)|];
      [by apply Hw| |]; intros [[<- <-]|[Hne Hx]]%lookup_insert_Some; by eauto.
  - unfold sql_tombstone. destruct (m !! sid) as [r0|]; [|by apply Hw].
    intros [[<- <-]|[Hne Hx]]%lookup_insert_Some; by eauto.
  - unfold sql_delete. intros [Hne Hx]%lookup_delete_Some. by apply Hw with x.
  - intros [Hx _]%map_drop_lookup. by apply Hw with x.
Qed.

(** C26: with several instances of the backend on one database, a logout holds
    against any interleaving of their statements: once the tombstone of a
    session is set, no write-back, sweep or further logout makes its row
    readable for the tombstone's lifetime, as long as no instance removes the
    row as expired; and in every state a tombstoned row holds no session data. *)
Theorem tombstone_survives_statements (m : gmap string row) (sid : string) (t : Time) (ss : list stmt) :
  is_Some (m !! sid) → wiped m → Forall (spares sid t) ss →
  let m' := fold_left run_stmt ss (sql_tombstone sid t m) in
  (sql_select sid m').1 = None ∧ wiped m'.
Proof.
  intros [r Hr] Hw Hss. simpl.
  assert (tombstoned (sql_tombstone sid t m) sid t ∧ wiped (sql_tombstone sid t m)) as Hinit.
  { split; [|by apply (run_stmt_wiped m (STombstone sid t))].
    unfold sql_tombstone, tombstoned. rewrite Hr, lookup_insert_eq. by eexists _, _. }
  revert Hinit. generalize (sql_tombstone sid t m) as m0. clear m Hw r Hr.
  induction Hss as [|s ss Hs Hss IH]; intros m0 [Ht Hw]; simpl.
  - split; [|done]. destruct Ht as (r & a & -> & -> & _). done.
  - apply IH. split; [by apply run_stmt_tombstoned|by apply run_stmt_wiped].
Qed.

End interleavings.

(** ** Round trip and failures *)

Section roundtrip.
Context `{AeadLaws, DriverLaws, SnapshotCodecLaws}.

(** A session written by [Put] is read back by [Get] of its id as an equal
    session in a fresh object, provided both statements run and the session has
    neither expired nor been deleted. *)
Theorem pg_Get_after_Put (h h' : heap) (p : PostgresStore) (l : loc) (s : Session)
    (nonce plain : string) (now : Time) :
  h !! l = Some s → snapshot_valid (Snapshot s) = true →
  json_Marshal (Snapshot s) = Some plain →
  head (randoms (db p)) = Some (Some nonce) → String.length nonce = nonce_size →
  outcomes (db p) = [] →
  match rows (db p) !! id s with Some r => deleted_at r = None | None => True end →
  expired_at (pg_idle p) (pg_absolute p) now (created s) (lastSeen s) = false →
  ∃ l' p', store_Get now h' (store_Put h p l) (id s) = (Some l', (<[l' := s]> h', p')) ∧
    h' !! l' = None.
Proof.
  intros Hl Hv Hm Hn Hlen Hout Hrow He.
  set (blob := nonce +:+ aead_Seal (key p) nonce plain (id s)).
  assert (∃ d, store_Put h p l = set_db p d ∧ outcomes d = [] ∧
            (sql_select (id s) (rows d)).1 = Some blob) as (d & Hput & Hd & Hsel).
  { simpl. unfold pg_Put. rewrite Hl, Hm. unfold seal, read_nonce. rewrite Hn. simpl.
    unfold exec, next_outcome. simpl. rewrite Hout. simpl.
    eexists. split_and!; [done..|]. simpl. unfold sql_upsert.
    destruct (rows (db p) !! id s) as [r|]; [rewrite Hrow|]; by rewrite lookup_insert_eq. }
  rewrite Hput. simpl. unfold pg_Get, query, next_outcome. simpl in *. rewrite Hd, Hsel. simpl.
  unfold read_row. simpl. unfold blob. rewrite open_sealed by done.
  rewrite (Unmarshal_Marshal _ _ Hv Hm), Snapshot_roundtrip. simpl.
  rewrite String.eqb_refl, pg_expired_at. simpl. rewrite He.
  eexists (fresh (dom h')), _. split; [done|]. apply not_elem_of_dom, is_fresh.
Qed.

End roundtrip.

(** The store opens exactly when a database and a 32-byte key are given, the
    table name is a plain SQL identifier, the schema options do not contradict
    each other, the connection answers, and then either the managed table has
    the columns and the role holds all four privileges, or the table and its
    index were created. *)
Theorem NewPostgresStore_Ok (db : option Database) (key : string) (opts : list PostgresStoreOption) (c : StoreConfig) :
  (NewPostgresStore db key opts).2 = Ok c ↔
  c = configured opts ∧ ∃ d, db = Some d ∧ slen key = 32 ∧ tableNamePattern (sc_table c) = true ∧
    sc_managed c && sc_auto c = false ∧ Ping d = None ∧
    if sc_managed c then
      SelectColumns d (sc_table c) "id, data, created_at, last_seen, deleted_at" = None ∧ CloseRows d = None ∧
      Forall (λ p, has_table_privilege d (sc_table c) p = Ok true) ["SELECT"; "INSERT"; "UPDATE"; "DELETE"]
    else CreateTable d (sc_table c) = None ∧ CreateIndex d (sc_table c) = None.
Proof.
  unfold NewPostgresStore. set (cf := configured opts). destruct (check_config db key cf) as [d|e] eqn:Hc; simpl.
  - apply check_config_Ok in Hc as (-> & Hk & Ht & Hm). destruct (Ping d) eqn:Hp; [naive_solver|].
    unfold checkManagedTable. destruct (sc_managed cf) eqn:Hman.
    + destruct (checkTable d _ _ _) eqn:Hch.
      * split; [done|]. intros [-> (d' & [= <-] & _ & _ & _ & _ & Hall)]. rewrite Hman in Hall.
        apply checkTable_None in Hall. congruence.
      * apply checkTable_None in Hch. split; [|naive_solver]. intros [= <-]. split; [done|]. exists d. by rewrite Hman.
    + split.
      * destruct (CreateTable d _) eqn:Hct; [done|]. destruct (CreateIndex d _) eqn:Hci; [done|]. intros [= <-].
        split; [done|]. exists d. by rewrite Hman.
      * intros [-> (d' & [= <-] & _ & _ & _ & _ & Hall)]. rewrite Hman in Hall. by destruct Hall as [-> ->].
  - split; [done|]. intros [-> (d & -> & Hk & Ht & Hm & _)].
    pose proof (proj2 (check_config_Ok (Some d) key cf d)) as Hok. rewrite Hok in Hc by done. done.
Qed.

(** The start-up warning is logged exactly when the store gets past its checks
    with neither schema option, and then the store makes its table itself. *)
Theorem NewPostgresStore_warns (db : option Database) (key : string) (opts : list PostgresStoreOption) :
  (NewPostgresStore db key opts).1 ≠ [] ↔
  is_Some db ∧ slen key = 32 ∧ tableNamePattern (sc_table (configured opts)) = true ∧
  sc_managed (configured opts) = false ∧ sc_auto (configured opts) = false.
Proof.
  unfold NewPostgresStore, schema_warning. destruct (check_config db key (configured opts)) as [d|e] eqn:Hc.
  - apply check_config_Ok in Hc as (-> & Hk & Ht & Hm). simpl.
    destruct (sc_managed _), (sc_auto _); simpl in *; naive_solver.
  - split; [done|]. intros ([d ->] & Hk & Ht & Hm & Ha).
    pose proof (proj2 (check_config_Ok (Some d) key (configured opts) d)) as Hok. rewrite Hok in Hc; [done|]. by rewrite Hm, Ha.
Qed.

(** ** A concrete database *)
Module Demo.

#[global] Instance aead : Aead :=
  {| nonce_size := 2;
     aead_Seal _ _ plain aad := aad +:+ plain;
     aead_Open _ _ ct aad :=
       if has_prefix ct aad then Some (slice (String.length aad) (String.length ct) ct) else None |}.

Lemma prefix_app (a b : string) : String.prefix a (a +:+ b) = true.
Proof. induction a as [|c a IH]; [by destruct b|]. rewrite append_cons. simpl. by destruct ascii_dec. Qed.

#[global] Instance aead_laws : AeadLaws.
Proof.
  constructor. intros key nonce plain aad _. simpl. unfold has_prefix. rewrite prefix_app.
  unfold slice. f_equal.
  assert (String.length (aad +:+ plain) - String.length aad = String.length plain)%nat as ->.
  { pose proof (slen_app aad plain). unfold slen in *. lia. }
  apply substring_app_r.
Qed.

#[global] Instance driver : Driver := {| column t := t / 1000 * 1000 |}.
#[global] Instance driver_laws : DriverLaws.
Proof. constructor. intros t u Htu. simpl. pose proof (Z.div_le_mono t u 1000). lia. Qed.

Definition fresh_session : Session := demo_session.
Definition touched_session : Session := Touch demo_session (1599 * Second).

#[global] Instance UserInfo_eq_dec : EqDecision UserInfo.
Proof. solve_decision. Defined.
#[global] Instance SessionSnapshot_eq_dec : EqDecision SessionSnapshot.
Proof. solve_decision. Defined.

(** A codec that knows two snapshots. *)
#[global] Instance codec : SnapshotCodec :=
  {| json_Marshal sn := if bool_decide (sn = Snapshot fresh_session) then Some "A"
                        else if bool_decide (sn = Snapshot touched_session) then Some "B" else None;
     json_Unmarshal b := if String.eqb b "A" then Some (Snapshot fresh_session)
                         else if String.eqb b "B" then Some (Snapshot touched_session) else None |}.
#[global] Instance codec_laws : SnapshotCodecLaws.
Proof.
  constructor. intros sn b _. simpl.
  case_bool_decide as H1; [by intros [= <-]; subst|].
  case_bool_decide as H2; [by intros [= <-]; subst|done].
Qed.

Definition empty : PostgresStore :=
  {| db := {| rows := ∅; outcomes := []; randoms := [Some "n1"; Some "n2"]; reported := [] |};
     key := "k"; pg_idle := 600 * Second; pg_absolute := 0 |}.

Definition database : Database :=
  {| Ping := None; SelectColumns _ _ := None; CloseRows := None;
     has_table_privilege _ _ := Ok true; CreateTable _ := None; CreateIndex _ := None |}.

End Demo.
Import Demo.

Lemma logout_is_final_witness :
  let os := [OPut (1011 * Second) 1%positive; OSweep (1012 * Second); OPut (1013 * Second) 1%positive] in
  let p := store_Put demo_heap empty 1 in
  ((store_Get (1005 * Second) demo_heap demo_store "s1").1 = Some 1%positive ∧
   (store_Get (1005 * Second) demo_heap p "s1").1 = Some 2%positive) ∧
  (let c := run_ops (run_op (demo_heap, demo_store) (ODelete (1010 * Second) "s1")) os in
   (mem_Get (1014 * Second) c.1 c.2 "s1").1 = None) ∧
  (let c := run_ops (run_op (demo_heap, p) (ODelete (1010 * Second) "s1")) os in
   (pg_Get (1014 * Second) c.1 c.2 "s1").1 = None).
Proof.
  intros os p. split; [split; vm_compute; reflexivity|].
  destruct (logout_is_final demo_heap demo_store p "s1" (1010 * Second) (1014 * Second) os) as [Hm Hp].
  - apply (bool_decide_unpack _). vm_compute. exact I.
  - split; [exact Hm|]. apply Hp. split; [eexists; vm_compute; reflexivity|vm_compute; congruence].
Defined.

Lemma pg_Get_after_Put_witness :
  ∃ l' p', store_Get (1500 * Second) ∅ (store_Put demo_heap empty 1) "s1" =
    (Some l', (<[l' := demo_session]> ∅, p')) ∧ (∅ : heap) !! l' = None.
Proof.
  apply (pg_Get_after_Put demo_heap ∅ empty 1 demo_session "n1" "A" (1500 * Second));
    vm_compute; first [reflexivity | exact I].
Defined.

Lemma tombstone_survives_statements_witness :
  let m := rows (db (pg_Put demo_heap empty 1)) in
  let m' := fold_left run_stmt [SUpsert "s1" "stale" 0 0; SSweep empty (1601 * Second)]
              (sql_tombstone "s1" (1600 * Second) m) in
  (sql_select "s1" m').1 = None ∧ wiped m'.
Proof.
  apply (tombstone_survives_statements (rows (db (pg_Put demo_heap empty 1))) "s1" (1600 * Second)
           [SUpsert "s1" "stale" 0 0; SSweep empty (1601 * Second)]).
  - vm_compute. eauto.
  - apply (run_stmt_wiped ∅ (SUpsert "s1" "n1s1A" (1000 * Second) (1000 * Second))).
    intros x r Hx. by rewrite lookup_empty in Hx.
  - apply (bool_decide_unpack _). vm_compute. exact I.
Defined.

Example NewPostgresStore_managed :
  (λ c, (sc_table c, sc_onError c "put" "timeout")) <$>
    (λ r, match r with Ok c => Some c | Err _ => None end)
      (NewPostgresStore (Some database) "0123456789abcdef0123456789abcdef"
         [WithPostgresManagedSchema; WithPostgresTable "sessions"; WithPostgresErrorHandler (λ op err, op +:+ "!")]).2 =
  Some ("sessions", "put!").
Proof. reflexivity. Qed.

(** The removal of an expired row is unconditional, so it also erases a
    tombstone set after the SELECT: request A holds the session, request B finds
    it idle for too long, the user logs out, B removes the row, and A's
    write-back makes the logged-out session readable again. *)
Theorem removal_revives_logged_out_session :
  let p0 := pg_Put demo_heap empty 1 in
  let h := <[1%positive := touched_session]> demo_heap in
  (* B: the SELECT of an expired session *)
  let r := query (db p0) (sql_select "s1") in
  let p1 := set_db p0 r.2 in
  r.1 = Some (Some "n1s1A") ∧ read_row p1 (1601 * Second) "s1" "n1s1A" = RExpired ∧
  (* the logout, then B's removal, then A's write-back *)
  let p2 := pg_Delete (1602 * Second) p1 "s1" in
  (pg_Get (1602 * Second) h p2 "s1").1 = None ∧
  let p4 := pg_Put h (pg_remove p2 "s1") 1 in
  (pg_Get (1603 * Second) h p4 "s1").1 = Some 2%positive.
Proof. repeat split; vm_compute; reflexivity. Qed.

End pgstore.
