(* ===== verification/SessionSpec.v ===== *)
(** The two session stores of package [bff] (src/bff/session.go,
    src/bff/postgres_store.go) against one specification: a map in which a
    session lives until it is logged out. Requests read a session, change their
    copy or the shared object and write it back, and a logout may overtake them.
    Under a discipline that leaves out what the stores are known to do
    differently, pointers, tombstones, sweeping, sealing and the rounding of
    timestamps cannot be observed. *)

From S2P Require Import Prelude GoText CtxUtil Http SocrateToken Session SessionStore PostgresStore.

Module sessionspec.
Import session store.

(** * Clients of a store *)

(** What a request does to the session it holds. *)
Inductive change := CTouch (now : Time) | CTokens (ts : option socrate.TokenSet) (now : Time) | CUser (u : UserInfo).

Definition apply_change (s : Session) (c : change) : Session :=
  match c with
  | CTouch now => Touch s now
  | CTokens ts now => SetTokens s ts now
  | CUser u => SetUser s u
  end.
Definition changed (cs : list change) (s : Session) : Session := fold_left apply_change cs s.

(** Request [r] begins when it reads its session and finishes when it writes it
    back; between the two other calls may happen. *)
Inductive call :=
| Login (now : Time) (s : Session)
| Begin (now : Time) (r : N) (sid : string)
| Finish (now : Time) (r : N) (cs : list change)
| Logout (now : Time) (sid : string)
| SweepNow (now : Time).

Definition at_ (o : call) : Time :=
  match o with Login now _ | Begin now _ _ | Finish now _ _ | Logout now _ | SweepNow now => now end.

Inductive answer := Nothing | Found (s : option Session).

(** The heap, the store, and the session each request in flight points to. *)
Record client (St : Type) := { hp : heap; st : St; held : gmap N loc }.
Arguments hp {St} c.
Arguments st {St} c.
Arguments held {St} c.
Arguments Build_client {St}.

Definition store_call {St} `{SessionStore St} (c : client St) (o : call) : answer * client St :=
  match o with
  | Login _ s =>
      let '(l, h) := alloc (hp c) s in
      (Nothing, {| hp := h; st := store_Put h (st c) l; held := held c |})
  | Begin now r sid =>
      let '(l, (h, s)) := store_Get now (hp c) (st c) sid in
      match l with
      | Some l => (Found (h !! l), {| hp := h; st := s; held := <[r := l]> (held c) |})
      | None => (Found None, {| hp := h; st := s; held := held c |})
      end
  | Finish _ r cs =>
      match held c !! r with
      | None => (Nothing, c)
      | Some l =>
          let h := alter (changed cs) l (hp c) in
          (Nothing, {| hp := h; st := store_Put h (st c) l; held := delete r (held c) |})
      end
  | Logout now sid => (Nothing, {| hp := hp c; st := store_Delete now (st c) sid; held := held c |})
  | SweepNow now => (Nothing, {| hp := hp c; st := store_Sweep now (hp c) (st c); held := held c |})
  end.

(** * The specification *)

(** The sessions that were not logged out, what each request in flight works on
    and since when, and every id a call has named. *)
Record spec := { live : gmap string Session; busy : gmap N (string * Time); seen : gset string }.

Definition spec0 : spec := {| live := ∅; busy := ∅; seen := ∅ |}.

Section specification.
Context (encodes : Session → Prop) (idle absolute : Duration).

Definition gone (now : Time) (s : Session) : bool := expired_at idle absolute now (created s) (lastSeen s).

Definition spec_call (t : spec) (o : call) : answer * spec :=
  match o with
  | Login _ s => (Nothing, {| live := <[id s := s]> (live t); busy := busy t; seen := {[id s]} ∪ seen t |})
  | Begin now r sid =>
      match live t !! sid with
      | Some s => if gone now s then (Found None, {| live := live t; busy := busy t; seen := {[sid]} ∪ seen t |})
                  else (Found (Some s), {| live := live t; busy := <[r := (sid, now)]> (busy t); seen := {[sid]} ∪ seen t |})
      | None => (Found None, {| live := live t; busy := busy t; seen := {[sid]} ∪ seen t |})
      end
  | Finish _ r cs =>
      match busy t !! r with
      | None => (Nothing, t)
      | Some (sid, _) =>
          (Nothing, {| live := alter (changed cs) sid (live t); busy := delete r (busy t); seen := seen t |})
      end
  | Logout _ sid => (Nothing, {| live := delete sid (live t); busy := busy t; seen := {[sid]} ∪ seen t |})
  | SweepNow _ => (Nothing, t)
  end.

(** The discipline. A request in flight is over before its session expires and
    before a tombstone is forgotten; ids of new sessions were never named
    before, as [RandomToken] gives them; two requests do not work on one session
    at the same time; and what is written can be encoded. *)
Definition in_time (t : spec) (now : Time) : Prop :=
  map_Forall (λ _ e, now ≤ e.2 + PostgresStoreTombstoneTTL ∧
                     match live t !! e.1 with Some s => gone (now + Microsecond) s = false | None => True end) (busy t).

Definition legal_call (t : spec) (o : call) : Prop :=
  in_time t (at_ o) ∧
  match o with
  | Login _ s => id s ∉ seen t ∧ encodes s
  | Begin _ r sid => busy t !! r = None ∧ map_Forall (λ _ e, e.1 ≠ sid) (busy t)
  | Finish _ r cs =>
      match busy t !! r with
      | Some e => match live t !! e.1 with Some s => encodes (changed cs s) | None => True end
      | None => True
      end
  | _ => True
  end.

Fixpoint legal (t : spec) (os : list call) : Prop :=
  match os with
  | [] => True
  | o :: os => legal_call t o ∧ legal (spec_call t o).2 os
  end.

#[global] Instance in_time_dec t now : Decision (in_time t now).
Proof. unfold in_time. apply map_Forall_dec. intros r e. apply and_dec; [apply _|]. case_match; apply _. Defined.

#[global] Instance legal_call_dec `{!∀ s, Decision (encodes s)} t o : Decision (legal_call t o).
Proof. unfold legal_call. apply and_dec; [apply _|]. destruct o; repeat case_match; apply _. Defined.

#[global] Instance legal_dec `{!∀ s, Decision (encodes s)} os t : Decision (legal t os).
Proof. revert t. induction os as [|o os IH]; intros t; simpl; [apply _|]. apply and_dec; apply _. Defined.

(** Calls are at least a microsecond, the grain of a timestamp column, apart. *)
Definition apart (t u : Time) : Prop := t + Microsecond ≤ u.

Lemma sorted_from_before t ts :
  StronglySorted apart (t :: ts) → StronglySorted apart (t - Microsecond :: t :: ts).
Proof using Type.
  intros Hs. constructor; [done|]. apply StronglySorted_inv in Hs as [_ Hall]. constructor; [unfold apart; lia|].
  eapply Forall_impl; [exact Hall|]. intros x. unfold apart. assert (0 < Microsecond) by done. lia.
Qed.

(** ** Lemmas *)

Lemma changed_id cs s : id (changed cs s) = id s.
Proof. unfold changed. revert s. induction cs as [|[] cs IH]; intros s; simpl; rewrite ?IH; [done|done|by destruct ts|done]. Qed.

Lemma changed_created cs s : created (changed cs s) = created s.
Proof. unfold changed. revert s. induction cs as [|[] cs IH]; intros s; simpl; rewrite ?IH; [done|done|by destruct ts|done]. Qed.

Lemma gone_later now now' s : now ≤ now' → gone now s = true → gone now' s = true.
Proof using idle absolute.
  unfold gone, expired_at. intros Hle. rewrite !orb_true_iff, !andb_true_iff, !Z.leb_le. unfold time_Sub.
  pose proof (sat64_mono (now - created s) (now' - created s)). pose proof (sat64_mono (now - lastSeen s) (now' - lastSeen s)).
  intros [[? ?]|[? ?]]; [left|right]; split; first [done|lia].
Qed.

Lemma gone_earlier now now' s : now ≤ now' → gone now' s = false → gone now s = false.
Proof using idle absolute. intros Hle. destruct (gone now s) eqn:Hg; [|done]. by rewrite (gone_later _ _ _ Hle Hg). Qed.

(** * The interface the simulation is proved against *)

(** What a store holds as a map from ids to sessions, and how each operation
    changes it; [sv_ok n] says that the store is well formed and that the next
    [n] writes will be answered, [sv_unknown] that it has no record of an id. *)
Class StoreView (St : Type) `{SessionStoreLaws St} := {
  sv_ok : nat → heap → St → Prop;
  sv_view : heap → St → string → option Session;
  sv_unknown : St → string → Prop;

  sv_less n h st : sv_ok (S n) h st → sv_ok n h st;
  sv_alloc n h st l s :
    sv_ok n h st → h !! l = None → sv_ok n (<[l := s]> h) st ∧ ∀ x, sv_view (<[l := s]> h) st x = sv_view h st x;
  sv_Get_hit n now h st sid s :
    sv_ok n h st → sv_view h st sid = Some s → gone now s = false →
    ∃ l h' st', store_Get now h st sid = (Some l, (h', st')) ∧ h' !! l = Some s ∧ sv_ok n h' st' ∧
      ∀ x, sv_view h' st' x = sv_view h st x;
  sv_Get_miss n now h st sid :
    sv_ok n h st → (∀ s, sv_view h st sid = Some s → gone now s = true) →
    ∃ st', store_Get now h st sid = (None, (h, st')) ∧ sv_ok n h st' ∧
      ∀ x, sv_view h st' x = if decide (x = sid) then None else sv_view h st x;
  sv_Put n h st l s s' :
    sv_ok (S n) h st → h !! l = Some s → id s' = id s → encodes s' →
    sv_unknown st (id s) ∨ (∃ s0, sv_view h st (id s) = Some s0 ∧ created s0 = created s') →
    let h' := <[l := s']> h in
    sv_ok n h' (store_Put h' st l) ∧
    ∀ x, sv_view h' (store_Put h' st l) x = if decide (x = id s) then Some s' else sv_view h st x;
  sv_Put_dead n h st l s s' b :
    sv_ok (S n) h st → h !! l = Some s → id s' = id s → store_dead st (id s) b →
    let h' := <[l := s']> h in
    sv_ok n h' (store_Put h' st l) ∧ ∀ x, sv_view h' (store_Put h' st l) x = sv_view h st x;
  sv_Delete n now h st sid :
    sv_ok n h st → sv_ok n h (store_Delete now st sid) ∧
    ∀ x, sv_view h (store_Delete now st sid) x = if decide (x = sid) then None else sv_view h st x;
  dead_since t t' st sid : t' ≤ t → store_dead st sid t → store_dead st sid t';
  sv_deletes n h st sid : sv_ok n h st → is_Some (sv_view h st sid) → store_deletes st sid;
  sv_Sweep n now h st :
    sv_ok n h st → sv_ok n h (store_Sweep now h st) ∧
    ∀ x, sv_view h (store_Sweep now h st) x = sv_view h st x ∨
         sv_view h (store_Sweep now h st) x = None ∧ ∀ s, sv_view h st x = Some s → gone (now + Microsecond) s = true;

  unknown_Get now h st sid x : sv_unknown st x → sv_unknown (store_Get now h st sid).2.2 x;
  unknown_Put h st l s x : h !! l = Some s → id s ≠ x → sv_unknown st x → sv_unknown (store_Put h st l) x;
  unknown_Delete now st sid x : sid ≠ x → sv_unknown st x → sv_unknown (store_Delete now st sid) x;
  unknown_Sweep now h st x : sv_unknown st x → sv_unknown (store_Sweep now h st) x;
}.

(** * The simulation *)

Section simulation.
Context {St : Type} `{StoreView St}.

(** A session that lives and that the store does not hold has expired. *)
Definition covers (now : Time) (view : string → option Session) (m : gmap string Session) : Prop :=
  ∀ x, match view x with
       | Some s => m !! x = Some s
       | None => ∀ s, m !! x = Some s → gone (now + Microsecond) s = true
       end.

(** The object a request points to is the session that lives, or the store
    remembers that it was logged out after the request began. *)
Definition holds (now : Time) (h : heap) (st : St) (t : spec) (r : N) (l : loc) : Prop :=
  ∃ s b, busy t !! r = Some (id s, b) ∧ b ≤ now ∧ h !! l = Some s ∧
    match live t !! id s with Some s' => s' = s | None => store_dead st (id s) b end.

Record sim (now : Time) (os : list call) (c : client St) (t : spec) : Prop := {
  sim_ok : sv_ok (length os) (hp c) (st c);
  sim_view : covers now (sv_view (hp c) (st c)) (live t);
  sim_held r : match held c !! r with Some l => holds now (hp c) (st c) t r l | None => busy t !! r = None end;
  sim_apart r r' sid b b' : busy t !! r = Some (sid, b) → busy t !! r' = Some (sid, b') → r = r';
  sim_busy r sid b : busy t !! r = Some (sid, b) → sid ∈ seen t;
  sim_new x : x ∉ seen t → live t !! x = None ∧ sv_unknown (st c) x;
  sim_ids x s : live t !! x = Some s → id s = x;
  sim_legal : legal t os;
}.

Lemma covers_later now now' view m : now ≤ now' → covers now view m → covers now' view m.
Proof.
  intros Hle Hc x. specialize (Hc x). destruct (view x); [done|]. intros s Hs. eapply gone_later; [|by apply Hc]. lia.
Qed.

Lemma covers_ext now view view' m : (∀ x, view' x = view x) → covers now view m → covers now view' m.
Proof. intros Hv Hc x. rewrite Hv. apply Hc. Qed.

Lemma covers_insert now view view' m k s :
  (∀ x, view' x = if decide (x = k) then Some s else view x) → covers now view m → covers now view' (<[k := s]> m).
Proof.
  intros Hv Hc x. rewrite Hv. destruct (decide (x = k)) as [->|]; [apply lookup_insert_eq|].
  rewrite lookup_insert_ne by done. apply Hc.
Qed.

Lemma covers_delete now view view' m k :
  (∀ x, view' x = if decide (x = k) then None else view x) → covers now view m → covers now view' (delete k m).
Proof.
  intros Hv Hc x. rewrite Hv. destruct (decide (x = k)) as [->|]; [by rewrite lookup_delete_eq|].
  rewrite lookup_delete_ne by done. apply Hc.
Qed.

(** Dropping what has expired is not observable. *)
Lemma covers_drop now view view' m :
  (∀ x, view' x = view x ∨ view' x = None ∧ ∀ s, view x = Some s → gone (now + Microsecond) s = true) →
  covers now view m → covers now view' m.
Proof.
  intros Hv Hc x. specialize (Hc x). destruct (Hv x) as [->|[-> Hg]]; [done|].
  destruct (view x) as [s0|]; [|done]. intros s Hs. apply Hg. congruence.
Qed.

Lemma covers_live now view m x s : covers now view m → m !! x = Some s → gone (now + Microsecond) s = false → view x = Some s.
Proof. intros Hc Hx Hg. specialize (Hc x). destruct (view x); [congruence|]. rewrite (Hc s Hx) in Hg. done. Qed.

(** What a request points to is not disturbed by calls about other sessions. *)
Lemma holds_frame now now' h h' st st' t t' r l :
  now ≤ now' → holds now h st t r l → (∀ s, h !! l = Some s → h' !! l = Some s) →
  busy t' !! r = busy t !! r →
  (∀ s b, h !! l = Some s → busy t !! r = Some (id s, b) →
     live t' !! id s = live t !! id s ∧ (b ≤ now → store_dead st (id s) b → store_dead st' (id s) b)) →
  holds now' h' st' t' r l.
Proof.
  intros Hle (s & b & Hb & Hn & Hl & Hs) Hh Hbusy Hd. destruct (Hd s b Hl Hb) as [Hlive Hdead].
  exists s, b. rewrite Hbusy, Hlive. split_and!; [done|lia|by apply Hh|]. destruct (live t !! id s); auto.
Qed.

Lemma sim_in_flight now os c t r l :
  sim now os c t → held c !! r = Some l → holds now (hp c) (st c) t r l.
Proof. intros Hs Hr. pose proof (sim_held _ _ _ _ Hs r) as Hh. by rewrite Hr in Hh. Qed.

(** The store holds the session of a request in flight. *)
Lemma in_flight_viewed now n view t r sid b s :
  now ≤ n → covers now view (live t) → in_time t n →
  busy t !! r = Some (sid, b) → live t !! sid = Some s → view sid = Some s.
Proof.
  intros Hle Hv Htime Hr Hs. apply (covers_live now _ _ _ _ Hv Hs). destruct (Htime _ _ Hr) as [_ Hg]. simpl in Hg.
  rewrite Hs in Hg. eapply gone_earlier; [|exact Hg]. lia.
Qed.

Lemma step_Login now n s os c t :
  now ≤ n → sim now (Login n s :: os) c t → sim n os (store_call c (Login n s)).2 (spec_call t (Login n s)).2.
Proof.
  intros Hle Hs. pose proof Hs as [Hok Hv Hh Ha Hb Hn Hi [(_ & Hfresh & He) Hleg]]. destruct c as [h st0 hd].
  unfold store_call. cbn [hp st held] in *. destruct (alloc h s) as [l h'] eqn:Hal. apply alloc_fresh in Hal as [Hl ->]. simpl in *.
  destruct (Hn _ Hfresh) as [Hlive Hunk]. destruct (sv_alloc _ _ _ _ s Hok Hl) as [Hok1 Hv1].
  destruct (sv_Put _ _ _ l s s Hok1 (lookup_insert_eq _ _ _) eq_refl He (or_introl Hunk)) as [Hok2 Hv2].
  rewrite insert_insert_eq in Hok2, Hv2.
  split; simpl; [done| | |exact Ha| | | |done].
  - apply (covers_insert _ (sv_view h st0)); [|by eapply covers_later]. intros x. rewrite Hv2, Hv1. done.
  - intros r. specialize (Hh r). destruct (hd !! r) as [l'|]; [|done]. eapply holds_frame; [done|done| |done|].
    + intros s' Hs'. rewrite lookup_insert_ne; [done|]. congruence.
    + intros s' b _ Hbusy. simpl. split; [|intros _; apply kept_Put]. apply lookup_insert_ne. intros Heq. apply Hfresh.
      rewrite Heq. by eapply Hb.
  - intros r sid b Hr. apply elem_of_union_r. by eapply Hb.
  - intros x [Hx%not_elem_of_singleton Hx']%not_elem_of_union. destruct (Hn _ Hx') as [? ?]. split.
    + by rewrite lookup_insert_ne.
    + eapply unknown_Put; [apply lookup_insert_eq|done|done].
  - intros x s' [[<- <-]|[_ Hx]]%lookup_insert_Some; [done|by apply Hi].
Qed.

(** A call that changes no session and begins no request. *)
Lemma sim_quiet now n o os h st0 st' hd t seen' :
  now ≤ n → sim now (o :: os) {| hp := h; st := st0; held := hd |} t → seen t ⊆ seen' →
  sv_ok (length os) h st' →
  (∀ x, sv_view h st' x = sv_view h st0 x ∨
        sv_view h st' x = None ∧ ∀ s, sv_view h st0 x = Some s → gone (n + Microsecond) s = true) →
  (∀ x b, n ≤ b + PostgresStoreTombstoneTTL → store_dead st0 x b → store_dead st' x b) →
  (∀ x, sv_unknown st0 x → sv_unknown st' x) → at_ o = n →
  legal {| live := live t; busy := busy t; seen := seen' |} os →
  sim n os {| hp := h; st := st'; held := hd |} {| live := live t; busy := busy t; seen := seen' |}.
Proof.
  intros Hle [Hok Hv Hh Ha Hb Hn Hi [[Htime _] _]] Hseen Hok' Hview Hdead Hunk <- Hleg.
  split; simpl in *; [done| | |exact Ha| | |exact Hi|done].
  - apply (covers_drop _ (sv_view h st0)); [done|]. by eapply covers_later.
  - intros r. specialize (Hh r). destruct (hd !! r) as [l|]; [|done].
    eapply holds_frame; [done|done|done|done|]. intros s b _ Hr. split; [done|]. intros _. apply Hdead. exact (proj1 (Htime _ _ Hr)).
  - intros r sid b Hr. apply Hseen. by eapply Hb.
  - intros x Hx. destruct (Hn x) as [? ?]; [by intros ?%Hseen|]. auto.
Qed.

Lemma step_SweepNow now n os c t :
  now ≤ n → sim now (SweepNow n :: os) c t → sim n os (store_call c (SweepNow n)).2 (spec_call t (SweepNow n)).2.
Proof.
  intros Hle Hs. destruct c as [h st0 hd], t as [lv bs sn]. pose proof Hs as [Hok _ _ _ _ _ _ [_ Hleg]]. simpl in *.
  destruct (sv_Sweep _ n h st0 (sv_less _ _ _ Hok)) as [Hok' Hv'].
  apply (sim_quiet now n (SweepNow n) os h st0 _ hd {| live := lv; busy := bs; seen := sn |} sn); try done.
  - intros x b Hb. by apply kept_Sweep.
  - intros x. apply unknown_Sweep.
Qed.

Lemma step_Logout now n sid os c t :
  now + Microsecond ≤ n → sim now (Logout n sid :: os) c t → sim n os (store_call c (Logout n sid)).2 (spec_call t (Logout n sid)).2.
Proof.
  intros Hle [Hok Hv Hh Ha Hb Hn Hi [[Htime _] Hleg]]. destruct c as [h st0 hd]. simpl in *.
  destruct (sv_Delete _ n h st0 sid (sv_less _ _ _ Hok)) as [Hok' Hv']. assert (0 < Microsecond) as Hm by done.
  split; simpl; [done| | |exact Ha| | | |done].
  - apply (covers_delete _ (sv_view h st0)); [done|]. eapply covers_later; [|done]. lia.
  - intros r. specialize (Hh r). destruct (hd !! r) as [l|]; [|done].
    destruct Hh as (s & b & Hr & Hbn & Hl & Hlive). exists s, b. simpl. split_and!; [done|lia|done|].
    destruct (decide (id s = sid)) as [<-|Hne].
    + rewrite lookup_delete_eq. destruct (live t !! id s) as [s'|] eqn:Hs'.
      * apply (dead_since n b); [lia|]. apply Delete_dead. eapply (sv_deletes _ h); [exact Hok|]. exists s'.
        eapply in_flight_viewed; [|done..]. lia.
      * apply kept_Delete; [lia|done].
    + rewrite lookup_delete_ne by done. destruct (live t !! id s); [done|]. apply kept_Delete; [lia|done].
  - intros r x b Hr. apply elem_of_union_r. by eapply Hb.
  - intros x [Hx%not_elem_of_singleton Hx']%not_elem_of_union. destruct (Hn _ Hx') as [? ?]. split.
    + by apply lookup_delete_None; right.
    + by apply unknown_Delete.
  - intros x s [_ Hx]%lookup_delete_Some. by apply Hi.
Qed.

(** A request that finds its session. *)
Lemma begin_hit now n r sid os h st0 hd t s l h' st' :
  now + Microsecond ≤ n → sim now (Begin n r sid :: os) {| hp := h; st := st0; held := hd |} t →
  live t !! sid = Some s → gone n s = false →
  store_Get n h st0 sid = (Some l, (h', st')) → h' !! l = Some s → sv_ok (length os) h' st' →
  (∀ x, sv_view h' st' x = sv_view h st0 x) →
  sim n os {| hp := h'; st := st'; held := <[r := l]> hd |}
    {| live := live t; busy := <[r := (sid, n)]> (busy t); seen := {[sid]} ∪ seen t |}.
Proof.
  intros Hle [Hok Hv Hh Ha Hb Hn Hi [[Htime [Hr Hfree]] Hleg]] Hlive Hg Hget Hl Hok' Hv'.
  assert (0 < Microsecond) as Hm by done. pose proof (Hi _ _ Hlive) as Hid.
  pose proof (Get_frame n h st0 sid) as Hsub. rewrite Hget in Hsub. simpl in *. rewrite Hlive, Hg in Hleg.
  split; simpl; [done| | | | | |exact Hi|done].
  - eapply covers_ext; [done|]. eapply covers_later; [|done]. lia.
  - intros r'. destruct (decide (r' = r)) as [->|Hne].
    + rewrite lookup_insert_eq. exists s, n. simpl. rewrite Hid, lookup_insert_eq, Hlive. done.
    + rewrite lookup_insert_ne by done. specialize (Hh r'). destruct (hd !! r') as [l'|].
      * eapply holds_frame; [|exact Hh| | |]; [lia| | |].
        -- intros s' Hs'. by eapply lookup_weaken.
        -- by apply lookup_insert_ne.
        -- intros s' b _ _. split; [done|]. intros _ Hd. pose proof (kept_Get n h st0 sid (id s') b Hd) as Hk. by rewrite Hget in Hk.
      * by rewrite lookup_insert_ne.
  - intros r1 r2 x b b' [[<- [= <- <-]]|[_ Hr1]]%lookup_insert_Some [[<- [= <-]]|[_ Hr2]]%lookup_insert_Some;
      [done|by destruct (Hfree _ _ Hr2 eq_refl)|by destruct (Hfree _ _ Hr1 eq_refl)|by eapply Ha].
  - intros r' x b [[_ [= <- _]]|[_ Hx]]%lookup_insert_Some; [set_solver|]. apply elem_of_union_r. by eapply Hb.
  - intros x [_ Hx']%not_elem_of_union. destruct (Hn _ Hx') as [? ?]. split; [done|].
    pose proof (unknown_Get n h st0 sid x) as Hk. rewrite Hget in Hk. auto.
Qed.

Lemma step_Begin now n r sid os c t :
  now + Microsecond ≤ n → sim now (Begin n r sid :: os) c t →
  (store_call c (Begin n r sid)).1 = (spec_call t (Begin n r sid)).1 ∧
  sim n os (store_call c (Begin n r sid)).2 (spec_call t (Begin n r sid)).2.
Proof.
  intros Hle Hs. assert (0 < Microsecond) as Hm by done. destruct c as [h st0 hd]. pose proof Hs as [Hok Hv _ _ _ _ _ [_ Hleg]].
  apply sv_less in Hok. simpl in *.
  destruct (live t !! sid) as [s|] eqn:Hlive; [destruct (gone n s) eqn:Hg|].
  2:{ assert (sv_view h st0 sid = Some s) as Hview.
      { apply (covers_live now _ _ _ _ Hv Hlive). by eapply gone_earlier. }
      destruct (sv_Get_hit _ n h st0 sid s Hok Hview Hg) as (l & h' & st' & Hget & Hl & Hok' & Hv').
      rewrite Hget. simpl. rewrite Hl. split; [done|]. by eapply begin_hit. }
  all: destruct (sv_Get_miss (length os) n h st0 sid Hok) as (st' & Hget & Hok' & Hv');
    [intros s' Hs'; specialize (Hv sid); rewrite Hs' in Hv; congruence|].
  all: rewrite Hget; simpl; split; [done|].
  all: apply (sim_quiet now n (Begin n r sid) os h st0 st' hd t); try done; [lia|set_solver| | |].
  all: try (intros x b _ Hd; pose proof (kept_Get n h st0 sid x b Hd) as Hk; by rewrite Hget in Hk).
  all: try (intros x Hx; pose proof (unknown_Get n h st0 sid x Hx) as Hk; by rewrite Hget in Hk).
  all: intros x; rewrite Hv'; destruct (decide (x = sid)) as [->|]; [right|by left]; split; [done|].
  all: intros s' Hs'; specialize (Hv sid); rewrite Hs' in Hv; simplify_eq.
  eapply gone_later; [|done]. lia.
Qed.

(** The write-back of request [r] changes the session [s] it holds to [s'], in
    the specification too unless it was logged out. *)
Lemma finish_held now n r cs os h st0 hd t l s s' b live' :
  now ≤ n → sim now (Finish n r cs :: os) {| hp := h; st := st0; held := hd |} t → hd !! r = Some l →
  busy t !! r = Some (id s, b) → h !! l = Some s → id s' = id s →
  sv_ok (length os) (<[l := s']> h) (store_Put (<[l := s']> h) st0 l) →
  covers n (sv_view (<[l := s']> h) (store_Put (<[l := s']> h) st0 l)) live' →
  (∀ x, x ≠ id s → live' !! x = live t !! x) → (∀ s0, live' !! id s = Some s0 → id s0 = id s) →
  legal {| live := live'; busy := delete r (busy t); seen := seen t |} os →
  sim n os {| hp := <[l := s']> h; st := store_Put (<[l := s']> h) st0 l; held := delete r hd |}
    {| live := live'; busy := delete r (busy t); seen := seen t |}.
Proof.
  intros Hle [Hok Hv Hh Ha Hb Hn Hi _] Hr Hbusy Hl Hid Hok' Hv' Hne Hid' Hleg. simpl in *.
  split; simpl; [done|done| | | | | |done].
  - intros r'. destruct (decide (r' = r)) as [->|Hrr]; [by rewrite !lookup_delete_eq|].
    rewrite lookup_delete_ne by done. specialize (Hh r'). destruct (hd !! r') as [l'|]; [|by rewrite lookup_delete_ne].
    assert (∀ s2 b2, busy t !! r' = Some (id s2, b2) → id s2 ≠ id s) as Hother.
    { intros s2 b2 Hr2 Heq. rewrite Heq in Hr2. apply Hrr. by eapply Ha. }
    eapply holds_frame; [done|exact Hh| |by apply lookup_delete_ne|].
    + destruct Hh as (s2 & b2 & Hr2 & _ & Hl2 & _). intros s3 Hs3. rewrite lookup_insert_ne; [done|].
      intros <-. apply (Hother _ _ Hr2). congruence.
    + intros s2 b2 _ Hr2. simpl. split; [apply Hne; by eapply Hother|]. intros _. apply kept_Put.
  - intros r1 r2 x b1 b2 [_ H1']%lookup_delete_Some [_ H2']%lookup_delete_Some. by eapply Ha.
  - intros r' x b' [_ Hx]%lookup_delete_Some. by eapply Hb.
  - intros x Hx. destruct (Hn x Hx) as [? ?]. assert (id s ≠ x) as Hsx by (intros <-; by apply Hx; eapply Hb).
    split; [by rewrite Hne|]. eapply unknown_Put; [apply lookup_insert_eq|by rewrite Hid|done].
  - intros x s0 Hx. destruct (decide (x = id s)) as [->|]; [by apply Hid'|]. apply Hi. by rewrite <- Hne.
Qed.

Lemma step_Finish now n r cs os c t :
  now ≤ n → sim now (Finish n r cs :: os) c t →
  (store_call c (Finish n r cs)).1 = (spec_call t (Finish n r cs)).1 ∧
  sim n os (store_call c (Finish n r cs)).2 (spec_call t (Finish n r cs)).2.
Proof.
  intros Hle Hs. destruct c as [h st0 hd]. pose proof Hs as [Hok Hv Hh _ _ _ Hi [[Htime Henc] Hleg]]. specialize (Hh r).
  simpl in *. destruct (hd !! r) as [l|] eqn:Hr.
  - destruct Hh as (s & b & Hbusy & Hbn & Hl & Hlive). rewrite Hbusy in Henc, Hleg |- *. simpl in *. split; [done|].
    assert (alter (changed cs) l h = <[l := changed cs s]> h) as -> by (by apply alter_Some).
    destruct (live t !! id s) as [s0|] eqn:Hs0.
    + subst s0. pose proof (in_flight_viewed _ _ _ _ _ _ _ _ Hle Hv Htime Hbusy Hs0) as Hview.
      destruct (sv_Put _ _ _ l s _ Hok Hl (changed_id cs s) Henc) as [Hok' Hv'].
      { right. exists s. by rewrite changed_created. }
      assert (alter (changed cs) (id s) (live t) = <[id s := changed cs s]> (live t)) as Halt by (by apply alter_Some).
      rewrite Halt in *. eapply finish_held; eauto using changed_id.
      * eapply covers_insert; [exact Hv'|]. by eapply covers_later.
      * intros x Hx. by apply lookup_insert_ne.
      * intros s0 Hx. rewrite lookup_insert_eq in Hx. injection Hx as <-. apply changed_id.
    + destruct (sv_Put_dead _ _ _ l s _ _ Hok Hl (changed_id cs s) Hlive) as [Hok' Hv'].
      rewrite (alter_id _ _ (id s)) in * by (intros ? ?; congruence). eapply finish_held; eauto using changed_id.
      eapply covers_ext; [exact Hv'|]. by eapply covers_later.
  - rewrite Hh in *. split; [done|]. destruct t as [lv bs sn]. simpl in *.
    apply (sim_quiet now n (Finish n r cs) os h st0 st0 hd {| live := lv; busy := bs; seen := sn |} sn); try done; [by apply sv_less|by left].
Qed.

Lemma sim_step now o os c t :
  apart now (at_ o) → sim now (o :: os) c t →
  (store_call c o).1 = (spec_call t o).1 ∧ sim (at_ o) os (store_call c o).2 (spec_call t o).2.
Proof.
  unfold apart. intros Ha Hs. assert (0 < Microsecond) as Hm by done. destruct o as [n s|n r sid|n r cs|n sid|n].
  - split; [|apply (step_Login now); [simpl in *; lia|done]]. unfold store_call. by destruct (alloc (hp c) s).
  - by apply (step_Begin now).
  - apply (step_Finish now); [simpl in *; lia|done].
  - split; [done|]. by apply (step_Logout now).
  - split; [done|]. apply (step_SweepNow now); [simpl in *; lia|done].
Qed.

(** A store that starts with nothing in it answers as the specification does. *)
Lemma store_refines_spec (os : list call) (h : heap) (s0 : St) :
  sv_ok (length os) h s0 → (∀ x, sv_view h s0 x = None ∧ sv_unknown s0 x) →
  StronglySorted apart (map at_ os) → legal spec0 os →
  answers store_call {| hp := h; st := s0; held := ∅ |} os = answers spec_call spec0 os.
Proof.
  intros Hok Hnew Hs Hleg. destruct os as [|o os]; [done|]. set (now := at_ o - Microsecond).
  apply (simulation at_ apart _ _ sim) with now; [intros; by apply (sim_step now0)| |].
  - by apply sorted_from_before.
  - split; simpl; try done.
    + intros x. destruct (Hnew x) as [-> _]. intros s. by rewrite lookup_empty.
    + intros x _. split; [by rewrite lookup_empty|apply Hnew].
Qed.

End simulation.
End specification.

(** * The store in memory *)

Section memory.
Context (encodes : Session → Prop) (idle_ absolute_ : Duration).

Definition mem_view (h : heap) (m : MemoryStore) (x : string) : option Session := l ← sessions m !! x; h !! l.
Definition mem_ok (n : nat) (h : heap) (m : MemoryStore) : Prop :=
  idle m = idle_ ∧ absolute m = absolute_ ∧ mem_wf h m.
Definition mem_unknown (m : MemoryStore) (x : string) : Prop := sessions m !! x = None ∧ tombstones m !! x = None.

(** An object that is changed is filed under its own id, if at all. *)
Lemma mem_view_other h m l s s' x :
  mem_wf h m → h !! l = Some s → x ≠ id s → mem_view (<[l := s']> h) m x = mem_view h m x.
Proof.
  intros [Hk _] Hl Hx. unfold mem_view. destruct (sessions m !! x) as [l'|] eqn:Hs; [|done]. simpl.
  destruct (Hk _ _ Hs) as (s0 & Hl0 & <-). apply lookup_insert_ne. intros <-. congruence.
Qed.

Lemma mem_view_expired n now h m x s l :
  mem_ok n h m → sessions m !! x = Some l → mem_view h m x = Some s →
  h !! l = Some s ∧ mem_expired now h m l = gone idle_ absolute_ now s.
Proof.
  intros (<- & <- & _) Hx Hv. unfold mem_view in Hv. rewrite Hx in Hv. simpl in Hv. split; [done|].
  unfold mem_expired, gone. by rewrite Hv.
Qed.

Lemma mem_view_None h m x : mem_wf h m → mem_view h m x = None → sessions m !! x = None.
Proof.
  intros [Hk _]. unfold mem_view. destruct (sessions m !! x) as [l|] eqn:Hs; [|done]. simpl.
  destruct (Hk _ _ Hs) as (s & -> & _). done.
Qed.

Lemma mem_view_Delete now h m sid x :
  mem_view h (mem_Delete now m sid) x = if decide (x = sid) then None else mem_view h m x.
Proof.
  unfold mem_view. simpl. destruct (decide (x = sid)) as [->|]; [by rewrite lookup_delete_eq|by rewrite lookup_delete_ne].
Qed.

Lemma mem_Get_miss n now h m sid :
  mem_ok n h m → (∀ s, mem_view h m sid = Some s → gone idle_ absolute_ now s = true) →
  ∃ m', mem_Get now h m sid = (None, (h, m')) ∧ mem_ok n h m' ∧
    ∀ x, mem_view h m' x = if decide (x = sid) then None else mem_view h m x.
Proof.
  intros Hok Hg. pose proof Hok as (Hi & Ha & Hwf). unfold mem_Get.
  destruct (sessions m !! sid) as [l|] eqn:Hs.
  - destruct (mem_view h m sid) as [s|] eqn:Hv; [|by rewrite (mem_view_None _ _ _ Hwf Hv) in Hs].
    destruct (mem_view_expired _ now _ _ _ _ _ Hok Hs Hv) as [_ ->]. rewrite (Hg s eq_refl).
    eexists. split_and!; [done| |intros x; apply mem_view_Delete]. split_and!; [done..|by apply mem_wf_Delete].
  - exists m. split_and!; [done..|]. intros x. destruct (decide (x = sid)) as [->|]; [|done]. unfold mem_view. by rewrite Hs.
Qed.

Lemma mem_Put_view n h m l s s' :
  mem_ok (S n) h m → h !! l = Some s → id s' = id s → tombstones m !! id s = None →
  let h' := <[l := s']> h in
  mem_ok n h' (mem_Put h' m l) ∧
  ∀ x, mem_view h' (mem_Put h' m l) x = if decide (x = id s) then Some s' else mem_view h m x.
Proof.
  intros (Hi & Ha & Hwf) Hl Hid Ht. pose proof (mem_wf_update _ _ _ _ _ Hwf Hl Hid) as Hwf'. simpl.
  split; [split_and!; [| |by apply mem_wf_Put]|]; unfold mem_Put; rewrite lookup_insert_eq, Hid, Ht; [done|done|].
  intros x. unfold mem_view at 1. simpl. destruct (decide (x = id s)) as [->|].
  - rewrite lookup_insert_eq. simpl. apply lookup_insert_eq.
  - rewrite lookup_insert_ne by done. by apply (mem_view_other h m l s).
Qed.

Lemma mem_Put_dead n h m l s s' b :
  mem_ok (S n) h m → h !! l = Some s → id s' = id s → mem_dead m (id s) b →
  let h' := <[l := s']> h in mem_ok n h' (mem_Put h' m l) ∧ ∀ x, mem_view h' (mem_Put h' m l) x = mem_view h m x.
Proof.
  intros (Hi & Ha & Hwf) Hl Hid [Hs (a & Hta & _)]. pose proof (mem_wf_update _ _ _ _ _ Hwf Hl Hid) as Hwf'. simpl.
  assert (mem_Put (<[l := s']> h) m l = m) as -> by (unfold mem_Put; by rewrite lookup_insert_eq, Hid, Hta).
  split; [done|]. intros x. destruct (decide (x = id s)) as [->|]; [unfold mem_view; by rewrite Hs|].
  by apply (mem_view_other h m l s).
Qed.

Lemma mem_Sweep_view n now h m :
  mem_ok n h m → mem_ok n h (mem_Sweep now h m) ∧
  ∀ x, mem_view h (mem_Sweep now h m) x = mem_view h m x ∨
       mem_view h (mem_Sweep now h m) x = None ∧
       ∀ s, mem_view h m x = Some s → gone idle_ absolute_ (now + Microsecond) s = true.
Proof.
  intros Hok. pose proof Hok as (Hi & Ha & Hwf). split; [split_and!; [done..|by apply mem_wf_Sweep]|].
  intros x. destruct (sessions m !! x) as [l|] eqn:Hs.
  - destruct (mem_expired now h m l) eqn:He.
    + right. split; [unfold mem_view; simpl|].
      * by rewrite (map_drop_true _ _ _ l).
      * intros s Hv. destruct (mem_view_expired _ now _ _ _ _ _ Hok Hs Hv) as [_ Heq].
        apply gone_later with (now := now); [assert (0 < Microsecond) by done; lia|congruence].
    + left. unfold mem_view. simpl. rewrite (proj2 (map_drop_lookup _ _ _ l)) by done. by rewrite Hs.
  - left. unfold mem_view. simpl. by rewrite map_drop_None, Hs.
Qed.

#[global, refine] Instance memory_view : StoreView encodes idle_ absolute_ MemoryStore := {|
  sv_ok := mem_ok;
  sv_view := mem_view;
  sv_unknown := mem_unknown;
|}.
Proof.
  - done.
  - intros n h m l s (Hi & Ha & Hwf) Hl. pose proof Hwf as [Hk Hap].
    assert (∀ x l', sessions m !! x = Some l' → l' ≠ l) as Hne.
    { intros x l' Hx ->. destruct (Hk _ _ Hx) as (s0 & ? & _). congruence. }
    split; [split_and!; [done..|]; split; [|done]|].
    + intros x l' Hx. destruct (Hk _ _ Hx) as (s0 & ? & ?). exists s0. rewrite lookup_insert_ne; [done|].
      apply not_eq_sym. by eapply Hne.
    + intros x. unfold mem_view. destruct (sessions m !! x) as [l'|] eqn:Hx; [|done]. simpl.
      apply lookup_insert_ne, not_eq_sym. by eapply Hne.
  - intros n now h m sid s Hok Hv Hg. pose proof Hok as (Hi & Ha & Hwf).
    destruct (sessions m !! sid) as [l|] eqn:Hs; [|unfold mem_view in Hv; by rewrite Hs in Hv].
    destruct (mem_view_expired _ now _ _ _ _ _ Hok Hs Hv) as [Hl He]. exists l, h, m. simpl. unfold mem_Get.
    by rewrite Hs, He, Hg.
  - apply mem_Get_miss.
  - intros n h m l s s' Hok Hl Hid _ Hor. apply mem_Put_view; [done..|]. destruct Hor as [[_ Ht]|(s0 & Hv & _)]; [done|].
    destruct Hok as (_ & _ & [_ Hap]). unfold mem_view in Hv. destruct (sessions m !! id s) eqn:Hs; [|done]. by eapply Hap.
  - intros n h m l s s' b. apply mem_Put_dead.
  - intros n now h m sid (Hi & Ha & Hwf). split; [split_and!; [done..|by apply mem_wf_Delete]|]. intros x. apply mem_view_Delete.
  - intros t t' m sid Hle [Hs (a & Ha & Hta)]. split; [done|]. exists a. split; [done|lia].
  - done.
  - apply mem_Sweep_view.
  - intros now h m sid x [Hs Ht]. simpl. unfold mem_Get. destruct (sessions m !! sid) as [l|] eqn:Hsid; [|done].
    destruct mem_expired; [|done]. split; simpl; [by apply lookup_delete_None; right|]. rewrite lookup_insert_ne; [done|]. congruence.
  - intros h m l s x Hl Hne [Hs Ht]. simpl. unfold mem_Put. rewrite Hl. destruct (tombstones m !! id s); [done|].
    split; simpl; [by rewrite lookup_insert_ne|done].
  - intros now m sid x Hne [Hs Ht]. split; simpl; [by apply lookup_delete_None; right|by rewrite lookup_insert_ne].
  - intros now h m x [Hs Ht]. split; simpl; by apply map_drop_None.
Defined.

End memory.

(** * The store in PostgreSQL *)

(** The grain of a [timestamptz] column is a microsecond. *)
Class DriverGrain `{pg.Driver} := { column_grain t u : pg.column t ≤ pg.column u → t < u + Microsecond }.

Section postgres.
Import pg pgstore.
Context `{AeadLaws, DriverLaws, !DriverGrain, SnapshotCodec}.
Context (idle_ absolute_ : Duration).
Hypothesis bounded : idle_ ≤ int64_max ∧ absolute_ ≤ int64_max.

(** What [json] encodes, it decodes. *)
Definition encodes_snapshot (s : Session) : Prop :=
  ∃ b, json_Marshal (Snapshot s) = Some b ∧ json_Unmarshal b = Some (Snapshot s).

(** The session a row holds. *)
Definition decode (key x d : string) : option Session :=
  plain ← pg.open key x d; NewSessionFromSnapshot <$> json_Unmarshal plain.

Definition pg_view (h : heap) (p : PostgresStore) (x : string) : option Session :=
  r ← rows (db p) !! x; match deleted_at r with None => decode (key p) x (data r) | Some _ => None end.

(** A row that is not a tombstone holds the session of its id, and its columns
    are the session's timestamps. *)
Definition row_ok (key x : string) (r : row) : Prop :=
  deleted_at r = None →
  ∃ s, decode key x (data r) = Some s ∧ id s = x ∧ created_at r = column (created s) ∧ last_seen r = column (lastSeen s).

Definition pg_ok (n : nat) (h : heap) (p : PostgresStore) : Prop :=
  pg_idle p = idle_ ∧ pg_absolute p = absolute_ ∧ healthy n (db p) ∧
  ∀ x r, rows (db p) !! x = Some r → row_ok (key p) x r.
Definition pg_unknown (p : PostgresStore) (x : string) : Prop := rows (db p) !! x = None.

Lemma pg_view_Some n h p x s :
  pg_ok n h p → pg_view h p x = Some s →
  ∃ r, rows (db p) !! x = Some r ∧ deleted_at r = None ∧ decode (key p) x (data r) = Some s ∧ id s = x ∧
    created_at r = column (created s) ∧ last_seen r = column (lastSeen s).
Proof.
  intros (_ & _ & _ & Hr) Hv. unfold pg_view in Hv. destruct (rows (db p) !! x) as [r|] eqn:Hx; [|done]. simpl in Hv.
  destruct (deleted_at r) eqn:Hd; [done|]. destruct (Hr _ _ Hx Hd) as (s' & Hs' & ?). exists r.
  rewrite Hs' in Hv. injection Hv as <-. done.
Qed.

(** Reading a row, as [Get] does. *)
Lemma read_row_decode p now x d s :
  decode (key p) x d = Some s → id s = x →
  read_row p now x d = if gone (pg_idle p) (pg_absolute p) now s then RExpired else RLive s.
Proof.
  unfold decode, read_row. destruct (pg.open (key p) x d) as [plain|]; [|done]. simpl.
  destruct (json_Unmarshal plain) as [snap|]; [|done]. simpl. intros [= <-] <-. simpl.
  rewrite String.eqb_refl, pg_expired_at. done.
Qed.

Lemma pg_Get_answer n now h p sid :
  pg_ok n h p →
  ∃ d, rows d = rows (db p) ∧ pg_ok n h (set_db p d) ∧
  pg_Get now h p sid =
    match pg_view h p sid with
    | None => (None, (h, set_db p d))
    | Some s => if gone idle_ absolute_ now s then (None, (h, pg_remove (set_db p d) sid))
                else let '(l, h') := alloc h s in (Some l, (h', set_db p d))
    end.
Proof.
  intros Hok. pose proof Hok as (Hi & Ha & Hh & Hr). destruct (healthy_query n (db p) (sql_select sid) Hh) as [Hq Hh'].
  exists (set_rows (db p) (rows (db p))). split; [done|]. split; [done|]. unfold pg_Get. rewrite Hq. simpl.
  destruct (pg_view h p sid) as [s|] eqn:Hv.
  - destruct (pg_view_Some _ _ _ _ _ Hok Hv) as (r & Hx & Hd & Hdec & Hid & _). rewrite Hx, Hd.
    rewrite (read_row_decode _ _ _ _ s) by done. simpl. rewrite Hi, Ha. by destruct gone.
  - unfold pg_view in Hv. destruct (rows (db p) !! sid) as [r|] eqn:Hx; [|done]. simpl in Hv.
    destruct (deleted_at r) eqn:Hd; [done|]. destruct (Hr _ _ Hx Hd) as (s & Hs & _). congruence.
Qed.

(** A statement whose effect on the table is known. *)
Lemma pg_exec_ok n h p op d f :
  pg_idle p = idle_ → pg_absolute p = absolute_ → healthy n d →
  (∀ x r, f (rows d) !! x = Some r → row_ok (key p) x r) →
  pg_ok n h (or_report p op (exec d f)) ∧ rows (db (or_report p op (exec d f))) = f (rows d) ∧
  key (or_report p op (exec d f)) = key p.
Proof. intros Hi Ha Hh Hr. destruct (healthy_exec n d f Hh) as [-> Hh']. by split_and!. Qed.

Lemma pg_view_rows h h' p p' x : key p' = key p → rows (db p') !! x = rows (db p) !! x → pg_view h' p' x = pg_view h p x.
Proof. unfold pg_view. by intros -> ->. Qed.

Lemma pg_remove_view n h p sid :
  pg_ok n h p → pg_ok n h (pg_remove p sid) ∧
  ∀ x, pg_view h (pg_remove p sid) x = if decide (x = sid) then None else pg_view h p x.
Proof.
  intros (Hi & Ha & Hh & Hr). unfold pg_remove.
  destruct (pg_exec_ok n h p "remove" (db p) (sql_delete sid) Hi Ha Hh) as (Hok & Hrows & Hkey).
  { unfold sql_delete. intros x r [_ Hx]%lookup_delete_Some. by apply Hr. }
  split; [done|]. intros x. destruct (decide (x = sid)) as [->|Hne].
  - unfold pg_view. rewrite Hrows. unfold sql_delete. by rewrite lookup_delete_eq.
  - apply pg_view_rows; [done|]. rewrite Hrows. unfold sql_delete. by rewrite lookup_delete_ne.
Qed.

Lemma pg_Delete_view n now h p sid :
  pg_ok n h p → pg_ok n h (pg_Delete now p sid) ∧
  ∀ x, pg_view h (pg_Delete now p sid) x = if decide (x = sid) then None else pg_view h p x.
Proof.
  intros (Hi & Ha & Hh & Hr). unfold pg_Delete.
  destruct (pg_exec_ok n h p "delete" (db p) (sql_tombstone sid now) Hi Ha Hh) as (Hok & Hrows & Hkey).
  { intros x r. unfold sql_tombstone. destruct (rows (db p) !! sid) as [r0|] eqn:Hs; [|apply Hr].
    intros [[<- <-]|[_ Hx]]%lookup_insert_Some; [done|by apply Hr]. }
  split; [done|]. intros x. destruct (decide (x = sid)) as [->|Hne].
  - unfold pg_view. rewrite Hrows. unfold sql_tombstone. destruct (rows (db p) !! sid) eqn:Hs; [by rewrite lookup_insert_eq|by rewrite Hs].
  - apply pg_view_rows; [done|]. rewrite Hrows. unfold sql_tombstone. destruct (rows (db p) !! sid); [by rewrite lookup_insert_ne|done].
Qed.

(** What the sweep removes would be expired a microsecond later. *)
Lemma sweep_where_gone p now key x r s :
  pg_idle p = idle_ → pg_absolute p = absolute_ → deleted_at r = None → sweep_where p now r = true →
  decode key x (data r) = Some s → created_at r = column (created s) → last_seen r = column (lastSeen s) →
  gone idle_ absolute_ (now + Microsecond) s = true.
Proof.
  intros <- <- Hd Hw _ Hc Hl. unfold sweep_where in Hw. rewrite Hd, Hc, Hl in Hw. unfold gone, expired_at.
  destruct bounded as [Hbi Hba]. apply orb_true_iff in Hw. apply orb_true_iff.
  destruct Hw as [[Hp Hle]%andb_true_iff|[Hp Hle]%andb_true_iff]; [left|right]; rewrite Hp; simpl;
    apply Z.leb_le, column_grain in Hle; apply Z.ltb_lt in Hp; apply Z.leb_le, time_Sub_ge; unfold time_Add in Hle; int64.
Qed.

Lemma pg_Sweep_view n now h p :
  pg_ok n h p → pg_ok n h (pg_Sweep now h p) ∧
  ∀ x, pg_view h (pg_Sweep now h p) x = pg_view h p x ∨
       pg_view h (pg_Sweep now h p) x = None ∧ ∀ s, pg_view h p x = Some s → gone idle_ absolute_ (now + Microsecond) s = true.
Proof.
  intros Hok. pose proof Hok as (Hi & Ha & Hh & Hr). unfold pg_Sweep.
  destruct (pg_exec_ok n h p "sweep" (db p) (map_drop (λ _ r, sweep_where p now r)) Hi Ha Hh) as (Hok' & Hrows & Hkey).
  { intros x r [Hx _]%map_drop_lookup. by apply Hr. }
  split; [done|]. intros x. destruct (rows (db p) !! x) as [r|] eqn:Hx.
  - destruct (sweep_where p now r) eqn:Hw.
    + right. split.
      * unfold pg_view. rewrite Hrows. by rewrite (map_drop_true _ _ _ r).
      * intros s Hv. destruct (pg_view_Some _ _ _ _ _ Hok Hv) as (r' & Hx' & ? & ? & _ & ? & ?). simplify_eq.
        by eapply sweep_where_gone.
    + left. apply pg_view_rows; [done|]. rewrite Hrows, Hx. by apply map_drop_lookup.
  - left. apply pg_view_rows; [done|]. rewrite Hrows, Hx. by apply map_drop_None.
Qed.

Lemma pg_Put_view n h p l s :
  pg_ok (S n) h p → h !! l = Some s → encodes_snapshot s →
  (∀ r, rows (db p) !! id s = Some r → deleted_at r = None ∧ created_at r = column (created s)) →
  pg_ok n h (pg_Put h p l) ∧
  ∀ x, pg_view h (pg_Put h p l) x = if decide (x = id s) then Some s else pg_view h p x.
Proof.
  intros (Hi & Ha & Hh & Hr) Hl (b & Hm & Hu) Hrow. unfold pg_Put. rewrite Hl, Hm.
  change (sn_ID (Snapshot s)) with (id s). change (sn_Created (Snapshot s)) with (created s).
  change (sn_LastSeen (Snapshot s)) with (lastSeen s).
  destruct (healthy_nonce n (db p) (key p) (id s) b Hh) as (nonce & d' & -> & Hn & Hrows & Hh').
  set (blob := nonce +:+ aead_Seal (key p) nonce b (id s)).
  set (r' := {| data := blob; created_at := column (created s); last_seen := column (lastSeen s); deleted_at := None |}).
  assert (sql_upsert (id s) blob (created s) (lastSeen s) (rows d') = <[id s := r']> (rows (db p))) as Hup.
  { unfold sql_upsert. rewrite Hrows. destruct (rows (db p) !! id s) as [r|] eqn:Hx; [|done].
    destruct (Hrow r eq_refl) as [-> ->]. done. }
  assert (decode (key p) (id s) blob = Some s) as Hdec.
  { unfold decode, blob. rewrite open_sealed by done. simpl. rewrite Hu. simpl. by rewrite Snapshot_roundtrip. }
  destruct (pg_exec_ok n h p "put" d' (sql_upsert (id s) blob (created s) (lastSeen s)) Hi Ha Hh') as (Hok & Hrows' & Hkey).
  { rewrite Hup. intros x r [[<- <-]|[_ Hx]]%lookup_insert_Some; [intros _; by exists s|by apply Hr]. }
  split; [done|]. rewrite Hup in Hrows'. intros x. destruct (decide (x = id s)) as [->|Hne].
  - unfold pg_view. rewrite Hrows', Hkey, lookup_insert_eq. exact Hdec.
  - apply pg_view_rows; [done|]. by rewrite Hrows', lookup_insert_ne.
Qed.

Lemma pg_Put_dead_view n h p l s b :
  pg_ok (S n) h p → h !! l = Some s → pg_dead p (id s) b →
  pg_ok n h (pg_Put h p l) ∧ ∀ x, pg_view h (pg_Put h p l) x = pg_view h p x.
Proof.
  intros Hok Hl (r & a & Hx & Hd & _). pose proof Hok as (Hi & Ha & Hh & Hr). unfold pg_Put. rewrite Hl.
  assert (healthy n (db p)) as Hle by (eapply healthy_le; [|exact Hh]; lia).
  destruct (json_Marshal (Snapshot s)) as [plain|]; [|done].
  change (sn_ID (Snapshot s)) with (id s).
  destruct (healthy_nonce n (db p) (key p) (id s) plain Hh) as (nonce & d' & -> & Hn & Hrows & Hh').
  set (f := sql_upsert _ _ _ _). assert (f (rows d') = rows (db p)) as Hf.
  { unfold f, sql_upsert. by rewrite Hrows, Hx, Hd. }
  destruct (pg_exec_ok n h p "put" d' f Hi Ha Hh') as (Hok' & Hrows' & Hkey).
  { rewrite Hf. exact Hr. }
  split; [done|]. intros x. apply pg_view_rows; [done|]. by rewrite Hrows', Hf.
Qed.

Lemma pg_Put_unknown h p l s x :
  h !! l = Some s → id s ≠ x → pg_unknown p x → pg_unknown (pg_Put h p l) x.
Proof.
  unfold pg_unknown. intros Hl Hne Hx. unfold pg_Put. rewrite Hl. destruct (json_Marshal _) as [plain|]; [|done].
  unfold seal, read_nonce. destruct (mjoin _) as [nonce|]; [|done]. cbn [fst snd]. rewrite or_report_rows.
  match goal with |- rows (exec ?d ?f).2 !! _ = _ => destruct (exec_rows d f) as [->| ->] end; simpl; [|done].
  unfold sql_upsert. destruct (rows (db p) !! id s) as [r|]; [destruct (deleted_at r); [done|]|]; by rewrite lookup_insert_ne.
Qed.

Lemma pg_exec_unknown p op f x :
  (rows (db p) !! x = None → f (rows (db p)) !! x = None) → pg_unknown p x → pg_unknown (or_report p op (exec (db p) f)) x.
Proof. unfold pg_unknown. intros Hf Hx. rewrite or_report_rows. destruct (exec_rows (db p) f) as [->| ->]; auto. Qed.

#[refine] Instance postgres_view : StoreView encodes_snapshot idle_ absolute_ PostgresStore := {|
  sv_ok := pg_ok;
  sv_view := pg_view;
  sv_unknown := pg_unknown;
|}.
Proof.
  - intros n h p (? & ? & Hh & ?). split_and!; try done. eapply healthy_le; [|exact Hh]. lia.
  - done.
  - intros n now h p sid s Hok Hv Hg. destruct (pg_Get_answer n now h p sid Hok) as (d & Hd & Hok' & Hget).
    rewrite Hv, Hg in Hget. destruct (alloc h s) as [l h'] eqn:Hal. exists l, h', (set_db p d).
    apply alloc_fresh in Hal as [_ ->]. split_and!; [done|apply lookup_insert_eq|done|].
    intros x. apply pg_view_rows; [done|]. simpl. by rewrite Hd.
  - intros n now h p sid Hok Hg. destruct (pg_Get_answer n now h p sid Hok) as (d & Hd & Hok' & Hget).
    assert (∀ x, pg_view h (set_db p d) x = pg_view h p x) as Hsame.
    { intros x. apply pg_view_rows; [done|]. simpl. by rewrite Hd. }
    destruct (pg_view h p sid) as [s|] eqn:Hv.
    + rewrite (Hg s eq_refl) in Hget. destruct (pg_remove_view n h (set_db p d) sid Hok') as [Hok2 Hv2].
      eexists. split_and!; [exact Hget|done|]. intros x. by rewrite Hv2, Hsame.
    + eexists. split_and!; [exact Hget|done|]. intros x. rewrite Hsame. by destruct (decide (x = sid)) as [->|].
  - intros n h p l s s' Hok Hl Hid Henc Hor. simpl.
    destruct (pg_Put_view n (<[l := s']> h) p l s') as [Hok' Hv']; [done|apply lookup_insert_eq|done| |].
    { rewrite Hid. intros r Hx. destruct Hor as [Hun|(s0 & Hv & <-)]; [unfold pg_unknown in Hun; congruence|].
      destruct (pg_view_Some _ _ _ _ _ Hok Hv) as (r0 & ? & ? & _ & _ & ? & _). by simplify_eq. }
    split; [done|]. intros x. by rewrite Hv', Hid.
  - intros n h p l s s' b Hok Hl Hid Hd. simpl.
    apply (pg_Put_dead_view n (<[l := s']> h) p l s' b); [done|apply lookup_insert_eq|by rewrite Hid].
  - apply pg_Delete_view.
  - intros t t' p sid Hle (r & a & ? & ? & ?). exists r, a. split_and!; [done..|]. etrans; [by apply column_mono|done].
  - intros n h p sid Hok [s Hv]. destruct (pg_view_Some _ _ _ _ _ Hok Hv) as (r & Hr & _). split; [by rewrite Hr|].
    destruct Hok as (_ & _ & [Ho _] & _). unfold next_outcome. by rewrite Ho.
  - apply pg_Sweep_view.
  - intros now h p sid x Hx. simpl. unfold pg_unknown in *. destruct (pg_Get_rows now h p sid) as [->|[-> _]]; [done|].
    by apply lookup_delete_None; right.
  - apply pg_Put_unknown.
  - intros now p sid x Hne. apply pg_exec_unknown. unfold sql_tombstone.
    intros Hx. destruct (rows (db p) !! sid); [by rewrite lookup_insert_ne|done].
  - intros now h p x. apply pg_exec_unknown, map_drop_None.
Defined.

End postgres.

(** ** The two stores *)

Section stores.
Import pg pgstore.
Context `{AeadLaws, DriverLaws, !DriverGrain, SnapshotCodec}.


End stores.

(** * A sequence of calls *)

Module sample.
Import pg pgstore pgstore.Demo.

#[global] Instance driver_grain : DriverGrain.
Proof.
  constructor. intros t u. simpl. unfold Microsecond. intros Hle.
  pose proof (Z.div_mod t 1000). pose proof (Z.div_mod u 1000). pose proof (Z.mod_pos_bound t 1000).
  pose proof (Z.mod_pos_bound u 1000). lia.
Qed.

#[global] Instance encodes_dec `{SnapshotCodec} s : Decision (encodes_snapshot s).
Proof.
  unfold encodes_snapshot. destruct (json_Marshal (Snapshot s)) as [b|].
  - destruct (decide (json_Unmarshal b = Some (Snapshot s))) as [Hb|Hb]; [left; eauto|right; naive_solver].
  - right. naive_solver.
Defined.

(** A session is touched by a request, then logged out while another request
    holds it, whose write-back comes too late. *)
Definition calls : list call :=
  [Login (1000 * Second) demo_session; Begin (1500 * Second) 1 "s1"; Finish (1599 * Second) 1 [CTouch (1599 * Second)];
   Begin (1700 * Second) 2 "s1"; Logout (1710 * Second) "s1"; Finish (1711 * Second) 2 [CTouch (1711 * Second)];
   SweepNow (1800 * Second); Begin (1801 * Second) 3 "s1"].

Definition d0 : Db row :=
  {| rows := ∅; outcomes := []; randoms := map Some ["n1"; "n2"; "n3"; "n4"; "n5"; "n6"; "n7"; "n8"]; reported := [] |}.
Definition mem0 : client MemoryStore := {| hp := ∅; st := NewMemoryStore (600 * Second) 0; held := ∅ |}.
Definition pg0 : client PostgresStore :=
  {| hp := ∅; st := {| db := d0; key := "k"; pg_idle := 600 * Second; pg_absolute := 0 |}; held := ∅ |}.


(** The discipline is needed where a request outlives its session: once a sweep
    has removed the expired row, a logout finds nothing to turn into a
    tombstone, and the write-back of the request in flight makes the logged-out
    session readable again. The store in memory leaves a tombstone in any case. *)
Definition late_calls : list call :=
  [Login (1000 * Second) demo_session; Begin (1599 * Second) 1 "s1"; SweepNow (1600 * Second);
   Logout (1601 * Second) "s1"; Finish (1602 * Second) 1 [CTouch (1599 * Second)]; Begin (1603 * Second) 2 "s1"].

Theorem logout_of_swept_session_is_undone :
  answers store_call pg0 late_calls =
    [Nothing; Found (Some demo_session); Nothing; Nothing; Nothing; Found (Some touched_session)] ∧
  answers store_call mem0 late_calls =
    [Nothing; Found (Some demo_session); Nothing; Nothing; Nothing; Found None].
Proof. split; vm_compute; reflexivity. Qed.

End sample.

End sessionspec.
