(* ===== verification/PendingLogin.v ===== *)
(** Pending logins of package [bff] (src/bff/pending_login.go): the in-memory
    store, bounded in size, and the Postgres-backed one, both of which hand out
    a state at most once. *)

From S2P Require Import Prelude GoText GoJson SocrateToken PostgresStore.

Module pending.
Import pg.

(** [bff/loginbinding.go: DefaultLoginBindingTTL] *)
Definition DefaultLoginBindingTTL : Duration := 10 * Minute.
(** [bff/pending_login.go: DefaultPendingLoginTTL] *)
Definition DefaultPendingLoginTTL : Duration := DefaultLoginBindingTTL.
(** [bff/pending_login.go: DefaultMaxPendingLogins] *)
Definition DefaultMaxPendingLogins : Z := 10000.

(** [bff/pending_login.go: PendingLogin] *)
Record PendingLogin := { Verifier : string; Nonce : string; ReturnTo : string; Created : Time }.

(** A zero creation time is set to now. *)
Definition stamp (now : Time) (p : PendingLogin) : PendingLogin :=
  if time_IsZero (Created p)
  then {| Verifier := Verifier p; Nonce := Nonce p; ReturnTo := ReturnTo p; Created := now |}
  else p.

Definition too_old (ttl : Duration) (now : Time) (p : PendingLogin) : bool :=
  ttl <? time_Sub now (Created p).

(** The errors of [Put]. *)
Inductive PutError :=
| EmptyState
| ErrPendingLoginsFull
| EncodeError
| RandError
| StatementError.

(** [bff/pending_login.go: PendingLoginStore]
    [Put] answers the error, if any; [Take] the pending login. *)
Class PendingLoginStore (St : Type) := {
  pl_Put : Time → St → string → PendingLogin → option PutError * St;
  pl_Take : Time → St → string → option PendingLogin * St;
  pl_Sweep : Time → St → St;
}.

(** A state that is not held cannot be taken, and only [Put] makes it held. *)
Class PendingLoginStoreLaws (St : Type) `{PendingLoginStore St} := {
  pl_held : St → string → Prop;
  pl_ttl : St → Duration;
  Take_held now st x : pl_held st x ∨ (pl_Take now st x).1 = None;
  Take_fresh now st x p : (pl_Take now st x).1 = Some p → too_old (pl_ttl st) now p = false;
  Take_spends now st x p : (pl_Take now st x).1 = Some p → ¬ pl_held (pl_Take now st x).2 x;
  Take_keeps now st x y : ¬ pl_held st y → ¬ pl_held (pl_Take now st x).2 y;
  Put_keeps now st x y p : x ≠ y → ¬ pl_held st y → ¬ pl_held (pl_Put now st x p).2 y;
  Sweep_keeps now st y : ¬ pl_held st y → ¬ pl_held (pl_Sweep now st) y;
}.

(** ** Runs of a store *)

Inductive op :=
| PPut (now : Time) (state : string) (p : PendingLogin)
| PTake (now : Time) (state : string)
| PSweep (now : Time).

Definition run_op {St} `{PendingLoginStore St} (st : St) (o : op) : St :=
  match o with
  | PPut now x p => (pl_Put now st x p).2
  | PTake now x => (pl_Take now st x).2
  | PSweep now => pl_Sweep now st
  end.

Definition puts (x : string) (o : op) : bool :=
  match o with PPut _ y _ => String.eqb x y | _ => false end.

Section client.
Context {St : Type} `{PendingLoginStoreLaws St}.

Lemma run_ops_not_held os st x :
  Forall (λ o, puts x o = false) os → ¬ pl_held st x → ¬ pl_held (fold_left run_op os st) x.
Proof.
  revert st. induction os as [|o os IH]; intros st Hos Hh; simpl; [done|].
  apply Forall_cons in Hos as [Ho Hos]. apply IH; [done|].
  destruct o as [now y p|now y|now]; simpl in *; [|by apply Take_keeps|by apply Sweep_keeps].
  bool_to_prop. by apply Put_keeps.
Qed.

(** What every store that satisfies the interface gives. *)
Lemma taken_state_is_spent (st : St) (x : string) (now now' : Time) (p : PendingLogin) (os : list op) :
  (pl_Take now st x).1 = Some p → Forall (λ o, puts x o = false) os →
  too_old (pl_ttl st) now p = false ∧
  (pl_Take now' (fold_left run_op os (pl_Take now st x).2) x).1 = None.
Proof.
  intros Ht Hos. split; [by eapply Take_fresh|].
  destruct (Take_held now' (fold_left run_op os (pl_Take now st x).2) x) as [Hh|]; [|done].
  exfalso. revert Hh. by apply run_ops_not_held, (Take_spends _ _ _ p).
Qed.

End client.

(** * In memory *)

(** [bff/pending_login.go: MemoryPendingLoginStore] *)
Record MemoryPendingLoginStore := { m : gmap string PendingLogin; ttl : Duration; max : Z }.

Definition set_m (s : MemoryPendingLoginStore) (x : gmap string PendingLogin) : MemoryPendingLoginStore :=
  {| m := x; ttl := ttl s; max := max s |}.

(** [bff/pending_login.go: NewMemoryPendingLoginStore] *)
Definition NewMemoryPendingLoginStore (ttl : Duration) (max : Z) : MemoryPendingLoginStore :=
  {| m := ∅;
     ttl := if ttl <=? 0 then DefaultPendingLoginTTL else ttl;
     max := if max <=? 0 then DefaultMaxPendingLogins else max |}.

Definition len {V} (x : gmap string V) : Z := Z.of_nat (size x).

(** [bff/pending_login.go: MemoryPendingLoginStore.sweepLocked] *)
Definition sweepLocked (now : Time) (s : MemoryPendingLoginStore) : MemoryPendingLoginStore :=
  set_m s (map_drop (λ _ p, too_old (ttl s) now p) (m s)).

(** [bff/pending_login.go: MemoryPendingLoginStore.Put] *)
Definition mem_Put (now : Time) (s : MemoryPendingLoginStore) (state : string) (p : PendingLogin)
  : option PutError * MemoryPendingLoginStore :=
  if String.eqb state "" then (Some EmptyState, s)
  else
    let p := stamp now p in
    if (match m s !! state with Some _ => false | None => true end) && (max s <=? len (m s)) then
      let s := sweepLocked now s in
      if max s <=? len (m s) then (Some ErrPendingLoginsFull, s)
      else (None, set_m s (<[state := p]> (m s)))
    else (None, set_m s (<[state := p]> (m s))).

(** [bff/pending_login.go: MemoryPendingLoginStore.Take] *)
Definition mem_Take (now : Time) (s : MemoryPendingLoginStore) (state : string)
  : option PendingLogin * MemoryPendingLoginStore :=
  match m s !! state with
  | None => (None, s)
  | Some p =>
      let s' := set_m s (delete state (m s)) in
      if too_old (ttl s) now p then (None, s') else (Some p, s')
  end.

(** [bff/pending_login.go: MemoryPendingLoginStore.Sweep] *)
Definition mem_Sweep (now : Time) (s : MemoryPendingLoginStore) : MemoryPendingLoginStore :=
  sweepLocked now s.

#[global] Instance memory_pending : PendingLoginStore MemoryPendingLoginStore :=
  {| pl_Put := mem_Put; pl_Take := mem_Take; pl_Sweep := mem_Sweep |}.

#[global, refine] Instance memory_pending_laws : PendingLoginStoreLaws MemoryPendingLoginStore := {|
  pl_held s x := is_Some (m s !! x);
  pl_ttl := ttl;
|}.
Proof.
  - intros now s x. simpl. unfold mem_Take. destruct (m s !! x); [left; eauto|by right].
  - intros now s x p. simpl. unfold mem_Take. destruct (m s !! x) as [q|]; [|done].
    destruct too_old eqn:Ho; [done|]. by intros [= ->].
  - intros now s x p. simpl. unfold mem_Take. destruct (m s !! x) as [q|]; [|done].
    destruct too_old; [done|]. intros _. simpl. rewrite lookup_delete_eq. by intros [].
  - intros now s x y Hy. simpl. unfold mem_Take. destruct (m s !! x) as [q|]; [|done].
    destruct too_old; simpl; by rewrite lookup_delete_is_Some; intros [].
  - intros now s x y p Hne Hy. simpl. unfold mem_Put. destruct String.eqb; [done|].
    assert (∀ w : gmap string PendingLogin, w !! y = None → ¬ is_Some (<[x := stamp now p]> w !! y)) as Hins.
    { intros w Hw. rewrite lookup_insert_ne by done. rewrite Hw. by intros []. }
    apply eq_None_not_Some in Hy. pose proof (map_drop_None (λ _ p, too_old (ttl s) now p) _ _ Hy).
    destruct (_ && _); [simpl; destruct (_ <=? _); simpl|]; [by apply eq_None_not_Some|by apply Hins..].
  - intros now s y Hy. simpl. apply eq_None_not_Some in Hy. apply eq_None_not_Some.
    by apply map_drop_None.
Defined.

(** ** The bound on the number of pending logins *)

Lemma len_insert {V} (x : gmap string V) k v :
  len (<[k := v]> x) = match x !! k with Some _ => len x | None => len x + 1 end.
Proof.
  unfold len. destruct (x !! k) eqn:Hk.
  - by rewrite map_size_insert_Some by eauto.
  - rewrite map_size_insert_None by done. lia.
Qed.

Lemma len_delete_le {V} (x : gmap string V) k : len (delete k x) ≤ len x.
Proof. unfold len. apply Nat2Z.inj_le, map_subseteq_size, delete_subseteq. Qed.

Lemma len_sweep now s : len (m (sweepLocked now s)) ≤ len (m s).
Proof. unfold len. simpl. apply Nat2Z.inj_le, map_drop_size. Qed.

Definition bounded (s : MemoryPendingLoginStore) : Prop := 0 < max s ∧ len (m s) ≤ max s.

Lemma run_op_bounded s o : bounded s → bounded (run_op s o).
Proof.
  intros [Hmax Hlen]. destruct o as [now x p|now x|now]; simpl.
  - unfold mem_Put. destruct String.eqb; [done|]. simpl.
    destruct (m s !! x) eqn:Hx; simpl.
    + split; simpl; [done|]. rewrite len_insert, Hx. done.
    + destruct (max s <=? len (m s)) eqn:Hf; simpl; bool_to_prop.
      * pose proof (len_sweep now s) as Hsw. simpl in Hsw.
        destruct (max s <=? len _) eqn:Hf2; simpl; bool_to_prop; split; simpl; [lia..|].
        rewrite len_insert. split_match; lia.
      * split; simpl; [done|]. rewrite len_insert, Hx. lia.
  - unfold mem_Take. destruct (m s !! x) as [p|]; [|done].
    pose proof (len_delete_le (m s) x). destruct too_old; split; simpl; lia.
  - pose proof (len_sweep now s) as Hsw. split; simpl in *; lia.
Qed.

(** Whatever callers do, the in-memory store never holds more pending
    logins than its maximum, which is positive even when none was configured. *)
Theorem pending_logins_bounded (ttl : Duration) (max_ : Z) (os : list op) :
  let s := fold_left run_op os (NewMemoryPendingLoginStore ttl max_) in
  len (m s) ≤ (if max_ <=? 0 then DefaultMaxPendingLogins else max_).
Proof.
  assert (∀ s, bounded s → max (fold_left run_op os s) = max s ∧ bounded (fold_left run_op os s)) as Hb.
  { induction os as [|o os IH]; intros s Hs; simpl; [done|].
    destruct (IH (run_op s o) (run_op_bounded s o Hs)) as [-> ?]. split; [|done].
    destruct o; simpl; [unfold mem_Put|unfold mem_Take|]; repeat (split_match; simpl); done. }
  destruct (Hb (NewMemoryPendingLoginStore ttl max_)) as [Hm [_ Hlen]].
  - split; simpl; [destruct (max_ <=? 0) eqn:?; bool_to_prop; [done|lia]|].
    unfold len. rewrite map_size_empty. by destruct (max_ <=? 0) eqn:?; bool_to_prop; [|lia].
  - rewrite Hm in Hlen. exact Hlen.
Qed.

(** A store at its maximum refuses a new state exactly when sweeping frees
    nothing, that is, when none of the logins it holds has outlived the
    lifetime; a state it already holds is always replaced, and an empty one is
    always refused. *)
Theorem mem_Put_refuses (now : Time) (s : MemoryPendingLoginStore) (x : string) (p : PendingLogin) :
  bounded s →
  (pl_Put now s x p).1 = Some ErrPendingLoginsFull ↔
  x ≠ "" ∧ m s !! x = None ∧ len (m s) = max s ∧
  (∀ y q, m s !! y = Some q → too_old (ttl s) now q = false).
Proof.
  intros [Hmax Hlen]. simpl. unfold mem_Put.
  destruct (String.eqb_spec x "") as [->|Hx]; [naive_solver|].
  destruct (m s !! x) as [q|] eqn:Hq; simpl; [naive_solver|].
  destruct (max s <=? len (m s)) eqn:Hf; simpl; bool_to_prop; [|naive_solver lia].
  assert (len (m s) = max s) as Hfull by lia.
  set (d := map_drop (λ _ p, too_old (ttl s) now p) (m s)).
  assert (d ⊆ m s) as Hsub by apply map_filter_subseteq.
  destruct (max s <=? len d) eqn:Hg; simpl; bool_to_prop.
  - split; [|done]. intros _. split_and!; [done..|]. intros y r Hy.
    assert (d = m s) as Heq.
    { apply map_subseteq_size_eq; [done|]. unfold len in *. lia. }
    rewrite <- Heq in Hy. by apply map_drop_lookup in Hy as [_ ?].
  - split; [done|]. intros (_ & _ & _ & Hall). exfalso.
    assert (d = m s) as Heq.
    { apply map_eq. intros y. destruct (m s !! y) as [r|] eqn:Hy.
      - apply map_drop_lookup. eauto.
      - by apply map_drop_None. }
    rewrite Heq in Hg. lia.
Qed.

(** * In PostgreSQL *)

(** The JSON encoding of a pending login. *)
Section codec.
Context `{TimeJson}.

(** [bff/pending_login.go:35-40] the members of the encoded login *)
Definition pl_Marshal (p : PendingLogin) : option string :=
  (λ created, json_encode (JObj [("verifier", JStr (Verifier p)); ("nonce", JStr (Nonce p));
                                 ("return_to", JStr (ReturnTo p)); ("created", JStr created)])) <$>
  time_format (Created p).

Definition zero_login : PendingLogin := {| Verifier := ""; Nonce := ""; ReturnTo := ""; Created := 0 |}.

Definition pl_Unmarshal (text : string) : option PendingLogin :=
  unmarshal_struct (λ l,
    verifier ← decode_field decode_string "" "verifier" l;
    nonce ← decode_field decode_string "" "nonce" l;
    return_to ← decode_field decode_string "" "return_to" l;
    created ← decode_field decode_time 0 "created" l;
    Some {| Verifier := verifier; Nonce := nonce; ReturnTo := return_to; Created := created |}) zero_login text.

End codec.

(** [bff/pending_login.go:236-240] a row of the table *)
Record row := { data : string; created_at : Time }.

(** [bff/pending_login.go: PostgresPendingLoginStore] *)
Record PostgresPendingLoginStore := { db : Db row; key : string; pg_ttl : Duration }.

Definition set_db (s : PostgresPendingLoginStore) (d : Db row) : PostgresPendingLoginStore :=
  {| db := d; key := key s; pg_ttl := pg_ttl s |}.

(** [bff/pending_login.go: PendingLoginStoreOption] *)
Definition PendingLoginStoreOption : Type := StoreConfig → StoreConfig.

(** [bff/pending_login.go: WithPendingLoginTable] *)
Definition WithPendingLoginTable (name : string) : PendingLoginStoreOption := λ c,
  {| sc_table := name; sc_onError := sc_onError c; sc_managed := sc_managed c; sc_auto := sc_auto c |}.

(** [bff/pending_login.go: WithPendingLoginErrorHandler] *)
Definition WithPendingLoginErrorHandler (f : string → string → string) : PendingLoginStoreOption := λ c,
  {| sc_table := sc_table c; sc_onError := f; sc_managed := sc_managed c; sc_auto := sc_auto c |}.

(** [bff/pending_login.go: WithPendingLoginManagedSchema] *)
Definition WithPendingLoginManagedSchema : PendingLoginStoreOption := λ c,
  {| sc_table := sc_table c; sc_onError := sc_onError c; sc_managed := true; sc_auto := sc_auto c |}.

(** [bff/pending_login.go: WithPendingLoginAutoSchema] *)
Definition WithPendingLoginAutoSchema : PendingLoginStoreOption := λ c,
  {| sc_table := sc_table c; sc_onError := sc_onError c; sc_managed := sc_managed c; sc_auto := true |}.

(** The configuration before the options. *)
Definition default_config : StoreConfig :=
  {| sc_table := "bff_store_pending_logins"; sc_onError op err := "bff: pending login store: " +:+ op +:+ ": " +:+ err;
     sc_managed := false; sc_auto := false |}.

(** [bff/pending_login.go: NewPostgresPendingLoginStore]
    The lines logged at start-up, and the configuration and lifetime the store
    will use. *)
Definition NewPostgresPendingLoginStore (db : option Database) (key : string) (ttl : Duration)
    (opts : list PendingLoginStoreOption) : list string * result NewError (StoreConfig * Duration) :=
  let ttl := if ttl <=? 0 then DefaultPendingLoginTTL else ttl in
  let c := fold_left (λ c opt, opt c) opts default_config in
  match check_config db key c with
  | Err e => ([], Err e)
  | Ok db =>
      (schema_warning "pending login store" "WithPendingLoginManagedSchema" "WithPendingLoginAutoSchema" c,
       match Ping db with
       | Some e => Err (PingError e)
       | None =>
           if sc_managed c then
             match checkTable db (sc_table c) "state, data, created_at" ["SELECT"; "INSERT"; "UPDATE"; "DELETE"] with
             | Some e => Err (ManagedTable (sc_table c) e)
             | None => Ok (c, ttl)
             end
           else
             match CreateTable db (sc_table c) with
             | Some e => Err (CreateTableError e)
             | None => Ok (c, ttl)
             end
       end)
  end.

Section postgres.
Context `{Aead, Driver, TimeJson}.

(** [bff/pending_login.go: PostgresPendingLoginStore.Put] *)
Definition pg_Put (now : Time) (s : PostgresPendingLoginStore) (state : string) (p : PendingLogin)
  : option PutError * PostgresPendingLoginStore :=
  if String.eqb state "" then (Some EmptyState, s)
  else
    let p := stamp now p in
    match pl_Marshal p with
    | None => (Some EncodeError, s)
    | Some plain =>
        let '(data, d) := seal (key s) (db s) state plain in
        match data with
        | None => (Some RandError, set_db s d)
        | Some data =>
            let '(ok, d) := exec d (λ m, <[state := {| data := data; created_at := column (Created p) |}]> m) in
            if ok : bool then (None, set_db s d) else (Some StatementError, set_db s (report d "put"))
        end
    end.

(** [bff/pending_login.go:280-280] DELETE ... RETURNING data *)
Definition sql_take (state : string) (m : gmap string row) : option string * gmap string row :=
  match m !! state with
  | Some r => (Some (data r), delete state m)
  | None => (None, m)
  end.

(** [bff/pending_login.go: PostgresPendingLoginStore.Take] *)
Definition pg_Take (now : Time) (s : PostgresPendingLoginStore) (state : string)
  : option PendingLogin * PostgresPendingLoginStore :=
  let '(ans, d) := query (db s) (sql_take state) in
  match ans with
  | None => (None, set_db s (report d "take"))
  | Some None => (None, set_db s d)
  | Some (Some data) =>
      match pg.open (key s) state data with
      | None => (None, set_db s (report d "take"))
      | Some plain =>
          match pl_Unmarshal plain with
          | None => (None, set_db s (report d "take"))
          | Some p => if too_old (pg_ttl s) now p then (None, set_db s d) else (Some p, set_db s d)
          end
      end
  end.

(** [bff/pending_login.go: PostgresPendingLoginStore.Sweep] *)
Definition pg_Sweep (now : Time) (s : PostgresPendingLoginStore) : PostgresPendingLoginStore :=
  let '(ok, d) := exec (db s)
                    (map_drop (λ _ r, created_at r <? column (time_Add now (- pg_ttl s)))) in
  set_db s (if ok : bool then d else report d "sweep").

#[global] Instance postgres_pending : PendingLoginStore PostgresPendingLoginStore :=
  {| pl_Put := pg_Put; pl_Take := pg_Take; pl_Sweep := pg_Sweep |}.

Lemma query_take_rows (d : Db row) state y :
  rows d !! y = None → rows (query d (sql_take state)).2 !! y = None.
Proof.
  intros Hy. unfold query, sql_take. destruct (rows d !! state); destruct next_outcome; simpl; try done.
  all: by rewrite lookup_delete_None; right.
Qed.

Lemma query_take_spends (d : Db row) state x :
  (query d (sql_take state)).1 = Some (Some x) → rows (query d (sql_take state)).2 !! state = None.
Proof.
  unfold query, sql_take. destruct (rows d !! state); destruct next_outcome; simpl; try done.
  intros _. apply lookup_delete_eq.
Qed.

(** The rows after [Take] are those after its statement. *)
Lemma pg_Take_rows now s x : rows (db (pg_Take now s x).2) = rows (query (db s) (sql_take x)).2.
Proof.
  unfold pg_Take. destruct query as [[[a|]|] d]; simpl; [|done|done].
  destruct pg.open; [|done]. destruct pl_Unmarshal; [|done]. by destruct too_old.
Qed.

Lemma pg_Take_Some now s x p :
  (pg_Take now s x).1 = Some p →
  too_old (pg_ttl s) now p = false ∧ ∃ a, (query (db s) (sql_take x)).1 = Some (Some a).
Proof.
  unfold pg_Take. destruct query as [[[a|]|] d]; simpl; [|done|done].
  destruct pg.open; [|done]. destruct pl_Unmarshal as [q|]; [|done].
  destruct too_old eqn:Ho; [done|]. intros [= ->]. eauto.
Qed.

#[global, refine] Instance postgres_pending_laws : PendingLoginStoreLaws PostgresPendingLoginStore := {|
  pl_held s x := is_Some (rows (db s) !! x);
  pl_ttl := pg_ttl;
|}.
Proof.
  - intros now s x. simpl. destruct (pg_Take now s x).1 as [p|] eqn:Ht; [left|by right].
    apply pg_Take_Some in Ht as [_ [a Ha]]. revert Ha. unfold query, sql_take.
    destruct (rows (db s) !! x); [eauto|]. by destruct next_outcome.
  - by intros now s x p [Ho _]%pg_Take_Some.
  - intros now s x p [_ [a Ha]]%pg_Take_Some. simpl. rewrite pg_Take_rows.
    rewrite (query_take_spends _ _ _ Ha). by intros [].
  - intros now s x y Hy%eq_None_not_Some. simpl. rewrite pg_Take_rows.
    rewrite query_take_rows by done. by intros [].
  - intros now s x y p Hne Hy. simpl. unfold pg_Put. destruct String.eqb; [done|].
    destruct pl_Marshal as [plain|]; [|done]. unfold seal, read_nonce.
    destruct (mjoin _) as [nonce|]; [|done]. unfold exec.
    destruct next_outcome; simpl; [|done|]; by rewrite lookup_insert_ne.
  - intros now s y Hy%eq_None_not_Some. simpl. unfold pg_Sweep, exec.
    destruct next_outcome; simpl; rewrite <- eq_None_not_Some; by try apply map_drop_None.
Defined.

(** C27: an OAuth state is accepted at most once: after a callback took it, every
    later callback presenting the same state is refused, whatever happens in
    between, unless a new login is started under that very state; and what is
    handed out is never older than the store's lifetime. This holds in memory
    and in PostgreSQL, whatever the statements in between answer. *)
Theorem state_is_single_use (sm : MemoryPendingLoginStore) (sp : PostgresPendingLoginStore) (x : string)
    (now now' : Time) (p : PendingLogin) (os : list op) :
  Forall (λ o, puts x o = false) os →
  ((mem_Take now sm x).1 = Some p →
   too_old (ttl sm) now p = false ∧
   (mem_Take now' (fold_left run_op os (mem_Take now sm x).2) x).1 = None) ∧
  ((pg_Take now sp x).1 = Some p →
   too_old (pg_ttl sp) now p = false ∧
   (pg_Take now' (fold_left run_op os (pg_Take now sp x).2) x).1 = None).
Proof.
  intros Hos. split; intros Ht.
  - exact (taken_state_is_spent sm x now now' p os Ht Hos).
  - exact (taken_state_is_spent sp x now now' p os Ht Hos).
Qed.

End postgres.

(** * Examples *)

Definition demo_login : PendingLogin :=
  {| Verifier := "v"; Nonce := "n"; ReturnTo := "/"; Created := 1000 * Second |}.
Definition demo_store : MemoryPendingLoginStore :=
  (mem_Put (1000 * Second) (NewMemoryPendingLoginStore 0 1) "st" demo_login).2.

Module Demo.
(** Of the texts of times only two are needed. *)
#[global] Instance times : TimeJson :=
  {| time_format t := if t =? 1000 * Second then Some "T1000" else if t =? 1001 * Second then Some "T1001" else None;
     time_parse s := if String.eqb s "T1000" then Some (1000 * Second)
                     else if String.eqb s "T1001" then Some (1001 * Second) else None |}.
End Demo.
Import pgstore.Demo pending.Demo.

Definition demo_pg : PostgresPendingLoginStore :=
  (pg_Put (1000 * Second)
     {| db := {| rows := ∅; outcomes := []; randoms := [Some "n1"; Some "n2"]; reported := [] |};
        key := "k"; pg_ttl := 600 * Second |} "st" demo_login).2.

Lemma state_is_single_use_witness :
  let os := [PPut (1011 * Second) "other" demo_login] in
  (mem_Take (1012 * Second) (fold_left run_op os (mem_Take (1010 * Second) demo_store "st").2) "st").1 = None ∧
  (pg_Take (1012 * Second) (fold_left run_op os (pg_Take (1010 * Second) demo_pg "st").2) "st").1 = None.
Proof.
  intros os.
  destruct (state_is_single_use demo_store demo_pg "st" (1010 * Second) (1012 * Second) demo_login os)
    as [Hm Hp]; [constructor; [reflexivity|constructor]|].
  split; [apply Hm|apply Hp]; vm_compute; reflexivity.
Defined.

Lemma mem_Put_refuses_witness :
  (pl_Put (1100 * Second) demo_store "new" demo_login).1 = Some ErrPendingLoginsFull.
Proof.
  apply (proj2 (mem_Put_refuses (1100 * Second) demo_store "new" demo_login
                  (conj eq_refl (Z.le_refl 1)))).
  split_and!; [discriminate|reflexivity|reflexivity|].
  intros y q Hy.
  change (m demo_store) with (<["st" := demo_login]> (∅ : gmap string PendingLogin)) in Hy.
  apply lookup_insert_Some in Hy as [[_ <-]|[_ Hy]]; [reflexivity|].
  by rewrite lookup_empty in Hy.
Defined.

End pending.
