(* ===== verification/PendingSpec.v ===== *)
(** The two stores of pending logins (src/bff/pending_login.go) against one
    specification: a map in which a login waits until it is taken. Sweeping,
    the memory store's way of making room, sealing and the rounding of
    timestamps cannot be observed by a caller whose clock does not go back; the
    JSON encoding can, by a text that is not valid UTF-8. *)

From S2P Require Import Prelude GoText Utf8 GoJson JsonRoundtrip SocrateToken PostgresStore PendingLogin.

Module pendingspec.
Import pg pending.

(** * The specification *)

Abbreviation waiting := (gmap string PendingLogin) (only parsing).

Inductive answer := APut (e : option PutError) | ATake (p : option PendingLogin) | ASweep.

#[global] Instance answer_inhabited : Inhabited answer := populate ASweep.

Definition spec_op (ttl : Duration) (s : waiting) (o : op) : answer * waiting :=
  match o with
  | PPut now x p => if String.eqb x "" then (APut (Some EmptyState), s) else (APut None, <[x := stamp now p]> s)
  | PTake now x =>
      (ATake (match s !! x with Some p => if too_old ttl now p then None else Some p | None => None end), delete x s)
  | PSweep _ => (ASweep, s)
  end.

Definition store_op {St} `{PendingLoginStore St} (st : St) (o : op) : answer * St :=
  match o with
  | PPut now x p => let '(e, st) := pl_Put now st x p in (APut e, st)
  | PTake now x => let '(p, st) := pl_Take now st x in (ATake p, st)
  | PSweep now => (ASweep, pl_Sweep now st)
  end.

Definition at_ (o : op) : Time := match o with PPut now _ _ | PTake now _ | PSweep now => now end.

(** ** What a store holds *)

Lemma too_old_later ttl now now' p : now ≤ now' → too_old ttl now p = true → too_old ttl now' p = true.
Proof. unfold too_old, time_Sub, sat64. rewrite !Z.ltb_lt. lia. Qed.

(** What a store holds, against what waits: a login that waits and is not held
    has outlived the lifetime. *)
Definition covers (ttl : Duration) (now : Time) (held : string → option PendingLogin) (s : waiting) : Prop :=
  ∀ x, match held x with
       | Some p => s !! x = Some p
       | None => ∀ p, s !! x = Some p → too_old ttl now p = true
       end.

Lemma waits_later ttl now now' held s : now ≤ now' → covers ttl now held s → covers ttl now' held s.
Proof. intros Hle Hc x. specialize (Hc x). destruct (held x); [done|]. intros p Hp. eapply too_old_later; eauto. Qed.

Lemma waits_insert ttl now held held' s x p :
  covers ttl now held s → held' x = Some p → (∀ y, y ≠ x → held' y = held y) → covers ttl now held' (<[x := p]> s).
Proof.
  intros Hc Hx Hne y. destruct (decide (y = x)) as [->|Hy]; [by rewrite Hx, lookup_insert_eq|].
  rewrite Hne by done. rewrite lookup_insert_ne by done. apply Hc.
Qed.

Lemma waits_delete ttl now held held' s x :
  covers ttl now held s → held' x = None → (∀ y, y ≠ x → held' y = held y) → covers ttl now held' (delete x s).
Proof.
  intros Hc Hx Hne y. destruct (decide (y = x)) as [->|Hy]; [rewrite Hx; by rewrite lookup_delete_eq|].
  rewrite Hne by done. rewrite lookup_delete_ne by done. apply Hc.
Qed.

(** Dropping what is too old is not observable. *)
Lemma waits_drop ttl now held held' s :
  covers ttl now held s → (∀ y, held' y = held y ∨ held' y = None ∧ ∀ p, held y = Some p → too_old ttl now p = true) →
  covers ttl now held' s.
Proof.
  intros Hc Hd y. specialize (Hc y). destruct (Hd y) as [->|[-> Hold]]; [done|].
  destruct (held y) as [q|]; [|done]. intros p Hp. apply Hold. congruence.
Qed.

Lemma waits_take ttl now held s x :
  covers ttl now held s →
  match s !! x with Some p => if too_old ttl now p then None else Some p | None => None end =
  match held x with Some p => if too_old ttl now p then None else Some p | None => None end.
Proof.
  intros Hc. specialize (Hc x). destruct (held x) as [p|]; [by rewrite Hc|]. destruct (s !! x) as [p|]; [|done].
  by rewrite (Hc p eq_refl).
Qed.

(** * The store in memory *)

Definition has_room (a : answer) : Prop := a ≠ APut (Some ErrPendingLoginsFull).

Definition mem_sim (ttl_ : Duration) (now : Time) (os : list op) (s : MemoryPendingLoginStore) (t : waiting) : Prop :=
  ttl s = ttl_ ∧ covers ttl_ now (λ x, m s !! x) t ∧ Forall has_room (answers store_op s os).

Lemma sweep_covers now s t :
  covers (ttl s) now (λ x, m s !! x) t → covers (ttl s) now (λ x, m (sweepLocked now s) !! x) t.
Proof.
  intros Hc. apply (waits_drop _ _ _ _ _ Hc). intros y. simpl. destruct (m s !! y) as [p|] eqn:Hp.
  - destruct (too_old (ttl s) now p) eqn:Ho.
    + right. split; [|by intros q [= <-]]. by apply (map_drop_true _ _ _ p).
    + left. by apply map_drop_lookup.
  - left. by apply map_drop_None.
Qed.

(** A put that is not refused for want of room. *)
Lemma mem_Put_sim now s x p t :
  x ≠ "" → covers (ttl s) now (λ x, m s !! x) t → (mem_Put now s x p).1 ≠ Some ErrPendingLoginsFull →
  (mem_Put now s x p).1 = None ∧ ttl (mem_Put now s x p).2 = ttl s ∧
  covers (ttl s) now (λ y, m (mem_Put now s x p).2 !! y) (<[x := stamp now p]> t).
Proof.
  intros Hx Hc. unfold mem_Put. rewrite (proj2 (String.eqb_neq _ _) Hx).
  assert (∀ s', covers (ttl s) now (λ y, m s' !! y) t →
    covers (ttl s) now (λ y, m (set_m s' (<[x := stamp now p]> (m s'))) !! y) (<[x := stamp now p]> t)) as Hins.
  { intros s' Hs'. apply (waits_insert _ _ _ _ _ _ _ Hs'); [apply lookup_insert_eq|]. intros y Hy. by apply lookup_insert_ne. }
  pose proof (sweep_covers _ _ _ Hc) as Hsw.
  destruct (_ && _); [|intros _; split_and!; [done|done|by apply Hins]].
  destruct (max _ <=? len _); [done|]. intros _. split_and!; [done|done|by apply Hins].
Qed.

Lemma mem_step_sim ttl_ now o os s t :
  now ≤ at_ o → mem_sim ttl_ now (o :: os) s t →
  (store_op s o).1 = (spec_op ttl_ t o).1 ∧ mem_sim ttl_ (at_ o) os (store_op s o).2 (spec_op ttl_ t o).2.
Proof.
  intros Hle (<- & Hc & Hroom). apply (waits_later _ _ _ _ _ Hle) in Hc. unfold mem_sim.
  change (Forall has_room (let '(a, s') := store_op s o in a :: answers store_op s' os)) in Hroom.
  destruct o as [n x p|n x|n]; simpl in *.
  - destruct (decide (x = "")) as [->|Hx]; [unfold mem_Put in *; simpl in *; by apply Forall_cons in Hroom as [_ ?]|].
    pose proof (mem_Put_sim n s x p t Hx Hc) as Hp. destruct (mem_Put n s x p) as [e s'].
    apply Forall_cons in Hroom as [Hr Hroom]. destruct Hp as (He & Ht & Hc'); [by intros [=]; subst; apply Hr|].
    simpl in *. rewrite (proj2 (String.eqb_neq _ _) Hx). subst. by rewrite Ht.
  - rewrite (waits_take _ _ _ _ x Hc). unfold mem_Take in *. destruct (m s !! x) as [p|] eqn:Hp.
    + assert (covers (ttl s) n (λ y, delete x (m s) !! y) (delete x t)).
      { apply (waits_delete _ _ _ _ _ _ Hc); [apply lookup_delete_eq|]. intros y Hy. by apply lookup_delete_ne. }
      destruct (too_old (ttl s) n p); simpl in *; apply Forall_cons in Hroom as [_ ?]; done.
    + apply Forall_cons in Hroom as [_ ?]. split_and!; [done|done| |done]. by apply (waits_delete _ _ _ _ _ _ Hc).
  - apply Forall_cons in Hroom as [_ ?]. split_and!; [done|done| |done]. by apply sweep_covers.
Qed.

(** * The store in PostgreSQL *)

(** Valid UTF-8: what [encoding/json] leaves as it is. *)
Definition utf8 (s : string) : Prop := replace_invalid s = s.

(** The text [time.Time] marshals to is valid and is parsed to the same instant;
    a year outside 0 to 9999 has none. *)
Class TimeJsonLaws `{TimeJson} := {
  time_text t x : time_format t = Some x → utf8 x ∧ time_parse x = Some t;
}.

(** What a login is read back as. *)
Definition mended (p : PendingLogin) : PendingLogin :=
  {| Verifier := replace_invalid (Verifier p); Nonce := replace_invalid (Nonce p);
     ReturnTo := replace_invalid (ReturnTo p); Created := Created p |}.

Lemma pending_roundtrip `{TimeJsonLaws} p b : pl_Marshal p = Some b → pl_Unmarshal b = Some (mended p).
Proof.
  unfold pl_Marshal. destruct (time_format (Created p)) as [x|] eqn:Hx; [|done]. cbn [fmap option_fmap option_map].
  set (v := JObj _). intros Hb. assert (b = json_encode v) as -> by congruence. clear Hb.
  destruct (time_text _ _ Hx) as [Hu Hp]. unfold pl_Unmarshal, unmarshal_struct. rewrite (json_roundtrip v) by done.
  unfold v. cbn [canon fmap list_fmap fst snd]. rewrite Hu.
  change (replace_invalid "verifier") with "verifier". change (replace_invalid "nonce") with "nonce".
  change (replace_invalid "return_to") with "return_to". change (replace_invalid "created") with "created".
  unfold decode_field.
  assert (∀ a b c d, occurrences "verifier" [("verifier", a); ("nonce", b); ("return_to", c); ("created", d)] = [a] ∧
    occurrences "nonce" [("verifier", a); ("nonce", b); ("return_to", c); ("created", d)] = [b] ∧
    occurrences "return_to" [("verifier", a); ("nonce", b); ("return_to", c); ("created", d)] = [c] ∧
    occurrences "created" [("verifier", a); ("nonce", b); ("return_to", c); ("created", d)] = [d]) as Hocc
    by (intros; by vm_compute).
  destruct (Hocc (JStr (replace_invalid (Verifier p))) (JStr (replace_invalid (Nonce p)))
              (JStr (replace_invalid (ReturnTo p))) (JStr x)) as (-> & -> & -> & ->).
  simpl. by rewrite Hp.
Qed.

Lemma mended_utf8 p : utf8 (Verifier p) → utf8 (Nonce p) → utf8 (ReturnTo p) → mended p = p.
Proof. unfold utf8, mended. intros -> -> ->. by destruct p. Qed.

Section postgres.
Context `{AeadLaws, DriverLaws, TimeJsonLaws}.

(** The login a row holds. *)
Definition decode (key x : string) (r : row) : option PendingLogin :=
  plain ← pg.open key x (data r); pl_Unmarshal plain.

Definition decoded (s : PostgresPendingLoginStore) (x : string) : option PendingLogin :=
  r ← rows (db s) !! x; decode (key s) x r.

(** Every row is readable, and its column is the login's creation time. *)
Definition readable (s : PostgresPendingLoginStore) : Prop :=
  ∀ x r, rows (db s) !! x = Some r → ∃ p, decode (key s) x r = Some p ∧ created_at r = column (Created p).

(** A login of valid texts, whose creation time has a text. *)
Definition textual (o : op) : Prop :=
  match o with
  | PPut now _ p => utf8 (Verifier p) ∧ utf8 (Nonce p) ∧ utf8 (ReturnTo p) ∧ is_Some (time_format (Created (stamp now p)))
  | _ => True
  end.

Lemma textual_encodes now x p :
  textual (PPut now x p) → ∃ b, pl_Marshal (stamp now p) = Some b ∧ pl_Unmarshal b = Some (stamp now p).
Proof.
  intros (Hv & Hn & Hr & [t Ht]). unfold pl_Marshal at 1. rewrite Ht. eexists. split; [done|].
  rewrite (pending_roundtrip (stamp now p)); [|unfold pl_Marshal; by rewrite Ht].
  f_equal. unfold stamp. destruct (time_IsZero _); by apply mended_utf8.
Qed.

Definition pg_sim (ttl_ : Duration) (now : Time) (os : list op) (s : PostgresPendingLoginStore) (t : waiting) : Prop :=
  pg_ttl s = ttl_ ∧ covers ttl_ now (decoded s) t ∧ readable s ∧ healthy (length os) (db s) ∧ Forall textual os.

Lemma pg_Put_sim n now s x p t :
  x ≠ "" → textual (PPut now x p) → covers (pg_ttl s) now (decoded s) t → readable s → healthy (S n) (db s) →
  ∃ s', pg_Put now s x p = (None, s') ∧ pg_ttl s' = pg_ttl s ∧ readable s' ∧ healthy n (db s') ∧
    covers (pg_ttl s) now (decoded s') (<[x := stamp now p]> t).
Proof.
  intros Hx (b & Hm & Hu)%textual_encodes Hc Hr Hh. unfold pg_Put. rewrite (proj2 (String.eqb_neq _ _) Hx), Hm.
  destruct (healthy_nonce n (db s) (key s) x b Hh) as (nonce & d' & -> & Hn & Hrows & Hh').
  set (r := {| data := _; created_at := _ |}).
  destruct (healthy_exec n d' (λ m, <[x := r]> m) Hh') as [-> Hh2].
  assert (decode (key s) x r = Some (stamp now p)) as Hd.
  { unfold decode. simpl. by rewrite open_sealed. }
  eexists. split_and!; [done|done| |done|].
  - intros y r' Hy. simpl in Hy. rewrite Hrows in Hy. apply lookup_insert_Some in Hy as [[<- <-]|[_ Hy]]; [eauto|by apply Hr].
  - apply (waits_insert _ _ _ _ _ _ _ Hc); unfold decoded; simpl; rewrite Hrows.
    + by rewrite lookup_insert_eq.
    + intros y Hy. by rewrite lookup_insert_ne.
Qed.

Lemma pg_Take_sim n now s x t :
  covers (pg_ttl s) now (decoded s) t → readable s → healthy n (db s) →
  (pg_Take now s x).1 = match decoded s x with Some p => if too_old (pg_ttl s) now p then None else Some p | None => None end ∧
  pg_ttl (pg_Take now s x).2 = pg_ttl s ∧ readable (pg_Take now s x).2 ∧ healthy n (db (pg_Take now s x).2) ∧
  covers (pg_ttl s) now (decoded (pg_Take now s x).2) (delete x t).
Proof.
  intros Hc Hr Hh. destruct (healthy_query n (db s) (sql_take x) Hh) as [Hq Hh'].
  assert (∀ s', s' = set_db s (set_rows (db s) (delete x (rows (db s)))) →
    pg_ttl s' = pg_ttl s ∧ readable s' ∧ covers (pg_ttl s) now (decoded s') (delete x t)) as Hdel.
  { intros s' ->. split_and!; [done| |].
    - intros y r Hy. simpl in Hy. apply lookup_delete_Some in Hy as [_ Hy]. by apply Hr.
    - apply (waits_delete _ _ _ _ _ _ Hc); unfold decoded; simpl; [by rewrite lookup_delete_eq|].
      intros y Hy. by rewrite lookup_delete_ne. }
  unfold pg_Take. rewrite Hq. unfold sql_take in *. destruct (rows (db s) !! x) as [r|] eqn:Hx; simpl in *.
  - destruct (Hr x r Hx) as (p & Hd & _). unfold decoded. rewrite Hx. simpl. unfold decode in *.
    destruct (pg.open (key s) x (data r)) as [plain|]; [|done]. simpl in *. rewrite Hd.
    destruct (Hdel _ eq_refl) as (? & ? & ?). by destruct (too_old (pg_ttl s) now p).
  - unfold decoded at 1. rewrite Hx. simpl. rewrite (delete_id (rows (db s))) in Hdel by done.
    destruct (Hdel _ eq_refl) as (? & ? & ?). done.
Qed.

Lemma pg_Sweep_sim n now s t :
  pg_ttl s < int64_max → int64_min ≤ pg_ttl s → covers (pg_ttl s) now (decoded s) t → readable s → healthy n (db s) →
  pg_ttl (pg_Sweep now s) = pg_ttl s ∧ readable (pg_Sweep now s) ∧ healthy n (db (pg_Sweep now s)) ∧
  covers (pg_ttl s) now (decoded (pg_Sweep now s)) t.
Proof.
  intros Hmax Hmin Hc Hr Hh. unfold pg_Sweep.
  destruct (healthy_exec n (db s) (map_drop (λ _ r, created_at r <? column (time_Add now (- pg_ttl s)))) Hh) as [-> Hh'].
  simpl. split_and!; [done| |done|].
  - intros y r [Hy _]%map_drop_lookup. by apply Hr.
  - apply (waits_drop _ _ _ _ _ Hc). intros y. unfold decoded. simpl.
    destruct (rows (db s) !! y) as [r|] eqn:Hy; [|left; by rewrite map_drop_None].
    destruct (created_at r <? column (time_Add now (- pg_ttl s))) eqn:Hold.
    + right. split.
      * by rewrite (map_drop_true _ _ _ r).
      * intros p Hp. simpl in Hp. destruct (Hr y r Hy) as (p' & Hd & Hcr). rewrite Hd in Hp. injection Hp as ->.
        rewrite Hcr in Hold. apply Z.ltb_lt in Hold. unfold too_old. apply Z.ltb_lt, time_Sub_gt_iff; [done|].
        destruct (decide (now - pg_ttl s ≤ Created p)) as [Hle|]; [|lia]. apply column_mono in Hle.
        unfold time_Add in Hold. rewrite Z.add_opp_r in Hold. lia.
    + left. f_equal. apply map_drop_lookup. done.
Qed.

Lemma pg_step_sim ttl_ now o os s t :
  int64_min ≤ ttl_ < int64_max → now ≤ at_ o → pg_sim ttl_ now (o :: os) s t →
  (store_op s o).1 = (spec_op ttl_ t o).1 ∧ pg_sim ttl_ (at_ o) os (store_op s o).2 (spec_op ttl_ t o).2.
Proof.
  intros Httl Hle (<- & Hc & Hr & Hh & [Ho Henc]%Forall_cons). apply (waits_later _ _ _ _ _ Hle) in Hc. unfold pg_sim.
  assert (healthy (length os) (db s)) as Hh' by (eapply healthy_le; [|exact Hh]; simpl; lia).
  destruct o as [n x p|n x|n]; simpl in *.
  - destruct (decide (x = "")) as [->|Hx]; [unfold pg_Put; simpl; done|].
    destruct (pg_Put_sim _ n s x p t Hx Ho Hc Hr Hh) as (s' & -> & Ht & Hr' & Hh2 & Hc').
    rewrite (proj2 (String.eqb_neq _ _) Hx). simpl. by rewrite Ht.
  - rewrite (waits_take _ _ _ _ x Hc). destruct (pg_Take_sim _ n s x t Hc Hr Hh') as (He & Ht & Hr' & Hh2 & Hc').
    destruct (pg_Take n s x) as [e s']. simpl in *. by rewrite He, Ht.
  - destruct (pg_Sweep_sim _ n s t (proj2 Httl) (proj1 Httl) Hc Hr Hh') as (Ht & Hr' & Hh2 & Hc'). by rewrite Ht.
Qed.

(** C12: the two stores of pending logins are the same store to their callers, and
    both implement one simple map. Take any sequence of Put, Take and Sweep calls
    on two empty stores of one lifetime (below the longest Duration), with a clock that does not go back, whose
    logins have valid UTF-8 texts and a creation time with a JSON text (a year
    from 0 to 9999); let the memory store never run out of room, and the database
    and the CSPRNG answer every time. Then every call has the answer of a map in
    which a login waits until it is taken and a Take refuses what is older than
    the lifetime. Sweeping, encryption and the rounding of timestamps cannot be
    observed, nor the JSON encoding by such logins; other texts it can
    ([invalid_text_is_replaced]). *)
Theorem pending_stores_refine_one_map (ttl_ : Duration) (max_ : Z) (os : list op) (d : Db row) (key_ : string) :
  let life := if ttl_ <=? 0 then DefaultPendingLoginTTL else ttl_ in
  let mem := NewMemoryPendingLoginStore ttl_ max_ in
  let pg := {| db := d; key := key_; pg_ttl := life |} in
  ttl_ < int64_max → rows d = ∅ → healthy (length os) d →
  StronglySorted Z.le (map at_ os) → Forall textual os → Forall has_room (answers store_op mem os) →
  answers store_op mem os = answers (spec_op life) ∅ os ∧
  answers store_op pg os = answers (spec_op life) ∅ os.
Proof.
  intros life mem pg Hmax Hrows Hh Hs Henc Hroom.
  destruct os as [|o os]; [done|]. set (now := at_ o).
  assert (StronglySorted Z.le (now :: map at_ (o :: os))) as Hs'.
  { constructor; [done|]. apply StronglySorted_inv in Hs as [_ Hall]. constructor; [done|exact Hall]. }
  assert (int64_min ≤ life < int64_max) as Hlife.
  { unfold life. destruct (ttl_ <=? 0) eqn:Hz; [by vm_compute|]. apply Z.leb_gt in Hz. int64. }
  assert (∀ held, (∀ x, held x = None) → covers life now held ∅) as Hempty.
  { intros held Hn x. rewrite Hn. intros p. by rewrite lookup_empty. }
  split.
  - eapply (simulation at_ Z.le _ _ (mem_sim life)); [intros; by eapply mem_step_sim|done|].
    split_and!; [done|apply Hempty; intros x; apply lookup_empty|done].
  - eapply (simulation at_ Z.le _ _ (pg_sim life)); [intros; by eapply pg_step_sim|done|].
    split_and!; [done| | |done|done].
    + apply Hempty. intros x. unfold decoded. simpl. by rewrite Hrows, lookup_empty.
    + intros x r Hx. simpl in Hx. by rewrite Hrows, lookup_empty in Hx.
Qed.

End postgres.

(** * A sequence of calls *)

Module sample.
Import pgstore.Demo pending.Demo.

#[local] Instance times_laws : TimeJsonLaws.
Proof.
  split. intros t x. simpl. destruct (Z.eqb_spec t (1000 * Second)) as [->|]; [by intros [= <-]|].
  destruct (Z.eqb_spec t (1001 * Second)) as [->|]; [by intros [= <-]|done].
Qed.

Definition calls : list op :=
  [PPut (1000 * Second) "st" demo_login; PPut (1001 * Second) "late" demo_login; PTake (1010 * Second) "st";
   PTake (1011 * Second) "st"; PSweep (2000 * Second); PTake (2000 * Second) "late"].
Definition d0 : Db row :=
  {| rows := ∅; outcomes := []; randoms := map Some ["n1"; "n2"; "n3"; "n4"; "n5"; "n6"]; reported := [] |}.
Definition mem0 : MemoryPendingLoginStore := NewMemoryPendingLoginStore 0 2.
Definition pg0 : PostgresPendingLoginStore := {| db := d0; key := "k"; pg_ttl := DefaultPendingLoginTTL |}.

Lemma pending_stores_refine_one_map_witness :
  answers store_op mem0 calls = answers store_op pg0 calls ∧
  answers store_op pg0 calls = [APut None; APut None; ATake (Some demo_login); ATake None; ASweep; ATake None].
Proof.
  destruct (pending_stores_refine_one_map 0 2 calls d0 "k") as [Hm Hp].
  - vm_compute. reflexivity.
  - reflexivity.
  - split; [reflexivity|]. exists ["n1"; "n2"; "n3"; "n4"; "n5"; "n6"].
    split; [reflexivity|]. split; [repeat constructor|simpl; lia].
  - repeat (constructor; [|vm_compute; repeat (constructor; [discriminate|]); constructor]). constructor.
  - repeat (constructor; [first [exact I|repeat split; by eexists]|]). constructor.
  - vm_compute. repeat (constructor; [discriminate|]). constructor.
  - split; [exact (eq_trans Hm (eq_sym Hp))|vm_compute; reflexivity].
Defined.

(** A return path that holds a byte which is no UTF-8 comes back from memory as it
    was, and from PostgreSQL with U+FFFD in its place. *)
Definition odd : string := "/" +:+ of_bytes [255].
Definition odd_calls : list op :=
  [PPut (1000 * Second) "st" {| Verifier := "v"; Nonce := "n"; ReturnTo := odd; Created := 1000 * Second |};
   PTake (1001 * Second) "st"].
Definition returned (a : answer) : option string := match a with ATake p => ReturnTo <$> p | _ => None end.

Theorem invalid_text_is_replaced :
  returned <$> answers store_op mem0 odd_calls = [None; Some odd] ∧
  returned <$> answers store_op pg0 odd_calls = [None; Some ("/" +:+ of_bytes [239; 191; 189])].
Proof. split; vm_compute; reflexivity. Qed.

End sample.

End pendingspec.
