(* ===== verification/GoFloat.v ===== *)
(** Go's float64 arithmetic where the sources use it: IEEE 754 binary64 from
    the Standard Library's executable specification, conversions from and to
    integers and from decimal literals, and [time.Duration.Seconds]. *)

From S2P Require Import Prelude GoText GoJson.
From Stdlib Require Import Floats.SpecFloat.

Module float64.

Abbreviation t := spec_float (only parsing).
Definition prec : Z := 53.
Definition emax : Z := 1024.

(** [float64(z)]. *)
Definition of_Z (z : Z) : t := binary_normalize prec emax z 0 false.
Definition add (x y : t) : t := SFadd prec emax x y.
Definition div (x y : t) : t := SFdiv prec emax x y.
Definition mul (x y : t) : t := SFmul prec emax x y.
Definition ltb (x y : t) : bool := SFltb x y.
Definition leb (x y : t) : bool := SFleb x y.

(** The integer part of a finite float. *)
Definition trunc (x : t) : Z :=
  match x with
  | S754_finite s m e =>
      let a := if 0 <=? e then Z.shiftl (Zpos m) e else Z.shiftr (Zpos m) (- e) in
      if s then - a else a
  | _ => 0
  end.

(** [math.Ceil], as an integer. *)
Definition ceil (x : t) : Z :=
  match x with
  | S754_finite s m e =>
      if 0 <=? e then (if s then - Z.shiftl (Zpos m) e else Z.shiftl (Zpos m) e)
      else if s then - Z.shiftr (Zpos m) (- e) else - Z.shiftr (- Zpos m) (- e)
  | _ => 0
  end.

Definition zero : t := S754_zero false.
(** [x == 0]. *)
Definition is_zero (x : t) : bool := SFeqb x zero.

(** [Duration.Seconds]. *)
Definition seconds_of (d : Duration) : t :=
  add (of_Z (Z.quot d Second)) (div (of_Z (Z.rem d Second)) (of_Z 1000000000)).

Example seconds_ex : trunc (seconds_of (10 * Minute)) = 600 ∧ trunc (seconds_of (1500 * Millisecond)) = 1 ∧
  ceil (seconds_of (1500 * Millisecond)) = 2 ∧ ceil (seconds_of (2 * Second)) = 2 ∧ ceil zero = 0.
Proof. vm_compute. done. Qed.

(** [strconv.ParseFloat] of a number literal: the nearest float64; [None] when
    it is out of range. *)
Definition of_literal (lit : string) : option t :=
  let '(neg, digits, e) := literal_parts lit in
  match digits with
  | Zpos m =>
      let r := if 0 <=? e then binary_normalize prec emax ((if neg : bool then - digits else digits) * 10 ^ e) 0 false
               else match 10 ^ (- e) with
                    | Zpos d => SFdiv prec emax (S754_finite neg m 0) (S754_finite false d 0)
                    | _ => S754_nan
                    end in
      match r with S754_infinity _ => None | _ => Some r end
  | _ => Some (S754_zero neg)
  end.

(** [x == y] and [x == math.Trunc(x)]. *)
Definition eqb (x y : t) : bool := SFeqb x y.
Definition is_integer (x : t) : bool :=
  match x with
  | S754_finite _ m e => (0 <=? e) || (Zpos m mod 2 ^ (- e) =? 0)
  | S754_nan => false
  | _ => true
  end.

Example of_literal_ex :
  of_literal "1.5" = Some (S754_finite false 6755399441055744 (-52)) ∧ of_literal "1e400" = None ∧
  of_literal "0.1" = Some (S754_finite false 7205759403792794 (-56)) ∧ of_literal "-0" = Some (S754_zero true) ∧
  of_literal "9007199254740993" = of_literal "9007199254740992" ∧ is_integer (of_Z 600) = true.
Proof. vm_compute. repeat split. Qed.

End float64.
