(* ===== verification/Numbers.v ===== *)
(** Integers as decimal text and as float64: [strconv.Itoa] writes a JSON number,
    reads back as the integer, and below 2^53 the float64 that is read is the
    integer itself, in its order. *)

From S2P Require Import Prelude GoText Utf8 GoJson JsonRoundtrip GoFloat.
From Stdlib Require Import Floats.SpecFloat.

Module numbers.

(** ** Integers are JSON numbers *)

Definition digits (s : string) : Prop := all_bytes (λ b, (48 <=? b) && (b <=? 57)) s = true.

Lemma is_digit_spec c : is_digit c = ((48 <=? byte_of c) && (byte_of c <=? 57)).
Proof. unfold is_digit, digit_val. destruct (_ && _); [apply bool_decide_eq_true; eauto|].
  apply bool_decide_eq_false. by intros []. Qed.

Lemma span_all_digits s : digits s → span_digits s = (s, "").
Proof.
  unfold digits. induction s as [|c s IH]; [done|]. cbn [all_bytes span_digits]. rewrite is_digit_spec.
  intros [Hc Hs]%andb_true_iff. by rewrite Hc, (IH Hs).
Qed.

Lemma digits_of_spec fuel n acc :
  0 < n < 10 ^ Z.of_nat fuel → digits acc →
  ∃ c w, digits_of fuel n acc = String c w ∧ 49 ≤ byte_of c ≤ 57 ∧ digits w.
Proof.
  revert n acc. induction fuel as [|fuel IH]; intros n acc Hn Hacc; [simpl in Hn; lia|].
  cbn [digits_of]. pose proof (Z.mod_pos_bound n 10 ltac:(lia)).
  pose proof (Z.div_mod n 10 ltac:(lia)). pose proof (Z.div_pos n 10 ltac:(lia) ltac:(lia)).
  destruct (Z.eqb_spec (n / 10) 0) as [Hz|Hz].
  - eexists _, _. split; [done|]. rewrite byte_of_of_byte by lia. split; [lia|done].
  - apply IH.
    + split; [lia|]. rewrite Nat2Z.inj_succ, Z.pow_succ_r in Hn by lia. apply Z.div_lt_upper_bound; lia.
    + unfold digits. cbn [all_bytes]. rewrite byte_of_of_byte by lia. eval_tests. exact Hacc.
Qed.

Lemma itoa_number z : in_int64 z → number_literal (itoa z).
Proof.
  intros Hz. unfold number_literal, itoa.
  assert (∀ n, 0 < n ≤ 2 ^ 63 → lex_int (digits_of 20 n "") = Some (digits_of 20 n "", "")) as Hint.
  { intros n Hn. destruct (digits_of_spec 20 n "") as (c & w & -> & Hc & Hw); [|done|].
    - change (Z.of_nat 20) with 20. lia.
    - unfold lex_int. rewrite (proj2 (Z.eqb_neq _ 48)) by lia.
      rewrite span_all_digits; [done|]. unfold digits. cbn [all_bytes]. by eval_tests. }
  unfold in_int64, int64_min, int64_max in Hz.
  destruct (Z.ltb_spec z 0) as [Hneg|Hpos].
  - specialize (Hint (- z) ltac:(lia)). revert Hint. generalize (digits_of 20 (- z) ""). intros d Hd.
    unfold lex_number. change (byte_of "-" =? 45) with true. cbv iota.
    rewrite Hd. simpl. by rewrite !append_nil_r.
  - destruct (decide (z = 0)) as [->|Hne]; [reflexivity|].
    destruct (digits_of_spec 20 z "") as (c & w & Hd & Hc & Hw); [|done|].
    { change (Z.of_nat 20) with 20. lia. }
    specialize (Hint z ltac:(lia)). revert Hint. rewrite Hd. intros Hint. unfold lex_number. rewrite (proj2 (Z.eqb_neq _ 45)) by lia. rewrite Hint. simpl.
    by rewrite append_nil, !append_nil_r.
Qed.

(** ** The text reads back *)

Lemma digit_val_digit d : 0 ≤ d < 10 → digit_val (of_byte (48 + d)) = Some d.
Proof. intros Hd. unfold digit_val. rewrite byte_of_of_byte by lia. eval_tests. f_equal. lia. Qed.

Lemma digits_of_val fuel n acc :
  0 ≤ n < 10 ^ Z.of_nat fuel → digits_val 0 (digits_of fuel n acc) = digits_val n acc.
Proof.
  revert n acc. induction fuel as [|fuel IH]; intros n acc Hn.
  { simpl in Hn. by assert (n = 0) as -> by lia. }
  cbn [digits_of]. pose proof (Z.mod_pos_bound n 10 ltac:(lia)). pose proof (Z.div_mod n 10 ltac:(lia)).
  pose proof (Z.div_pos n 10 ltac:(lia) ltac:(lia)).
  assert (∀ m, m * 10 + n mod 10 = n → digits_val m (String (of_byte (48 + n mod 10)) acc) = digits_val n acc) as Hd.
  { intros m Hm. cbn [digits_val]. rewrite digit_val_digit by lia. by rewrite Hm. }
  destruct (Z.eqb_spec (n / 10) 0); [apply Hd; lia|]. rewrite IH; [apply Hd; lia|].
  split; [lia|]. rewrite Nat2Z.inj_succ, Z.pow_succ_r in Hn by lia. apply Z.div_lt_upper_bound; lia.
Qed.

Lemma split_exp_digits s : digits s → split_exp s = (s, "").
Proof.
  unfold digits. induction s as [|c s IH]; [done|]. cbn [all_bytes split_exp].
  intros [[H1 H2]%andb_true_iff Hs]%andb_true_iff. rewrite (IH Hs). eval_tests. done.
Qed.

Lemma str_cut_digits s : digits s → str_cut "." s = None.
Proof.
  unfold digits. induction s as [|c s IH]; [done|]. cbn [all_bytes str_cut].
  intros [[H1 H2]%andb_true_iff Hs]%andb_true_iff. rewrite (IH Hs).
  destruct (Ascii.eqb_spec c "."); [by subst|done].
Qed.

Lemma literal_parts_itoa z : 0 < z < 2 ^ 63 → literal_parts (itoa z) = (false, z, 0).
Proof.
  intros Hz. unfold itoa. rewrite (proj2 (Z.ltb_ge z 0)) by lia.
  pose proof (digits_of_val 20 z "" ltac:(change (Z.of_nat 20) with 20; lia)) as Hv.
  destruct (digits_of_spec 20 z "") as (c & w & Hd & Hc & Hw); [change (Z.of_nat 20) with 20; lia|done|].
  rewrite Hd in *. unfold literal_parts. rewrite (proj2 (Z.eqb_neq _ 45)) by lia.
  assert (digits (String c w)) as Hdig by (unfold digits; cbn [all_bytes]; by eval_tests).
  rewrite split_exp_digits by done. unfold literal_digits. rewrite str_cut_digits by done. by rewrite Hv.
Qed.

(** [strconv.Atoi] reads what [strconv.Itoa] writes. *)
Lemma int_literal_itoa z : 0 < z < 2 ^ 63 → int_literal (itoa z) = Some z.
Proof.
  intros Hz. unfold itoa. rewrite (proj2 (Z.ltb_ge z 0)) by lia.
  pose proof (digits_of_val 20 z "" ltac:(change (Z.of_nat 20) with 20; lia)) as Hv.
  destruct (digits_of_spec 20 z "") as (c & w & Hd & Hc & Hw); [change (Z.of_nat 20) with 20; lia|done|].
  rewrite Hd in *. unfold int_literal, atoi. destruct (Ascii.eqb_spec c "-") as [->|]; [by vm_compute in Hc|].
  destruct (Ascii.eqb_spec c "+") as [->|]; [by vm_compute in Hc|]. rewrite Hv. cbn [digits_val].
  rewrite bool_decide_eq_true_2 by int64. simpl. f_equal. unfold sat64. int64.
Qed.

(** ** Integers below 2^53 are exact *)

Lemma digits2_log2 m : Zpos (digits2_pos m) = Z.log2 (Zpos m) + 1.
Proof.
  induction m as [m IH|m IH|]; [| |done]; cbn [digits2_pos]; rewrite Pos2Z.inj_succ, IH.
  - rewrite (Pos2Z.inj_xI m), Z.log2_succ_double by lia. lia.
  - rewrite (Pos2Z.inj_xO m), Z.log2_double by lia. lia.
Qed.

Lemma iter_xO m k : Zpos (Pos.iter xO m k) = Zpos m * 2 ^ Zpos k.
Proof.
  induction k as [|k IH] using Pos.peano_ind; [simpl; lia|].
  rewrite Pos.iter_succ, Pos2Z.inj_succ, Z.pow_succ_r by lia. rewrite Pos2Z.inj_xO, IH. ring.
Qed.

(** The mantissa and exponent of an integer. *)
Lemma of_Z_exact z :
  0 < z < 2 ^ 53 → ∃ m, float64.of_Z z = S754_finite false m (Z.log2 z - 52) ∧ Zpos m = z * 2 ^ (52 - Z.log2 z).
Proof.
  intros Hz. destruct z as [|p|]; [lia| |lia].
  assert (0 ≤ Z.log2 (Zpos p) ≤ 52) as Hl.
  { split; [apply Z.log2_nonneg|]. assert (Z.log2 (Zpos p) < 53); [apply Z.log2_lt_pow2; lia|lia]. }
  assert (∀ m, Zpos m = Zpos p * 2 ^ (52 - Z.log2 (Zpos p)) →
    binary_round_aux float64.prec float64.emax false (Zpos m) (Z.log2 (Zpos p) - 52) loc_Exact =
    S754_finite false m (Z.log2 (Zpos p) - 52)) as Haux.
  { intros m Hm. assert (∀ l, shr_fexp float64.prec float64.emax (Zpos m) (Z.log2 (Zpos p) - 52) l =
      (shr_record_of_loc (Zpos m) l, Z.log2 (Zpos p) - 52)) as Hshr.
    { intros l. unfold shr_fexp. cbn [Zdigits2]. rewrite digits2_log2, Hm, Z.log2_mul_pow2 by lia.
      unfold fexp, emin, float64.prec, float64.emax. by replace (Z.max _ _ - _) with 0 by lia. }
    unfold binary_round_aux. rewrite Hshr. cbn [shr_record_of_loc shr_m loc_of_shr_record round_nearest_even].
    rewrite Hshr. cbn [shr_record_of_loc shr_m]. unfold float64.prec, float64.emax.
    by rewrite (proj2 (Z.leb_le _ _)) by lia. }
  unfold float64.of_Z, binary_normalize, binary_round. rewrite digits2_log2, Z.add_0_r.
  assert (fexp float64.prec float64.emax (Z.log2 (Zpos p) + 1) = Z.log2 (Zpos p) - 52) as ->.
  { unfold fexp, emin, float64.prec, float64.emax. lia. }
  unfold shl_align. rewrite Z.sub_0_r. destruct (Z.log2 (Zpos p) - 52) as [|k|k] eqn:Hk; [|lia|].
  - exists p. assert (Zpos p = Zpos p * 2 ^ (52 - Z.log2 (Zpos p))) as Hp.
    { replace (52 - Z.log2 (Zpos p)) with 0 by lia. lia. }
    split; [|done]. by apply (Haux p).
  - exists (Pos.iter xO p k). assert (Zpos (Pos.iter xO p k) = Zpos p * 2 ^ (52 - Z.log2 (Zpos p))) as Hp.
    { rewrite iter_xO. do 2 f_equal. lia. }
    split; [|done]. by apply Haux.
Qed.

Lemma of_literal_itoa z : 0 < z < 2 ^ 53 → float64.of_literal (itoa z) = Some (float64.of_Z z).
Proof.
  intros Hz. unfold float64.of_literal. rewrite literal_parts_itoa by lia. destruct z as [|p|]; [lia| |lia].
  change (0 <=? 0) with true. cbv iota. rewrite Z.pow_0_r, Z.mul_1_r.
  change (binary_normalize float64.prec float64.emax (Zpos p) 0 false) with (float64.of_Z (Zpos p)).
  by destruct (of_Z_exact (Zpos p) Hz) as (m & -> & _).
Qed.

Lemma compare_of_Z x y :
  0 < x < 2 ^ 53 → 0 < y < 2 ^ 53 → SFcompare (float64.of_Z x) (float64.of_Z y) = Some (x ?= y).
Proof.
  intros Hx Hy. destruct (of_Z_exact x Hx) as (m & -> & Hm), (of_Z_exact y Hy) as (n & -> & Hn). cbn [SFcompare]. f_equal.
  destruct (Z.compare_spec (Z.log2 x - 52) (Z.log2 y - 52)) as [He|He|He].
  - assert (Z.log2 x = Z.log2 y) as Hl by lia. change (Pos.compare_cont Eq m n) with (Zpos m ?= Zpos n).
    rewrite Hm, Hn, Hl. symmetry. apply Zcompare.Zmult_compare_compat_r.
    assert (0 < 2 ^ (52 - Z.log2 y)); [apply Z.pow_pos_nonneg; [lia|]|lia].
    assert (Z.log2 y < 53); [apply Z.log2_lt_pow2; lia|lia].
  - symmetry. apply Z.compare_lt_iff. apply Z.log2_lt_cancel. lia.
  - symmetry. apply Z.compare_gt_iff. apply Z.log2_lt_cancel. lia.
Qed.

Lemma is_integer_of_Z z : 0 < z < 2 ^ 53 → float64.is_integer (float64.of_Z z) = true.
Proof.
  intros Hz. destruct (of_Z_exact z Hz) as (m & -> & Hm). cbn [float64.is_integer].
  destruct (Z.leb_spec 0 (Z.log2 z - 52)); [done|]. simpl orb. rewrite Hm.
  replace (- (Z.log2 z - 52)) with (52 - Z.log2 z) by lia. by rewrite Z.mod_mul by (apply Z.pow_nonzero; lia).
Qed.

End numbers.
