(* ===== verification/BffMisc.v ===== *)
(** The small parts of package [bff]: random tokens and PKCE (crypto.go), the
    session cookie (cookie.go), the login binding (loginbinding.go), the
    validation of return targets (redirect.go) and client attribution
    (attribution.go). *)

From S2P Require Import Prelude GoText GoFloat CtxUtil Http Session PendingLogin.

Module bff.
Import session.

(** * crypto.go *)

(** [bff/crypto.go: RandomToken]
    [csprng n] is what the system's generator gives for [n] bytes. *)
Definition RandomToken (csprng : Z → string) (nBytes : Z) : string :=
  let nBytes := if nBytes <=? 0 then 32 else nBytes in
  b64_encode (csprng nBytes).

(** [bff/crypto.go: PKCE] *)
Record PKCE := { Verifier : string; Challenge : string }.

(** SHA-256. *)
Class Sha256 := { sha256 : string → string }.

(** [bff/crypto.go: S256Challenge] *)
Definition S256Challenge `{Sha256} (verifier : string) : string := b64_encode (sha256 verifier).

(** [bff/crypto.go: NewPKCE] *)
Definition NewPKCE `{Sha256} (csprng : Z → string) : PKCE :=
  let v := RandomToken csprng 32 in {| Verifier := v; Challenge := S256Challenge v |}.

(** * cookie.go *)

(** [bff/cookie.go: CookieConfig] *)
Record CookieConfig := { cc_Name : string; cc_Secure : bool; cc_MaxAge : Z }.

(** [bff/cookie.go: CookieConfig.CookieName] *)
Definition CookieName (c : CookieConfig) : string :=
  if cc_Secure c then "__Host-" +:+ cc_Name c else cc_Name c.

(** [bff/cookie.go: CookieConfig.SetSession] *)
Definition SetSession (c : CookieConfig) (w : ResponseWriter) (value : string) : ResponseWriter :=
  SetCookie w {| ck_Name := CookieName c; ck_Value := value; ck_Path := "/"; ck_HttpOnly := true;
                 ck_Secure := cc_Secure c; ck_SameSite := SameSiteStrict; ck_MaxAge := cc_MaxAge c |}.

(** [bff/cookie.go: CookieConfig.ClearSession] *)
Definition ClearSession (c : CookieConfig) (w : ResponseWriter) : ResponseWriter :=
  SetCookie w {| ck_Name := CookieName c; ck_Value := ""; ck_Path := "/"; ck_HttpOnly := true;
                 ck_Secure := cc_Secure c; ck_SameSite := SameSiteStrict; ck_MaxAge := -1 |}.

(** [bff/cookie.go: CookieConfig.SessionID] *)
Definition SessionID (c : CookieConfig) (r : Request) : option string :=
  match request_Cookie r (CookieName c) with
  | None => None
  | Some v => if String.eqb v "" then None else Some v
  end.

(** * loginbinding.go *)

(** [bff/loginbinding.go: LoginBinding] *)
Record LoginBinding := { lb_Cookie : CookieConfig; lb_TTL : Duration }.

(** [bff/loginbinding.go: LoginBinding.ttl] *)
Definition lb_ttl (b : LoginBinding) : Duration :=
  if 0 <? lb_TTL b then lb_TTL b else pending.DefaultLoginBindingTTL.

(** [bff/loginbinding.go: LoginBinding.Begin] *)
Definition Begin (csprng : Z → string) (b : LoginBinding) (w : ResponseWriter) : string * ResponseWriter :=
  let nonce := RandomToken csprng 32 in
  (nonce,
   SetCookie w {| ck_Name := CookieName (lb_Cookie b); ck_Value := nonce; ck_Path := "/";
                  ck_HttpOnly := true; ck_Secure := cc_Secure (lb_Cookie b);
                  ck_SameSite := SameSiteLax;
                  ck_MaxAge := float64.trunc (float64.seconds_of (lb_ttl b)) |}).

(** [bff/loginbinding.go: LoginBinding.clear] *)
Definition lb_clear (b : LoginBinding) (w : ResponseWriter) : ResponseWriter :=
  SetCookie w {| ck_Name := CookieName (lb_Cookie b); ck_Value := ""; ck_Path := "/";
                 ck_HttpOnly := true; ck_Secure := cc_Secure (lb_Cookie b);
                 ck_SameSite := SameSiteLax; ck_MaxAge := -1 |}.

(** [bff/loginbinding.go: LoginBinding.Verify] *)
Definition Verify (b : LoginBinding) (w : ResponseWriter) (r : Request) (want : string)
  : bool * ResponseWriter :=
  let w := lb_clear b w in
  match request_Cookie r (CookieName (lb_Cookie b)) with
  | None => (false, w)
  | Some v => if String.eqb v "" || String.eqb want "" then (false, w)
              else (ConstantTimeEqual v want, w)
  end.

(** * redirect.go *)

Definition is_hex (c : ascii) : bool :=
  let b := byte_of c in
  ((48 <=? b) && (b <=? 57)) || ((97 <=? b) && (b <=? 102)) || ((65 <=? b) && (b <=? 70)).

(** Every percent sign is followed by two hexadecimal digits. *)
Fixpoint escapes_valid (s : string) : bool :=
  match s with
  | EmptyString => true
  | String c s' =>
      if byte_of c =? 37 then
        match s' with
        | String h (String l s'') => is_hex h && is_hex l && escapes_valid s''
        | _ => false
        end
      else escapes_valid s'
  end.

(** [url.Parse] of a value that starts with a slash but not with two, and holds
    no control byte: no scheme and no authority is read, and the path and the
    fragment are unescaped, which fails on a malformed escape. The result is
    the scheme and the host. *)
Definition url_Parse_rooted (p : string) : option (string * string) :=
  let '(rest, fragment) := match str_cut "#" p with Some x => x | None => (p, "") end in
  let path := match str_cut "?" rest with Some (x, _) => x | None => rest end in
  if escapes_valid path && escapes_valid fragment then Some ("", "") else None.

Definition backslash : string := of_bytes [92].

(** [bff/redirect.go: SanitizeReturnTo] *)
Definition SanitizeReturnTo (p : string) : string :=
  match p with
  | EmptyString => "/"
  | String c _ =>
      if negb (byte_of c =? 47) then "/"
      else if has_prefix p "//" || has_prefix p ("/" +:+ backslash) || contains_byte 92 p then "/"
      else if existsb (λ r, (r_val r <? 32) || (r_val r =? 127)) (runes p) then "/"
      else match url_Parse_rooted p with
           | None => "/"
           | Some (scheme, host) =>
               if negb (String.eqb scheme "") || negb (String.eqb host "") then "/" else p
           end
  end.

(** * attribution.go *)

(** [bff/attribution.go: WithClientAttribution] *)
Definition WithClientAttribution (r : Request) (clientIP : string) : Request :=
  with_ctx r (ctxutil.WithValue (req_ctx r) ctxutil.clientAttributionKey
    (ctxutil.VAttribution {| ca_IP := clientIP; ca_UserAgent := header_Get (req_Header r) "User-Agent" |})).

(** * Lemmas *)

Lemma runes_ascii s b : b ∈ bytes s → b < 128 → Exists (λ r, r_val r = b) (runes s).
Proof.
  assert (∀ n s, (String.length s ≤ n)%nat → ∀ b, b ∈ bytes s → b < 128 →
    Exists (λ r, r_val r = b) (runes s)) as H; [|eauto].
  clear s b. intros n. induction n as [|n IH]; intros [|c0 s1] Hs b Hb Hlt; simpl in Hs;
    try (by apply elem_of_nil in Hb); [lia|].
  assert (∀ k, 128 ≤ byte_of k → b ≠ byte_of k) as Hne by lia.
  assert (128 ≤ byte_of c0 → Exists (λ r, r_val r = b) (Rune rune_error (String c0 "") :: runes s1)) as Hinv.
  { intros Hc. apply Exists_cons. right. apply IH; [lia| |done].
    apply elem_of_cons in Hb as [->|Hb]; [by apply Hne in Hc|done]. }
  cbn [runes]. cbv zeta. cbn [bytes] in Hb.
  unfold lead2, lead3, lead4, second3, second4, cont in *.
  destruct (byte_of c0 <? 128) eqn:Hc0.
  { apply Exists_cons. apply elem_of_cons in Hb as [->|Hb]; [by left|]. right. apply IH; [lia|done..]. }
  apply Z.ltb_ge in Hc0. destruct s1 as [|c1 s2]; [by apply Hinv|].
  simpl in Hs.
  destruct (_ && _) eqn:H2.
  { bool_to_prop. cbn [bytes] in Hb. apply Exists_cons. right.
    apply IH; [lia| |done]. set_solver by lia. }
  clear H2. destruct s2 as [|c2 s3]; [by apply Hinv|]. simpl in Hs.
  destruct (_ && _ && _) eqn:H3.
  { apply andb_true_iff in H3 as [H3 H3c]. bool_to_prop. apply Exists_cons. right.
    assert (128 ≤ byte_of c1) by (repeat case_match; bool_to_prop; lia).
    cbn [bytes] in Hb. apply IH; [lia| |done]. set_solver by lia. }
  clear H3. destruct s3 as [|c3 s4]; [by apply Hinv|]. simpl in Hs.
  destruct (_ && _ && _ && _) eqn:H4; [|by apply Hinv].
  apply andb_true_iff in H4 as [H4 H4c]. apply andb_true_iff in H4 as [H4 H4b]. bool_to_prop.
  apply Exists_cons. right.
  assert (128 ≤ byte_of c1) by (repeat case_match; bool_to_prop; lia).
  cbn [bytes] in Hb. apply IH; [lia| |done]. set_solver by lia.
Qed.

Lemma contains_byte_false b s : contains_byte b s = false ↔ b ∉ bytes s.
Proof.
  unfold contains_byte. rewrite negb_false_iff, all_bytes_spec, Forall_forall.
  split; [intros H Hb; specialize (H b Hb); by rewrite Z.eqb_refl in H|].
  intros H x Hx. apply negb_true_iff, Z.eqb_neq. by intros ->.
Qed.

Lemma b64_val_char v : 0 ≤ v < 64 →
  b64_val (b64_char v) = Some v ∧ byte_of (b64_char v) ≠ 10 ∧ byte_of (b64_char v) ≠ 13.
Proof.
  intros Hv. assert (∃ n, v = Z.of_nat n ∧ (n < 64)%nat) as (n & -> & Hn).
  { exists (Z.to_nat v). lia. }
  do 64 (destruct n as [|n]; [by vm_compute|]). lia.
Qed.

Lemma b64_vals_chars vs :
  Forall (λ v, 0 ≤ v < 64) vs →
  b64_vals (fold_right (λ v acc, String (b64_char v) acc) "" vs) = Some vs.
Proof.
  induction 1 as [|v vs Hv Hvs IH]; [done|]. simpl.
  destruct (b64_val_char v Hv) as (Hval & H10 & H13).
  rewrite (proj2 (Z.eqb_neq _ _) H10), (proj2 (Z.eqb_neq _ _) H13), Hval, IH. done.
Qed.

(** Three bytes at a time. *)
Lemma triple_ind (P : list Z → Prop) :
  P [] → (∀ a, P [a]) → (∀ a b, P [a; b]) → (∀ a b c l, P l → P (a :: b :: c :: l)) → ∀ l, P l.
Proof.
  intros H0 H1 H2 H3 l. assert (P l ∧ (∀ a, P (a :: l)) ∧ (∀ a b, P (a :: b :: l))) as [? _]; [|done].
  induction l as [|x l (IH1 & IH2 & IH3)]; eauto.
Qed.

Ltac Zify.zify_post_hook ::= Z.to_euclidean_division_equations.

Lemma b64_encode_range l : Forall (λ b, 0 ≤ b < 256) l → Forall (λ v, 0 ≤ v < 64) (b64_encode_bytes l).
Proof.
  induction l as [|a|a b|a b c l IH] using triple_ind; intros Hl; simpl;
    repeat match goal with H : Forall _ (_ :: _) |- _ => apply Forall_cons in H as [? ?] end;
    repeat (apply Forall_cons; split; [lia|]); auto.
Qed.

Lemma b64_group_encode l :
  Forall (λ b, 0 ≤ b < 256) l → b64_group (b64_encode_bytes l) = Some l.
Proof.
  induction l as [|a|a b|a b c l IH] using triple_ind; intros Hl; simpl;
    repeat match goal with H : Forall _ (_ :: _) |- _ => apply Forall_cons in H as [? ?] end.
  - done.
  - do 2 f_equal. lia.
  - do 2 f_equal; [lia|]. f_equal. lia.
  - rewrite IH by done. do 2 f_equal; [lia|]. f_equal; [lia|]. f_equal. lia.
Qed.

Ltac Zify.zify_post_hook ::= idtac.

Lemma b64_roundtrip s : b64_decode (b64_encode s) = Some s.
Proof.
  unfold b64_decode, b64_decode_bytes, b64_encode. pose proof (bytes_range s) as Hs.
  rewrite b64_vals_chars by (by apply b64_encode_range). simpl.
  rewrite b64_group_encode by done. simpl. by rewrite of_bytes_bytes.
Qed.

(** A random token loses none of the entropy drawn for it: it decodes to
    exactly the bytes of the generator, so distinct draws give distinct session
    ids, CSRF secrets and verifiers; a non-positive size falls back to 32 bytes. *)
Theorem RandomToken_keeps_entropy (csprng csprng' : Z → string) (n : Z) :
  b64_decode (RandomToken csprng n) = Some (csprng (if n <=? 0 then 32 else n)) ∧
  (RandomToken csprng n = RandomToken csprng' n →
   csprng (if n <=? 0 then 32 else n) = csprng' (if n <=? 0 then 32 else n)).
Proof.
  unfold RandomToken. split; [apply b64_roundtrip|]. intros Heq.
  apply (f_equal b64_decode) in Heq. rewrite !b64_roundtrip in Heq. by injection Heq.
Qed.

Lemma RandomToken_keeps_entropy_witness :
  let g (n : Z) := "0123456789" in
  b64_decode (RandomToken g 10) = Some "0123456789" ∧
  (RandomToken g 10 = RandomToken g 10 → "0123456789" = "0123456789").
Proof. exact (RandomToken_keeps_entropy (λ _, "0123456789") (λ _, "0123456789") 10). Defined.

(** ** Return targets *)

(** What a browser makes of a redirect target: tabs and newlines are dropped
    and a backslash is a slash. *)
Definition browser_sees (s : string) : list Z :=
  (λ b, if b =? 92 then 47 else b) <$> filter (λ b, b ≠ 9 ∧ b ≠ 10 ∧ b ≠ 13) (bytes s).

(** The target stays on the origin: it is a path, not the start of an
    authority. *)
Definition same_origin (s : string) : bool :=
  match browser_sees s with
  | 47 :: 47 :: _ => false
  | 47 :: _ => true
  | _ => false
  end.

(** What [SanitizeReturnTo] lets through. *)
Definition acceptable (p : string) : Prop :=
  (∃ rest, p = String "/" rest ∧ match rest with String c _ => byte_of c ≠ 47 | EmptyString => True end) ∧
  92 ∉ bytes p ∧ Forall (λ b, 32 ≤ b ∧ b ≠ 127) (bytes p) ∧ is_Some (url_Parse_rooted p).

Lemma no_control_bytes p :
  existsb (λ r, (r_val r <? 32) || (r_val r =? 127)) (runes p) = false →
  Forall (λ b, 32 ≤ b ∧ b ≠ 127) (bytes p).
Proof.
  intros Hn. apply Forall_forall. intros b Hb. destruct (decide (b < 32 ∨ b = 127)) as [Hbad|]; [|lia].
  pose proof (runes_ascii p b Hb ltac:(lia)) as Hex. exfalso. revert Hn.
  apply not_false_iff_true, existsb_exists. apply Exists_exists in Hex as (r & Hr & <-).
  exists r. split; [by apply list_elem_of_In|]. apply orb_true_iff.
  destruct Hbad; [left; by apply Z.ltb_lt|right; by apply Z.eqb_eq].
Qed.

Lemma SanitizeReturnTo_cases p : SanitizeReturnTo p = "/" ∨ SanitizeReturnTo p = p ∧ acceptable p.
Proof.
  destruct p as [|c rest]; [by left|]. unfold SanitizeReturnTo.
  destruct (byte_of c =? 47) eqn:Hc; simpl negb; cbv iota; [|by left].
  destruct (_ || _ || _) eqn:Hpre; [by left|]. destruct existsb eqn:Hctl; [by left|].
  destruct url_Parse_rooted as [[scheme host]|] eqn:Hu; [|by left].
  destruct (negb _ || negb _); [by left|]. right. split; [done|].
  apply orb_false_iff in Hpre as [Hpre Hbs%contains_byte_false].
  apply orb_false_iff in Hpre as [Hss _]. apply Z.eqb_eq in Hc.
  assert (c = "/"%char) as -> by (apply byte_of_inj; by rewrite Hc).
  split_and!; [|done|by apply no_control_bytes|by rewrite Hu].
  exists rest. split; [done|]. destruct rest as [|d rest]; [done|]. intros Hd.
  assert (d = "/"%char) as -> by (apply byte_of_inj; by rewrite Hd). by destruct rest.
Qed.

Lemma acceptable_root : acceptable "/".
Proof.
  split_and!; [by exists ""|set_solver by lia| |by eexists].
  repeat constructor; vm_compute; done.
Qed.

Lemma acceptable_same_origin p : acceptable p → same_origin p = true.
Proof.
  intros ((rest & -> & Hrest) & Hbs & Hctl & _). unfold same_origin, browser_sees.
  cbn [bytes] in *. rewrite filter_cons_True by (vm_compute; done).
  destruct rest as [|c rest]; [done|]. cbn [bytes] in *.
  apply Forall_cons in Hctl as [_ Hctl]. apply Forall_cons in Hctl as [Hc _].
  rewrite filter_cons_True by lia. rewrite !fmap_cons.
  change (byte_of "/") with 47. simpl (if 47 =? 92 then 47 else 47).
  assert (byte_of c ≠ 92) as Hne by set_solver. rewrite (proj2 (Z.eqb_neq _ _) Hne).
  destruct (byte_of c) as [|b|b]; [done| |done].
  repeat (destruct b as [b|b|]; try done).
Qed.

(** C40: whatever a client supplies as the return target, the result keeps the
    browser on the origin, even after it drops tabs and newlines and folds
    backslashes into slashes; it holds no control byte, and validating twice
    changes nothing. *)
Theorem SanitizeReturnTo_safe (p : string) :
  same_origin (SanitizeReturnTo p) = true ∧
  Forall (λ b, 32 ≤ b ∧ b ≠ 127 ∧ b ≠ 92) (bytes (SanitizeReturnTo p)) ∧
  SanitizeReturnTo (SanitizeReturnTo p) = SanitizeReturnTo p.
Proof.
  assert (acceptable (SanitizeReturnTo p)) as Ha.
  { destruct (SanitizeReturnTo_cases p) as [->|[-> ?]]; [apply acceptable_root|done]. }
  split_and!; [by apply acceptable_same_origin| |].
  - destruct Ha as (_ & Hbs & Hctl & _). eapply Forall_impl; [|intros b H; exact H].
    apply Forall_forall. intros b Hb. rewrite Forall_forall in Hctl.
    specialize (Hctl b Hb). split_and!; [lia|lia|]. by intros ->.
  - destruct (SanitizeReturnTo_cases p) as [He|[He _]]; rewrite He; done.
Qed.

Example sanitize_ex :
  SanitizeReturnTo "/app?x=1#frag" = "/app?x=1#frag" ∧ SanitizeReturnTo "//evil.com" = "/" ∧
  SanitizeReturnTo ("/" +:+ backslash +:+ "evil.com") = "/" ∧ SanitizeReturnTo "/%zz" = "/" ∧
  SanitizeReturnTo "https://evil.com" = "/".
Proof. vm_compute. done. Qed.

(** ** Login binding *)

(** A login is completed only by the browser that started it: the binding
    is accepted exactly when the browser presents a non-empty cookie equal to
    the nonce stored with the pending login, and, whatever the answer, the
    cookie is cleared on the response. *)
Theorem Verify_spec (b : LoginBinding) (w : ResponseWriter) (r : Request) (want : string) :
  ((Verify b w r want).1 = true ↔
    want ≠ "" ∧ request_Cookie r (CookieName (lb_Cookie b)) = Some want) ∧
  (Verify b w r want).2 = lb_clear b w.
Proof.
  unfold Verify, ConstantTimeEqual. destruct request_Cookie as [v|]; [|naive_solver].
  destruct (String.eqb_spec v ""), (String.eqb_spec want ""); simpl; [naive_solver..|].
  destruct (String.eqb_spec v want); naive_solver.
Qed.

End bff.
