(* ===== verification/Gateway.v ===== *)
(** The session-to-bearer gateway of package [bff] (src/bff/gateway.go), proved
    against the session-store interface: the fail-closed proxy, the CSRF check,
    token refresh with its error policy, and the coalescing of concurrent
    refreshes as a step relation. *)

From S2P Require Import Prelude GoText CtxUtil Http SocrateToken Session SessionStore PostgresStore PendingLogin BffMisc.

Module gateway.
Import session store bff.

(** [bff/gateway.go: DefaultCSRFHeader] *)
Definition DefaultCSRFHeader : string := "X-CSRF-Token".
(** [bff/gateway.go: DefaultRefreshLeeway] *)
Definition DefaultRefreshLeeway : Duration := 30 * Second.
(** [bff/gateway.go:34-34] DefaultRefreshTimeout *)
Definition DefaultRefreshTimeout : Duration := 10 * Second.
(** [bff/gateway.go: DefaultTouchInterval] *)
Definition DefaultTouchInterval : Duration := Minute.

(** [bff/gateway.go: Gateway]
    The store and the refresher are passed to the operations. *)
Record Gateway := {
  Cookie_ : CookieConfig;
  DisableAuth : bool;
  AllowPassthrough : bool;
  CSRFHeader : string;
  RefreshLeeway : Duration;
  TouchInterval : Duration;
  RefreshTimeout : Duration;
}.

(** [bff/gateway.go: Gateway.csrfHeader] *)
Definition csrfHeader (g : Gateway) : string :=
  if negb (String.eqb (CSRFHeader g) "") then CSRFHeader g else DefaultCSRFHeader.

(** [bff/gateway.go: Gateway.refreshLeeway] *)
Definition refreshLeeway (g : Gateway) : Duration :=
  if 0 <? RefreshLeeway g then RefreshLeeway g else DefaultRefreshLeeway.

(** [bff/gateway.go: Gateway.refreshTimeout]
    The deadline of the context a refresh runs under. *)
Definition refreshTimeout (g : Gateway) : Duration :=
  if 0 <? RefreshTimeout g then RefreshTimeout g else DefaultRefreshTimeout.

(** [bff/gateway.go: Gateway.touchInterval] *)
Definition touchInterval (g : Gateway) : Duration :=
  if negb (TouchInterval g =? 0) then TouchInterval g else DefaultTouchInterval.

(** [bff/gateway.go: TokenRefresher]
    The answer to a refresh token; a nil token set is possible without error. *)
Definition TokenRefresher := string → result socrate.goerr (option socrate.TokenSet).

(** The clock readings of one request, in order: in [Store.Get], on entering
    [EnsureFresh], at its re-check, when the tokens are set, when a session is
    deleted, and when it is touched. *)
Record Clock := {
  at_get : Time; at_enter : Time; at_recheck : Time; at_set : Time; at_delete : Time; at_touch : Time;
}.

(** [bff/gateway.go: IsFatalRefreshError] *)
Definition IsFatalRefreshError (err : socrate.goerr) : bool :=
  match socrate.errors_As_OAuth err with
  | None => false
  | Some oe =>
      contains ["invalid_grant"; "invalid_client"; "unauthorized_client"; "invalid_scope"]
        (socrate.oe_Code oe)
  end.

(** [bff/gateway.go: IsUnsafeMethod] *)
Definition IsUnsafeMethod (method : string) : bool :=
  contains ["POST"; "PUT"; "PATCH"; "DELETE"] method.

(** [bff/gateway.go: Gateway.CheckCSRF] *)
Definition CheckCSRF (g : Gateway) (r : Request) (s : Session) : bool :=
  if negb (IsUnsafeMethod (req_Method r)) then true
  else MatchCSRF s (header_Get (req_Header r) (csrfHeader g)).

Section operations.
Context {St : Type} `{SessionStore St}.

(** [bff/gateway.go: Gateway.SessionFromRequest] *)
Definition SessionFromRequest (g : Gateway) (now : Time) (h : heap) (st : St) (r : Request)
  : option loc * (heap * St) :=
  match SessionID (Cookie_ g) r with
  | None => (None, (h, st))
  | Some sid => store_Get now h st sid
  end.

(** [bff/gateway.go: Gateway.EnsureFresh]
    The call of a request that leads the flight of its session; coalescing is
    modelled below. *)
Definition EnsureFresh (g : Gateway) (ck : Clock) (refresh : TokenRefresher)
    (h : heap) (st : St) (l : loc) : result socrate.goerr string * (heap * St) :=
  match h !! l with
  | None => (Err (socrate.EMsg "nil session"), (h, st))
  | Some s =>
      if AccessValid s (at_enter ck) (refreshLeeway g) then (Ok (AccessToken s), (h, st))
      else if AccessValid s (at_recheck ck) (refreshLeeway g) then (Ok (AccessToken s), (h, st))
      else
        match refresh (RefreshToken s) with
        | Err e => (Err e, (h, st))
        | Ok ts =>
            let s' := SetTokens s ts (at_set ck) in
            let h' := <[l := s']> h in
            (Ok (AccessToken s'), (h', store_Put h' st l))
        end
  end.

(** [bff/gateway.go:273-277] sliding the idle window *)
Definition touch (g : Gateway) (now : Time) (h : heap) (st : St) (l : loc) : heap * St :=
  match h !! l with
  | None => (h, st)
  | Some s =>
      let ti := touchInterval g in
      if (ti <? 0) || (ti <=? time_Sub now (LastSeen s)) then
        let h' := <[l := Touch s now]> h in (h', store_Put h' st l)
      else (h, st)
  end.

(** [bff/gateway.go:281-283] the headers sent upstream *)
Definition forward_header (h : Header) (access : string) : Header :=
  header_Set (header_Del (header_Del h "Authorization") "Cookie") "Authorization" ("Bearer " +:+ access).

(** [bff/gateway.go: Gateway.ProxyWithSession]
    [Next w r] hands [r] to the reverse proxy. *)
Definition ProxyWithSession (g : Gateway) (ck : Clock) (refresh : TokenRefresher)
    (h : heap) (st : St) (w : ResponseWriter) (r : Request) : verdict * (heap * St) :=
  if DisableAuth g then (Next w r, (h, st))
  else
    match SessionFromRequest g (at_get ck) h st r with
    | (None, (h, st)) =>
        if AllowPassthrough g then (Next w r, (h, st))
        else (Reply (http_Error w "authentication required" 401), (h, st))
    | (Some l, (h, st)) =>
        match h !! l with
        | None => (Reply w, (h, st))
        | Some s =>
            if negb (CheckCSRF g r s) then
              (Reply (http_Error w "missing or invalid CSRF token" 403), (h, st))
            else
              match EnsureFresh g ck refresh h st l with
              | (Err e, (h, st)) =>
                  if IsFatalRefreshError e then
                    let st := store_Delete (at_delete ck) st (ID s) in
                    (Reply (http_Error (ClearSession (Cookie_ g) w) "session expired" 401), (h, st))
                  else (Reply (http_Error w "token refresh unavailable" 502), (h, st))
              | (Ok access, (h, st)) =>
                  (Next w (with_header r (forward_header (req_Header r) access)),
                   touch g (at_touch ck) h st l)
              end
        end
    end.

End operations.

(** ** The upstream proxy *)

(** [bff/gateway.go: clientIPHeaders] *)
Definition clientIPHeaders : list string := ["X-Real-IP"; "True-Client-IP"; "Forwarded"].

(** [bff/gateway.go: NewSingleHostProxy]
    The Director wraps the one of [httputil.NewSingleHostReverseProxy]. *)
Definition Director (director : Request → Request) (r : Request) : Request :=
  let r := director r in
  with_header r (fold_left header_Del clientIPHeaders (req_Header r)).

(** * Lemmas *)

Lemma header_Get_Del_ne h k k' :
  canonical_key k ≠ canonical_key k' → header_Get (header_Del h k) k' = header_Get h k'.
Proof. intros Hne. unfold header_Get, header_Del. by rewrite lookup_delete_ne. Qed.

(** Exactly the Authorization and Cookie headers differ from the client's. *)
Lemma forward_header_spec h access :
  header_Get (forward_header h access) "Authorization" = "Bearer " +:+ access ∧
  forward_header h access !! "Cookie" = None ∧
  ∀ k, k ≠ "Authorization" → k ≠ "Cookie" → forward_header h access !! k = h !! k.
Proof.
  unfold forward_header. split_and!.
  - apply header_Get_Set.
  - unfold header_Set, header_Del. change (canonical_key "Authorization") with "Authorization".
    change (canonical_key "Cookie") with "Cookie". rewrite lookup_insert_ne by done. apply lookup_delete_eq.
  - intros k Ha Hc. unfold header_Set, header_Del.
    change (canonical_key "Authorization") with "Authorization".
    change (canonical_key "Cookie") with "Cookie". rewrite lookup_insert_ne by done.
    rewrite !lookup_delete_ne by done. done.
Qed.

(** Whose token a forwarded request carries: the session's own, while it is
    valid for longer than the leeway; else the one of the answer to the session's
    refresh token, an answer without a token set leaving the session's. *)
Definition forwarded_token (g : Gateway) (ck : Clock) (refresh : TokenRefresher) (s : Session) (tok : string) : Prop :=
  (tok = accessToken s ∧ ∃ t, (t = at_enter ck ∨ t = at_recheck ck) ∧ AccessValid s t (refreshLeeway g) = true) ∨
  (AccessValid s (at_enter ck) (refreshLeeway g) = false ∧
   ∃ ts, refresh (refreshToken s) = Ok ts ∧
     tok = match ts with Some ts => socrate.AccessToken ts | None => accessToken s end).

Section lemmas.
Context {St : Type} `{SessionStoreLaws St}.

Lemma SessionFromRequest_Some g now h st r l h' st' :
  store_wf h st → SessionFromRequest g now h st r = (Some l, (h', st')) →
  ∃ s, SessionID (Cookie_ g) r = Some (id s) ∧ h' !! l = Some s ∧
    store_expired st now s = false ∧ store_wf h' st'.
Proof.
  unfold SessionFromRequest. intros Hwf. destruct SessionID as [sid|]; [|done]. intros Hg.
  destruct (Get_session _ _ _ _ _ _ _ Hwf Hg) as (s & Hl & <- & He).
  exists s. split_and!; [done..|]. pose proof (wf_Get now h st (id s) Hwf) as Hw. by rewrite Hg in Hw.
Qed.

(** The token that [EnsureFresh] returns is the session's own or the refreshed one. *)
Lemma EnsureFresh_token g ck refresh h st l s tok c :
  h !! l = Some s → EnsureFresh g ck refresh h st l = (Ok tok, c) → forwarded_token g ck refresh s tok.
Proof.
  intros Hl. unfold EnsureFresh. rewrite Hl. destruct (AccessValid s (at_enter ck) _) eqn:He.
  { intros [= <- _]. left. eauto. }
  destruct (AccessValid s (at_recheck ck) _) eqn:Hr; [intros [= <- _]; left; eauto|].
  unfold RefreshToken, AccessToken. destruct (refresh (refreshToken s)) as [ts|e] eqn:Hts; [|done].
  intros [= <- _]. right. split; [done|]. exists ts. split; [done|]. by destruct ts.
Qed.

Lemma EnsureFresh_Err g ck refresh h st l s e h' st' :
  h !! l = Some s → EnsureFresh g ck refresh h st l = (Err e, (h', st')) →
  refresh (refreshToken s) = Err e ∧ h' = h ∧ st' = st ∧
  AccessValid s (at_recheck ck) (refreshLeeway g) = false.
Proof.
  intros Hl. unfold EnsureFresh. rewrite Hl. unfold RefreshToken.
  destruct (AccessValid s (at_enter ck) _); [done|].
  destruct (AccessValid s (at_recheck ck) _); [done|].
  destruct (refresh (refreshToken s)) as [ts|e'] eqn:Hr; [done|]. by intros [= <- <- <-].
Qed.

Lemma EnsureFresh_wf g ck refresh h st l :
  store_wf h st → let c := (EnsureFresh g ck refresh h st l).2 in store_wf c.1 c.2.
Proof.
  intros Hwf. unfold EnsureFresh. destruct (h !! l) as [s|] eqn:Hl; [|done].
  destruct AccessValid; [done|]. destruct AccessValid; [done|].
  destruct refresh as [ts|e]; [|done]. simpl. apply wf_Put. eapply wf_update; [done..|].
  apply applyTokens_id.
Qed.

Lemma touch_wf g now h st l : store_wf h st → let c := touch g now h st l in store_wf c.1 c.2.
Proof.
  intros Hwf. unfold touch. destruct (h !! l) as [s|] eqn:Hl; [|done].
  destruct (_ || _); [|done]. simpl. apply wf_Put. by eapply wf_update.
Qed.

Lemma ProxyWithSession_wf g ck refresh h st w r :
  store_wf h st → let c := (ProxyWithSession g ck refresh h st w r).2 in store_wf c.1 c.2.
Proof.
  intros Hwf. unfold ProxyWithSession. destruct (DisableAuth g); [done|].
  unfold SessionFromRequest. destruct SessionID as [sid|]; [|by destruct AllowPassthrough].
  pose proof (wf_Get (at_get ck) h st sid Hwf) as Hg.
  destruct store_Get as [[l|] [h1 st1]]; simpl in Hg; [|by destruct AllowPassthrough].
  destruct (h1 !! l) as [s|]; [|done]. destruct (negb _); [done|].
  pose proof (EnsureFresh_wf g ck refresh h1 st1 l Hg) as He.
  destruct EnsureFresh as [[tok|e] [h2 st2]]; simpl in *; [by apply touch_wf|].
  destruct IsFatalRefreshError; simpl; [by apply wf_Delete|done].
Qed.

End lemmas.

(** * The proxy *)

Section proxy.
Context {St : Type} `{SessionStoreLaws St}.

(** What a forwarded request has passed. *)
Lemma proxy_forwards (g : Gateway) (ck : Clock) (refresh : TokenRefresher)
    (h : heap) (st : St) (w w' : ResponseWriter) (r r' : Request) (c : heap * St) :
  DisableAuth g = false → AllowPassthrough g = false → store_wf h st →
  ProxyWithSession g ck refresh h st w r = (Next w' r', c) →
  ∃ sid l h1 st1 s tok,
    SessionID (Cookie_ g) r = Some sid ∧ store_Get (at_get ck) h st sid = (Some l, (h1, st1)) ∧ h1 !! l = Some s ∧
    id s = sid ∧ store_expired st (at_get ck) s = false ∧
    (IsUnsafeMethod (req_Method r) = true →
      csrf s ≠ "" ∧ header_Get (req_Header r) (csrfHeader g) = csrf s) ∧
    forwarded_token g ck refresh s tok ∧
    header_Get (req_Header r') "Authorization" = "Bearer " +:+ tok ∧
    req_Header r' !! "Cookie" = None ∧
    (∀ k, k ≠ "Authorization" → k ≠ "Cookie" → req_Header r' !! k = req_Header r !! k) ∧ w' = w.
Proof.
  intros Hd Hp Hwf. unfold ProxyWithSession. rewrite Hd, Hp. unfold SessionFromRequest.
  destruct SessionID as [sid|]; [|done]. destruct store_Get as [[l|] [h1 st1]] eqn:Hs; [|done].
  destruct (Get_session _ _ _ _ _ _ _ Hwf Hs) as (s & Hl & Hid & He).
  rewrite Hl. destruct (CheckCSRF g r s) eqn:Hc; simpl; [|done].
  destruct EnsureFresh as [[tok|e] [h2 st2]] eqn:Hf; [|by destruct IsFatalRefreshError].
  intros [= <- <- <-]. simpl. destruct (forward_header_spec (req_Header r) tok) as (? & ? & ?).
  exists sid, l, h1, st1, s, tok. split_and!; [done..| | |done|done|done|done].
  - intros Hu. unfold CheckCSRF in Hc. rewrite Hu in Hc. simpl in Hc. revert Hc.
    unfold MatchCSRF. destruct (String.eqb_spec (csrf s) ""); [done|]. by intros ->%String.eqb_eq.
  - by eapply EnsureFresh_token.
Qed.

(** C2: the gateway fails closed: with authentication on and pass-through off,
    over any well-formed store, a request (handled on its own; concurrent refreshes
    are the subject of [refresh_token_spent_once]) reaches the upstream only if the
    store's Get finds a session under the value of its cookie: that very session, not
    expired at the time of the look-up. A POST, PUT, PATCH or DELETE request also
    carries the CSRF secret of the session found, which is not empty. What is
    forwarded has a bearer of the session found in place of any Authorization
    header of the client, no Cookie header, and all other headers unchanged. The
    bearer is the access token of that session while it is valid for longer than
    the leeway, or else the access token of the refresher's answer to that
    session's refresh token (the session keeps its own if the answer has no
    token set). *)
Theorem proxy_forwards_only_sessions (g : Gateway) (ck : Clock) (refresh : TokenRefresher)
    (h : heap) (st : St) (w w' : ResponseWriter) (r r' : Request) (c : heap * St) :
  DisableAuth g = false → AllowPassthrough g = false → store_wf h st →
  ProxyWithSession g ck refresh h st w r = (Next w' r', c) →
  ∃ sid l h1 st1 s tok,
    SessionID (Cookie_ g) r = Some sid ∧ store_Get (at_get ck) h st sid = (Some l, (h1, st1)) ∧ h1 !! l = Some s ∧
    id s = sid ∧ store_expired st (at_get ck) s = false ∧
    (IsUnsafeMethod (req_Method r) = true →
      csrf s ≠ "" ∧ header_Get (req_Header r) (csrfHeader g) = csrf s) ∧
    forwarded_token g ck refresh s tok ∧
    header_Get (req_Header r') "Authorization" = "Bearer " +:+ tok ∧
    req_Header r' !! "Cookie" = None ∧
    (∀ k, k ≠ "Authorization" → k ≠ "Cookie" → req_Header r' !! k = req_Header r !! k) ∧ w' = w.
Proof. apply proxy_forwards. Qed.

(** What a failed refresh leads to. *)
Lemma refresh_failure (g : Gateway) (ck : Clock) (refresh : TokenRefresher)
    (h h1 : heap) (st st1 : St) (w : ResponseWriter) (r : Request) (l : loc) (s : Session) (e : socrate.goerr) :
  DisableAuth g = false →
  SessionFromRequest g (at_get ck) h st r = (Some l, (h1, st1)) → h1 !! l = Some s →
  CheckCSRF g r s = true →
  AccessValid s (at_enter ck) (refreshLeeway g) = false →
  AccessValid s (at_recheck ck) (refreshLeeway g) = false →
  refresh (refreshToken s) = Err e →
  ∃ w', (ProxyWithSession g ck refresh h st w r).1 = Reply w' ∧
    if IsFatalRefreshError e then
      w' = http_Error (ClearSession (Cookie_ g) w) "session expired" 401 ∧
      (ProxyWithSession g ck refresh h st w r).2 = (h1, store_Delete (at_delete ck) st1 (id s)) ∧
      (store_deletes st1 (id s) →
       store_dead (ProxyWithSession g ck refresh h st w r).2.2 (id s) (at_delete ck))
    else
      w' = http_Error w "token refresh unavailable" 502 ∧
      (ProxyWithSession g ck refresh h st w r).2 = (h1, st1).
Proof.
  intros Hd Hs Hl Hc H1 H2 Hr. unfold ProxyWithSession. rewrite Hd, Hs, Hl, Hc. simpl.
  unfold EnsureFresh. rewrite Hl, H1, H2. unfold RefreshToken. rewrite Hr.
  destruct (IsFatalRefreshError e); simpl; eexists; (split; [done|]); [|done].
  split_and!; [done..|]. apply Delete_dead.
Qed.

(** A failed refresh is handled by its kind: a rejected token (an OAuth
    error among the fatal codes) ends the session, clears the cookie and
    answers 401, and the store then remembers the deletion; any other failure
    answers 502 and leaves the stored session as it was. Nothing is forwarded. *)
Theorem refresh_failure_policy (g : Gateway) (ck : Clock) (refresh : TokenRefresher)
    (h h1 : heap) (st st1 : St) (w : ResponseWriter) (r : Request) (l : loc) (s : Session) (e : socrate.goerr) :
  DisableAuth g = false →
  SessionFromRequest g (at_get ck) h st r = (Some l, (h1, st1)) → h1 !! l = Some s →
  CheckCSRF g r s = true →
  AccessValid s (at_enter ck) (refreshLeeway g) = false →
  AccessValid s (at_recheck ck) (refreshLeeway g) = false →
  refresh (refreshToken s) = Err e →
  ∃ w', (ProxyWithSession g ck refresh h st w r).1 = Reply w' ∧
    if IsFatalRefreshError e then
      w' = http_Error (ClearSession (Cookie_ g) w) "session expired" 401 ∧
      (ProxyWithSession g ck refresh h st w r).2 = (h1, store_Delete (at_delete ck) st1 (id s)) ∧
      (store_deletes st1 (id s) →
       store_dead (ProxyWithSession g ck refresh h st w r).2.2 (id s) (at_delete ck))
    else
      w' = http_Error w "token refresh unavailable" 502 ∧
      (ProxyWithSession g ck refresh h st w r).2 = (h1, st1).
Proof. apply refresh_failure. Qed.

(** Without a session nothing happens upstream: a request whose cookie is
    missing or names no live session is answered 401 and changes no session,
    unless pass-through was explicitly allowed. *)
Theorem no_session_is_rejected (g : Gateway) (ck : Clock) (refresh : TokenRefresher)
    (h : heap) (st : St) (w : ResponseWriter) (r : Request) :
  DisableAuth g = false → AllowPassthrough g = false →
  (SessionFromRequest g (at_get ck) h st r).1 = None →
  (ProxyWithSession g ck refresh h st w r).1 = Reply (http_Error w "authentication required" 401) ∧
  h ⊆ (ProxyWithSession g ck refresh h st w r).2.1.
Proof.
  intros Hd Hp. unfold ProxyWithSession. rewrite Hd, Hp. unfold SessionFromRequest.
  destruct SessionID as [sid|]; [|done].
  pose proof (Get_frame (at_get ck) h st sid) as Hf.
  by destruct store_Get as [[l|] [h1 st1]]; simpl in *.
Qed.

End proxy.

(** A refresh never runs without a deadline, and the access token is always
    renewed before it ends, however the gateway is configured. *)
Lemma defaults_positive (g : Gateway) : 0 < refreshTimeout g ∧ 0 < refreshLeeway g.
Proof.
  unfold refreshTimeout, refreshLeeway. split; [destruct (Z.ltb_spec 0 (RefreshTimeout g))|destruct (Z.ltb_spec 0 (RefreshLeeway g))]; done.
Qed.

(** The printed form of a session holds none of its tokens, but it holds the
    value of its cookie: whoever reads it is let in. *)
Lemma session_text_hides_tokens (format : Time → string) (s s' : Session) :
  id s = id s' → Sub (user s) = Sub (user s') → accessExpiry s = accessExpiry s' →
  Session_String format s = Session_String format s'.
Proof. unfold Session_String. by intros -> -> ->. Qed.

(** The upstream never sees an address the client claims for itself in one
    of the headers that the edge proxy does not manage: whatever the wrapped
    director does, they are gone from the outgoing request, in any spelling. *)
Theorem Director_strips_client_ip (director : Request → Request) (r : Request) (k : string) :
  canonical_key k ∈ canonical_key <$> clientIPHeaders →
  header_Get (req_Header (Director director r)) k = "".
Proof.
  intros Hk. unfold Director. simpl. generalize (req_Header (director r)) as h. intros h.
  assert (∀ ks h, canonical_key k ∈ canonical_key <$> ks ∨ header_Get h k = "" →
            header_Get (fold_left header_Del ks h) k = "") as Hdel.
  { induction ks as [|x ks IH]; intros h0 [Hin|Hg]; simpl.
    - set_solver.
    - done.
    - apply IH. destruct (decide (canonical_key x = canonical_key k)) as [Heq|Hne].
      + right. unfold header_Get, header_Del. rewrite Heq. by rewrite lookup_delete_eq.
      + left. set_solver.
    - apply IH. right. destruct (decide (canonical_key x = canonical_key k)) as [Heq|Hne].
      + unfold header_Get, header_Del. rewrite Heq. by rewrite lookup_delete_eq.
      + by rewrite header_Get_Del_ne. }
  apply (Hdel clientIPHeaders). by left.
Qed.

(** * Coalesced refreshes

    Requests of one session run concurrently; [EnsureFresh] funnels them
    through [refreshGroup.Do], keyed by the session id. A request is in one of
    these phases: before the first validity check, about to call [Do], running
    the function as the leader, waiting for the token endpoint, waiting for
    another request's flight, or back with its result. *)
Module flight.

Inductive phase :=
| Entering (l : loc)
| Queued (l : loc)
| Leading (l : loc)
| Calling (l : loc) (tok : string)
| Waiting (leader : nat)
| Finished (res : result socrate.goerr string).

(** [redeemed] lists the refresh tokens the authorization server accepted, as
    often as it did; [unanswered] those of calls that failed without an answer
    (the refresh timeout, a broken connection), which the server may have
    redeemed or may redeem still. *)
Record config := {
  mem : heap;
  calls : gmap string nat;
  threads : gmap nat phase;
  redeemed : list string;
  unanswered : list string;
}.

Definition set_phase (c : config) (t : nat) (p : phase) : config :=
  {| mem := mem c; calls := calls c; threads := <[t := p]> (threads c); redeemed := redeemed c;
     unanswered := unanswered c |}.

(** The end of a flight: the leader leaves with its result. *)
Definition leave (c : config) (s : Session) (t : nat) (res : result socrate.goerr string) : config :=
  {| mem := mem c; calls := delete (ID s) (calls c); threads := <[t := Finished res]> (threads c);
     redeemed := redeemed c; unanswered := unanswered c |}.

(** [bff/gateway.go:155-178] one step of EnsureFresh by one of the requests *)
Inductive step (leeway : Duration) : config → config → Prop :=
| Arrive c t l s :
    threads c !! t = None → mem c !! l = Some s →
    step leeway c (set_phase c t (Entering l))
| Fresh c t l s now :
    threads c !! t = Some (Entering l) → mem c !! l = Some s → AccessValid s now leeway = true →
    step leeway c (set_phase c t (Finished (Ok (AccessToken s))))
| Stale c t l s now :
    threads c !! t = Some (Entering l) → mem c !! l = Some s → AccessValid s now leeway = false →
    step leeway c (set_phase c t (Queued l))
| Lead c t l s :
    threads c !! t = Some (Queued l) → mem c !! l = Some s → calls c !! ID s = None →
    step leeway c {| mem := mem c; calls := <[ID s := t]> (calls c); threads := <[t := Leading l]> (threads c);
                     redeemed := redeemed c; unanswered := unanswered c |}
| Join c t l s leader :
    threads c !! t = Some (Queued l) → mem c !! l = Some s → calls c !! ID s = Some leader →
    step leeway c (set_phase c t (Waiting leader))
| Recheck_fresh c t l s now :
    threads c !! t = Some (Leading l) → mem c !! l = Some s → AccessValid s now leeway = true →
    step leeway c (leave c s t (Ok (AccessToken s)))
| Recheck_stale c t l s now :
    threads c !! t = Some (Leading l) → mem c !! l = Some s → AccessValid s now leeway = false →
    step leeway c (set_phase c t (Calling l (RefreshToken s)))
| Granted c t l s tok ts now :
    threads c !! t = Some (Calling l tok) → mem c !! l = Some s →
    (* a rotating server issues a refresh token it has not seen before *)
    socrate.RefreshToken ts ∉ "" :: tok :: redeemed c ++ unanswered c →
    step leeway c (leave {| mem := <[l := SetTokens s (Some ts) now]> (mem c); calls := calls c; threads := threads c;
                            redeemed := tok :: redeemed c; unanswered := unanswered c |}
                     s t (Ok (AccessToken (SetTokens s (Some ts) now))))
| Refused c t l s tok e :
    (* the server answered, and did not redeem the token *)
    threads c !! t = Some (Calling l tok) → mem c !! l = Some s →
    step leeway c (leave c s t (Err e))
| Unanswered c t l s tok e :
    threads c !! t = Some (Calling l tok) → mem c !! l = Some s →
    step leeway c (leave {| mem := mem c; calls := calls c; threads := threads c; redeemed := redeemed c;
                            unanswered := tok :: unanswered c |} s t (Err e))
| Late c tok :
    (* the server redeems the token of a call that was given up *)
    tok ∈ unanswered c →
    step leeway c {| mem := mem c; calls := calls c; threads := threads c; redeemed := tok :: redeemed c;
                     unanswered := unanswered c |}
| Wake c t leader res :
    threads c !! t = Some (Waiting leader) → threads c !! leader = Some (Finished res) →
    step leeway c (set_phase c t (Finished res))
| Touched c l s now :
    mem c !! l = Some s →
    step leeway c {| mem := <[l := Touch s now]> (mem c); calls := calls c; threads := threads c;
                     redeemed := redeemed c; unanswered := unanswered c |}.

(** With one shared session object, a leader owns the flight of its id and
    calls the endpoint with the session's current refresh token. *)
Definition phase_ok (l : loc) (s : Session) (c : config) (t : nat) (p : phase) : Prop :=
  match p with
  | Entering l' | Queued l' => l' = l
  | Leading l' => l' = l ∧ calls c !! id s = Some t
  | Calling l' tok => l' = l ∧ calls c !! id s = Some t ∧ tok = refreshToken s
  | Waiting _ | Finished _ => True
  end.

(** The tokens whose calls were all answered. *)
Definition settled (c : config) : list string := filter (λ tok, tok ∉ unanswered c) (redeemed c).

Record shared (l : loc) (c : config) : Prop := {
  session_here : ∃ s, mem c = {[ l := s ]} ∧ (refreshToken s ∈ redeemed c → refreshToken s ∈ unanswered c) ∧
    ∀ t p, threads c !! t = Some p → phase_ok l s c t p;
  once : NoDup (settled c);
}.

Lemma phase_ok_calls l s c c' t p :
  calls c' !! id s = calls c !! id s → phase_ok l s c t p → phase_ok l s c' t p.
Proof. intros Hc. destruct p; simpl; rewrite ?Hc; done. Qed.

(** A change of one request's phase that keeps the flights. *)
Lemma shared_set_phase l c t p s :
  shared l c → mem c = {[ l := s ]} → phase_ok l s c t p → shared l (set_phase c t p).
Proof.
  intros [(s' & Hm & Hr & Hp) Hn] Hs Hok. rewrite Hm in Hs.
  apply (inj (singletonM l)) in Hs as ->. split; [|done]. exists s. split_and!; [done..|].
  simpl. intros t' p' [[<- <-]|[Hne Ht]]%lookup_insert_Some.
  - by eapply phase_ok_calls; [|exact Hok].
  - eapply phase_ok_calls; [|by eapply Hp]. done.
Qed.

(** The leader leaves: no other request leads. *)
Lemma phase_ok_leave l s s' c c0 t res t' p :
  (∀ t p, threads c !! t = Some p → phase_ok l s c t p) → calls c !! id s = Some t → threads c0 = threads c →
  threads (leave c0 s t res) !! t' = Some p → phase_ok l s' (leave c0 s t res) t' p.
Proof.
  intros Hall Hlead Hth. simpl. rewrite Hth. intros [[<- <-]|[Hne Ht]]%lookup_insert_Some; [done|].
  specialize (Hall t' p Ht). destruct p; simpl in *; try done; naive_solver.
Qed.

Lemma lookup_shared l (h : heap) l' s s' : h = {[ l := s ]} → h !! l' = Some s' → l' = l ∧ s' = s.
Proof. intros ->. by intros [-> ->]%lookup_singleton_Some. Qed.

(** More unanswered tokens settle no more redemptions. *)
Lemma settled_unanswered tok (xs us : list string) :
  NoDup (filter (λ x, x ∉ us) xs) → NoDup (filter (λ x, x ∉ tok :: us) xs).
Proof.
  intros Hn. replace (filter (λ x, x ∉ tok :: us) xs) with (filter (λ x, x ≠ tok) (filter (λ x, x ∉ us) xs)).
  - by apply NoDup_filter.
  - rewrite list_filter_filter. apply list_filter_iff. intros x. rewrite not_elem_of_cons. tauto.
Qed.

Lemma settled_all (xs : list string) : filter (λ x, x ∉ []) xs = xs.
Proof. induction xs as [|x xs IH]; [done|]. rewrite filter_cons_True by apply not_elem_of_nil. by rewrite IH. Qed.

Lemma step_shared leeway l c c' : step leeway c c' → shared l c → shared l c'.
Proof.
  intros Hstep Hsh. pose proof Hsh as [(s & Hm & Hr & Hp) Hn].
  destruct Hstep as [c t l' s' Ht Hl|c t l' s' now Ht Hl Hv|c t l' s' now Ht Hl Hv|c t l' s' Ht Hl Hc
    |c t l' s' leader Ht Hl Hc|c t l' s' now Ht Hl Hv|c t l' s' now Ht Hl Hv|c t l' s' tok ts now Ht Hl Hf
    |c t l' s' tok e Ht Hl|c t l' s' tok e Ht Hl|c tok Hu|c t leader res Ht Hl|c l' s' now Hl];
    try (destruct (lookup_shared _ _ _ _ _ Hm Hl) as [-> ->]).
  - by eapply shared_set_phase.
  - by eapply shared_set_phase.
  - by eapply shared_set_phase.
  - split; [|done]. exists s. split_and!; [done..|]. simpl.
    intros t' p' [[<- <-]|[Hne Ht']]%lookup_insert_Some; simpl; [by rewrite lookup_insert_eq|].
    specialize (Hp _ _ Ht'). unfold ID in *. destruct p'; simpl in *; try done; naive_solver.
  - by eapply shared_set_phase.
  - destruct (Hp _ _ Ht) as [_ Hlead]. split; [|done]. exists s. split_and!; [done..|].
    intros t' p'. by eapply phase_ok_leave.
  - eapply shared_set_phase; [done..|]. destruct (Hp _ _ Ht) as [_ Hlead]. by simpl.
  - destruct (Hp _ _ Ht) as (_ & Hlead & ->). rewrite !not_elem_of_cons, not_elem_of_app in Hf. split.
    + exists (SetTokens s (Some ts) now). split_and!.
      * simpl. rewrite Hm. apply insert_singleton_eq.
      * simpl. destruct (String.eqb_spec (socrate.RefreshToken ts) ""); [naive_solver|]. simpl.
        intros [?|?]%elem_of_cons; naive_solver.
      * intros t' p'. by eapply phase_ok_leave.
    + unfold settled. simpl. rewrite filter_cons. destruct (decide _) as [Hnu|]; [|exact Hn].
      apply NoDup_cons. split; [|exact Hn]. rewrite list_elem_of_filter. intros [_ Hin]. by apply Hnu, Hr.
  - destruct (Hp _ _ Ht) as (_ & Hlead & _). split; [|done]. exists s. split_and!; [done..|].
    intros t' p'. by eapply phase_ok_leave.
  - destruct (Hp _ _ Ht) as (_ & Hlead & _). split; [|by apply settled_unanswered]. exists s. split_and!; [done| |].
    + simpl. intros Hin. right. by apply Hr.
    + intros t' p'. by eapply phase_ok_leave.
  - split.
    + exists s. split_and!; [done| |done]. simpl. intros [->|Hin]%elem_of_cons; [done|by apply Hr].
    + unfold settled. simpl. rewrite filter_cons_False by (by intros Hnu). exact Hn.
  - by eapply shared_set_phase.
  - split; [|done]. exists (Touch s now). split_and!; [|done|].
    + simpl. rewrite Hm. apply insert_singleton_eq.
    + intros t p Ht. specialize (Hp t p Ht). by destruct p.
Qed.

Lemma steps_shared leeway l c c' : rtc (step leeway) c c' → shared l c → shared l c'.
Proof. induction 1; eauto using step_shared. Qed.

Definition start (l : loc) (s : Session) : config :=
  {| mem := {[ l := s ]}; calls := ∅; threads := ∅; redeemed := []; unanswered := [] |}.

Lemma start_shared leeway l s c : rtc (step leeway) (start l s) c → shared l c.
Proof.
  intros Hsteps. eapply steps_shared; [exact Hsteps|]. split; [|constructor].
  exists s. split_and!; [done|intros Hin; by apply not_elem_of_nil in Hin|]. intros t p Ht. simpl in Ht. by rewrite lookup_empty in Ht.
Qed.

(** C16: a rotating refresh token is spent at most once, as far as the gateway can
    know. In any interleaving of any number of concurrent requests on one session
    object, with a server that issues new refresh tokens, at most one request is
    at the token endpoint at a time. As long as no call of the endpoint was given
    up without an answer, no token is redeemed twice and the token a call presents
    was never redeemed before. In general, whatever the server does with the
    tokens of calls that were given up, and whenever it does it, this holds of
    every other token: only a token of a call that got no answer is ever presented
    again after the server redeemed it, or redeemed twice. *)
Theorem refresh_token_spent_once (leeway : Duration) (l : loc) (s : Session) (c : config) :
  rtc (step leeway) (start l s) c →
  (∀ t t' l1 l2 tok tok', threads c !! t = Some (Calling l1 tok) →
     threads c !! t' = Some (Calling l2 tok') → t = t') ∧
  (unanswered c = [] →
     NoDup (redeemed c) ∧ ∀ t l' tok, threads c !! t = Some (Calling l' tok) → tok ∉ redeemed c) ∧
  NoDup (filter (λ tok, tok ∉ unanswered c) (redeemed c)) ∧
  (∀ t l' tok, threads c !! t = Some (Calling l' tok) → tok ∈ redeemed c → tok ∈ unanswered c).
Proof.
  intros Hsteps. destruct (start_shared _ _ _ _ Hsteps) as [(s' & Hm & Hr & Hp) Hn].
  assert (∀ t l' tok, threads c !! t = Some (Calling l' tok) → tok ∈ redeemed c → tok ∈ unanswered c) as Hcall.
  { intros t l' tok Ht. by destruct (Hp _ _ Ht) as (_ & _ & ->). }
  split_and!; [| |exact Hn|exact Hcall].
  - intros t t' l1 l2 tok tok' H1%Hp H2%Hp. simpl in *. naive_solver.
  - intros Hu. split.
    + unfold settled in Hn. by rewrite Hu, settled_all in Hn.
    + intros t l' tok Ht Hin. specialize (Hcall t l' tok Ht Hin). rewrite Hu in Hcall. by apply not_elem_of_nil in Hcall.
Qed.

(** The exception is real: when the answer to a redeemed token is lost, the session
    keeps the token, and the next request presents it again. *)
Lemma lost_answer_presents_again (leeway : Duration) (l : loc) (s : Session) (now : Time) (e : socrate.goerr) :
  AccessValid s now leeway = false →
  ∃ c, rtc (step leeway) (start l s) c ∧ refreshToken s ∈ redeemed c ∧
    threads c !! 1%nat = Some (Calling l (refreshToken s)).
Proof.
  intros Hv. assert (∀ c t, mem c = {[ l := s ]} → threads c !! t = None → calls c !! ID s = None →
    ∃ c', rtc (step leeway) c c' ∧ mem c' = {[ l := s ]} ∧ calls c' = <[ID s := t]> (calls c) ∧
      threads c' = <[t := Calling l (RefreshToken s)]> (threads c) ∧ redeemed c' = redeemed c ∧ unanswered c' = unanswered c) as Hgo.
  { intros c t Hm Ht Hc. assert (mem c !! l = Some s) as Hl by (rewrite Hm; apply lookup_singleton_eq).
    eexists. split.
    - eapply rtc_l; [by eapply (Arrive _ _ t l s)|].
      eapply rtc_l; [eapply (Stale _ _ t l s now); [apply lookup_insert_eq|exact Hl|exact Hv]|].
      eapply rtc_l; [eapply (Lead _ _ t l s); [apply lookup_insert_eq|exact Hl|exact Hc]|].
      eapply rtc_l; [eapply (Recheck_stale _ _ t l s now); [apply lookup_insert_eq|exact Hl|exact Hv]|]. apply rtc_refl.
    - simpl. by rewrite !insert_insert_eq. }
  destruct (Hgo (start l s) 0%nat eq_refl (lookup_empty _) (lookup_empty _)) as (c1 & H1 & Hm1 & Hc1 & Ht1 & Hr1 & Hu1).
  assert (mem c1 !! l = Some s) as Hl1 by (rewrite Hm1; apply lookup_singleton_eq).
  set (c2 := leave {| mem := mem c1; calls := calls c1; threads := threads c1; redeemed := redeemed c1;
                      unanswered := RefreshToken s :: unanswered c1 |} s 0 (Err e)).
  assert (step leeway c1 c2) as H2 by (eapply Unanswered; [rewrite Ht1; apply lookup_insert_eq|exact Hl1]).
  set (c3 := {| mem := mem c2; calls := calls c2; threads := threads c2; redeemed := RefreshToken s :: redeemed c2;
                unanswered := unanswered c2 |}).
  assert (step leeway c2 c3) as H3 by (apply Late; left).
  destruct (Hgo c3 1%nat) as (c4 & H4 & _ & _ & Ht4 & Hr4 & _).
  - exact Hm1.
  - simpl. rewrite Ht1. by rewrite !lookup_insert_ne.
  - simpl. apply lookup_delete_eq.
  - exists c4. split_and!; [|rewrite Hr4; left|rewrite Ht4; apply lookup_insert_eq].
    etrans; [exact H1|]. eapply rtc_l; [exact H2|]. by eapply rtc_l; [exact H3|].
Qed.

End flight.

(** * Examples *)
Module Demo.

Definition ts1 : socrate.TokenSet :=
  {| socrate.AccessToken := "a1"; socrate.RefreshToken := "r1"; socrate.IDToken := "";
     socrate.TokenType := "Bearer"; socrate.ExpiresIn := 300; socrate.Scope := "";
     socrate.Roles := None; socrate.AppRoles := None |}.
Definition ts2 : socrate.TokenSet :=
  {| socrate.AccessToken := "a2"; socrate.RefreshToken := "r2"; socrate.IDToken := "";
     socrate.TokenType := "Bearer"; socrate.ExpiresIn := 300; socrate.Scope := "";
     socrate.Roles := None; socrate.AppRoles := None |}.

Definition sess : Session := NewSession "s1" "csrf" (Some ts1) no_user (1000 * Second).
Definition h0 : heap := {[ 1%positive := sess ]}.
Definition st0 : MemoryStore := mem_Put h0 (NewMemoryStore 0 0) 1.

Definition g : Gateway :=
  {| Cookie_ := {| cc_Name := "sid"; cc_Secure := true; cc_MaxAge := 0 |}; DisableAuth := false;
     AllowPassthrough := false; CSRFHeader := ""; RefreshLeeway := 0; TouchInterval := 0; RefreshTimeout := 0 |}.

Definition clock (t : Time) : Clock :=
  {| at_get := t; at_enter := t; at_recheck := t; at_set := t; at_delete := t; at_touch := t |}.

Definition req : Request :=
  {| req_Method := "POST"; req_Path := "/api"; req_RawQuery := ""; req_Pattern := "";
     req_RemoteAddr := ""; req_ctx := ctxutil.Background;
     req_Header := {[ "Cookie" := ["__Host-sid=s1"]; "X-Csrf-Token" := ["csrf"];
                      "Authorization" := ["Bearer forged"]; "X-Real-Ip" := ["1.2.3.4"] ]} |}.

Definition rotate : TokenRefresher := λ _, Ok (Some ts2).
Definition invalid_grant : socrate.goerr :=
  socrate.EWrap "refresh" (socrate.EOAuth
    {| socrate.oe_StatusCode := 400; socrate.oe_Code := "invalid_grant"; socrate.oe_Description := "" |}).
Definition reject : TokenRefresher := λ _, Err invalid_grant.

End Demo.
Import Demo.

Example session_text_is_a_credential :
  let printed := Session_String (λ _, "") sess in
  let stolen := match str_cut " " (String.substring 15 (String.length printed) printed) with Some (v, _) => v | None => "" end in
  let thief := with_header req {[ "Cookie" := ["__Host-sid=" +:+ stolen] ]} in
  (SessionFromRequest g (2000 * Second) h0 st0 thief).1 = Some 1%positive.
Proof. vm_compute. reflexivity. Qed.

Lemma proxy_forwards_only_sessions_witness :
  ∃ l h1 st1 s tok, store_Get (2000 * Second) h0 st0 "s1" = (Some l, (h1, st1)) ∧ h1 !! l = Some s ∧ id s = "s1" ∧
    (IsUnsafeMethod "POST" = true → csrf s ≠ "" ∧ header_Get (req_Header req) (csrfHeader g) = csrf s) ∧
    forwarded_token g (clock (2000 * Second)) rotate s tok ∧
    header_Get (forward_header (req_Header req) "a2") "Authorization" = "Bearer " +:+ tok.
Proof.
  destruct (proxy_forwards_only_sessions g (clock (2000 * Second)) rotate h0 st0 new_response new_response
    req (with_header req (forward_header (req_Header req) "a2"))
    (ProxyWithSession g (clock (2000 * Second)) rotate h0 st0 new_response req).2)
    as (sid & l & h1 & st1 & s & tok & H1 & H2 & H3 & H4 & _ & H5 & H6 & H7 & _);
    [reflexivity|reflexivity| |vm_compute; reflexivity|].
  - apply (mem_wf_Put h0 (NewMemoryStore 0 0) 1). split; intros ? ? Hx; simpl in Hx; by rewrite lookup_empty in Hx.
  - assert (sid = "s1") as -> by (vm_compute in H1; congruence).
    exists l, h1, st1, s, tok. exact (conj H2 (conj H3 (conj H4 (conj H5 (conj H6 H7))))).
Defined.

Lemma refresh_failure_policy_witness :
  IsFatalRefreshError invalid_grant = true ∧
  (ProxyWithSession g (clock (2000 * Second)) reject h0 st0 new_response req).1 =
    Reply (http_Error (ClearSession (Cookie_ g) new_response) "session expired" 401) ∧
  store_dead (ProxyWithSession g (clock (2000 * Second)) reject h0 st0 new_response req).2.2 "s1" (2000 * Second).
Proof.
  destruct (refresh_failure_policy g (clock (2000 * Second)) reject h0 h0 st0 st0 new_response req 1
    sess invalid_grant) as (w' & Hw & (-> & _ & Hd)); try (vm_compute; reflexivity).
  split; [reflexivity|]. split; [exact Hw|]. exact (Hd I).
Defined.

Lemma no_session_is_rejected_witness :
  (ProxyWithSession g (clock 0) rotate h0 (NewMemoryStore 0 0) new_response req).1 =
    Reply (http_Error new_response "authentication required" 401) ∧
  h0 ⊆ (ProxyWithSession g (clock 0) rotate h0 (NewMemoryStore 0 0) new_response req).2.1.
Proof.
  apply (no_session_is_rejected g (clock 0) rotate h0 (NewMemoryStore 0 0) new_response req); reflexivity.
Defined.

Lemma Director_strips_client_ip_witness :
  header_Get (req_Header (Director (λ r, r) req)) "x-real-ip" = "".
Proof.
  apply (Director_strips_client_ip (λ r, r) req "x-real-ip").
  apply (bool_decide_unpack _). vm_compute. exact I.
Defined.

Lemma refresh_token_spent_once_witness :
  ∃ c, rtc (flight.step 0) (flight.start 1 sess) c ∧ flight.redeemed c = ["r1"] ∧
    NoDup (flight.redeemed c).
Proof.
  assert (∃ c, rtc (flight.step 0) (flight.start 1 sess) c ∧ flight.redeemed c = ["r1"] ∧ flight.unanswered c = [])
    as (c & Hsteps & Hr & Hu).
  { eexists. split; [|shelve].
    eapply rtc_l; [eapply (flight.Arrive _ _ 7 1 sess); reflexivity|].
    eapply rtc_l; [eapply (flight.Stale _ _ 7 1 sess (2000 * Second)); reflexivity|].
    eapply rtc_l; [eapply (flight.Lead _ _ 7 1 sess); reflexivity|].
    eapply rtc_l; [eapply (flight.Recheck_stale _ _ 7 1 sess (2000 * Second)); reflexivity|].
    eapply rtc_l; [eapply (flight.Granted _ _ 7 1 sess "r1" ts2 (2000 * Second)); [reflexivity..|]|].
    - apply (bool_decide_unpack _). vm_compute. exact I.
    - apply rtc_refl.
    Unshelve. split; reflexivity. }
  exists c. split; [exact Hsteps|]. split; [exact Hr|].
  exact (proj1 (proj1 (proj2 (flight.refresh_token_spent_once 0 1 sess c Hsteps)) Hu)).
Defined.

(** ** A durable store hands every request its own copy

    The re-check and the write-back of [EnsureFresh] act on the request's own
    session object. With a store that rehydrates a session on every [Get], two
    requests hold different objects of one session. *)
Module Durable.
Import pg pgstore pgstore.Demo.

Definition stale : Session := sess.
Definition refreshed : Session := SetTokens sess (Some ts2) (2000 * Second).
Definition refreshed_touched : Session := Touch refreshed (2000 * Second).
Definition stale_touched : Session := Touch stale (2001 * Second).

Definition known : list (string * Session) :=
  [("0", stale); ("1", refreshed); ("2", refreshed_touched); ("3", stale_touched)].

Definition demo_codec : SnapshotCodec :=
  {| json_Marshal sn :=
       match list_find (λ p : string * Session, Snapshot p.2 = sn) known with
       | Some (_, p) => Some p.1
       | None => None
       end;
     json_Unmarshal b :=
       match list_find (λ p : string * Session, p.1 = b) known with
       | Some (_, p) => Some (Snapshot p.2)
       | None => None
       end |}.
#[local] Existing Instance demo_codec.

Definition store0 : PostgresStore :=
  {| db := {| rows := ∅; outcomes := []; randoms := [Some "n1"; Some "n2"; Some "n3"; Some "n4"]; reported := [] |};
     key := "k"; pg_idle := 0; pg_absolute := 0 |}.
Definition p0 : PostgresStore := pg_Put h0 store0 1.

(** Requests A and B both read the session; A then refreshes it and writes it
    back. *)
Definition readA := pg_Get (2000 * Second) ∅ p0 "s1".
Definition readB := pg_Get (2000 * Second) readA.2.1 readA.2.2 "s1".
Definition afterA := EnsureFresh g (clock (2000 * Second)) rotate readB.2.1 readB.2.2 1.

(** The token the server now refuses. *)
Definition spent : TokenRefresher :=
  λ tok, if String.eqb tok "r1" then Err invalid_grant else Ok (Some ts2).

(** B arriving at [EnsureFresh] after A's flight has landed. *)
Definition refreshB := EnsureFresh g (clock (2001 * Second)) spent afterA.2.1 afterA.2.2 2.

(** B, coalesced into A's flight, touches its own object; a later read. *)
Definition afterB := touch g (2001 * Second) afterA.2.1 afterA.2.2 2.
Definition reread (h : heap) (p : PostgresStore) := pg_Get (2002 * Second) h p "s1".

End Durable.

(** With the durable store, a request that read the session before another one
    refreshed it presents the spent refresh token again: the server rejects it
    and the rejection is fatal, although the store holds the rotated token. *)
Theorem durable_store_spends_token_twice :
  Durable.readA.1 = Some 1%positive ∧ Durable.readB.1 = Some 2%positive ∧
  Durable.afterA.1 = Ok "a2" ∧
  Durable.refreshB.1 = Err invalid_grant ∧
  IsFatalRefreshError invalid_grant = true.
Proof.
  split; [vm_compute; reflexivity|]. split; [vm_compute; reflexivity|].
  repeat split; vm_compute; reflexivity.
Qed.

(** And a request that was coalesced into that refresh touches its own, stale
    copy and writes it back: the store then holds the spent refresh token. *)
Theorem durable_store_loses_rotated_token :
  let c := Durable.afterB in
  let again := Durable.reread c.1 c.2 in
  match again.1 with
  | Some l => refreshToken <$> (again.2.1 !! l) = Some "r1"
  | None => False
  end.
Proof. vm_compute. reflexivity. Qed.

End gateway.
