(* ===== verification/GatewaySpec.v ===== *)
(** The gateway of package [bff] (src/bff/gateway.go) over either session store,
    against a reference gateway whose sessions live in a plain map. For requests
    that do not overlap, which store is behind the gateway, and everything the
    stores do apart from keeping sessions, cannot be seen in the answers or in
    what is forwarded upstream. *)

From S2P Require Import Prelude GoText CtxUtil Http SocrateToken Session SessionStore PostgresStore SessionSpec PendingLogin BffMisc Gateway.

Module gatewayspec.
Import session store bff gateway sessionspec.

(** * Events *)

(** A sign-in stores a new session, a request is proxied, a sign-out deletes a
    session. *)
Inductive event :=
| SignIn (now : Time) (s : Session)
| Proxied (ck : Clock) (refresh : TokenRefresher) (w : ResponseWriter) (r : Request)
| SignOut (now : Time) (sid : string)
| Sweeping (now : Time).

Definition when (e : event) : Time :=
  match e with SignIn now _ | SignOut now _ | Sweeping now => now | Proxied ck _ _ _ => at_get ck end.

Definition gateway_step {St} `{SessionStore St} (g : Gateway) (c : heap * St) (e : event) : option verdict * (heap * St) :=
  let '(h, st) := c in
  match e with
  | SignIn _ s => let '(l, h) := alloc h s in (None, (h, store_Put h st l))
  | Proxied ck refresh w r => let '(v, c) := ProxyWithSession g ck refresh h st w r in (Some v, c)
  | SignOut now sid => (None, (h, store_Delete now st sid))
  | Sweeping now => (None, (h, store_Sweep now h st))
  end.

(** * The reference gateway *)

(** The token a request goes with, and its session afterwards. *)
Definition refreshed (g : Gateway) (ck : Clock) (refresh : TokenRefresher) (s : Session)
  : result socrate.goerr (string * Session) :=
  if AccessValid s (at_enter ck) (refreshLeeway g) || AccessValid s (at_recheck ck) (refreshLeeway g)
  then Ok (AccessToken s, s)
  else rmap (λ ts, let s' := SetTokens s ts (at_set ck) in (AccessToken s', s')) (refresh (RefreshToken s)).

Definition touched (g : Gateway) (now : Time) (s : Session) : Session :=
  let ti := touchInterval g in
  if (ti <? 0) || (ti <=? time_Sub now (LastSeen s)) then Touch s now else s.

(** The sessions, and the ids that sign-ins and sign-outs have named. *)
Record state := { sessions_ : gmap string Session; named : gset string }.
Definition state0 : state := {| sessions_ := ∅; named := ∅ |}.

Section reference.
Context (encodes : Session → Prop) (idle_ absolute_ : Duration).

(** The session a request speaks for. *)
Definition current (g : Gateway) (now : Time) (m : gmap string Session) (r : Request) : option Session :=
  match SessionID (Cookie_ g) r with
  | None => None
  | Some sid =>
      match m !! sid with
      | Some s => if gone idle_ absolute_ now s then None else Some s
      | None => None
      end
  end.

Definition reference_proxy (g : Gateway) (ck : Clock) (refresh : TokenRefresher) (m : gmap string Session)
    (w : ResponseWriter) (r : Request) : verdict * gmap string Session :=
  if DisableAuth g then (Next w r, m)
  else
    match current g (at_get ck) m r with
    | None =>
        if AllowPassthrough g then (Next w r, m) else (Reply (http_Error w "authentication required" 401), m)
    | Some s =>
        if negb (CheckCSRF g r s) then (Reply (http_Error w "missing or invalid CSRF token" 403), m)
        else
          match refreshed g ck refresh s with
          | Err e =>
              if IsFatalRefreshError e
              then (Reply (http_Error (ClearSession (Cookie_ g) w) "session expired" 401), delete (id s) m)
              else (Reply (http_Error w "token refresh unavailable" 502), m)
          | Ok (access, s') =>
              (Next w (with_header r (forward_header (req_Header r) access)),
               <[id s := touched g (at_touch ck) s']> m)
          end
    end.

(** The ids an event leaves a trace of. *)
Definition names (e : event) : gset string :=
  match e with
  | SignIn _ s => {[id s]}
  | SignOut _ sid => {[sid]}
  | Proxied _ _ _ _ | Sweeping _ => ∅
  end.

Definition reference_step (g : Gateway) (t : state) (e : event) : option verdict * state :=
  let '(v, m) :=
    match e with
    | SignIn _ s => (None, <[id s := s]> (sessions_ t))
    | Proxied ck refresh w r => let '(v, m) := reference_proxy g ck refresh (sessions_ t) w r in (Some v, m)
    | SignOut _ sid => (None, delete sid (sessions_ t))
    | Sweeping _ => (None, sessions_ t)
    end in
  (v, {| sessions_ := m; named := names e ∪ named t |}).

(** The id of a new session was never named before, as [RandomToken] gives it,
    and what a request writes back can be encoded. *)
Definition proper (g : Gateway) (t : state) (e : event) : Prop :=
  match e with
  | SignIn _ s => id s ∉ named t ∧ encodes s
  | Proxied ck refresh w r =>
      match current g (at_get ck) (sessions_ t) r with
      | None => True
      | Some s =>
          match refreshed g ck refresh s with
          | Ok (_, s') => encodes s' ∧ encodes (touched g (at_touch ck) s')
          | Err _ => True
          end
      end
  | _ => True
  end.

#[global] Instance proper_dec `{!∀ s, Decision (encodes s)} g t e : Decision (proper g t e).
Proof. unfold proper. destruct e; repeat case_match; apply _. Defined.

Fixpoint proper_run (g : Gateway) (t : state) (es : list event) : Prop :=
  match es with
  | [] => True
  | e :: es => proper g t e ∧ proper_run g (reference_step g t e).2 es
  end.

#[global] Instance proper_run_dec `{!∀ s, Decision (encodes s)} g es t : Decision (proper_run g t es).
Proof. revert t. induction es as [|e es IH]; intros t; simpl; [apply _|]. apply and_dec; apply _. Defined.

Lemma refreshed_id g ck refresh s access s' :
  refreshed g ck refresh s = Ok (access, s') → id s' = id s ∧ created s' = created s.
Proof.
  unfold refreshed. destruct (_ || _); [naive_solver|]. destruct refresh as [ts|]; [|done]. intros [= <- <-].
  unfold SetTokens. rewrite applyTokens_id. by destruct (applyTokens_created s ts (at_set ck)).
Qed.

Lemma touched_id g now s : id (touched g now s) = id s ∧ created (touched g now s) = created s.
Proof. unfold touched. by destruct (_ || _). Qed.

(** * The simulation *)

Section simulation.
Context {St : Type} `{!SessionStore St, !SessionStoreLaws St, !StoreView encodes idle_ absolute_ St}.
Abbreviation ok := (sv_ok encodes idle_ absolute_) (only parsing).
Abbreviation view := (sv_view encodes idle_ absolute_) (only parsing).
Abbreviation unknown := (sv_unknown encodes idle_ absolute_) (only parsing).

(** A store that answers its next [n] writes, against a map. *)
Record related (now : Time) (n : nat) (h : heap) (st : St) (m : gmap string Session) (seen : gset string) : Prop := {
  rel_ok : ok n h st;
  rel_view : covers idle_ absolute_ now (view h st) m;
  rel_new x : x ∉ seen → m !! x = None ∧ unknown st x;
  rel_ids x s : m !! x = Some s → id s = x;
}.

Lemma related_less now n n' h st m seen : (n' ≤ n)%nat → related now n h st m seen → related now n' h st m seen.
Proof.
  intros Hle. induction Hle as [|n Hle IH]; [done|]. intros [Hok ? ? ?]. apply IH. split; [by eapply sv_less|done..].
Qed.

Lemma related_seen now n h st m x s seen : related now n h st m seen → m !! x = Some s → x ∈ seen.
Proof. intros Hr Hx. destruct (decide (x ∈ seen)) as [|Hn]; [done|]. destruct (rel_new _ _ _ _ _ _ Hr x Hn). congruence. Qed.

(** The request's session is found, as an object in the heap, or is not there. *)
Lemma request_found g now n0 n h st m seen r s :
  apart now n0 → related now n h st m seen → current g n0 m r = Some s →
  ∃ l h1 st1, SessionFromRequest g n0 h st r = (Some l, (h1, st1)) ∧ h1 !! l = Some s ∧
    m !! id s = Some s ∧ view h1 st1 (id s) = Some s ∧ related n0 n h1 st1 m seen.
Proof.
  unfold apart, current, SessionFromRequest. intros Ha [Hok Hv Hn Hi]. assert (0 < Microsecond) as Hm by done.
  destruct SessionID as [sid|]; [|done]. destruct (m !! sid) as [s0|] eqn:Hs; [|done].
  destruct (gone _ _ n0 s0) eqn:Hg; [done|]. intros [= ->]. pose proof (Hi _ _ Hs) as <-.
  assert (view h st (id s) = Some s) as Hview.
  { eapply covers_live; [done|done|]. by eapply gone_earlier. }
  destruct (sv_Get_hit encodes idle_ absolute_ n n0 h st (id s) s Hok Hview Hg) as (l & h1 & st1 & Hget & Hl & Hok1 & Hv1).
  exists l, h1, st1. rewrite Hv1. split_and!; [done..|]. split; [done| | |done].
  - eapply covers_ext; [done|]. eapply covers_later; [|done]. lia.
  - intros x Hx. destruct (Hn x Hx) as [? Hu]. split; [done|]. eapply (unknown_Get encodes idle_ absolute_ n0 h st (id s)) in Hu.
    by rewrite Hget in Hu.
Qed.

Lemma request_missed g now n0 n h st m seen r :
  apart now n0 → related now n h st m seen → current g n0 m r = None →
  ∃ st1, SessionFromRequest g n0 h st r = (None, (h, st1)) ∧ related n0 n h st1 m seen.
Proof.
  unfold apart, current, SessionFromRequest. intros Ha [Hok Hv Hn Hi]. assert (0 < Microsecond) as Hm by done.
  assert (covers idle_ absolute_ n0 (view h st) m) as Hv0 by (eapply covers_later; [|done]; lia).
  destruct SessionID as [sid|]; [|intros _; exists st; by split].
  intros Hc. destruct (sv_Get_miss encodes idle_ absolute_ n n0 h st sid Hok) as (st1 & Hget & Hok1 & Hv1).
  { intros s Hs. specialize (Hv sid). rewrite Hs in Hv. rewrite Hv in Hc. by destruct gone. }
  exists st1. split; [done|]. split; [done| | |done].
  - eapply covers_drop; [|exact Hv0]. intros x. rewrite Hv1. destruct (decide (x = sid)) as [->|]; [right|by left].
    split; [done|]. intros s Hs. specialize (Hv0 sid). rewrite Hs in Hv0. rewrite Hv0 in Hc.
    destruct (gone _ _ n0 s) eqn:Hg; [|done]. eapply gone_later; [|exact Hg]. lia.
  - intros x Hx. destruct (Hn x Hx) as [? Hu]. split; [done|]. eapply (unknown_Get encodes idle_ absolute_ n0 h st sid) in Hu.
    by rewrite Hget in Hu.
Qed.

(** Changing the object and writing it back changes the map. *)
Lemma write_back now n h st m seen l s s' :
  related now (S n) h st m seen → h !! l = Some s → m !! id s = Some s → view h st (id s) = Some s →
  id s' = id s → created s' = created s → encodes s' →
  related now n (<[l := s']> h) (store_Put (<[l := s']> h) st l) (<[id s := s']> m) seen ∧
  view (<[l := s']> h) (store_Put (<[l := s']> h) st l) (id s) = Some s'.
Proof.
  intros Hr Hl Hm Hview Hid Hcr Henc. pose proof (related_seen _ _ _ _ _ _ _ _ Hr Hm) as Hseen. destruct Hr as [Hok Hv Hn Hi].
  destruct (sv_Put encodes idle_ absolute_ n h st l s s' Hok Hl Hid Henc) as [Hok' Hv']; [right; eauto|].
  split; [|by rewrite Hv', decide_True]. split; [done| | |].
  - eapply covers_insert; [exact Hv'|done].
  - intros x Hx. destruct (Hn x Hx) as [? ?]. assert (id s ≠ x) as Hne by congruence. rewrite lookup_insert_ne by done.
    split; [done|]. eapply unknown_Put; [apply lookup_insert_eq|congruence|done].
  - intros x s0 [[<- <-]|[_ Hx]]%lookup_insert_Some; [done|by apply Hi].
Qed.

(** What [EnsureFresh] and the touch after it do to a session that the store holds. *)
Lemma EnsureFresh_related g ck refresh now n h st m seen l s :
  related now (S n) h st m seen → h !! l = Some s → m !! id s = Some s → view h st (id s) = Some s →
  match refreshed g ck refresh s with
  | Err e => EnsureFresh g ck refresh h st l = (Err e, (h, st))
  | Ok (access, s') => encodes s' → ∃ h2 st2,
      EnsureFresh g ck refresh h st l = (Ok access, (h2, st2)) ∧ h2 !! l = Some s' ∧ view h2 st2 (id s) = Some s' ∧
      related now n h2 st2 (<[id s := s']> m) seen
  end.
Proof.
  intros Hr Hl Hm Hv. unfold EnsureFresh, refreshed. rewrite Hl.
  assert (related now n h st (<[id s := s]> m) seen) as Hsame.
  { rewrite insert_id by done. eapply related_less; [|exact Hr]. lia. }
  destruct (AccessValid s (at_enter ck) _); simpl; [intros _; by exists h, st|].
  destruct (AccessValid s (at_recheck ck) _); simpl; [intros _; by exists h, st|].
  destruct (refresh (RefreshToken s)) as [ts|e]; simpl; [|done]. intros Henc.
  destruct (write_back now n h st m seen l s (SetTokens s ts (at_set ck)) Hr Hl Hm Hv) as [Hr' Hv'];
    [apply applyTokens_id|apply applyTokens_created|done|].
  eexists _, _. split_and!; [done|apply lookup_insert_eq|done|done].
Qed.

Lemma touch_related g t now n h st m seen l s :
  related now (S n) h st m seen → h !! l = Some s → m !! id s = Some s → view h st (id s) = Some s →
  encodes (touched g t s) →
  related now n (touch g t h st l).1 (touch g t h st l).2 (<[id s := touched g t s]> m) seen.
Proof.
  intros Hr Hl Hm Hv. unfold touch, touched. rewrite Hl. destruct (_ || _); intros Henc.
  - by apply write_back.
  - rewrite insert_id by done. eapply related_less; [|exact Hr]. simpl. lia.
Qed.

Lemma delete_related now t n h st m seen sid :
  related now n h st m seen → sid ∈ seen → related now n h (store_Delete t st sid) (delete sid m) seen.
Proof.
  intros [Hok Hv Hn Hi] Hs. destruct (sv_Delete encodes idle_ absolute_ n t h st sid Hok) as [Hok' Hv']. split; [done| | |].
  - eapply covers_delete; [exact Hv'|done].
  - intros x Hx. destruct (Hn x Hx) as [? ?]. split; [by apply lookup_delete_None; right|].
    apply unknown_Delete; [congruence|done].
  - intros x s [_ Hx]%lookup_delete_Some. by apply Hi.
Qed.

Lemma proxy_related g ck refresh now n h st m seen w r :
  apart now (at_get ck) → related now (S (S n)) h st m seen →
  proper g {| sessions_ := m; named := seen |} (Proxied ck refresh w r) →
  ∃ h' st', ProxyWithSession g ck refresh h st w r = ((reference_proxy g ck refresh m w r).1, (h', st')) ∧
    related (at_get ck) n h' st' (reference_proxy g ck refresh m w r).2 seen.
Proof.
  intros Ha Hr Hp. assert (0 < Microsecond) as Hm by done. unfold ProxyWithSession, reference_proxy. destruct (DisableAuth g).
  { exists h, st. split; [done|]. eapply related_less; [|split; try apply Hr]; [lia|].
    eapply covers_later; [|apply Hr]. unfold apart in Ha. lia. }
  simpl in Hp. destruct (current g (at_get ck) m r) as [s|] eqn:Hc.
  - destruct (request_found _ _ _ _ _ _ _ _ _ _ Ha Hr Hc) as (l & h1 & st1 & -> & Hl & Hms & Hv & Hr1). rewrite Hl.
    destruct (negb (CheckCSRF g r s)); [exists h1, st1; split; [done|]; eapply related_less; [|done]; lia|].
    pose proof (EnsureFresh_related g ck refresh _ _ _ _ _ _ l s Hr1 Hl Hms Hv) as Hf.
    destruct (refreshed g ck refresh s) as [[access s']|e] eqn:Href.
    + destruct Hp as [Henc Henc']. destruct (Hf Henc) as (h2 & st2 & -> & Hl2 & Hv2 & Hr2).
      destruct (refreshed_id _ _ _ _ _ _ Href) as [Hid _].
      pose proof (touch_related g (at_touch ck) _ _ _ _ _ _ l s' Hr2 Hl2) as Ht. rewrite Hid, insert_insert_eq in Ht.
      destruct (touch g (at_touch ck) h2 st2 l) as [h3 st3]. exists h3, st3. split; [done|].
      apply Ht; [apply lookup_insert_eq|done|done].
    + rewrite Hf. destruct (IsFatalRefreshError e).
      * eexists _, _. split; [done|]. apply delete_related; [|by eapply related_seen].
        eapply related_less; [|done]. lia.
      * exists h1, st1. split; [done|]. eapply related_less; [|done]. lia.
  - destruct (request_missed _ _ _ _ _ _ _ _ _ Ha Hr Hc) as (st1 & -> & Hr1).
    exists h, st1. destruct (AllowPassthrough g); (split; [done|]; eapply related_less; [|done]; lia).
Qed.

Lemma signin_related now n0 n h st m seen s l h' :
  apart now n0 → related now (S n) h st m seen → id s ∉ seen → encodes s → alloc h s = (l, h') →
  related n0 n h' (store_Put h' st l) (<[id s := s]> m) ({[id s]} ∪ seen).
Proof.
  unfold apart. intros Ha [Hok Hv Hn Hi] Hs Henc [Hl ->]%alloc_fresh. assert (0 < Microsecond) as Hm by done.
  destruct (Hn _ Hs) as [_ Hunk]. destruct (sv_alloc encodes idle_ absolute_ _ _ _ _ s Hok Hl) as [Hok1 Hv1].
  destruct (sv_Put encodes idle_ absolute_ n _ st l s s Hok1 (lookup_insert_eq _ _ _) eq_refl Henc (or_introl Hunk)) as [Hok2 Hv2].
  rewrite insert_insert_eq in Hok2, Hv2. split; [done| | |].
  - apply (covers_insert _ _ _ (view h st)); [intros x; by rewrite Hv2, Hv1|]. eapply covers_later; [|done]. lia.
  - intros x [Hx%not_elem_of_singleton Hx']%not_elem_of_union. destruct (Hn _ Hx') as [? ?].
    split; [by rewrite lookup_insert_ne|]. eapply unknown_Put; [apply lookup_insert_eq|done|done].
  - intros x s0 [[<- <-]|[_ Hx]]%lookup_insert_Some; [done|by apply Hi].
Qed.

(** ** Runs *)

Definition sim_run (g : Gateway) (now : Time) (es : list event) (c : heap * St) (t : state) : Prop :=
  related now (2 * length es) c.1 c.2 (sessions_ t) (named t) ∧ proper_run g t es.

Lemma sim_run_step g now e es c t :
  apart now (when e) → sim_run g now (e :: es) c t →
  (gateway_step g c e).1 = (reference_step g t e).1 ∧ sim_run g (when e) es (gateway_step g c e).2 (reference_step g t e).2.
Proof.
  intros Ha [Hr [Hp Hrun]]. destruct c as [h st], t as [m seen]. cbn [fst snd sessions_ named] in *. unfold sim_run.
  assert (0 < Microsecond) as Hm by done.
  replace (2 * length (e :: es))%nat with (S (S (2 * length es))) in Hr by (simpl; lia).
  destruct e as [n s|ck refresh w r|n sid|n]; cbn [gateway_step when] in *.
  - destruct (alloc h s) as [l h'] eqn:Hal. split; [done|]. split; [|done]. simpl in Hp. destruct Hp as [Hf He].
    eapply signin_related; [done| |done..]. eapply related_less; [|done]. lia.
  - destruct (proxy_related _ _ _ _ _ _ _ _ _ _ _ Ha Hr Hp) as (h' & st' & Heq & Hr'). rewrite Heq.
    unfold reference_step in *. cbn [sessions_ named names] in *. destruct (reference_proxy g ck refresh m w r) as [v m'].
    split; [done|]. split; [|done]. cbn [fst snd sessions_ named] in *. by rewrite union_empty_l_L.
  - split; [done|]. split; [|done]. simpl. apply delete_related; [|set_solver].
    apply (related_less _ (S (S (2 * length es)))); [lia|]. destruct Hr as [Hok Hv Hn Hi]. split; [done| | |done].
    + eapply covers_later; [|done]. unfold apart in Ha. lia.
    + intros x Hx. apply Hn. set_solver.
  - split; [done|]. split; [|done]. simpl in *. rewrite union_empty_l_L.
    apply (related_less _ (S (S (2 * length es)))); [lia|]. destruct Hr as [Hok Hv Hn Hi].
    destruct (sv_Sweep encodes idle_ absolute_ _ n h st Hok) as [Hok' Hv']. split; [done| | |done].
    + eapply covers_drop; [exact Hv'|]. eapply covers_later; [|done]. unfold apart in Ha. lia.
    + intros x Hx. destruct (Hn x Hx) as [? ?]. split; [done|]. by apply unknown_Sweep.
Qed.

(** A gateway over a store that starts with nothing in it answers as the
    reference gateway. *)
Lemma gateway_refines (g : Gateway) (es : list event) (h : heap) (s0 : St) :
  ok (2 * length es) h s0 → (∀ x, view h s0 x = None ∧ unknown s0 x) →
  StronglySorted apart (map when es) → proper_run g state0 es →
  answers (gateway_step g) (h, s0) es = answers (reference_step g) state0 es.
Proof.
  intros Hok Hnew Hs Hp. destruct es as [|e es]; [done|]. set (now := when e - Microsecond).
  apply (simulation when apart _ _ (sim_run g)) with now; [intros; by apply (sim_run_step g now0)| |].
  - by apply sorted_from_before.
  - split; [|done]. split; [done| | |done].
    + intros x. simpl. destruct (Hnew x) as [-> _]. intros s. by rewrite lookup_empty.
    + intros x _. simpl. split; [by rewrite lookup_empty|apply Hnew].
Qed.

End simulation.
End reference.

(** * The two stores behind the gateway *)

Section stores.
Import pg pgstore.
Context `{AeadLaws, DriverLaws, !DriverGrain, SnapshotCodec}.

(** C5: as long as nothing fails, which store is behind the gateway cannot be
    observed. Take any sequence of sign-ins, proxied requests, sign-outs and
    sweeps that do not overlap and begin at least a microsecond apart, with
    whatever tokens the refresher grants or refuses, over two empty stores with
    the same limits on idle and total age. Let every statement of the database
    succeed and every read of the CSPRNG answer with a nonce; let every sign-in
    have an id that no earlier sign-in or sign-out named; and let every session
    that is stored survive its JSON encoding (its texts are valid UTF-8, its times
    have a text). Then the gateway over the store in memory and the gateway over
    PostgreSQL give the same answers and forward the same requests with the same
    bearer tokens: those of a gateway whose sessions live in a plain map. *)
Theorem gateway_store_is_unobservable (g : Gateway) (idle_ absolute_ : Duration) (es : list event) (h : heap)
    (d : Db row) (key_ : string) :
  let pg := {| db := d; key := key_; pg_idle := idle_; pg_absolute := absolute_ |} in
  idle_ ≤ int64_max ∧ absolute_ ≤ int64_max → rows d = ∅ → healthy (2 * length es) d →
  StronglySorted apart (map when es) → proper_run encodes_snapshot idle_ absolute_ g state0 es →
  answers (gateway_step g) (h, NewMemoryStore idle_ absolute_) es =
    answers (reference_step idle_ absolute_ g) state0 es ∧
  answers (gateway_step g) (h, pg) es = answers (reference_step idle_ absolute_ g) state0 es.
Proof.
  intros pg Hb Hrows Hh Hs Hp. split.
  - apply (gateway_refines encodes_snapshot idle_ absolute_ g es h); [|done..].
    split_and!; [done..|]. split; simpl; intros ? ?; by rewrite lookup_empty.
  - apply (@gateway_refines encodes_snapshot idle_ absolute_ _ _ _ (postgres_view idle_ absolute_ Hb) g es h); try done.
    + split_and!; [done..|]. simpl. intros x r. by rewrite Hrows, lookup_empty.
    + intros x. simpl. unfold pg_view, pg_unknown. simpl. by rewrite Hrows, lookup_empty.
Qed.

End stores.

(** * A browser's visit *)

Module sample.
Import gateway.Demo gateway.Durable pg pgstore pgstore.Demo sessionspec.sample.

#[local] Existing Instance demo_codec.

(** The access token has expired when the request comes: it is refreshed, and
    the session is touched; after the sign-out the request is refused. *)
Definition visit : list event :=
  [SignIn (1000 * Second) sess; Proxied (clock (2000 * Second)) rotate new_response req; Sweeping (2100 * Second);
   SignOut (2200 * Second) "s1"; Proxied (clock (2300 * Second)) rotate new_response req].

Definition database0 : Db row :=
  {| rows := ∅; outcomes := []; randoms := map Some ["n0"; "n1"; "n2"; "n3"; "n4"; "n5"; "n6"; "n7"; "n8"; "n9"];
     reported := [] |}.
Definition durable0 : PostgresStore := {| db := database0; key := "k"; pg_idle := 1200 * Second; pg_absolute := 0 |}.

Lemma gateway_store_is_unobservable_witness :
  answers (gateway_step g) (∅, NewMemoryStore (1200 * Second) 0) visit = answers (gateway_step g) (∅, durable0) visit ∧
  answers (gateway_step g) (∅, durable0) visit =
    [None; Some (Next new_response (with_header req (forward_header (req_Header req) "a2"))); None; None;
     Some (Reply (http_Error new_response "authentication required" 401))].
Proof.
  destruct (gateway_store_is_unobservable g (1200 * Second) 0 visit ∅ database0 "k") as [Hm Hp].
  - split; vm_compute; congruence.
  - reflexivity.
  - split; [reflexivity|]. exists ["n0"; "n1"; "n2"; "n3"; "n4"; "n5"; "n6"; "n7"; "n8"; "n9"].
    split; [reflexivity|]. split; [repeat constructor|simpl; lia].
  - repeat (constructor; [|vm_compute; repeat (constructor; [discriminate|]); constructor]). constructor.
  - apply (bool_decide_unpack _). vm_compute. exact I.
  - split; [exact (eq_trans Hm (eq_sym Hp))|vm_compute; reflexivity].
Defined.

End sample.

End gatewayspec.
