(* ===== verification/Pep.v ===== *)
(** The policy enforcement point (package [pep], src/pep/pep.go) and the policy
    types of package [socrate] (src/socrate/policy.go): which checks proceed,
    which are refused and with what, in every mode and during outages. *)

From S2P Require Import Prelude GoText GoJson CtxUtil Http SocrateToken.

Module policy.

(** [socrate/policy.go:21-21] *)
Definition PolicyModeOff : string := "off".
(** [socrate/policy.go:22-22] *)
Definition PolicyModeShadow : string := "shadow".
(** [socrate/policy.go:23-23] *)
Definition PolicyModeEnforce : string := "enforce".

(** [socrate/policy.go:29-29] *)
Definition ObligationFreshAuth : string := "require_fresh_auth".
(** [socrate/policy.go:30-30] *)
Definition ObligationMFA : string := "require_mfa".

(** [socrate/policy.go:35-35] *)
Definition ErrPolicyUnavailable : string := "socrate: policy unavailable".
(** [socrate/policy.go:40-40] *)
Definition ErrPolicyRequestRejected : string := "socrate: policy decide request rejected".

(** [socrate/policy.go: PolicySubject] *)
Record PolicySubject := { ps_Token : string; ps_UserID : Z }.
(** [socrate/policy.go: PolicyResource] *)
Record PolicyResource := { pr_Type : string; pr_ID : string; pr_Attributes : any_map }.
(** [socrate/policy.go: PolicyContext] *)
Record PolicyContext := { pc_IP : string; pc_Attributes : any_map }.
(** [socrate/policy.go: DecideRequest] *)
Record DecideRequest := {
  Subject : option PolicySubject;
  Action : string;
  Resource : PolicyResource;
  Context_ : PolicyContext;
  PEPMode : string;
}.
(** [socrate/policy.go: Decision] *)
Record Decision := {
  Allow : bool;
  Rule : string;
  Reason : string;
  Obligations : list string;
  PolicyVersion : Z;
  Mode : string;
  PEPModeAccepted : bool;
}.

Definition with_pep_mode (r : DecideRequest) (m : string) : DecideRequest :=
  {| Subject := Subject r; Action := Action r; Resource := Resource r; Context_ := Context_ r; PEPMode := m |}.

End policy.

Module pep.
Import policy.

(** [pep/pep.go: DefaultFreshAuthMaxAge] *)
Definition DefaultFreshAuthMaxAge : Duration := 5 * Minute.

(** [pep/pep.go:58-58] *)
Definition CodeDenied : string := "policy_denied".
(** [pep/pep.go:59-59] *)
Definition CodeElevationRequired : string := "elevation_required".
(** [pep/pep.go:60-60] *)
Definition CodeMFARequired : string := "mfa_required".
(** [pep/pep.go:61-61] *)
Definition CodeUnavailable : string := "policy_unavailable".
(** [pep/pep.go:62-62] *)
Definition CodeUnauthenticated : string := "unauthenticated".

(** [pep/pep.go: Decider]
    A decision and an error, each possibly nil. The number says which call of
    one check it is: the decision point may answer a retry differently. *)
Definition Decider := nat → DecideRequest → option Decision * option socrate.goerr.

(** [pep/pep.go: Config] *)
Record Config := {
  HasDecider : bool;
  FreshAuthMaxAge : Duration;
  FailOpenWhenModeUnknown : bool;
  MinimumMode : string;
}.

(** [pep/pep.go: Enforcer]
    With the calls made to OnDecision, in order. *)
Record Enforcer := {
  cfg : Config;
  lastMode : option string;
  pepModeAccepted : bool;
  reports : list (string * option Decision * bool * option socrate.goerr);
}.

(** [pep/pep.go: modeRank] *)
Definition modeRank (mode : string) : option Z :=
  if String.eqb mode PolicyModeOff then Some 0
  else if String.eqb mode PolicyModeShadow then Some 1
  else if String.eqb mode PolicyModeEnforce then Some 2
  else None.

(** [pep/pep.go: New] *)
Definition New (c : Config) : result string Enforcer :=
  if negb (HasDecider c) then Err "pep: Decider is required"
  else
    let floor := if String.eqb (MinimumMode c) "" then PolicyModeOff else MinimumMode c in
    match modeRank floor with
    | None => Err "pep: MinimumMode must be off, shadow or enforce"
    | Some _ =>
        if String.eqb floor PolicyModeEnforce && FailOpenWhenModeUnknown c then
          Err "pep: MinimumMode enforce and FailOpenWhenModeUnknown contradict each other"
        else Ok {| cfg := {| HasDecider := true;
                             FreshAuthMaxAge := if FreshAuthMaxAge c <=? 0 then DefaultFreshAuthMaxAge
                                                else FreshAuthMaxAge c;
                             FailOpenWhenModeUnknown := FailOpenWhenModeUnknown c;
                             MinimumMode := floor |};
                   lastMode := None; pepModeAccepted := false; reports := [] |}
    end.

(** [pep/pep.go: Denial] *)
Record Denial := { Code : string; Status : Z; Decision_ : option Decision }.

(** [pep/pep.go: Denial.Error] *)
Definition Denial_Error (d : Denial) : string := "pep: " +:+ Code d.

(** The outcome of a check: a nil error, a denial, or the nil dereference of a
    decider that answers neither a decision nor an error. *)
Inductive outcome := Proceed | Refuse (d : Denial) | NilDecision.

Definition set_lastMode (e : Enforcer) (m : string) : Enforcer :=
  {| cfg := cfg e; lastMode := Some m; pepModeAccepted := pepModeAccepted e; reports := reports e |}.
Definition set_accepted (e : Enforcer) (b : bool) : Enforcer :=
  {| cfg := cfg e; lastMode := lastMode e; pepModeAccepted := b; reports := reports e |}.

(** [pep/pep.go: Enforcer.report] *)
Definition report (e : Enforcer) (action : string) (d : option Decision) (enforced : bool)
    (err : option socrate.goerr) : Enforcer :=
  {| cfg := cfg e; lastMode := lastMode e; pepModeAccepted := pepModeAccepted e;
     reports := reports e ++ [(action, d, enforced, err)] |}.

(** [pep/pep.go: Enforcer.effectiveMode] *)
Definition effectiveMode (e : Enforcer) (server : string) : string :=
  match modeRank server with
  | None =>
      if negb (String.eqb server "") then server
      else if 0 <? default 0 (modeRank (MinimumMode (cfg e))) then MinimumMode (cfg e) else server
  | Some r =>
      if r <? default 0 (modeRank (MinimumMode (cfg e))) then MinimumMode (cfg e) else server
  end.

(** [pep/pep.go: Enforcer.unmetObligation] *)
Fixpoint unmetObligation (e : Enforcer) (now : Time) (ctx : ctxutil.context) (obligations : list string)
  : string :=
  match obligations with
  | [] => ""
  | o :: rest =>
      if String.eqb o ObligationFreshAuth then
        let at_ := ctxutil.GetAuthTime ctx in
        if (at_ =? 0) || (FreshAuthMaxAge (cfg e) <? time_Sub now (time_Unix at_)) then o
        else unmetObligation e now ctx rest
      else if String.eqb o ObligationMFA then
        if negb (contains (default [] (ctxutil.GetAMR ctx)) "mfa") then o
        else unmetObligation e now ctx rest
      else o
  end.

(** [pep/pep.go: Enforcer.decide] *)
Definition decide_ (e : Enforcer) (dec : Decider) (req : DecideRequest)
  : (option Decision * option socrate.goerr) * Enforcer :=
  let sent := negb (String.eqb (MinimumMode (cfg e)) PolicyModeOff) && pepModeAccepted e in
  let first := dec 0%nat (if sent then with_pep_mode req (MinimumMode (cfg e)) else req) in
  let rejected := match first.2 with
                  | Some err => socrate.errors_Is err ErrPolicyRequestRejected
                  | None => false
                  end in
  let '(ans, e) := if sent && rejected then (dec 1%nat (with_pep_mode req ""), set_accepted e false)
                   else (first, e) in
  match ans with
  | (Some d, None) => (ans, set_accepted e (PEPModeAccepted d))
  | _ => (ans, e)
  end.

(** [pep/pep.go: Enforcer.unavailable] *)
Definition unavailable (e : Enforcer) (d : option Decision) : option Denial * Enforcer :=
  let reported := match d with
                  | Some d => if negb (String.eqb (Mode d) "") then Some (Mode d) else None
                  | None => None
                  end in
  let '(mode, e) := match reported with
                    | Some m => (m, set_lastMode e m)
                    | None => (default "" (lastMode e), e)
                    end in
  let mode := if negb (String.eqb mode "") || String.eqb (MinimumMode (cfg e)) PolicyModeEnforce
              then effectiveMode e mode else mode in
  let refuse := Some {| Code := CodeUnavailable; Status := 503; Decision_ := d |} in
  if String.eqb mode PolicyModeOff || String.eqb mode PolicyModeShadow then (None, e)
  else if String.eqb mode "" then
    (if FailOpenWhenModeUnknown (cfg e) then None else refuse, e)
  else (refuse, e).

(** [pep/pep.go: Enforcer.check] *)
Definition check (e : Enforcer) (dec : Decider) (now : Time) (ctx : ctxutil.context) (req : DecideRequest)
  : outcome * Enforcer :=
  match decide_ e dec req with
  | ((d, Some err), e) =>
      let '(denial, e) := unavailable e d in
      (match denial with Some x => Refuse x | None => Proceed end,
       report e (Action req) d (match denial with Some _ => true | None => false end) (Some err))
  | ((None, None), e) => (NilDecision, e)
  | ((Some d, None), e) =>
      let e := set_lastMode e (Mode d) in
      let unmet := if Allow d then unmetObligation e now ctx (Obligations d) else "" in
      let allowed := Allow d && String.eqb unmet "" in
      let mode := effectiveMode e (Mode d) in
      if allowed || String.eqb mode PolicyModeOff then (Proceed, report e (Action req) (Some d) false None)
      else if String.eqb mode PolicyModeShadow then (Proceed, report e (Action req) (Some d) false None)
      else
        let code := if String.eqb unmet ObligationFreshAuth then CodeElevationRequired
                    else if String.eqb unmet ObligationMFA then CodeMFARequired else CodeDenied in
        (Refuse {| Code := code; Status := 403; Decision_ := Some d |},
         report e (Action req) (Some d) true None)
  end.

(** [pep/pep.go: Enforcer.Check] *)
Definition Check_ (e : Enforcer) (dec : Decider) (now : Time) (ctx : ctxutil.context)
    (action : string) (resource : PolicyResource) (pctx : PolicyContext) : outcome * Enforcer :=
  let token := ctxutil.GetRawJWT ctx in
  if String.eqb token "" then
    (Refuse {| Code := CodeUnauthenticated; Status := 401; Decision_ := None |}, e)
  else check e dec now ctx
         {| Subject := Some {| ps_Token := token; ps_UserID := 0 |}; Action := action;
            Resource := resource; Context_ := pctx; PEPMode := "" |}.

(** [pep/pep.go: Enforcer.CheckAsApp] *)
Definition CheckAsApp (e : Enforcer) (dec : Decider) (now : Time) (ctx : ctxutil.context)
    (action : string) (resource : PolicyResource) : outcome * Enforcer :=
  check e dec now ctx
    {| Subject := None; Action := action; Resource := resource;
       Context_ := {| pc_IP := ""; pc_Attributes := None |}; PEPMode := "" |}.

(** [pep/pep.go: WriteDenial]
    The error is nil, a denial or another one; the result says whether a
    response was written. *)
Definition WriteDenial (w : ResponseWriter) (err : option (option Denial)) : bool * ResponseWriter :=
  match err with
  | None => (false, w)
  | Some d =>
      let '(status, code) := match d with Some d => (Status d, Code d) | None => (500, "internal_error") end in
      let w := rw_set_header w "Content-Type" "application/json" in
      (true, rw_encode (rw_write_header w status) (JObj [("error", JStr code)]))
  end.

(** [pep/pep.go: ContextFor] *)
Definition ContextFor (r : Request) : PolicyContext :=
  {| pc_IP := default (req_RemoteAddr r) (SplitHost (req_RemoteAddr r)); pc_Attributes := None |}.

(** [pep/pep.go: Route] *)
Definition Route := Request → option (string * PolicyResource).

(** [pep/pep.go: Enforcer.Middleware]
    [None] stands for the panic of a decider that answers nothing. *)
Definition Middleware (e : Enforcer) (dec : Decider) (now : Time) (route : Route)
    (w : ResponseWriter) (r : Request) : option verdict * Enforcer :=
  match route r with
  | None => (Some (Next w r), e)
  | Some (action, resource) =>
      let '(o, e) := Check_ e dec now (req_ctx r) action resource (ContextFor r) in
      let answer err := let '(written, w') := WriteDenial w err in if written : bool then Reply w' else Next w r in
      (match o with
       | Proceed => Some (answer None)
       | Refuse d => Some (answer (Some (Some d)))
       | NilDecision => None
       end, e)
  end.

(** * Lemmas *)

(** An enforcer as [New] builds it, through any number of checks. *)
Definition configured (e : Enforcer) : Prop :=
  is_Some (modeRank (MinimumMode (cfg e))) ∧
  (MinimumMode (cfg e) = PolicyModeEnforce → FailOpenWhenModeUnknown (cfg e) = false) ∧
  0 < FreshAuthMaxAge (cfg e).

Lemma New_configured c e : New c = Ok e → configured e.
Proof.
  unfold New. destruct (HasDecider c); [|done]. simpl.
  destruct (modeRank _) as [r|] eqn:Hr; [|done].
  destruct (_ && _) eqn:Hb; [done|]. intros [= <-]. split_and!; simpl; [by rewrite Hr| |].
  - intros Hf. rewrite Hf in Hb. simpl in Hb. done.
  - destruct (FreshAuthMaxAge c <=? 0) eqn:Hf; bool_to_prop; [done|lia].
Qed.

Lemma modeRank_Some m r : modeRank m = Some r ↔
  m = PolicyModeOff ∧ r = 0 ∨ m = PolicyModeShadow ∧ r = 1 ∨ m = PolicyModeEnforce ∧ r = 2.
Proof.
  unfold modeRank. split.
  - destruct (String.eqb_spec m PolicyModeOff); [naive_solver|].
    destruct (String.eqb_spec m PolicyModeShadow); [naive_solver|].
    destruct (String.eqb_spec m PolicyModeEnforce); naive_solver.
  - by intros [[-> ->]|[[-> ->]|[-> ->]]].
Qed.

Lemma decide_cfg e dec req : cfg (decide_ e dec req).2 = cfg e ∧
  lastMode (decide_ e dec req).2 = lastMode e ∧ reports (decide_ e dec req).2 = reports e.
Proof. unfold decide_. repeat case_match; simplify_eq; done. Qed.

Lemma unavailable_cfg e d : cfg (unavailable e d).2 = cfg e ∧ reports (unavailable e d).2 = reports e.
Proof. unfold unavailable. repeat case_match; simplify_eq; done. Qed.

(** Checks keep the configuration and report once each. *)
Lemma check_frame e dec now ctx req :
  cfg (check e dec now ctx req).2 = cfg e ∧
  ((check e dec now ctx req).1 ≠ NilDecision →
   ∃ d err, reports (check e dec now ctx req).2 =
     reports e ++ [(Action req, d, match (check e dec now ctx req).1 with Refuse _ => true | _ => false end, err)]).
Proof.
  unfold check. destruct (decide_cfg e dec req) as (Hc & _ & Hr).
  destruct decide_ as [[[d|] [err|]] e1]; simpl in *.
  - destruct (unavailable_cfg e1 (Some d)) as [Hc' Hr'].
    destruct unavailable as [[x|] e2]; simpl in *; rewrite Hc', Hr', Hc, Hr; (split; [done|intros _; eexists _, _; reflexivity]).
  - repeat case_match; simplify_eq; simpl; rewrite Hc, Hr; (split; [done|intros _; eexists _, _; reflexivity]).
  - destruct (unavailable_cfg e1 None) as [Hc' Hr'].
    destruct unavailable as [[x|] e2]; simpl in *; rewrite Hc', Hr', Hc, Hr; (split; [done|intros _; eexists _, _; reflexivity]).
  - rewrite Hc. by split.
Qed.

(** An obligation the token of the request satisfies. *)
Definition honoured (e : Enforcer) (now : Time) (ctx : ctxutil.context) (o : string) : Prop :=
  (o = ObligationFreshAuth ∧ ctxutil.GetAuthTime ctx ≠ 0 ∧
    time_Sub now (time_Unix (ctxutil.GetAuthTime ctx)) ≤ FreshAuthMaxAge (cfg e)) ∨
  (o = ObligationMFA ∧ "mfa" ∈ default [] (ctxutil.GetAMR ctx)).

(** The obligations [unmetObligation] gets to look at: its result for an empty
    name reads as nothing unmet, so an empty name hides those after it. *)
Fixpoint heeded (os : list string) : list string :=
  match os with
  | [] => []
  | o :: os => if String.eqb o "" then [] else o :: heeded os
  end.

Lemma heeded_named os : "" ∉ os → heeded os = os.
Proof.
  induction os as [|o os IH]; intros Hne; [done|]. apply not_elem_of_cons in Hne as [Ho Hne]. simpl.
  rewrite (proj2 (String.eqb_neq _ _)) by done. by rewrite IH.
Qed.

(** They are met exactly when the token honours each of them, an obligation
    this version does not know counting as unmet. *)
Lemma unmetObligation_heeded e now ctx os :
  unmetObligation e now ctx os = "" ↔ Forall (honoured e now ctx) (heeded os).
Proof.
  unfold honoured. induction os as [|o os IH]; simpl; [by split|].
  destruct (String.eqb_spec o "") as [->|Ho]; [by split|]. rewrite Forall_cons.
  destruct (String.eqb_spec o ObligationFreshAuth) as [->|H1].
  - destruct (Z.eqb_spec (ctxutil.GetAuthTime ctx) 0); simpl; [naive_solver|].
    destruct (_ <? _) eqn:Hlt; bool_to_prop.
    + split; [done|]. intros [[(_ & _ & ?)|[? _]] _]; [lia|done].
    + rewrite IH. naive_solver.
  - destruct (String.eqb_spec o ObligationMFA) as [->|H2].
    + destruct (contains _ "mfa") eqn:Hc; simpl.
      * apply contains_spec in Hc. rewrite IH. naive_solver.
      * apply contains_false in Hc. naive_solver.
    + naive_solver.
Qed.

(** * What proceeds *)

(** The answer [check] acts on. *)
Definition answer (e : Enforcer) (dec : Decider) (req : DecideRequest)
  : option Decision * option socrate.goerr := (decide_ e dec req).1.

Lemma enforce_floor_iff (e : Enforcer) (dec : Decider) (now : Time)
    (ctx : ctxutil.context) (req : DecideRequest) :
  configured e → MinimumMode (cfg e) = PolicyModeEnforce →
  ((check e dec now ctx req).1 = Proceed ↔
   ∃ d, answer e dec req = (Some d, None) ∧ Allow d = true ∧
     Forall (honoured e now ctx) (heeded (Obligations d))).
Proof.
  setoid_rewrite <- unmetObligation_heeded. intros (_ & Hopen & _) Hfloor. specialize (Hopen Hfloor). unfold check, answer.
  destruct (decide_cfg e dec req) as (Hc & Hl & _).
  destruct decide_ as [[d err] e1] eqn:Hd; simpl in *.
  assert (∀ e' m, cfg e' = cfg e → effectiveMode e' m ≠ PolicyModeOff ∧
            effectiveMode e' m ≠ PolicyModeShadow ∧ effectiveMode e' m ≠ "") as Heff.
  { intros e' m He. unfold effectiveMode. rewrite He, Hfloor. simpl.
    destruct (modeRank m) as [r|] eqn:Hr.
    - apply modeRank_Some in Hr as [[-> ->]|[[-> ->]|[-> ->]]]; done.
    - destruct (String.eqb_spec m ""); simpl; [done|]. split_and!; [| |done].
      all: by intros ->. }
  destruct err as [err|].
  - destruct (unavailable e1 d) as [x e2] eqn:Hu. simpl.
    assert (∀ o en, match d with Some _ | _ => (o, en) end.1 = o) as -> by (by destruct d).
    destruct x as [x|]; [split; [done|by intros (? & ? & _)]|].
    exfalso. revert Hu. unfold unavailable.
    set (p := match _ with Some m => _ | None => _ end).
    assert (cfg p.2 = cfg e) as Hp by (unfold p; repeat case_match; done).
    destruct p as [m e']. simpl in Hp. rewrite Hp, Hfloor, orb_true_r.
    destruct (Heff e' m Hp) as (H1 & H2 & H3).
    rewrite (proj2 (String.eqb_neq _ _) H1), (proj2 (String.eqb_neq _ _) H2),
      (proj2 (String.eqb_neq _ _) H3). done.
  - destruct d as [d|]; [|split; [done|by intros (? & ? & _)]].
    assert (∀ os, unmetObligation (set_lastMode e1 (Mode d)) now ctx os = unmetObligation e now ctx os) as Hun.
    { induction os as [|o os IH]; simpl; [done|]. by rewrite IH, Hc. }
    rewrite Hun. destruct (Heff (set_lastMode e1 (Mode d)) (Mode d) Hc) as (H1 & H2 & _).
    rewrite (proj2 (String.eqb_neq _ _) H1), (proj2 (String.eqb_neq _ _) H2), orb_false_r.
    destruct (Allow d) eqn:Ha; simpl; [|split; [done|intros (? & [= <-] & ? & _); congruence]].
    destruct (String.eqb_spec (unmetObligation e now ctx (Obligations d)) ""); [by split; eauto|].
    split; [done|by intros (? & [= <-] & _ & ?)].
Qed.

(** C14: an enforcer built by New with an enforce floor is strict whatever the
    server reports. A check proceeds exactly when a decision arrived without an
    error that allows the action and of whose obligations every one that precedes
    the first with an empty name is honoured by the context of the request: a
    sign-in no older than the configured age, a sign-in with a second factor, and
    nothing else. So if no obligation has an empty name, all of them are
    honoured; one that has is taken for met and hides those after it, which the
    code does not intend. A denial, an obligation not honoured or unknown, an
    error, a server in off, shadow or any unknown mode and a process that has
    seen no decision yet never proceed. *)
Theorem enforce_floor_is_strict (e : Enforcer) (dec : Decider) (now : Time)
    (ctx : ctxutil.context) (req : DecideRequest) :
  configured e → MinimumMode (cfg e) = PolicyModeEnforce →
  ((check e dec now ctx req).1 = Proceed ↔
   ∃ d, answer e dec req = (Some d, None) ∧ Allow d = true ∧ Forall (honoured e now ctx) (heeded (Obligations d))) ∧
  (∀ d, answer e dec req = (Some d, None) → "" ∉ Obligations d →
   ((check e dec now ctx req).1 = Proceed ↔ Allow d = true ∧ Forall (honoured e now ctx) (Obligations d))).
Proof.
  intros Hc Hf. pose proof (enforce_floor_iff e dec now ctx req Hc Hf) as Hiff. split; [done|].
  intros d Hd Hne. rewrite Hiff. split.
  - intros (d' & Hd' & Ha & Ho). rewrite Hd in Hd'. injection Hd' as <-. by rewrite heeded_named in Ho.
  - intros [Ha Ho]. exists d. by rewrite heeded_named.
Qed.

(** The effective mode is the stricter of the server's and the floor: for a
    mode this version knows its rank is the maximum of the two; a mode it does
    not know stays as it is, so a check treats it as enforce. *)
Theorem effectiveMode_is_stricter (e : Enforcer) (server : string) (floor : Z) :
  modeRank (MinimumMode (cfg e)) = Some floor →
  match modeRank server with
  | Some r => modeRank (effectiveMode e server) = Some (Z.max r floor)
  | None => server ≠ "" → effectiveMode e server = server
  end.
Proof.
  intros Hf. unfold effectiveMode. rewrite Hf. simpl. destruct (modeRank server) as [r|] eqn:Hr.
  - destruct (r <? floor) eqn:Hlt; bool_to_prop; rewrite ?Hf, ?Hr; f_equal; lia.
  - intros Hne. by rewrite (proj2 (String.eqb_neq _ _) Hne).
Qed.

(** An outage is judged by the last mode seen: after a decision that carried
    a mode, a check whose decision point cannot be reached proceeds exactly when
    that mode, raised to the floor, is off or shadow; otherwise it is refused
    with 503. *)
Theorem outage_uses_last_mode (e : Enforcer) (dec dec' : Decider) (now now' : Time)
    (ctx ctx' : ctxutil.context) (req req' : DecideRequest) (d : Decision) (err : socrate.goerr) :
  answer e dec req = (Some d, None) → Mode d ≠ "" →
  let e1 := (check e dec now ctx req).2 in
  answer e1 dec' req' = (None, Some err) →
  let o := (check e1 dec' now' ctx' req').1 in
  let m := effectiveMode e (Mode d) in
  (o = Proceed ↔ m = PolicyModeOff ∨ m = PolicyModeShadow) ∧
  (o = Proceed ∨ o = Refuse {| Code := CodeUnavailable; Status := 503; Decision_ := None |}).
Proof.
  intros Ha Hm e1 Ha1. simpl.
  assert (cfg e1 = cfg e ∧ lastMode e1 = Some (Mode d)) as [Hc1 Hl1].
  { split; [apply check_frame|]. unfold e1, check. unfold answer in Ha.
    destruct (decide_ e dec req) as [ans e0]. simpl in Ha. rewrite Ha. by repeat case_match. }
  clearbody e1. unfold check. unfold answer in Ha1.
  destruct (decide_cfg e1 dec' req') as (Hc2 & Hl2 & _).
  destruct (decide_ e1 dec' req') as [ans e2]. simpl in Ha1, Hc2, Hl2. rewrite Ha1.
  unfold unavailable. rewrite Hl2, Hl1. simpl. rewrite (proj2 (String.eqb_neq _ _) Hm). simpl.
  assert (effectiveMode e2 (Mode d) = effectiveMode e (Mode d)) as ->.
  { unfold effectiveMode. by rewrite Hc2, Hc1. }
  set (m := effectiveMode e (Mode d)).
  assert (m ≠ "") as Hne.
  { unfold m, effectiveMode.
    destruct (modeRank (Mode d)) as [r|] eqn:Hr; [|by rewrite (proj2 (String.eqb_neq _ _) Hm)].
    destruct (_ <? _) eqn:Hlt; [|done]. intros Hmin. rewrite Hmin in Hlt.
    apply modeRank_Some in Hr as [[_ ->]|[[_ ->]|[_ ->]]]; done. }
  destruct (String.eqb_spec m PolicyModeOff), (String.eqb_spec m PolicyModeShadow); simpl;
    [split; [naive_solver|by left]..|].
  rewrite (proj2 (String.eqb_neq _ _) Hne). simpl. split; [naive_solver|by right].
Qed.

(** Reporting the floor to the server never costs a decision: against a
    server that rejects every request carrying pep_mode, the answer is the one
    it gives to the plain request, and the next check no longer sends it. *)
Theorem pep_mode_never_costs_a_decision (e : Enforcer) (dec : Decider) (req : DecideRequest)
    (a : option Decision * option socrate.goerr) (rejection : socrate.goerr) :
  PEPMode req = "" → socrate.errors_Is rejection ErrPolicyRequestRejected = true →
  (∀ i q, PEPMode q ≠ "" → dec i q = (None, Some rejection)) →
  (∀ i, dec i req = a) → is_Some (modeRank (MinimumMode (cfg e))) →
  answer e dec req = a ∧
  match a with
  | (Some d, None) => pepModeAccepted (decide_ e dec req).2 = PEPModeAccepted d
  | _ => MinimumMode (cfg e) ≠ PolicyModeOff → pepModeAccepted (decide_ e dec req).2 = false
  end.
Proof.
  intros Hq Hrej Hold Hplain [r Hfloor]. unfold answer, decide_.
  assert (with_pep_mode req "" = req) as Hreq by (destruct req; simpl in *; by subst).
  destruct (negb _ && pepModeAccepted e) eqn:Hsent.
  - rewrite Hold; [|simpl; intros Hm; rewrite Hm in Hfloor; done]. simpl. rewrite Hrej, Hreq, Hplain.
    by destruct a as [[d|] [err|]].
  - rewrite Hplain. simpl. destruct a as [[d|] [err|]]; simpl; (split; [done|]); try done.
    all: intros Hne; apply (proj2 (String.eqb_neq _ _)) in Hne; rewrite Hne in Hsent; simpl in Hsent; done.
Qed.

(** What a request that passes the middleware was allowed. *)
Lemma Middleware_Next (e : Enforcer) (dec : Decider) (now : Time) (route : Route)
    (w w' : ResponseWriter) (r r' : Request) (action : string) (resource : PolicyResource) :
  configured e → MinimumMode (cfg e) = PolicyModeEnforce → route r = Some (action, resource) →
  (Middleware e dec now route w r).1 = Some (Next w' r') →
  w' = w ∧ r' = r ∧ ctxutil.GetRawJWT (req_ctx r) ≠ "" ∧
  ∃ d, answer e dec {| Subject := Some {| ps_Token := ctxutil.GetRawJWT (req_ctx r); ps_UserID := 0 |};
                       Action := action; Resource := resource; Context_ := ContextFor r;
                       PEPMode := "" |} = (Some d, None) ∧
    Allow d = true ∧ Forall (honoured e now (req_ctx r)) (heeded (Obligations d)).
Proof.
  intros Hcfg Hfloor Hr. unfold Middleware, Check_. rewrite Hr.
  destruct (String.eqb_spec (ctxutil.GetRawJWT (req_ctx r)) "") as [He|He]; [done|].
  set (q := {| Subject := _ |}).
  pose proof (enforce_floor_iff e dec now (req_ctx r) q Hcfg Hfloor) as Hiff.
  destruct (check e dec now (req_ctx r) q) as [o e1]. destruct o; simpl in *; [|done|done].
  intros [= <- <-]. split_and!; [done..|]. by apply Hiff.
Qed.

(** Behind the middleware with an enforce floor, the handler runs for a
    gated route only on the request as it came, for a user whose verified token
    was sent as the subject of a decision on exactly that action and resource,
    and which allowed it; a request without a token is refused with 401 without
    asking anyone. *)
Theorem middleware_enforces (e : Enforcer) (dec : Decider) (now : Time) (route : Route)
    (w w' : ResponseWriter) (r r' : Request) (action : string) (resource : PolicyResource) :
  configured e → MinimumMode (cfg e) = PolicyModeEnforce → route r = Some (action, resource) →
  (Middleware e dec now route w r).1 = Some (Next w' r') →
  w' = w ∧ r' = r ∧ ctxutil.GetRawJWT (req_ctx r) ≠ "" ∧
  ∃ d, answer e dec {| Subject := Some {| ps_Token := ctxutil.GetRawJWT (req_ctx r); ps_UserID := 0 |};
                       Action := action; Resource := resource; Context_ := ContextFor r;
                       PEPMode := "" |} = (Some d, None) ∧
    Allow d = true ∧ Forall (honoured e now (req_ctx r)) (heeded (Obligations d)).
Proof. apply Middleware_Next. Qed.

(** An obligation whose name is empty is dropped, together with those after it:
    the MFA obligation below is not checked, although the token carries no MFA. *)
Theorem empty_obligation_is_dropped (e : Enforcer) (now : Time) :
  unmetObligation e now ctxutil.Background [""; ObligationMFA] = "" ∧
  unmetObligation e now ctxutil.Background [ObligationMFA] = ObligationMFA.
Proof. done. Qed.

(** * Examples *)

Definition demo_enforcer : Enforcer :=
  {| cfg := {| HasDecider := true; FreshAuthMaxAge := DefaultFreshAuthMaxAge;
               FailOpenWhenModeUnknown := false; MinimumMode := PolicyModeEnforce |};
     lastMode := None; pepModeAccepted := true; reports := [] |}.
Definition demo_req : DecideRequest :=
  {| Subject := None; Action := "invoice.read";
     Resource := {| pr_Type := "invoice"; pr_ID := ""; pr_Attributes := None |};
     Context_ := {| pc_IP := ""; pc_Attributes := None |}; PEPMode := "" |}.
Definition demo_decision : Decision :=
  {| Allow := true; Rule := "r"; Reason := ""; Obligations := [ObligationMFA]; PolicyVersion := 1;
     Mode := PolicyModeShadow; PEPModeAccepted := true |}.
Definition demo_rejection : socrate.goerr := socrate.EWrap "decide" (socrate.ESentinel ErrPolicyRequestRejected).
(** A server that rejects pep_mode and allows everything else. *)
Definition demo_decider : Decider := λ _ q,
  if String.eqb (PEPMode q) "" then (Some demo_decision, None) else (None, Some demo_rejection).
Definition demo_down : Decider := λ _ _, (None, Some (socrate.EMsg "connection refused")).
Definition demo_ctx : ctxutil.context :=
  ctxutil.WithAMR (ctxutil.WithRawJWT ctxutil.Background "tok") (Some ["pwd"; "mfa"]).

Lemma demo_configured : configured demo_enforcer.
Proof. split_and!; [by eexists|done|done]. Qed.

(** With the second factor the check proceeds, without it it does not. *)
Lemma enforce_floor_is_strict_witness :
  (check demo_enforcer demo_decider 0 demo_ctx demo_req).1 = Proceed ∧
  Forall (honoured demo_enforcer 0 demo_ctx) (Obligations demo_decision) ∧
  (check demo_enforcer demo_decider 0 (ctxutil.WithRawJWT ctxutil.Background "tok") demo_req).1 ≠ Proceed.
Proof.
  assert (Hne : "" ∉ Obligations demo_decision).
  { apply (bool_decide_unpack _). vm_compute. exact I. }
  pose proof (enforce_floor_is_strict demo_enforcer demo_decider 0 demo_ctx demo_req demo_configured eq_refl) as [_ H].
  assert (Hp : (check demo_enforcer demo_decider 0 demo_ctx demo_req).1 = Proceed) by (vm_compute; reflexivity).
  split; [exact Hp|]. split; [|vm_compute; discriminate].
  exact (proj2 (proj1 (H demo_decision eq_refl Hne) Hp)).
Defined.

Lemma effectiveMode_is_stricter_witness :
  modeRank (effectiveMode demo_enforcer PolicyModeShadow) = Some (Z.max 1 2).
Proof. exact (effectiveMode_is_stricter demo_enforcer PolicyModeShadow 2 eq_refl). Defined.

Lemma outage_uses_last_mode_witness :
  let e1 := (check demo_enforcer demo_decider 0 demo_ctx demo_req).2 in
  (check e1 demo_down 1 demo_ctx demo_req).1 = Proceed ∨
  (check e1 demo_down 1 demo_ctx demo_req).1 =
    Refuse {| Code := CodeUnavailable; Status := 503; Decision_ := None |}.
Proof.
  refine (proj2 (outage_uses_last_mode demo_enforcer demo_decider demo_down 0 1 demo_ctx demo_ctx demo_req
    demo_req demo_decision (socrate.EMsg "connection refused") _ _ _)).
  - vm_compute. reflexivity.
  - discriminate.
  - vm_compute. reflexivity.
Defined.

Lemma pep_mode_never_costs_a_decision_witness :
  answer demo_enforcer demo_decider demo_req = (Some demo_decision, None).
Proof.
  refine (proj1 (pep_mode_never_costs_a_decision demo_enforcer demo_decider demo_req
    (Some demo_decision, None) demo_rejection eq_refl eq_refl _ _ _)).
  - intros i q Hq. unfold demo_decider. by rewrite (proj2 (String.eqb_neq _ _) Hq).
  - reflexivity.
  - by eexists.
Defined.

Definition demo_request : Request :=
  {| req_Method := "GET"; req_Path := "/"; req_RawQuery := ""; req_Pattern := ""; req_RemoteAddr := "10.0.0.1:80";
     req_Header := ∅; req_ctx := demo_ctx |}.
Definition demo_route : Route := λ _, Some ("invoice.read", Resource demo_req).

Lemma middleware_enforces_witness :
  new_response = new_response ∧ demo_request = demo_request ∧ ctxutil.GetRawJWT demo_ctx ≠ "".
Proof.
  destruct (middleware_enforces demo_enforcer demo_decider 0 demo_route new_response new_response demo_request
    demo_request "invoice.read" (Resource demo_req) demo_configured eq_refl eq_refl) as (H1 & H2 & H3 & _).
  - vm_compute. reflexivity.
  - exact (conj H1 (conj H2 H3)).
Defined.

End pep.
