(* ===== verification/Tiering.v ===== *)
(** Plan-based feature gating (package [tiering]): the plan registry
    (src/tiering/plan.go), the route gate (gate.go), the policy cells
    (policy.go) and the cached policy service (policy_service.go) against the
    interface of its repository. *)

From S2P Require Import Prelude GoText GoJson CtxUtil Http ApiError.

Module tiering.

(** * plan.go *)

(** [tiering/plan.go:45-45] *)
Definition PlanFreemium : string := "freemium".
(** [tiering/plan.go:46-46] *)
Definition PlanPro : string := "pro".
(** [tiering/plan.go:47-47] *)
Definition PlanEnterprise : string := "enterprise".

(** [tiering/plan.go: PlanRegistry] *)
Record PlanRegistry := { plans : list string; index : gmap string nat }.

Definition add_plan (r : PlanRegistry) (p : string) : PlanRegistry :=
  match index r !! p with
  | Some _ => r
  | None => {| plans := plans r ++ [p]; index := <[p := length (plans r)]> (index r) |}
  end.

(** [tiering/plan.go: NewPlanRegistry] *)
Definition NewPlanRegistry (ps : list string) : PlanRegistry :=
  fold_left add_plan ps {| plans := []; index := ∅ |}.

(** [tiering/plan.go: DefaultRegistry] *)
Definition DefaultRegistry : PlanRegistry := NewPlanRegistry [PlanFreemium; PlanPro; PlanEnterprise].

(** [tiering/plan.go: PlanRegistry.Plans] *)
Definition Plans (r : PlanRegistry) : list string := plans r.

(** [tiering/plan.go: PlanRegistry.Lowest] *)
Definition Lowest (r : PlanRegistry) : string :=
  match plans r with [] => "" | p :: _ => p end.

(** [tiering/plan.go: PlanRegistry.TierAtLeast] *)
Definition TierAtLeast (r : PlanRegistry) (current required : string) : bool :=
  match index r !! current, index r !! required with
  | Some cur, Some req => (req <=? cur)%nat
  | _, _ => false
  end.

(** [tiering/plan.go: PlanRegistry.Normalise] *)
Definition Normalise (r : PlanRegistry) (plan : string) : string :=
  match index r !! plan with Some _ => plan | None => Lowest r end.

(** * gate.go *)

(** [tiering/gate.go: UpgradeDetails] *)
Definition UpgradeDetails_json (plan required url : string) : json :=
  JObj ([("plan", JStr plan); ("requiredPlan", JStr required)] ++ apierror.opt_str "upgradeUrl" url).

(** [tiering/gate.go: Gate] *)
Record Gate := { registry : PlanRegistry; upgradeURL : string }.

(** [tiering/gate.go: NewGate] *)
Definition NewGate (registry : PlanRegistry) (upgradeURL : string) : Gate :=
  {| registry := registry; upgradeURL := upgradeURL |}.

(** [tiering/gate.go: Gate.Require] *)
Definition Require_ (g : Gate) (minPlan : string) : Http.Gate := λ w r,
  let userPlan := Normalise (registry g) (ctxutil.GetUserPlan (req_ctx r)) in
  if negb (TierAtLeast (registry g) userPlan minPlan) then
    Reply (apierror.WriteJSON
      {| apierror.Code := "upgrade_required"; apierror.Key := ""; apierror.StatusCode := 403;
         apierror.Message := "This feature requires the " +:+ minPlan +:+ " plan or above";
         apierror.Details := Some (UpgradeDetails_json userPlan minPlan (upgradeURL g)) |} w)
  else Next w r.

(** * policy.go *)

(** [tiering/policy.go: FeatureType] *)
Inductive FeatureType := FeatureTypeAccess | FeatureTypeNumericLimit | FeatureTypeOther (name : string).

(** [tiering/policy.go: FeaturePolicy] *)
Record FeaturePolicy := {
  Feature : string;
  Category : string;
  Label : string;
  FeatureType_ : FeatureType;
  Freemium : string;
  Pro : string;
  Enterprise : string;
  UpdatedAt : Time;
}.

(** [tiering/policy.go: TierRule] *)
Record TierRule := { Allowed : option bool; Limit : option Z }.

(** [json.Unmarshal(raw, &rule)]. *)
Definition unmarshal_rule (raw : string) : option TierRule :=
  unmarshal_struct
    (λ l, a ← decode_field (decode_ptr false decode_bool) None "allowed" l;
          n ← decode_field (decode_ptr 0 decode_int) None "limit" l;
          Some {| Allowed := a; Limit := n |})
    {| Allowed := None; Limit := None |} raw.

Definition rule_json (r : TierRule) : json :=
  JObj (match Allowed r with Some b => [("allowed", JBool b)] | None => [] end ++
        match Limit r with Some n => [("limit", JNum (itoa n))] | None => [] end).

(** [tiering/policy.go: MarshalAccess] *)
Definition MarshalAccess (allowed : bool) : string :=
  json_encode (rule_json {| Allowed := Some allowed; Limit := None |}).

(** [tiering/policy.go: MarshalLimit] *)
Definition MarshalLimit (n : Z) : string :=
  json_encode (rule_json {| Allowed := None; Limit := Some n |}).

(** [tiering/policy.go: PlanSelector] *)
Definition PlanSelector := string → FeaturePolicy → string.

(** [tiering/policy.go: DefaultPlanSelector] *)
Definition DefaultPlanSelector : PlanSelector := λ plan p,
  if String.eqb plan PlanPro then Pro p
  else if String.eqb plan PlanEnterprise then Enterprise p
  else Freemium p.

(** [tiering/policy.go: PolicyRepository]
    The repository belongs to the application: [R] is its state, an error is a
    message, and a listing may be a nil slice. *)
Class PolicyRepository (R : Type) := {
  repo_List : R → result string (option (list FeaturePolicy)) * R;
  repo_GetByFeature : R → string → result string (option FeaturePolicy) * R;
  repo_Upsert : R → FeaturePolicy → option string * R;
  repo_SeedDefaults : R → list FeaturePolicy → option string * R;
}.

(** The row of a feature in a listing. *)
Definition row_of (feature : string) (l : list FeaturePolicy) : option FeaturePolicy :=
  snd <$> list_find (λ p, Feature p = feature) l.

(** A row that was upserted is the one a later listing holds for its feature. *)
Class PolicyRepositoryLaws (R : Type) `{PolicyRepository R} := {
  Upsert_List r p r' l :
    repo_Upsert r p = (None, r') → (repo_List r').1 = Ok l → row_of (Feature p) (default [] l) = Some p;
}.

(** * policy_service.go *)

(** [tiering/policy_service.go: defaultCacheTTL] *)
Definition defaultCacheTTL : Duration := 5 * Minute.

(** [tiering/policy_service.go: PolicyService]
    With the state of the repository it uses. *)
Record PolicyService (R : Type) := {
  repo : R;
  ps_registry : PlanRegistry;
  selector : PlanSelector;
  cached : option (list FeaturePolicy);
  cacheExpiry : Time;
  cacheTTL : Duration;
}.
Arguments repo {R}. Arguments ps_registry {R}. Arguments selector {R}. Arguments cached {R}.
Arguments cacheExpiry {R}. Arguments cacheTTL {R}.

Section service.
Context {R : Type} `{PolicyRepository R}.

(** [tiering/policy_service.go: NewPolicyService] *)
Definition NewPolicyService (r : R) (reg : PlanRegistry) (sel : option PlanSelector) : PolicyService R :=
  {| repo := r; ps_registry := reg; selector := default DefaultPlanSelector sel;
     cached := None; cacheExpiry := 0; cacheTTL := defaultCacheTTL |}.

(** [tiering/policy_service.go: PolicyService.SetCacheTTL] *)
Definition SetCacheTTL (s : PolicyService R) (d : Duration) : PolicyService R :=
  {| repo := repo s; ps_registry := ps_registry s; selector := selector s; cached := cached s;
     cacheExpiry := cacheExpiry s; cacheTTL := d |}.

Definition set_repo (s : PolicyService R) (r : R) : PolicyService R :=
  {| repo := r; ps_registry := ps_registry s; selector := selector s; cached := cached s;
     cacheExpiry := cacheExpiry s; cacheTTL := cacheTTL s |}.

(** [tiering/policy_service.go: PolicyService.bust] *)
Definition bust (s : PolicyService R) : PolicyService R :=
  {| repo := repo s; ps_registry := ps_registry s; selector := selector s; cached := None;
     cacheExpiry := 0; cacheTTL := cacheTTL s |}.

(** [tiering/policy_service.go: PolicyService.all]
    The read under the read lock and its repetition under the write lock see
    the same cache here; the listing runs under the write lock. *)
Definition all (s : PolicyService R) (now : Time) : option (list FeaturePolicy) * PolicyService R :=
  match (if time_Before now (cacheExpiry s) then cached s else None) with
  | Some l => (Some l, s)
  | None =>
      let '(ans, r) := repo_List (repo s) in
      match ans with
      | Err _ => (cached s, set_repo s r)
      | Ok l => (Some (default [] l),
                 {| repo := r; ps_registry := ps_registry s; selector := selector s; cached := l;
                    cacheExpiry := time_Add now (cacheTTL s); cacheTTL := cacheTTL s |})
      end
  end.

(** [tiering/policy_service.go: PolicyService.List] *)
Definition List_ (s : PolicyService R) (now : Time) : option (list FeaturePolicy) * PolicyService R := all s now.

(** [tiering/policy_service.go: PolicyService.ruleFor] *)
Definition ruleFor (s : PolicyService R) (now : Time) (feature userPlan : string)
  : option TierRule * PolicyService R :=
  let '(policies, s) := all s now in
  (match policies with
   | None => None
   | Some l =>
       match row_of feature l with
       | None => None
       | Some p => unmarshal_rule (selector s (Normalise (ps_registry s) userPlan) p)
       end
   end, s).

(** [tiering/policy_service.go: PolicyService.IsAllowed] *)
Definition IsAllowed (s : PolicyService R) (now : Time) (feature userPlan : string)
  : bool * PolicyService R :=
  let '(rule, s) := ruleFor s now feature userPlan in
  (match rule with
   | Some r => match Allowed r with Some b => b | None => false end
   | None => false
   end, s).

(** [tiering/policy_service.go: PolicyService.NumericLimit] *)
Definition NumericLimit (s : PolicyService R) (now : Time) (feature userPlan : string)
  : Z * PolicyService R :=
  let '(rule, s) := ruleFor s now feature userPlan in
  (match rule with
   | Some r => match Limit r with Some n => n | None => 0 end
   | None => 0
   end, s).

(** [tiering/policy_service.go: validateTierRules] *)
Fixpoint validateTierRules (ft : FeatureType) (tiers : list string) : option string :=
  match tiers with
  | [] => None
  | raw :: rest =>
      match unmarshal_rule raw with
      | None => Some "invalid JSON"
      | Some rule =>
          match ft, Allowed rule, Limit rule with
          | FeatureTypeAccess, None, _ => Some "access feature requires allowed"
          | FeatureTypeNumericLimit, _, None => Some "numeric_limit feature requires limit"
          | _, _, _ => validateTierRules ft rest
          end
      end
  end.

(** [tiering/policy_service.go: UpdatePolicyRequest] *)
Record UpdatePolicyRequest := { u_Feature : string; u_Freemium : string; u_Pro : string; u_Enterprise : string }.

(** [tiering/policy_service.go: PolicyService.UpdatePolicy] *)
Definition UpdatePolicy (s : PolicyService R) (req : UpdatePolicyRequest)
  : result string FeaturePolicy * PolicyService R :=
  let '(got, r) := repo_GetByFeature (repo s) (u_Feature req) in
  let s := set_repo s r in
  match got with
  | Err _ | Ok None => (Err "not found", s)
  | Ok (Some existing) =>
      match validateTierRules (FeatureType_ existing) [u_Freemium req; u_Pro req; u_Enterprise req] with
      | Some e => (Err ("invalid tier rules: " +:+ e), s)
      | None =>
          let row := {| Feature := Feature existing; Category := Category existing; Label := Label existing;
                        FeatureType_ := FeatureType_ existing; Freemium := u_Freemium req;
                        Pro := u_Pro req; Enterprise := u_Enterprise req;
                        UpdatedAt := UpdatedAt existing |} in
          match repo_Upsert (repo s) row with
          | (Some e, r) => (Err ("save feature policy: " +:+ e), set_repo s r)
          | (None, r) => (Ok row, bust (set_repo s r))
          end
      end
  end.

(** [tiering/policy_service.go: PolicyService.SeedDefaults] *)
Definition SeedDefaults (s : PolicyService R) (ps : list FeaturePolicy) : option string * PolicyService R :=
  match repo_SeedDefaults (repo s) ps with
  | (Some e, r) => (Some ("feature policy seed: " +:+ e), set_repo s r)
  | (None, r) => (None, bust (set_repo s r))
  end.

End service.

(** * Lemmas: the registry *)

(** The index is the inverse of the list of plans, which has no duplicates. *)
Definition registry_wf (r : PlanRegistry) : Prop :=
  ∀ p i, index r !! p = Some i ↔ plans r !! i = Some p.

Lemma add_plan_wf r p : registry_wf r → registry_wf (add_plan r p).
Proof.
  intros Hwf q i. unfold add_plan. destruct (index r !! p) as [j|] eqn:Hp; [apply Hwf|]. simpl.
  rewrite lookup_insert_Some, lookup_app_Some, list_lookup_singleton_Some, (Hwf q i). split.
  - intros [[<- <-]|[Hne Hq]]; [right|by left]. split; [lia|]. by rewrite Nat.sub_diag.
  - intros [Hq|(Hle & Hi & <-)].
    + right. split; [|done]. intros ->. apply Hwf in Hq. congruence.
    + left. split; [done|lia].
Qed.

Lemma NewPlanRegistry_wf ps : registry_wf (NewPlanRegistry ps).
Proof.
  unfold NewPlanRegistry.
  assert (∀ r, registry_wf r → registry_wf (fold_left add_plan ps r)) as H.
  { induction ps as [|p ps IH]; intros r Hr; simpl; [done|]. by apply IH, add_plan_wf. }
  apply H. intros p i. simpl. by rewrite lookup_empty, lookup_nil.
Qed.

Lemma Normalise_known r p : registry_wf r → plans r ≠ [] → is_Some (index r !! Normalise r p).
Proof.
  intros Hwf Hne. unfold Normalise. destruct (index r !! p) eqn:Hp; [by rewrite Hp|].
  unfold Lowest. destruct (plans r) as [|q l] eqn:Hl; [done|]. exists 0%nat. apply Hwf. by rewrite Hl.
Qed.

Lemma plans_fold ps r x :
  registry_wf r → x ∈ plans (fold_left add_plan ps r) ↔ x ∈ plans r ∨ x ∈ ps.
Proof.
  revert r. induction ps as [|p ps IH]; intros r Hwf; simpl; [set_solver|].
  rewrite (IH _ (add_plan_wf r p Hwf)). unfold add_plan.
  destruct (index r !! p) as [i|] eqn:Hp; simpl; [|set_solver].
  apply Hwf in Hp. apply list_elem_of_lookup_2 in Hp. set_solver.
Qed.

(** In any registry the plans form a hierarchy in the order given: a plan is
    at least another exactly when it does not come before it; the relation is
    reflexive and transitive and compares any two known plans, an unknown plan
    satisfies and is satisfied by nothing, and an arbitrary plan string is read
    as a known plan, the lowest when it is unknown. *)
Theorem plans_are_ordered (ps : list string) (p q : string) :
  let r := NewPlanRegistry ps in
  (TierAtLeast r p q = true ↔ ∃ i j, plans r !! i = Some p ∧ plans r !! j = Some q ∧ (j ≤ i)%nat) ∧
  NoDup (plans r) ∧ (∀ x, x ∈ plans r ↔ x ∈ ps) ∧
  (p ∈ ps → q ∈ ps → TierAtLeast r p q || TierAtLeast r q p = true) ∧
  (ps ≠ [] → Normalise r p ∈ ps ∧ (p ∉ ps → TierAtLeast r q (Normalise r p) = true ↔ q ∈ ps)).
Proof.
  intros r. pose proof (NewPlanRegistry_wf ps) as Hwf. fold r in Hwf.
  assert (∀ x, x ∈ plans r ↔ x ∈ ps) as Hmem.
  { intros x. unfold r, NewPlanRegistry. rewrite <- (right_id False _ (x ∈ ps)).
    rewrite (plans_fold ps {| plans := []; index := ∅ |}); [set_solver|].
    intros y i. simpl. by rewrite lookup_empty, lookup_nil. }
  assert (∀ x, x ∈ ps → ∃ i, plans r !! i = Some x ∧ index r !! x = Some i) as Hidx.
  { intros x Hx. apply Hmem, list_elem_of_lookup in Hx as [i Hi]. exists i. by rewrite (Hwf x i). }
  split_and!.
  - unfold TierAtLeast. destruct (index r !! p) as [i|] eqn:Hp, (index r !! q) as [j|] eqn:Hq.
    + apply Hwf in Hp, Hq. rewrite Nat.leb_le. split; [eauto 10|].
      intros (i' & j' & Hi%Hwf & Hj%Hwf & Hle). apply Hwf in Hp, Hq. naive_solver.
    + split; [done|]. intros (_ & j & _ & Hj%Hwf & _). congruence.
    + split; [done|]. intros (i & _ & Hi%Hwf & _). congruence.
    + split; [done|]. intros (i & _ & Hi%Hwf & _). congruence.
  - apply NoDup_alt. intros i j x Hi%Hwf Hj%Hwf. congruence.
  - done.
  - intros (i & _ & Hi)%Hidx (j & _ & Hj)%Hidx. unfold TierAtLeast. rewrite Hi, Hj.
    destruct (Nat.leb_spec j i); [done|]. simpl. apply Nat.leb_le. lia.
  - intros Hne. assert (plans r ≠ []) as Hr.
    { destruct ps as [|x l]; [done|]. intros Hr. apply (not_elem_of_nil x). rewrite <- Hr. apply Hmem. set_solver. }
    split.
    + destruct (Normalise_known r p Hwf Hr) as [i Hi%Hwf]. apply Hmem. by eapply list_elem_of_lookup_2.
    + intros Hp. assert (index r !! p = None) as Hnone.
      { destruct (index r !! p) as [i|] eqn:Hi; [|done]. exfalso. apply Hp, Hmem.
        apply Hwf in Hi. by eapply list_elem_of_lookup_2. }
      unfold Normalise, TierAtLeast, Lowest. rewrite Hnone. destruct (plans r) as [|x l] eqn:Hl; [done|].
      assert (index r !! x = Some 0%nat) as -> by (apply Hwf; by rewrite Hl).
      rewrite <- Hmem. split.
      * destruct (index r !! q) as [i|] eqn:Hq; [|done]. intros _. apply Hwf in Hq.
        rewrite <- Hl. by eapply list_elem_of_lookup_2.
      * intros Hq. apply Hmem, Hidx in Hq as (i & _ & ->). apply Nat.leb_le. lia.
Qed.

(** The gate lets a request through exactly when the plan it requires is one
    of the registry's and the user's plan, read as the lowest when missing or
    unknown, does not come before it; the request is passed on as it came, and
    otherwise the answer is a 403. A requirement the registry does not know
    therefore admits nobody. *)
Theorem gate_admits (ps : list string) (url minPlan : string) (w : ResponseWriter) (r : Request) :
  let reg := NewPlanRegistry ps in
  let v := Require_ {| registry := reg; upgradeURL := url |} minPlan w r in
  let plan := Normalise reg (ctxutil.GetUserPlan (req_ctx r)) in
  (v = Next w r ↔
     ∃ i j, plans reg !! i = Some plan ∧ plans reg !! j = Some minPlan ∧ (j ≤ i)%nat) ∧
  (v = Next w r ∨ ∃ w', v = Reply w' ∧ (rw_Status w = None → rw_Status w' = Some 403)).
Proof.
  intros reg v plan. pose proof (NewPlanRegistry_wf ps) as Hwf. fold reg in Hwf.
  unfold v, Require_. simpl. fold reg plan. unfold TierAtLeast.
  assert (∀ x y i j, index reg !! x = Some i → index reg !! y = Some j →
    (∃ i j, plans reg !! i = Some x ∧ plans reg !! j = Some y ∧ (j ≤ i)%nat) ↔ (j ≤ i)%nat) as Hpos.
  { intros x y i j Hi Hj. split.
    - intros (i' & j' & Hi'%Hwf & Hj'%Hwf & Hle). naive_solver.
    - intros Hle. exists i, j. split_and!; [by apply Hwf|by apply Hwf|done]. }
  destruct (index reg !! plan) as [i|] eqn:Hi, (index reg !! minPlan) as [j|] eqn:Hj; simpl.
  - rewrite (Hpos _ _ _ _ Hi Hj). destruct (Nat.leb_spec j i) as [Hle|Hlt]; simpl.
    + split; [by split|by left].
    + split; [split; [done|lia]|]. right. eexists. split; [done|]. simpl. by intros ->.
  - split; [split; [done|]|].
    + by intros (? & ? & _ & Hx%Hwf & _); simplify_eq.
    + right. eexists. split; [done|]. simpl. by intros ->.
  - split; [split; [done|]|].
    + by intros (? & ? & Hx%Hwf & _); simplify_eq.
    + right. eexists. split; [done|]. simpl. by intros ->.
  - split; [split; [done|]|].
    + by intros (? & ? & Hx%Hwf & _); simplify_eq.
    + right. eexists. split; [done|]. simpl. by intros ->.
Qed.

(** * The policy service *)

Section service_laws.
Context {R : Type} `{PolicyRepositoryLaws R}.

Lemma UpdatePolicy_Ok (s s' : PolicyService R) req row :
  UpdatePolicy s req = (Ok row, s') →
  ∃ r, repo_Upsert r row = (None, repo s') ∧ cached s' = None ∧ selector s' = selector s ∧
    ps_registry s' = ps_registry s ∧
    validateTierRules (FeatureType_ row) [Freemium row; Pro row; Enterprise row] = None.
Proof.
  unfold UpdatePolicy. destruct (repo_GetByFeature _ _) as [[[existing|]|e] r]; [|done..].
  destruct validateTierRules eqn:Hv; [done|]. simpl.
  destruct (repo_Upsert r _) as [[e|] r'] eqn:Hu; [done|]. intros [= <- <-]. by exists r.
Qed.

Lemma ruleFor_empty (s : PolicyService R) now feature plan :
  cached s = None →
  (ruleFor s now feature plan).1 =
    match (repo_List (repo s)).1 with
    | Err _ => None
    | Ok l => row_of feature (default [] l) ≫= λ p,
                unmarshal_rule (selector s (Normalise (ps_registry s) plan) p)
    end.
Proof.
  intros Hc. unfold ruleFor, all. rewrite Hc.
  destruct (repo_List (repo s)) as [[l|e] r]; destruct time_Before; simpl; try done.
  all: by destruct row_of.
Qed.

(** An administrator's update takes effect at once: after it, every check of
    the feature, at any time and for any plan, is answered from the row just
    written, whose rules have the shape its feature type needs; if the
    repository cannot be read the check is refused. A rule from before the
    update is never used again. *)
Theorem update_takes_effect (s s' : PolicyService R) (req : UpdatePolicyRequest) (row : FeaturePolicy)
    (now : Time) (plan : string) :
  UpdatePolicy s req = (Ok row, s') →
  let rule := (ruleFor s' now (Feature row) plan).1 in
  match (repo_List (repo s')).1 with
  | Ok _ => rule = unmarshal_rule (selector s (Normalise (ps_registry s) plan) row)
  | Err _ => rule = None ∧ (IsAllowed s' now (Feature row) plan).1 = false ∧
             (NumericLimit s' now (Feature row) plan).1 = 0
  end ∧
  validateTierRules (FeatureType_ row) [Freemium row; Pro row; Enterprise row] = None.
Proof.
  intros Hu rule. destruct (UpdatePolicy_Ok _ _ _ _ Hu) as (r & Hup & Hc & Hsel & Hreg & Hv).
  split; [|done]. pose proof (ruleFor_empty s' now (Feature row) plan Hc) as Hrule. fold rule in Hrule.
  destruct (repo_List (repo s')).1 as [l|e] eqn:Hl.
  - rewrite (Upsert_List _ _ _ _ Hup Hl) in Hrule. simpl in Hrule. by rewrite Hsel, Hreg in Hrule.
  - unfold IsAllowed, NumericLimit. unfold rule in *.
    destruct (ruleFor s' now (Feature row) plan) as [ru s2]. simpl in *. by subst.
Qed.

(** During an outage of the repository the service keeps answering from the
    last listing, however old, and denies everything when it has none: a
    feature is then refused and its limit is zero. *)
Theorem outage_serves_last_listing (s : PolicyService R) (now : Time) (feature plan : string) :
  (repo_List (repo s)).1 = Err "down" →
  (ruleFor s now feature plan).1 =
    (cached s ≫= row_of feature) ≫= (λ p, unmarshal_rule (selector s (Normalise (ps_registry s) plan) p)) ∧
  (cached s = None →
   (IsAllowed s now feature plan).1 = false ∧ (NumericLimit s now feature plan).1 = 0).
Proof.
  intros Hdown. assert ((ruleFor s now feature plan).1 =
    (cached s ≫= row_of feature) ≫=
      (λ p, unmarshal_rule (selector s (Normalise (ps_registry s) plan) p))) as Hrule.
  { unfold ruleFor, all. destruct (repo_List (repo s)) as [ans r]. simpl in Hdown. subst ans.
    destruct (cached s) as [l|] eqn:Hc, time_Before; simpl; rewrite ?Hc; simpl; try done.
    all: by destruct row_of. }
  split; [done|]. intros Hc. rewrite Hc in Hrule. simpl in Hrule.
  unfold IsAllowed, NumericLimit. destruct ruleFor as [ru s2]. simpl in *. by subst.
Qed.

End service_laws.

(** An access cell written by the library reads back as itself, for both
    values, and is accepted by the validation of access features. *)
Theorem access_cell_roundtrip (b : bool) :
  unmarshal_rule (MarshalAccess b) = Some {| Allowed := Some b; Limit := None |} ∧
  validateTierRules FeatureTypeAccess [MarshalAccess b] = None.
Proof. by destruct b; vm_compute. Qed.

Example limit_cells :
  unmarshal_rule (MarshalLimit (-1)) = Some {| Allowed := None; Limit := Some (-1) |} ∧
  unmarshal_rule (MarshalLimit 25) = Some {| Allowed := None; Limit := Some 25 |} ∧
  validateTierRules FeatureTypeNumericLimit [MarshalLimit 3; MarshalAccess true] =
    Some "numeric_limit feature requires limit".
Proof. vm_compute. done. Qed.

(** ** A concrete repository: the rows, and whether it is reachable *)

Definition table := (list FeaturePolicy * bool)%type.

Definition upsert (p : FeaturePolicy) (l : list FeaturePolicy) : list FeaturePolicy :=
  p :: filter (λ q, Feature q ≠ Feature p) l.

#[global] Instance table_repository : PolicyRepository table := {|
  repo_List := λ t : table, (if t.2 then Ok (Some t.1) else Err "down", t);
  repo_GetByFeature := λ (t : table) f, (if t.2 then Ok (row_of f t.1) else Err "down", t);
  repo_Upsert := λ (t : table) p, if t.2 then (None, (upsert p t.1, true)) else (Some "down", t);
  repo_SeedDefaults := λ (t : table) ps,
    if t.2 then (None, (fold_left (λ l p, match row_of (Feature p) l with None => l ++ [p] | Some _ => l end) ps t.1, true))
    else (Some "down", t);
|}.

#[global] Instance table_repository_laws : PolicyRepositoryLaws table.
Proof.
  constructor. intros [rows up] p r' l. simpl. destruct up; [|done]. intros [= <-]. simpl.
  intros [= <-]. unfold row_of, upsert. simpl. by rewrite decide_True.
Qed.

Definition demo_row : FeaturePolicy :=
  {| Feature := "cap-table"; Category := "c"; Label := "Cap table"; FeatureType_ := FeatureTypeAccess;
     Freemium := MarshalAccess false; Pro := MarshalAccess false; Enterprise := MarshalAccess true;
     UpdatedAt := 0 |}.
Definition demo_service : PolicyService table := NewPolicyService ([demo_row], true) DefaultRegistry None.
Definition demo_update : UpdatePolicyRequest :=
  {| u_Feature := "cap-table"; u_Freemium := MarshalAccess false; u_Pro := MarshalAccess true;
     u_Enterprise := MarshalAccess true |}.
Definition demo_row' : FeaturePolicy :=
  {| Feature := "cap-table"; Category := "c"; Label := "Cap table"; FeatureType_ := FeatureTypeAccess;
     Freemium := MarshalAccess false; Pro := MarshalAccess true; Enterprise := MarshalAccess true;
     UpdatedAt := 0 |}.

Lemma update_takes_effect_witness :
  let s' := (UpdatePolicy demo_service demo_update).2 in
  match (repo_List (repo s')).1 with
  | Ok _ => (ruleFor s' Second "cap-table" "pro").1 =
            unmarshal_rule (selector demo_service (Normalise (ps_registry demo_service) "pro") demo_row')
  | Err _ => (ruleFor s' Second "cap-table" "pro").1 = None ∧
             (IsAllowed s' Second "cap-table" "pro").1 = false ∧
             (NumericLimit s' Second "cap-table" "pro").1 = 0
  end ∧
  validateTierRules FeatureTypeAccess [MarshalAccess false; MarshalAccess true; MarshalAccess true] = None.
Proof.
  exact (update_takes_effect demo_service (UpdatePolicy demo_service demo_update).2 demo_update demo_row'
           Second "pro" eq_refl).
Defined.

Lemma outage_serves_last_listing_witness :
  (ruleFor (NewPolicyService ([demo_row], false) DefaultRegistry None) Second "cap-table" "enterprise").1 = None.
Proof.
  exact (proj1 (outage_serves_last_listing (NewPolicyService ([demo_row], false) DefaultRegistry None)
    Second "cap-table" "enterprise" eq_refl)).
Defined.

Lemma plans_are_ordered_witness :
  TierAtLeast DefaultRegistry "pro" "freemium" || TierAtLeast DefaultRegistry "freemium" "pro" = true.
Proof.
  destruct (plans_are_ordered [PlanFreemium; PlanPro; PlanEnterprise] "pro" "freemium")
    as (_ & _ & _ & H & _). apply H; apply (bool_decide_unpack _); vm_compute; exact I.
Defined.

Lemma gate_admits_witness :
  let r := {| req_Method := "GET"; req_Path := "/"; req_RawQuery := ""; req_Pattern := "";
              req_RemoteAddr := ""; req_Header := ∅;
              req_ctx := ctxutil.WithUserPlan ctxutil.Background "enterprise" |} in
  Require_ {| registry := DefaultRegistry; upgradeURL := "" |} "pro" new_response r = Next new_response r.
Proof.
  intros r. apply (proj2 (proj1 (gate_admits [PlanFreemium; PlanPro; PlanEnterprise] "" "pro" new_response r))).
  exists 2%nat, 1%nat. split_and!; [reflexivity|reflexivity|lia].
Defined.

End tiering.
