(* ===== verification/Pagination.v ===== *)
(** Page-number pagination (package [pagination], src/pagination/pagination.go):
    parsing of the query parameters with their bounds, and page counts, on
    64-bit integers. *)

From S2P Require Import Prelude GoText GoUrl CtxUtil Http.

Module pagination.

(** * Parameters *)

(** [pagination/pagination.go: Params] *)
Record Params := { Page : Z; PerPage : Z; Offset : Z }.

(** [pagination/pagination.go:21-21] *)
Definition DefaultPerPage : Z := 20.
(** [pagination/pagination.go:22-22] *)
Definition MaxPerPage : Z := 100.

(** [pagination/pagination.go: Parse] *)
Definition Parse (r : Request) : Params :=
  let page := (atoi (query_Get (req_RawQuery r) "page")).1 in
  let perPage := (atoi (query_Get (req_RawQuery r) "per_page")).1 in
  let page := if page <? 1 then 1 else page in
  let perPage := if perPage <? 1 then DefaultPerPage else perPage in
  let perPage := if MaxPerPage <? perPage then MaxPerPage else perPage in
  {| Page := page; PerPage := perPage; Offset := wrap64 (wrap64 (page - 1) * perPage) |}.

(** [pagination/pagination.go: PagedResponse]
    The data itself is passed through untouched. *)
Record PagedResponse := { r_Page : Z; r_PerPage : Z; TotalItems : Z; TotalPages : Z }.

(** [pagination/pagination.go: NewPagedResponse]
    Division by a zero page size panics. *)
Definition NewPagedResponse (params : Params) (totalItems : Z) : option PagedResponse :=
  if PerPage params =? 0 then None
  else
    let totalPages := wrap64 (Z.quot totalItems (PerPage params)) in
    let totalPages := if 0 <? Z.rem totalItems (PerPage params) then wrap64 (totalPages + 1) else totalPages in
    Some {| r_Page := Page params; r_PerPage := PerPage params; TotalItems := totalItems;
            TotalPages := totalPages |}.

(** * Properties *)

(** For every query string the page is at least 1 and the page size between
    1 and the maximum, and the offset is that of the page, without overflow,
    for every page up to 92233720368547758; there the rows of consecutive pages
    are disjoint and leave no gap. *)
Theorem Parse_bounds (r : Request) :
  let p := Parse r in
  1 ≤ Page p ∧ 1 ≤ PerPage p ≤ MaxPerPage ∧ in_int64 (Offset p) ∧
  (Page p ≤ 92233720368547758 → Offset p = (Page p - 1) * PerPage p ∧ 0 ≤ Offset p).
Proof.
  intros p. unfold p, Parse. pose proof (atoi_range (query_Get (req_RawQuery r) "page")) as Hr.
  set (pg := (atoi _).1) in *. set (pp := (atoi (query_Get (req_RawQuery r) "per_page")).1). simpl.
  set (a := if pg <? 1 then 1 else pg).
  set (b := if MaxPerPage <? _ then MaxPerPage else _).
  assert (1 ≤ a ∧ in_int64 a) as [Ha Hai].
  { unfold a. destruct (pg <? 1) eqn:?; bool_to_prop; split; try int64; done. }
  assert (1 ≤ b ≤ MaxPerPage) as Hb.
  { unfold b, MaxPerPage, DefaultPerPage. destruct (pp <? 1) eqn:?; simpl; [lia|].
    destruct (100 <? pp) eqn:?; bool_to_prop; lia. }
  split_and!; [done|lia|lia|apply wrap64_range|]. intros Hle.
  rewrite (wrap64_id (a - 1)) by int64. unfold MaxPerPage in Hb.
  rewrite wrap64_id by (unfold in_int64, int64_min, int64_max; nia). split; [done|nia].
Qed.

(** The offset of a larger page wraps around: a client that asks for such a
    page makes the offset negative. *)
Theorem huge_page_has_negative_offset :
  let r := {| req_Method := "GET"; req_Path := "/"; req_RawQuery := "page=92233720368547760&per_page=100";
              req_Pattern := ""; req_RemoteAddr := ""; req_Header := ∅; req_ctx := ctxutil.Background |} in
  Offset (Parse r) = -9223372036854775716 ∧ Offset (Parse r) < 0.
Proof. vm_compute. done. Qed.

(** The number of pages is the number of items divided by the page size,
    rounded up, for every item count and page size: the last page is not empty
    and no item lies beyond it; only a page size of zero panics. *)
Theorem pages_cover_items (params : Params) (totalItems : Z) :
  in_int64 totalItems → 0 ≤ totalItems → 0 < PerPage params →
  ∃ resp, NewPagedResponse params totalItems = Some resp ∧
    (TotalPages resp - 1) * PerPage params < totalItems ≤ TotalPages resp * PerPage params ∧
    (totalItems = 0 ↔ TotalPages resp = 0).
Proof.
  intros Hi Ht Hp. unfold NewPagedResponse. rewrite (proj2 (Z.eqb_neq _ _)) by lia.
  eexists. split; [done|]. simpl.
  pose proof (Z.quot_rem' totalItems (PerPage params)) as Hqr.
  pose proof (Z.rem_bound_pos totalItems (PerPage params) Ht Hp) as Hrem.
  set (q := totalItems ÷ PerPage params) in *. set (m := Z.rem totalItems (PerPage params)) in *.
  assert (0 ≤ q ≤ totalItems) by nia. rewrite (wrap64_id q) by int64.
  destruct (0 <? m) eqn:Hm; bool_to_prop.
  - assert (q < totalItems ∨ totalItems = 0) by nia. rewrite wrap64_id by int64. split; nia.
  - split; nia.
Qed.

Lemma pages_cover_items_witness :
  let p := {| Page := 1; PerPage := 20; Offset := 0 |} in
  ∃ resp, NewPagedResponse p 41 = Some resp ∧
    (TotalPages resp - 1) * PerPage p < 41 ≤ TotalPages resp * PerPage p ∧
    (41 = 0 ↔ TotalPages resp = 0).
Proof.
  apply (pages_cover_items {| Page := 1; PerPage := 20; Offset := 0 |} 41);
    [apply (bool_decide_unpack _); vm_compute; exact I|lia|reflexivity].
Defined.

Lemma Parse_bounds_witness :
  let r := {| req_Method := "GET"; req_Path := "/"; req_RawQuery := "page=3&per_page=%35";
              req_Pattern := ""; req_RemoteAddr := ""; req_Header := ∅; req_ctx := ctxutil.Background |} in
  Offset (Parse r) = (3 - 1) * 5 ∧ 0 ≤ Offset (Parse r).
Proof.
  intros r. destruct (Parse_bounds r) as (_ & _ & _ & H). apply H. vm_compute. discriminate.
Defined.

End pagination.
