(* ===== verification/NarrationCache.v ===== *)
(** The in-memory LRU and TTL cache of package [ainarration]
    (src/ainarration/cache.go, output.go), at the granularity of its locked
    sections: [Get] is a lookup under the read lock and then, under the write
    lock, a removal or a promotion, between which other calls may run. *)

From S2P Require Import Prelude GoText GoJson CtxUtil Http BffMisc.

Module ainarration.

(** [ainarration/output.go: NarrationOutput] *)
Record NarrationOutput := { Narrative : string; Metadata : list (string * json) }.

(** [ainarration/cache.go:36-36] *)
Definition DefaultCacheSize : Z := 200.
(** [ainarration/cache.go:38-38] *)
Definition DefaultCacheTTL : Duration := 2 * Hour.

(** [ainarration/cache.go: CacheConfig] *)
Record CacheConfig := { MaxSize : Z; TTL : Duration }.

(** [ainarration/cache.go: DefaultCacheConfig] *)
Definition DefaultCacheConfig : CacheConfig := {| MaxSize := DefaultCacheSize; TTL := DefaultCacheTTL |}.

(** [ainarration/cache.go: cacheEntry] *)
Record cacheEntry := { output : NarrationOutput; createdAt : Time }.

(** [ainarration/cache.go: NarrationCache] *)
Record NarrationCache := {
  entries : gmap string cacheEntry;
  order : list string;
  cfg : CacheConfig;
}.

(** [ainarration/cache.go: NewNarrationCache] *)
Definition NewNarrationCache (c : CacheConfig) : NarrationCache :=
  {| entries := ∅; order := [];
     cfg := {| MaxSize := if MaxSize c <=? 0 then DefaultCacheSize else MaxSize c;
               TTL := if TTL c <=? 0 then DefaultCacheTTL else TTL c |} |}.

(** [ainarration/cache.go: NarrationCache.removeFromOrder] *)
Definition removeFromOrder (key : string) (o : list string) : list string := remove_first key o.

(** [ainarration/cache.go: NarrationCache.moveToEnd] *)
Definition moveToEnd (key : string) (o : list string) : list string :=
  if contains o key then remove_first key o ++ [key] else o.

Definition set_order (c : NarrationCache) (o : list string) : NarrationCache :=
  {| entries := entries c; order := o; cfg := cfg c |}.

(** The locked sections of [Get]. *)

(** [ainarration/cache.go:87-94] the lookup: a hit, expired or not, or a miss *)
Definition get_lookup (c : NarrationCache) (now : Time) (key : string) : option (cacheEntry * bool) :=
  match entries c !! key with
  | None => None
  | Some e => Some (e, TTL (cfg c) <? time_Sub now (createdAt e))
  end.

(** [ainarration/cache.go:95-98] the removal of an expired entry *)
Definition get_drop (c : NarrationCache) (key : string) : NarrationCache :=
  {| entries := delete key (entries c); order := removeFromOrder key (order c); cfg := cfg c |}.

(** [ainarration/cache.go:103-105] the promotion of a hit *)
Definition get_promote (c : NarrationCache) (key : string) : NarrationCache :=
  set_order c (moveToEnd key (order c)).

(** [ainarration/cache.go: NarrationCache.Get] *)
Definition Get (c : NarrationCache) (now : Time) (key : string) : option NarrationOutput * NarrationCache :=
  match get_lookup c now key with
  | None => (None, c)
  | Some (e, true) => (None, get_drop c key)
  | Some (e, false) => (Some (output e), get_promote c key)
  end.

(** [ainarration/cache.go:120-124] the eviction loop of Put *)
Fixpoint evict (maxSize : Z) (ents : gmap string cacheEntry) (o : list string)
  : gmap string cacheEntry * list string :=
  match o with
  | [] => (ents, [])
  | oldest :: rest =>
      if maxSize <=? Z.of_nat (size ents) then evict maxSize (delete oldest ents) rest else (ents, o)
  end.

(** [ainarration/cache.go: NarrationCache.Put] *)
Definition Put (c : NarrationCache) (now : Time) (key : string) (out : NarrationOutput) : NarrationCache :=
  let e := {| output := out; createdAt := now |} in
  match entries c !! key with
  | Some _ => {| entries := <[key := e]> (entries c); order := moveToEnd key (order c); cfg := cfg c |}
  | None =>
      let '(ents, o) := evict (MaxSize (cfg c)) (entries c) (order c) in
      {| entries := <[key := e]> ents; order := o ++ [key]; cfg := cfg c |}
  end.

(** [ainarration/cache.go: NarrationCache.Size] *)
Definition Size (c : NarrationCache) : Z := Z.of_nat (size (entries c)).

(** [ainarration/cache.go: NarrationCache.Flush] *)
Definition Flush (c : NarrationCache) : NarrationCache :=
  {| entries := ∅; order := []; cfg := cfg c |}.

Definition hex_string (s : string) : string :=
  fold_right (λ b acc, String (hex_digit (b / 16)) (String (hex_digit (b mod 16)) acc)) "" (bytes s).

(** [ainarration/cache.go: CacheKey]
    [ctx] is the JSON of the context, [None] when it cannot be marshalled. *)
Definition CacheKey `{bff.Sha256} (now : Time) (featureType role : string) (ctx : option string) : string :=
  match ctx with
  | None => "err:uncacheable:" +:+ itoa (now - unix_epoch_seconds * Second)
  | Some b =>
      let prefix := slice 0 16 (hex_string (bff.sha256 b)) in
      let role := if String.eqb role "" then "unknown" else role in
      let featureType := if String.eqb featureType "" then "unknown" else featureType in
      featureType +:+ ":" +:+ role +:+ ":" +:+ prefix
  end.

(** * The invariant *)

(** The order lists each key of the map once, and the map fits. *)
Record cache_wf (c : NarrationCache) : Prop := {
  listed_once : NoDup (order c);
  listed : ∀ k, k ∈ order c ↔ is_Some (entries c !! k);
  positive_max : 0 < MaxSize (cfg c);
  fits : Size c ≤ MaxSize (cfg c);
}.

(** The locked sections, as the steps of concurrent callers. *)
Inductive section :=
| SDrop (key : string)
| SPromote (key : string)
| SPut (now : Time) (key : string) (out : NarrationOutput)
| SFlush.

Definition run_section (c : NarrationCache) (s : section) : NarrationCache :=
  match s with
  | SDrop key => get_drop c key
  | SPromote key => get_promote c key
  | SPut now key out => Put c now key out
  | SFlush => Flush c
  end.

Lemma moveToEnd_elem key o k : NoDup o → k ∈ moveToEnd key o ↔ k ∈ o.
Proof.
  intros Hnd. unfold moveToEnd. destruct (contains o key) eqn:Hc; [|done].
  apply contains_spec in Hc. rewrite elem_of_app, remove_first_elem, list_elem_of_singleton by done.
  destruct (decide (k = key)); naive_solver.
Qed.

Lemma moveToEnd_NoDup key o : NoDup o → NoDup (moveToEnd key o).
Proof.
  intros Hnd. unfold moveToEnd. destruct (contains o key); [|done].
  apply NoDup_app. split_and!; [by apply remove_first_NoDup| |apply NoDup_singleton].
  intros k [_ Hk]%remove_first_elem ->%list_elem_of_singleton; [done|done].
Qed.

(** The loop leaves room, keeps the order and the map in step, and drops a
    prefix of the order only. *)
Lemma evict_spec maxSize ents o :
  0 < maxSize → NoDup o → (∀ k, k ∈ o ↔ is_Some (ents !! k)) →
  let r := evict maxSize ents o in
  NoDup r.2 ∧ (∀ k, k ∈ r.2 ↔ is_Some (r.1 !! k)) ∧ Z.of_nat (size r.1) < maxSize ∧
  r.1 ⊆ ents ∧ ∃ pre, o = pre ++ r.2.
Proof.
  intros Hmax. revert ents. induction o as [|oldest rest IH]; intros ents Hnd Hin; simpl.
  - assert (ents = ∅) as ->.
    { apply map_empty. intros k. apply eq_None_not_Some. rewrite <- Hin. apply not_elem_of_nil. }
    split_and!; [constructor|done|by rewrite map_size_empty|done|by exists []].
  - destruct (maxSize <=? Z.of_nat (size ents)) eqn:Hfull; bool_to_prop.
    + apply NoDup_cons in Hnd as [Hnot Hnd].
      destruct (IH (delete oldest ents) Hnd) as (H1 & H2 & H3 & H4 & pre & Hpre).
      * intros k. rewrite lookup_delete_is_Some, <- Hin. set_solver.
      * split_and!; [done..| |].
        -- etrans; [done|]. apply delete_subseteq.
        -- exists (oldest :: pre). simpl. by f_equal.
    + split_and!; [done..|by exists []].
Qed.

Lemma run_section_wf c s : cache_wf c → cache_wf (run_section c s) ∧ cfg (run_section c s) = cfg c.
Proof.
  intros [Hnd Hin Hmax Hfit]. destruct s as [key|key|now key out|]; simpl.
  - split; [|done]. split; simpl; [by apply remove_first_NoDup| |done|].
    + intros k. unfold removeFromOrder. rewrite remove_first_elem, lookup_delete_is_Some, Hin by done.
      naive_solver.
    + unfold Size in *. simpl. pose proof (map_subseteq_size _ _ (delete_subseteq (entries c) key)). lia.
  - split; [|done]. split; simpl; [by apply moveToEnd_NoDup| |done|done].
    intros k. by rewrite moveToEnd_elem.
  - unfold Put. destruct (entries c !! key) as [e|] eqn:He.
    + split; [|done]. split; simpl; [by apply moveToEnd_NoDup| |done|].
      * intros k. rewrite moveToEnd_elem, lookup_insert_is_Some', Hin by done. naive_solver.
      * unfold Size in *. simpl. by rewrite map_size_insert_Some by eauto.
    + destruct (evict_spec (MaxSize (cfg c)) (entries c) (order c) Hmax Hnd Hin)
        as (H1 & H2 & H3 & H4 & _).
      destruct evict as [ents o]. simpl in *. assert (ents !! key = None) as Hnone.
      { destruct (ents !! key) eqn:Hk; [|done]. rewrite (lookup_weaken _ _ _ _ Hk H4) in He. done. }
      split; [|done]. split; simpl; [| |done|].
      * apply NoDup_app. split_and!; [done| |apply NoDup_singleton].
        intros k Hk%H2 ->%list_elem_of_singleton. rewrite Hnone in Hk. by destruct Hk.
      * intros k. rewrite elem_of_app, list_elem_of_singleton, lookup_insert_is_Some', H2. naive_solver.
      * unfold Size. simpl. rewrite map_size_insert_None by done. lia.
  - split; [|done]. split; simpl; [constructor| |done|].
    + intros k. by rewrite lookup_empty, is_Some_alt, elem_of_nil.
    + unfold Size. simpl. rewrite map_size_empty. lia.
Qed.

Lemma NewNarrationCache_wf cf : cache_wf (NewNarrationCache cf).
Proof.
  assert (0 < MaxSize (cfg (NewNarrationCache cf))) as Hmax.
  { simpl. destruct (MaxSize cf <=? 0) eqn:?; bool_to_prop; [done|lia]. }
  split; [constructor| |done|].
  - intros k. simpl. rewrite lookup_empty, is_Some_alt. by rewrite elem_of_nil.
  - unfold Size. simpl entries. rewrite map_size_empty. lia.
Qed.

Lemma run_sections_wf ss c :
  cache_wf c → cache_wf (fold_left run_section ss c) ∧ cfg (fold_left run_section ss c) = cfg c.
Proof.
  revert c. induction ss as [|s ss IH]; intros c Hc; simpl; [done|].
  destruct (run_section_wf c s Hc) as [Hc' Hcfg]. destruct (IH _ Hc') as [? ?]. split; [done|congruence].
Qed.

(** Under any interleaving of the locked sections of concurrent callers the
    cache holds at most its maximum number of entries, which is positive, and
    its eviction order lists every cached key exactly once and nothing else. *)
Theorem narration_cache_invariant (cf : CacheConfig) (ss : list section) :
  let c := fold_left run_section ss (NewNarrationCache cf) in
  Size c ≤ (if MaxSize cf <=? 0 then DefaultCacheSize else MaxSize cf) ∧
  NoDup (order c) ∧ ∀ k, k ∈ order c ↔ is_Some (entries c !! k).
Proof.
  intros c. destruct (run_sections_wf ss _ (NewNarrationCache_wf cf)) as [[Hnd Hin _ Hfit] Hcfg].
  fold c in Hnd, Hin, Hfit, Hcfg. rewrite Hcfg in Hfit. done.
Qed.

(** What was put is what is read, until it is older than the lifetime; and
    storing a new key in a full cache evicts exactly the least recently used
    one, all others keeping their value and relative order. *)
Theorem put_then_get_lru (c : NarrationCache) (key : string) (out : NarrationOutput) (now now' : Time) :
  cache_wf c →
  (time_Sub now' now ≤ TTL (cfg c) → (Get (Put c now key out) now' key).1 = Some out) ∧
  (Size c = MaxSize (cfg c) → entries c !! key = None →
   ∃ lru rest, order c = lru :: rest ∧ order (Put c now key out) = rest ++ [key] ∧
     entries (Put c now key out) = <[key := {| output := out; createdAt := now |}]> (delete lru (entries c))).
Proof.
  intros [Hnd Hin Hmax Hfit].
  assert (entries (Put c now key out) !! key = Some {| output := out; createdAt := now |} ∧
          cfg (Put c now key out) = cfg c) as [Hget Hcfg].
  { unfold Put. destruct (entries c !! key); simpl; [by rewrite lookup_insert_eq|].
    destruct evict. simpl. by rewrite lookup_insert_eq. }
  split.
  - intros Hage. unfold Get, get_lookup. rewrite Hget, Hcfg. simpl.
    rewrite (proj2 (Z.ltb_ge _ _)) by lia. done.
  - intros Hfull Hnew. unfold Put. rewrite Hnew. unfold Size in *.
    destruct (order c) as [|lru rest] eqn:Ho.
    + assert (entries c = ∅) as He.
      { apply map_empty. intros k. apply eq_None_not_Some. rewrite <- Hin. apply not_elem_of_nil. }
      rewrite He, map_size_empty in Hfull. lia.
    + exists lru, rest. simpl. rewrite (proj2 (Z.leb_le _ _)) by lia.
      assert (is_Some (entries c !! lru)) as [e He] by (apply Hin; set_solver).
      pose proof (map_size_delete_Some lru (entries c) ltac:(eauto)) as Hsz.
      destruct rest as [|k rest]; simpl; [done|].
      rewrite (proj2 (Z.leb_gt _ _)); [done|]. lia.
Qed.

Definition demo_out (n : string) : NarrationOutput := {| Narrative := n; Metadata := [] |}.
Definition demo_full : NarrationCache :=
  Put (Put (NewNarrationCache {| MaxSize := 2; TTL := Hour |}) 1 "a" (demo_out "A")) 2 "b" (demo_out "B").

Lemma put_then_get_lru_witness :
  (Get (Put demo_full 3 "c" (demo_out "C")) 4 "c").1 = Some (demo_out "C") ∧
  ∃ lru rest, order demo_full = lru :: rest ∧ order (Put demo_full 3 "c" (demo_out "C")) = rest ++ ["c"] ∧
    entries (Put demo_full 3 "c" (demo_out "C")) =
      <["c" := {| output := demo_out "C"; createdAt := 3 |}]> (delete lru (entries demo_full)).
Proof.
  destruct (put_then_get_lru demo_full "c" (demo_out "C") 3 4) as [H1 H2].
  - apply (run_sections_wf [SPut 1 "a" (demo_out "A"); SPut 2 "b" (demo_out "B")] _
             (NewNarrationCache_wf {| MaxSize := 2; TTL := Hour |})).
  - split; [apply H1; vm_compute; discriminate|apply H2; vm_compute; reflexivity].
Defined.

(** A [Get] that finds an expired entry removes the key after releasing the
    read lock, so it can remove a value stored in between. *)
Theorem expired_get_drops_fresh_value :
  let c := Put (NewNarrationCache {| MaxSize := 2; TTL := Hour |}) 0 "k" (demo_out "old") in
  let late := 2 * Hour in
  get_lookup c late "k" = Some ({| output := demo_out "old"; createdAt := 0 |}, true) ∧
  let c := Put c late "k" (demo_out "new") in
  (Get (get_drop c "k") late "k").1 = None.
Proof. vm_compute. done. Qed.

End ainarration.
