(* ===== verification/Lru.v ===== *)
(** The narration cache against its specification (src/ainarration/cache.go): an
    association list from the least to the most recently used key. The
    implementation's map and order list are related to it by an abstraction
    function; the eviction loop of Put is a step relation of its own. *)

From S2P Require Import Prelude GoText GoJson CtxUtil Http BffMisc NarrationCache.

Module lru.
Import ainarration.

(** * The specification *)

(** Entries from the least to the most recently used. *)
Abbreviation recency := (list (string * cacheEntry)) (only parsing).

Definition without (key : string) (s : recency) : recency := filter (λ kv, kv.1 ≠ key) s.
Definition find (key : string) (s : recency) : option cacheEntry := (list_to_map s : gmap string cacheEntry) !! key.

(** A hit makes the entry the most recently used one; an entry older than the
    lifetime is dropped. *)
Definition spec_get (ttl : Duration) (now : Time) (key : string) (s : recency) : option NarrationOutput * recency :=
  match find key s with
  | None => (None, s)
  | Some e => if ttl <? time_Sub now (createdAt e) then (None, without key s)
              else (Some (output e), without key s ++ [(key, e)])
  end.

(** A new key takes the place of the least recently used ones beyond the size. *)
Definition spec_put (max : Z) (now : Time) (key : string) (out : NarrationOutput) (s : recency) : recency :=
  let e := {| output := out; createdAt := now |} in
  match find key s with
  | Some _ => without key s ++ [(key, e)]
  | None => drop (Z.to_nat (Z.of_nat (length s) - (max - 1))) s ++ [(key, e)]
  end.

(** * Calls *)

Inductive op := OGet (now : Time) (key : string) | OPut (now : Time) (key : string) (out : NarrationOutput) | OFlush.

Definition run_op (c : NarrationCache) (o : op) : option NarrationOutput * NarrationCache :=
  match o with
  | OGet now key => Get c now key
  | OPut now key out => (None, Put c now key out)
  | OFlush => (None, Flush c)
  end.

Definition spec_op (cf : CacheConfig) (s : recency) (o : op) : option NarrationOutput * recency :=
  match o with
  | OGet now key => spec_get (TTL cf) now key s
  | OPut now key out => (None, spec_put (MaxSize cf) now key out s)
  | OFlush => (None, [])
  end.

(** The answers of a sequence of calls, and the final state. *)
Fixpoint answers {S} (step : S → op → option NarrationOutput * S) (s : S) (os : list op) : list (option NarrationOutput) * S :=
  match os with
  | [] => ([], s)
  | o :: os => let '(a, s) := step s o in let '(l, s) := answers step s os in (a :: l, s)
  end.

(** * The abstraction *)

Definition listing (ents : gmap string cacheEntry) (o : list string) : recency := omap (λ k, pair k <$> ents !! k) o.
Definition abs (c : NarrationCache) : recency := listing (entries c) (order c).

Lemma abs_keys c : cache_wf c → (abs c).*1 = order c.
Proof.
  intros [_ Hin _ _]. unfold abs, listing. assert (∀ k, k ∈ order c → is_Some (entries c !! k)) as Hall by (intros k; apply Hin).
  clear Hin. induction (order c) as [|k o IH]; [done|]. simpl. destruct (Hall k) as [e ->]; [by left|]. simpl.
  f_equal. apply IH. intros k' Hk'. apply Hall. by right.
Qed.

Lemma abs_length c : cache_wf c → Z.of_nat (length (abs c)) = Size c.
Proof.
  intros Hc. rewrite <- (length_fmap fst), (abs_keys c Hc). destruct Hc as [Hnd Hin _ _]. unfold Size. f_equal.
  rewrite <- (size_list_to_set (C := gset string)), <- size_dom by done. f_equal. apply set_eq. intros k.
  by rewrite elem_of_list_to_set, Hin, elem_of_dom.
Qed.

Lemma abs_elem c k e : cache_wf c → (k, e) ∈ abs c ↔ entries c !! k = Some e.
Proof.
  intros Hc. unfold abs, listing. rewrite list_elem_of_omap. split.
  - intros (k' & _ & Hk'). destruct (entries c !! k') eqn:Hk; [|done]. injection Hk' as -> ->. exact Hk.
  - intros Hk. exists k. rewrite Hk. split; [|done]. apply Hc. eauto.
Qed.

Lemma abs_find c key : cache_wf c → find key (abs c) = entries c !! key.
Proof.
  intros Hc. unfold find. apply option_eq. intros e. rewrite <- (abs_elem c) by done. symmetry. apply elem_of_list_to_map.
  rewrite abs_keys by done. apply Hc.
Qed.

Lemma listing_ext ents ents' o : (∀ k, k ∈ o → ents !! k = ents' !! k) → listing ents o = listing ents' o.
Proof.
  intros Hall. induction o as [|k o IH]; [done|]. unfold listing in *. cbn [omap list_omap].
  rewrite (Hall k) by by left.
  destruct (ents' !! k); simpl; [f_equal|]; apply IH; intros k' Hk'; apply Hall; by right.
Qed.

Lemma listing_app ents o o' : listing ents (o ++ o') = listing ents o ++ listing ents o'.
Proof. apply omap_app. Qed.

Lemma listing_elem ents o k e : (k, e) ∈ listing ents o ↔ k ∈ o ∧ ents !! k = Some e.
Proof.
  unfold listing. rewrite list_elem_of_omap. split.
  - intros (k' & Hin & Hk'). destruct (ents !! k') eqn:Hk; [|done]. injection Hk' as -> ->. done.
  - intros [Hin Hk]. exists k. by rewrite Hk.
Qed.

Lemma without_id key s : key ∉ s.*1 → without key s = s.
Proof.
  unfold without. induction s as [|[k e] s IH]; [done|]. simpl. intros [Hne Hs]%not_elem_of_cons.
  rewrite filter_cons_True by (simpl; congruence). by rewrite IH.
Qed.

Lemma listing_keys ents o k : k ∈ (listing ents o).*1 → k ∈ o.
Proof. intros ([k' e] & -> & [Hin _]%listing_elem)%list_elem_of_fmap. done. Qed.

Lemma listing_remove ents o key :
  NoDup o → listing ents (remove_first key o) = without key (listing ents o).
Proof.
  unfold without. induction o as [|k o IH]; intros Hnd; [done|]. apply NoDup_cons in Hnd as [Hnin Hnd].
  cbn [remove_first]. unfold listing in *. destruct (decide (k = key)) as [->|Hne]; cbn [omap list_omap].
  - assert (filter (λ kv : string * cacheEntry, kv.1 ≠ key) (omap (λ k, pair k <$> ents !! k) o) =
      omap (λ k, pair k <$> ents !! k) o) as Hid.
    { apply (without_id key). intros Hk. apply Hnin. by eapply (listing_keys ents). }
    destruct (ents !! key); simpl; [|done]. rewrite filter_cons_False by (simpl; naive_solver). done.
  - simpl. rewrite IH by done. destruct (ents !! k); simpl; [|done]. by rewrite filter_cons_True by done.
Qed.

Lemma listing_delete ents o key : key ∉ o → listing (delete key ents) o = listing ents o.
Proof. intros Hk. apply listing_ext. intros k Hin. apply lookup_delete_ne. by intros ->. Qed.

Lemma listing_insert ents o key e : key ∉ o → listing (<[key := e]> ents) o = listing ents o.
Proof. intros Hk. apply listing_ext. intros k Hin. apply lookup_insert_ne. by intros ->. Qed.

Lemma remove_first_absent key (o : list string) : NoDup o → key ∉ remove_first key o.
Proof. intros Hnd [_ Hne]%remove_first_elem; done. Qed.

(** Making a key the most recently used one. *)
Lemma listing_touch ents ents' o key e :
  NoDup o → key ∈ o → ents' !! key = Some e → (∀ k, k ≠ key → ents' !! k = ents !! k) →
  listing ents' (moveToEnd key o) = without key (listing ents o) ++ [(key, e)].
Proof.
  intros Hnd Hin He Hoth. unfold moveToEnd. rewrite (proj2 (contains_spec o key)) by done.
  rewrite listing_app. f_equal.
  - rewrite <- listing_remove by done. apply listing_ext. intros k Hk. apply Hoth. intros ->.
    by eapply remove_first_absent.
  - unfold listing. simpl. by rewrite He.
Qed.

(** The loop of Put drops the oldest entries that are too many. *)
Lemma listing_evict max ents o :
  NoDup o → (∀ k, k ∈ o ↔ is_Some (ents !! k)) → 0 < max →
  listing (evict max ents o).1 (evict max ents o).2 =
  drop (Z.to_nat (Z.of_nat (length (listing ents o)) - (max - 1))) (listing ents o).
Proof.
  revert ents. induction o as [|k o IH]; intros ents Hnd Hin Hmax; [by destruct (Z.to_nat _)|].
  assert (Z.of_nat (size ents) = Z.of_nat (length (listing ents (k :: o)))) as Hsize.
  { pose proof (abs_length {| entries := ents; order := k :: o;
      cfg := {| MaxSize := Z.max 1 (Z.of_nat (size ents)); TTL := 0 |} |}) as Hl. unfold Size in Hl. symmetry. apply Hl.
    split; simpl; [done|done|lia|unfold Size; simpl; lia]. }
  rewrite <- Hsize. cbn [evict]. apply NoDup_cons in Hnd as [Hnin Hnd].
  destruct (proj1 (Hin k)) as [e He]; [by left|].
  destruct (Z.leb_spec max (Z.of_nat (size ents))) as [Hfull|Hroom].
  - rewrite IH; [|done| |done].
    + rewrite listing_delete by done.
      assert (listing ents (k :: o) = (k, e) :: listing ents o) as Hcons by (unfold listing; simpl; by rewrite He).
      rewrite Hcons in *. simpl length in Hsize.
      replace (Z.to_nat (Z.of_nat (size ents) - (max - 1)))
        with (S (Z.to_nat (Z.of_nat (length (listing ents o)) - (max - 1)))) by lia. done.
    + intros k'. rewrite lookup_delete_is_Some, <- Hin. split; [|set_solver]. intros Hk'. split; [by intros ->|by right].
  - by replace (Z.to_nat (Z.of_nat (size ents) - (max - 1))) with 0%nat by lia.
Qed.

(** * Refinement *)

Lemma Get_refines c now key :
  cache_wf c →
  (Get c now key).1 = (spec_get (TTL (cfg c)) now key (abs c)).1 ∧
  abs (Get c now key).2 = (spec_get (TTL (cfg c)) now key (abs c)).2.
Proof.
  intros Hc. unfold Get, get_lookup, spec_get. rewrite abs_find by done.
  destruct (entries c !! key) as [e|] eqn:He; [|done]. destruct (TTL (cfg c) <? time_Sub now (createdAt e)); (split; [done|]).
  - unfold get_drop, abs. simpl. unfold removeFromOrder. destruct Hc as [Hnd _ _ _].
    rewrite listing_delete by by apply remove_first_absent. by apply listing_remove.
  - destruct Hc as [Hnd Hin _ _]. apply listing_touch; [done|apply Hin; eauto|done|done].
Qed.

Lemma Put_refines c now key out :
  cache_wf c → abs (Put c now key out) = spec_put (MaxSize (cfg c)) now key out (abs c).
Proof.
  intros Hc. unfold Put, spec_put. rewrite abs_find by done. pose proof Hc as [Hnd Hin Hmax _].
  destruct (entries c !! key) as [e|] eqn:He.
  - apply listing_touch; [done|apply Hin; eauto|apply lookup_insert_eq|]. intros k Hk. by apply lookup_insert_ne.
  - pose proof (evict_spec _ _ _ Hmax Hnd Hin) as (_ & Hin' & _ & Hsub & _). simpl in Hin', Hsub.
    pose proof (listing_evict _ _ _ Hnd Hin Hmax) as Hl. destruct (evict _ _ _) as [ents o] eqn:Hev. simpl in *.
    assert (key ∉ o) as Hno.
    { intros [x Hx]%Hin'. by rewrite (lookup_weaken _ _ _ _ Hx Hsub) in He. }
    unfold abs. simpl. rewrite listing_app, listing_insert by done. rewrite Hl. f_equal.
    unfold listing. simpl. by rewrite lookup_insert_eq.
Qed.

Lemma run_op_refines c o :
  cache_wf c →
  (run_op c o).1 = (spec_op (cfg c) (abs c) o).1 ∧ abs (run_op c o).2 = (spec_op (cfg c) (abs c) o).2 ∧
  cache_wf (run_op c o).2 ∧ cfg (run_op c o).2 = cfg c.
Proof.
  intros Hc. destruct o as [now key|now key out|]; cbn [run_op spec_op fst snd].
  - destruct (Get_refines c now key Hc) as [H1 H2]. split_and!; [done|done| |]; unfold Get;
      destruct (get_lookup c now key) as [[e []]|]; try done;
      first [by apply (run_section_wf c (SDrop key))|by apply (run_section_wf c (SPromote key))].
  - split_and!; [done|by apply Put_refines|apply (run_section_wf c (SPut now key out) Hc)..].
  - split_and!; [done|done|apply (run_section_wf c SFlush Hc)..].
Qed.

Lemma answers_refine c os :
  cache_wf c →
  (answers run_op c os).1 = (answers (spec_op (cfg c)) (abs c) os).1 ∧
  abs (answers run_op c os).2 = (answers (spec_op (cfg c)) (abs c) os).2.
Proof.
  revert c. induction os as [|o os IH]; intros c Hc; [done|]. cbn [answers].
  destruct (run_op_refines c o Hc) as (Ha & Hs & Hc' & Hcfg).
  destruct (run_op c o) as [a c'], (spec_op (cfg c) (abs c) o) as [a' s']. simpl in *. subst a' s'.
  destruct (IH c' Hc') as [H1 H2]. rewrite Hcfg in H1, H2.
  destruct (answers run_op c' os), (answers (spec_op (cfg c)) (abs c') os). simpl in *. by subst.
Qed.

(** C22: the narration cache is a least-recently-used cache. Over any sequence of
    Get, Put and Flush calls the answers are those of the specification, an
    association list in order of use: a value is found until it is older than
    the lifetime or was among the least recently used ones when room was
    needed, and a found value becomes the most recently used one. The map and
    the order list the code keeps always hold the specification's list. *)
Theorem cache_refines_lru (cf : CacheConfig) (os : list op) :
  let c := NewNarrationCache cf in
  (answers run_op c os).1 = (answers (spec_op (cfg c)) [] os).1 ∧
  abs (answers run_op c os).2 = (answers (spec_op (cfg c)) [] os).2.
Proof. intros c. apply (answers_refine c os), NewNarrationCache_wf. Qed.

(** * The loop of Put *)

(** One iteration: the condition holds and the oldest key is dropped. *)
Inductive evict_step (max : Z) : gmap string cacheEntry * list string → gmap string cacheEntry * list string → Prop :=
  | evict_one ents oldest rest :
      max ≤ Z.of_nat (size ents) → evict_step max (ents, oldest :: rest) (delete oldest ents, rest).

Lemma evict_runs max ents o :
  ∃ n, nsteps (evict_step max) n (ents, o) (evict max ents o) ∧ (n + length (evict max ents o).2 = length o)%nat ∧
    nf (evict_step max) (evict max ents o).
Proof.
  revert ents. induction o as [|k o IH]; intros ents.
  - exists 0%nat. split_and!; [constructor|done|]. intros [x Hx]. inversion Hx.
  - cbn [evict]. destruct (Z.leb_spec max (Z.of_nat (size ents))) as [Hfull|Hroom].
    + destruct (IH (delete k ents)) as (n & Hn & Hlen & Hnf). exists (S n). split_and!; [|simpl; lia|done].
      econstructor; [by constructor|done].
    + exists 0%nat. split_and!; [constructor|done|]. intros [x Hx]. inversion Hx. lia.
Qed.

(** Storing a value always ends. The eviction loop of Put has no infinite run
    from any map and any order list, even ones that disagree; it stops after at
    most as many iterations as the order list has keys, in the state that Put
    goes on with, and no iteration is possible from there. *)
Theorem eviction_terminates (max : Z) (ents : gmap string cacheEntry) (o : list string) :
  well_founded (flip (evict_step max)) ∧
  ∃ n, nsteps (evict_step max) n (ents, o) (evict max ents o) ∧ (n ≤ length o)%nat ∧
    nf (evict_step max) (evict max ents o).
Proof.
  split.
  - apply (wf_projected (<)%nat (λ s : gmap string cacheEntry * list string, length s.2)); [|apply lt_wf].
    intros s s' Hs. inversion Hs. simpl. lia.
  - destruct (evict_runs max ents o) as (n & Hn & Hlen & Hnf). exists n. split_and!; [done|lia|done].
Qed.

End lru.
