(* ===== verification/RateLimit.v ===== *)
(** Rate limiting (src/httpware/ratelimit.go, keyed_ratelimit.go): per-tenant
    buckets and the keyed limiter with its bounded anonymous tier. The token
    bucket of golang.org/x/time/rate, UUID formatting and IP parsing are
    parameters. A bucket is an object shared by the requests that use it. *)

From S2P Require Import Prelude GoText GoJson GoFloat CtxUtil Http ApiError.
From stdpp Require pretty.

Module ratelimit.

(** golang.org/x/time/rate: a bucket, and a reservation made on it. *)
Class RateLib := {
  Limiter : Type;
  NewLimiter : float64.t → Z → Limiter;
  Allow : Time → Limiter → bool * Limiter;
  Reservation : Type;
  Reserve : Time → Limiter → Reservation * Limiter;
  res_OK : Reservation → bool;
  res_Delay : Time → Reservation → Duration;
  res_Cancel : Time → Reservation → Limiter → Limiter;
}.

(** Package net: an address, its IPv4 text, and the text of its /64 network. *)
Class NetLib := {
  IP : Type;
  ParseIP : string → option IP;
  To4_String : IP → option string;
  Mask64_String : IP → string;
}.

(** [httpware/ratelimit.go:20-20] *)
Definition rateLimiterTTL : Duration := 10 * Minute.
(** [httpware/ratelimit.go:24-24] *)
Definition rateLimiterCleanupInterval : Duration := 2 * Minute.

(** [httpware/ratelimit.go: tenantLimiter]
    The bucket is a reference to an object of [lims] below. *)
Record tenantLimiter := { limiter : positive; lastSeen : Time }.

Definition rate_limited : apierror.AppError :=
  {| apierror.Code := "rate_limited"; apierror.Key := ""; apierror.StatusCode := 429;
     apierror.Message := "too many requests"; apierror.Details := None |}.

Section tenant.
Context `{RateLib}.

(** [httpware/ratelimit.go: RateLimiter]
    With the bucket objects. *)
Record RateLimiter := {
  limiters : gmap UUID tenantLimiter;
  lims : gmap positive Limiter;
  rps : float64.t;
  burst : Z;
}.

(** [httpware/ratelimit.go: NewRateLimiter] *)
Definition NewRateLimiter (rps : float64.t) (burst : Z) : RateLimiter :=
  {| limiters := ∅; lims := ∅; rps := rps; burst := burst |}.

(** [httpware/ratelimit.go: RateLimiter.evictStale] *)
Definition evictStale (rl : RateLimiter) (now : Time) : RateLimiter :=
  let cutoff := time_Add now (- rateLimiterTTL) in
  {| limiters := map_drop (λ _ tl, time_Before (lastSeen tl) cutoff) (limiters rl);
     lims := lims rl; rps := rps rl; burst := burst rl |}.

(** [httpware/ratelimit.go: RateLimiter.getLimiter] *)
Definition getLimiter (rl : RateLimiter) (now : Time) (tenantID : UUID) : positive * RateLimiter :=
  match limiters rl !! tenantID with
  | Some tl =>
      (limiter tl,
       {| limiters := <[tenantID := {| limiter := limiter tl; lastSeen := now |}]> (limiters rl);
          lims := lims rl; rps := rps rl; burst := burst rl |})
  | None =>
      let l := fresh (dom (lims rl)) in
      (l, {| limiters := <[tenantID := {| limiter := l; lastSeen := now |}]> (limiters rl);
             lims := <[l := NewLimiter (rps rl) (burst rl)]> (lims rl); rps := rps rl; burst := burst rl |})
  end.

(** [httpware/ratelimit.go: RateLimiter.Handler] *)
Definition tenant_Handler (rl : RateLimiter) (now : Time) (w : ResponseWriter) (r : Request)
  : verdict * RateLimiter :=
  let tenantID := ctxutil.GetTenantID (req_ctx r) in
  if (tenantID =? uuid_Nil)%N then (Next w r, rl)
  else
    let '(l, rl) := getLimiter rl now tenantID in
    match lims rl !! l with
    | None => (Next w r, rl)
    | Some b =>
        let '(ok, b) := Allow now b in
        let rl := {| limiters := limiters rl; lims := <[l := b]> (lims rl); rps := rps rl; burst := burst rl |} in
        if negb ok then (Reply (apierror.WriteJSON rate_limited (rw_set_header w "Retry-After" "1")), rl)
        else (Next w r, rl)
    end.

End tenant.

(** * The keyed limiter *)

(** [httpware/keyed_ratelimit.go: DefaultMaxAnonymousKeys] *)
Definition DefaultMaxAnonymousKeys : Z := 10000.

(** [httpware/keyed_ratelimit.go: KeyedRateLimiterConfig] *)
Record KeyedRateLimiterConfig := {
  RPS : float64.t;
  Burst : Z;
  AnonymousRPS : float64.t;
  AnonymousBurst : Z;
  ClientIP : option (Request → string);
  MaxAnonymousKeys : Z;
  IdleTTL : Duration;
}.

(** [httpware/keyed_ratelimit.go: peerAddress] *)
Definition peerAddress (r : Request) : string := default (req_RemoteAddr r) (SplitHost (req_RemoteAddr r)).

(** [httpware/keyed_ratelimit.go:79-99] the configuration NewKeyedRateLimiter accepts and completes *)
Definition complete (c : KeyedRateLimiterConfig) : result string KeyedRateLimiterConfig :=
  if float64.leb (RPS c) float64.zero || (Burst c <=? 0) then
    Err "httpware: KeyedRateLimiter needs a positive RPS and Burst"
  else if float64.ltb (AnonymousRPS c) float64.zero || (AnonymousBurst c <? 0) ||
          (MaxAnonymousKeys c <? 0) || (IdleTTL c <? 0) then
    Err "httpware: KeyedRateLimiter limits must not be negative"
  else Ok {| RPS := RPS c; Burst := Burst c;
             AnonymousRPS := if float64.is_zero (AnonymousRPS c)
                             then float64.div (RPS c) (float64.of_Z 10) else AnonymousRPS c;
             AnonymousBurst := if AnonymousBurst c =? 0 then Z.max (Z.quot (Burst c) 10) 1 else AnonymousBurst c;
             ClientIP := Some (default peerAddress (ClientIP c));
             MaxAnonymousKeys := if MaxAnonymousKeys c =? 0 then DefaultMaxAnonymousKeys else MaxAnonymousKeys c;
             IdleTTL := if IdleTTL c =? 0 then rateLimiterTTL else IdleTTL c |}.

Section keyed.
Context `{RateLib, NetLib} (uuid_String : UUID → string).

(** [httpware/keyed_ratelimit.go: KeyedRateLimiter]
    With the bucket objects. *)
Record KeyedRateLimiter := {
  cfg : KeyedRateLimiterConfig;
  keys : gmap string tenantLimiter;
  anon : Z;
  buckets : gmap positive Limiter;
}.

(** [httpware/keyed_ratelimit.go: NewKeyedRateLimiter] *)
Definition NewKeyedRateLimiter (c : KeyedRateLimiterConfig) : result string KeyedRateLimiter :=
  let? c := complete c in Ok {| cfg := c; keys := ∅; anon := 0; buckets := ∅ |}.

(** [httpware/keyed_ratelimit.go: addressKey] *)
Definition addressKey (addr : string) : string :=
  if String.eqb addr "" then "unknown"
  else match ParseIP addr with
       | None => if 64 <? slen addr then slice 0 64 addr else addr
       | Some ip =>
           match To4_String ip with
           | Some s => s
           | None => Mask64_String ip +:+ "/64"
           end
       end.

(** [httpware/keyed_ratelimit.go: KeyedRateLimiter.key] *)
Definition key (c : KeyedRateLimiterConfig) (r : Request) : string * bool :=
  let ctx := req_ctx r in
  let tid := ctxutil.GetTenantID ctx in
  if negb (tid =? uuid_Nil)%N then ("t:" +:+ uuid_String tid, false)
  else
    let sub := ctxutil.GetUserSub ctx in
    if negb (String.eqb sub "") then ("s:" +:+ sub, false)
    else ("a:" +:+ addressKey (default peerAddress (ClientIP c) r), true).

(** [httpware/keyed_ratelimit.go: KeyedRateLimiter.limiter] *)
Definition limiter_ (rl : KeyedRateLimiter) (now : Time) (key : string) (anonymous : bool)
  : option positive * KeyedRateLimiter :=
  match keys rl !! key with
  | Some kl =>
      (Some (limiter kl),
       {| cfg := cfg rl; keys := <[key := {| limiter := limiter kl; lastSeen := now |}]> (keys rl);
          anon := anon rl; buckets := buckets rl |})
  | None =>
      if anonymous && (MaxAnonymousKeys (cfg rl) <=? anon rl) then (None, rl)
      else
        let l := fresh (dom (buckets rl)) in
        let b := if anonymous then NewLimiter (AnonymousRPS (cfg rl)) (AnonymousBurst (cfg rl))
                 else NewLimiter (RPS (cfg rl)) (Burst (cfg rl)) in
        (Some l, {| cfg := cfg rl; keys := <[key := {| limiter := l; lastSeen := now |}]> (keys rl);
                    anon := if anonymous then anon rl + 1 else anon rl;
                    buckets := <[l := b]> (buckets rl) |})
  end.

(** [k[0] == 'a'] *)
Definition is_anon (k : string) : bool := match k with String c _ => byte_of c =? 97 | EmptyString => false end.

(** [httpware/keyed_ratelimit.go: KeyedRateLimiter.evictIdle] *)
Definition evictIdle (rl : KeyedRateLimiter) (cutoff : Time) : KeyedRateLimiter :=
  let idle (kl : tenantLimiter) := time_Before (lastSeen kl) cutoff in
  {| cfg := cfg rl; keys := map_drop (λ _ kl, idle kl) (keys rl);
     anon := anon rl - Z.of_nat (size (filter (λ kv, is_anon kv.1 = true ∧ idle kv.2 = true) (keys rl)));
     buckets := buckets rl |}.

(** [httpware/keyed_ratelimit.go: writeRateLimited] *)
Definition writeRateLimited (w : ResponseWriter) (delay : Duration) : ResponseWriter :=
  apierror.WriteJSON rate_limited
    (rw_set_header w "Retry-After" (itoa (Z.max (float64.ceil (float64.seconds_of delay)) 1))).

(** [httpware/keyed_ratelimit.go:121-130] the reservation a request makes on its bucket *)
Definition reserve (rl : KeyedRateLimiter) (now : Time) (l : positive) (w : ResponseWriter) (r : Request)
  : verdict * KeyedRateLimiter :=
  match buckets rl !! l with
  | None => (Next w r, rl)
  | Some b =>
      let '(res, b) := Reserve now b in
      let delay := res_Delay now res in
      if negb (res_OK res) || (0 <? delay) then
        let b := res_Cancel now res b in
        (Reply (writeRateLimited w (if negb (res_OK res) then Second else delay)),
         {| cfg := cfg rl; keys := keys rl; anon := anon rl; buckets := <[l := b]> (buckets rl) |})
      else (Next w r, {| cfg := cfg rl; keys := keys rl; anon := anon rl; buckets := <[l := b]> (buckets rl) |})
  end.

(** [httpware/keyed_ratelimit.go: KeyedRateLimiter.Handler] *)
Definition keyed_Handler (rl : KeyedRateLimiter) (now : Time) (w : ResponseWriter) (r : Request)
  : verdict * KeyedRateLimiter :=
  let '(k, anonymous) := key (cfg rl) r in
  let '(lim, rl) := limiter_ rl now k anonymous in
  match lim with
  | None => (Reply (writeRateLimited w (IdleTTL (cfg rl))), rl)
  | Some l => reserve rl now l w r
  end.

(** ** Interleavings: the locked sections of concurrent requests and of the
    cleanup goroutine. *)
Inductive section :=
| SLimiter (now : Time) (r : Request)
| SReserve (now : Time) (l : positive) (r : Request)
| SEvict (cutoff : Time).

Definition run_section (rl : KeyedRateLimiter) (s : section) : KeyedRateLimiter :=
  match s with
  | SLimiter now r => (limiter_ rl now (key (cfg rl) r).1 (key (cfg rl) r).2).2
  | SReserve now l r => (reserve rl now l new_response r).2
  | SEvict cutoff => evictIdle rl cutoff
  end.

(** The counter is the number of client-address buckets, within its bound. *)
Record counted (rl : KeyedRateLimiter) : Prop := {
  exact : anon rl = Z.of_nat (size (filter (λ kv, is_anon kv.1 = true) (keys rl)));
  bounded : anon rl ≤ MaxAnonymousKeys (cfg rl);
}.

Lemma key_anon c r : is_anon (key c r).1 = (key c r).2.
Proof. unfold key. destruct (negb _); [done|]. by destruct (negb _). Qed.

Lemma filter_size_insert (m : gmap string tenantLimiter) k v :
  m !! k = None →
  size (filter (λ kv, is_anon kv.1 = true) (<[k := v]> m)) =
    ((if is_anon k then 1 else 0) + size (filter (λ kv, is_anon kv.1 = true) m))%nat.
Proof.
  intros Hk. destruct (is_anon k) eqn:Ha.
  - rewrite map_filter_insert_True by done. rewrite map_size_insert_None; [done|].
    apply map_lookup_filter_None. by left.
  - rewrite map_filter_insert_False by (simpl; congruence).
    rewrite delete_id by done. done.
Qed.

Lemma filter_size_update (m : gmap string tenantLimiter) k v v' :
  m !! k = Some v →
  size (filter (λ kv, is_anon kv.1 = true) (<[k := v']> m)) =
    size (filter (λ kv, is_anon kv.1 = true) m).
Proof.
  intros Hk. rewrite <- (insert_delete_id m k v Hk) at 2. rewrite <- insert_delete_eq.
  by rewrite !filter_size_insert by apply lookup_delete_eq.
Qed.

Lemma filter_size_split (m : gmap string tenantLimiter) (idle : tenantLimiter → bool) :
  size (filter (λ kv, is_anon kv.1 = true) m) =
    (size (filter (λ kv, is_anon kv.1 = true ∧ idle kv.2 = true) m) +
     size (filter (λ kv, is_anon kv.1 = true) (map_drop (λ _ kl, idle kl) m)))%nat.
Proof.
  rewrite <- map_size_disj_union.
  - f_equal. apply map_eq. intros k. apply option_eq. intros v.
    unfold map_drop. rewrite lookup_union_Some_raw, !map_lookup_filter_Some, map_lookup_filter_None.
    simpl. split.
    + intros [Hk Ha]. destruct (idle v) eqn:Hi; [by left|]. right. split; [|done].
      right. intros x Hx [_ Hix]. rewrite Hk in Hx. injection Hx as <-. congruence.
    + intros [[? [? ?]]|[_ [[? ?] ?]]]; done.
  - apply map_disjoint_spec. intros k v v'. unfold map_drop.
    rewrite !map_lookup_filter_Some. simpl. intros [? [? ?]] [[? ?] ?]. simplify_eq; congruence.
Qed.

Lemma run_section_counted rl s : counted rl → counted (run_section rl s) ∧ cfg (run_section rl s) = cfg rl.
Proof.
  intros [He Hb]. destruct s as [now r|now l r|cutoff]; simpl.
  - unfold limiter_. pose proof (key_anon (cfg rl) r) as Hk. destruct (key (cfg rl) r) as [k a]. simpl in *.
    destruct (keys rl !! k) as [kl|] eqn:Hl; simpl.
    + split; [|done]. split; simpl; [|done]. by rewrite (filter_size_update _ _ kl).
    + destruct (a && _) eqn:Hf; simpl; [done|]. split; [|done].
      split; simpl; [rewrite filter_size_insert by done; rewrite Hk|]; destruct a; simpl in *; bool_to_prop; lia.
  - unfold reserve. destruct (buckets rl !! l) as [b|]; [|done]. destruct (Reserve now b) as [res b'].
    destruct (_ || _); done.
  - split; [|done]. split; simpl; [|lia]. rewrite He.
    rewrite (filter_size_split (keys rl) (λ kl, time_Before (lastSeen kl) cutoff)) at 1. lia.
Qed.

(** The number of client-address buckets is exactly what the limiter counts
    and never exceeds its maximum, in any interleaving of the locked sections of
    concurrent requests with the cleanup: an unauthenticated flood cannot make
    the table grow without bound. *)
Theorem anonymous_buckets_bounded (c : KeyedRateLimiterConfig) (rl : KeyedRateLimiter) (ss : list section) :
  NewKeyedRateLimiter c = Ok rl →
  let rl' := fold_left run_section ss rl in
  anon rl' = Z.of_nat (size (filter (λ kv, is_anon kv.1 = true) (keys rl'))) ∧
  anon rl' ≤ MaxAnonymousKeys (cfg rl) ∧ 0 < MaxAnonymousKeys (cfg rl).
Proof.
  intros Hnew.
  assert (counted rl ∧ 0 < MaxAnonymousKeys (cfg rl)) as [Hc Hpos].
  { revert Hnew. unfold NewKeyedRateLimiter, complete.
    destruct (_ || _); [done|]. destruct (_ || _) eqn:Hneg; [done|]. simpl. intros [= <-]. simpl.
    apply orb_false_iff in Hneg as [Hneg _]. apply orb_false_iff in Hneg as [_ Hneg]. bool_to_prop.
    assert (0 < (if MaxAnonymousKeys c =? 0 then DefaultMaxAnonymousKeys else MaxAnonymousKeys c)).
    { destruct (Z.eqb_spec (MaxAnonymousKeys c) 0); [done|lia]. }
    split; [|done]. split; simpl; [by rewrite map_filter_empty, map_size_empty|lia]. }
  assert (∀ rl0, counted rl0 → counted (fold_left run_section ss rl0) ∧
            cfg (fold_left run_section ss rl0) = cfg rl0) as Hrun.
  { clear. induction ss as [|s ss IH]; intros rl0 Hrl0; simpl; [done|].
    destruct (run_section_counted rl0 s Hrl0) as [Hrl1 Hcfg]. destruct (IH _ Hrl1). split; [done|congruence]. }
  destruct (Hrun rl Hc) as [[He Hb] Hcfg]. rewrite Hcfg in Hb. done.
Qed.

(** The tiers never share a bucket: two requests have the same key only if
    both carry the same tenant, or both have no tenant and the same subject, or
    both have neither and the same normalised client address; a subject or an
    address spelled like a tenant id gets a bucket of its own. *)
Theorem tiers_are_separate (c : KeyedRateLimiterConfig) (r1 r2 : Request) :
  Inj (=) (=) uuid_String →
  (key c r1).1 = (key c r2).1 →
  let t r := ctxutil.GetTenantID (req_ctx r) in
  let s r := ctxutil.GetUserSub (req_ctx r) in
  let a r := addressKey (default peerAddress (ClientIP c) r) in
  t r1 = t r2 ∧
  (t r1 = uuid_Nil → s r1 = s r2 ∧ (s r1 = "" → a r1 = a r2)).
Proof.
  intros Hinj. unfold key.
  destruct (N.eqb_spec (ctxutil.GetTenantID (req_ctx r1)) uuid_Nil) as [E1|E1],
    (N.eqb_spec (ctxutil.GetTenantID (req_ctx r2)) uuid_Nil) as [E2|E2]; simpl;
    destruct (String.eqb_spec (ctxutil.GetUserSub (req_ctx r1)) "") as [F1|F1],
      (String.eqb_spec (ctxutil.GetUserSub (req_ctx r2)) "") as [F2|F2]; simpl; try done;
    rewrite !append_cons, !append_nil; try (intros [= Heq]); try done.
  all: try (apply Hinj in Heq); rewrite ?E1, ?E2, ?F1, ?F2; naive_solver.
Qed.

(** The bucket a request with this key reserves on: the one in use, or a full
    one of its tier. *)
Definition bucket_of (rl : KeyedRateLimiter) (k : string) (anonymous : bool) : option Limiter :=
  match keys rl !! k with
  | Some kl => buckets rl !! limiter kl
  | None => Some (if anonymous then NewLimiter (AnonymousRPS (cfg rl)) (AnonymousBurst (cfg rl))
                  else NewLimiter (RPS (cfg rl)) (Burst (cfg rl)))
  end.

(** What a request that is passed on has reserved. *)
Lemma keyed_Handler_Next (rl rl' : KeyedRateLimiter) (now : Time) (w w' : ResponseWriter) (r r' : Request) :
  (∀ k kl, keys rl !! k = Some kl → is_Some (buckets rl !! limiter kl)) →
  keyed_Handler rl now w r = (Next w' r', rl') →
  w' = w ∧ r' = r ∧
  ∃ kl b, bucket_of rl (key (cfg rl) r).1 (key (cfg rl) r).2 = Some b ∧
    keys rl' !! (key (cfg rl) r).1 = Some kl ∧ lastSeen kl = now ∧
    res_OK (Reserve now b).1 = true ∧ res_Delay now (Reserve now b).1 ≤ 0 ∧
    buckets rl' !! limiter kl = Some (Reserve now b).2.
Proof.
  intros Hobj. unfold keyed_Handler, limiter_, bucket_of. destruct (key (cfg rl) r) as [k a]. simpl.
  assert (∀ rl1 l, keys rl1 !! k = Some {| limiter := l; lastSeen := now |} →
    ∀ b, buckets rl1 !! l = Some b → reserve rl1 now l w r = (Next w' r', rl') →
    w' = w ∧ r' = r ∧ keys rl' !! k = Some {| limiter := l; lastSeen := now |} ∧
    res_OK (Reserve now b).1 = true ∧ res_Delay now (Reserve now b).1 ≤ 0 ∧
    buckets rl' !! l = Some (Reserve now b).2) as Hres.
  { intros rl1 l Hk b Hb. unfold reserve. rewrite Hb. destruct (Reserve now b) as [res b'].
    destruct (_ || _) eqn:Hbad; [done|]. bool_to_prop. intros [= <- <- <-]. simpl.
    rewrite lookup_insert_eq. done. }
  destruct (keys rl !! k) as [kl|] eqn:Hk.
  - destruct (Hobj _ _ Hk) as [b Hb]. intros Hr.
    eapply Hres in Hr; [|apply lookup_insert_eq|exact Hb].
    destruct Hr as (-> & -> & Hk' & ? & ? & ?). split_and!; [done..|].
    eexists _, b. split_and!; [done|exact Hk'|done..].
  - destruct (a && _); [done|]. intros Hr.
    eapply Hres in Hr; [|apply lookup_insert_eq|apply lookup_insert_eq].
    destruct Hr as (-> & -> & Hk' & ? & ? & ?). split_and!; [done..|].
    eexists _, _. split_and!; [done|exact Hk'|done..].
Qed.

(** No request passes uncounted, and only anonymous ones can be turned away
    for lack of room: a request is passed on only after a reservation on the
    bucket of its own key that is granted without delay, and a request with a
    tenant or a subject always has a bucket. *)
Theorem every_request_is_limited (rl rl' : KeyedRateLimiter) (now : Time) (w w' : ResponseWriter) (r r' : Request) :
  (∀ k kl, keys rl !! k = Some kl → is_Some (buckets rl !! limiter kl)) →
  keyed_Handler rl now w r = (Next w' r', rl') →
  w' = w ∧ r' = r ∧
  ∃ kl b, bucket_of rl (key (cfg rl) r).1 (key (cfg rl) r).2 = Some b ∧
    keys rl' !! (key (cfg rl) r).1 = Some kl ∧ lastSeen kl = now ∧
    res_OK (Reserve now b).1 = true ∧ res_Delay now (Reserve now b).1 ≤ 0 ∧
    buckets rl' !! limiter kl = Some (Reserve now b).2.
Proof. apply keyed_Handler_Next. Qed.

End keyed.

(** * A concrete bucket: a number of tokens, never refilled *)
Module Demo.

#[global] Instance rate : RateLib :=
  {| Limiter := Z; NewLimiter _ b := b; Allow _ b := (0 <? b, b - 1);
     Reservation := bool; Reserve _ b := (0 <? b, b - 1); res_OK r := r; res_Delay _ _ := 0;
     res_Cancel _ _ b := b + 1 |}.
#[global] Instance net : NetLib :=
  {| IP := string; ParseIP s := if String.eqb s "10.0.0.1" then Some s else None; To4_String ip := Some ip;
     Mask64_String ip := ip |}.

Definition config : KeyedRateLimiterConfig :=
  {| RPS := float64.of_Z 5; Burst := 10; AnonymousRPS := float64.zero; AnonymousBurst := 0; ClientIP := None;
     MaxAnonymousKeys := 1; IdleTTL := 0 |}.
Definition limiter0 : KeyedRateLimiter :=
  match complete config with
  | Ok c => {| cfg := c; keys := ∅; anon := 0; buckets := ∅ |}
  | Err _ => {| cfg := config; keys := ∅; anon := 0; buckets := ∅ |}
  end.
Definition from (addr : string) (ctx : ctxutil.context) : Request :=
  {| req_Method := "GET"; req_Path := "/"; req_RawQuery := ""; req_Pattern := ""; req_RemoteAddr := addr;
     req_Header := ∅; req_ctx := ctx |}.
Definition anonymous : Request := from "10.0.0.1:4711" ctxutil.Background.
Definition tenant : Request := from "10.0.0.1:4711" (ctxutil.WithTenantID ctxutil.Background 7%N).

Definition show_uuid (u : UUID) : string := pretty.pretty u.
#[global] Instance show_uuid_inj : Inj (=) (=) show_uuid := pretty.pretty_N_inj.

End Demo.
Import Demo.

Lemma anonymous_buckets_bounded_witness :
  let rl := fold_left (run_section show_uuid)
              [SLimiter Second anonymous; SLimiter Second (from "other" ctxutil.Background)] limiter0 in
  anon rl = 1 ∧ anon rl = Z.of_nat (size (filter (λ kv, is_anon kv.1 = true) (keys rl))) ∧
  anon rl ≤ 1 ∧ 0 < 1.
Proof.
  split; [vm_compute; reflexivity|].
  apply (anonymous_buckets_bounded show_uuid config limiter0
    [SLimiter Second anonymous; SLimiter Second (from "other" ctxutil.Background)]).
  vm_compute. reflexivity.
Defined.

Lemma tiers_are_separate_witness :
  ctxutil.GetTenantID (req_ctx tenant) = ctxutil.GetTenantID (req_ctx tenant).
Proof. exact (proj1 (tiers_are_separate show_uuid config tenant tenant _ eq_refl)). Defined.

Lemma every_request_is_limited_witness :
  ∃ kl b, keys (keyed_Handler show_uuid limiter0 Second new_response tenant).2 !! "t:7" = Some kl ∧
    res_OK (Reserve Second b).1 = true ∧ b = NewLimiter (float64.of_Z 5) 10.
Proof.
  destruct (every_request_is_limited show_uuid limiter0 (keyed_Handler show_uuid limiter0 Second new_response tenant).2
    Second new_response new_response tenant tenant) as (_ & _ & kl & b & H3 & H1 & _ & H2 & _).
  - intros k kl Hk. vm_compute in Hk. discriminate.
  - vm_compute. reflexivity.
  - exists kl, b. split; [exact H1|]. split; [exact H2|]. vm_compute in H3. vm_compute. congruence.
Defined.

End ratelimit.
