(* ===== verification/RateIsolation.v ===== *)
(** Non-interference of the keyed rate limiter (src/httpware/keyed_ratelimit.go):
    what a caller with a tenant or a subject is answered depends on nothing that
    other callers do, in any interleaving of the locked sections of requests and
    of the cleanup. The proof relates a run to the run without the others by a
    renaming of bucket objects. *)

From S2P Require Import Prelude GoText GoJson GoFloat CtxUtil Http ApiError RateLimit.

Module isolation.
Import ratelimit.

(** * Runs *)

(** A request enters when it gets its bucket, and spends when it makes its
    reservation on it; [i] identifies the request. *)
Inductive event :=
| Enter (i : N) (now : Time) (w : ResponseWriter) (r : Request)
| Spend (i : N) (now : Time)
| Evict (cutoff : Time).

Section runs.
Context `{RateLib, NetLib} (uuid_String : UUID → string).
Abbreviation key_of := (key uuid_String) (only parsing).

(** The limiter, and the bucket of each request between its two sections. *)
Record state := { rl : KeyedRateLimiter; flight : gmap N (positive * ResponseWriter * Request) }.

(** The answer, if the event gives one, with the key of its request. *)
Definition step (s : state) (e : event) : option (string * verdict) * state :=
  match e with
  | Enter i now w r =>
      let '(k, anonymous) := key_of (cfg (rl s)) r in
      let '(lim, rl') := limiter_ (rl s) now k anonymous in
      match lim with
      | None => (Some (k, Reply (writeRateLimited w (IdleTTL (cfg (rl s))))), {| rl := rl'; flight := flight s |})
      | Some l => (None, {| rl := rl'; flight := <[i := (l, w, r)]> (flight s) |})
      end
  | Spend i now =>
      match flight s !! i with
      | None => (None, s)
      | Some (l, w, r) =>
          let '(v, rl') := reserve (rl s) now l w r in
          (Some ((key_of (cfg (rl s)) r).1, v), {| rl := rl'; flight := delete i (flight s) |})
      end
  | Evict cutoff => (None, {| rl := evictIdle (rl s) cutoff; flight := flight s |})
  end.

(** The answers to the requests of key [k]. *)
Fixpoint served (k : string) (s : state) (es : list event) : list verdict :=
  match es with
  | [] => []
  | e :: es =>
      match step s e with
      | (Some (k', v), s') => if String.eqb k' k then v :: served k s' es else served k s' es
      | (None, s') => served k s' es
      end
  end.

(** The events that are left when no other caller is there. *)
Definition concerns (c : KeyedRateLimiterConfig) (k : string) (e : event) : bool :=
  match e with Enter _ _ _ r => String.eqb (key_of c r).1 k | _ => true end.

Definition entered (e : event) : option N := match e with Enter i _ _ _ => Some i | _ => None end.

(** * The relation *)

(** [ren] renames the buckets that [k] uses in the full run to those of the run
    without the others. *)
Record alike (k : string) (done_ : gset N) (ren : gmap positive positive) (s s' : state) : Prop := {
  al_cfg : cfg (rl s') = cfg (rl s);
  al_key : match keys (rl s) !! k with
           | Some kl => ∃ l', ren !! limiter kl = Some l' ∧ keys (rl s') !! k = Some {| limiter := l'; lastSeen := lastSeen kl |}
           | None => keys (rl s') !! k = None
           end;
  al_flight i : match flight s !! i with
                | Some (l, w, r) =>
                    if String.eqb (key_of (cfg (rl s)) r).1 k
                    then ∃ l', ren !! l = Some l' ∧ flight s' !! i = Some (l', w, r)
                    else ren !! l = None ∧ is_Some (buckets (rl s) !! l) ∧ flight s' !! i = None
                | None => flight s' !! i = None
                end;
  al_buckets l l' : ren !! l = Some l' → ∃ b, buckets (rl s) !! l = Some b ∧ buckets (rl s') !! l' = Some b;
  al_inj l1 l2 l' : ren !! l1 = Some l' → ren !! l2 = Some l' → l1 = l2;
  al_other k' kl : k' ≠ k → keys (rl s) !! k' = Some kl → ren !! limiter kl = None ∧ is_Some (buckets (rl s) !! limiter kl);
  al_done i : is_Some (flight s !! i) → i ∈ done_;
}.

Lemma evict_alike k d ren s s' cutoff :
  alike k d ren s s' → alike k d ren (step s (Evict cutoff)).2 (step s' (Evict cutoff)).2.
Proof.
  intros [Hc Hk Hf Hb Hi Ho Hd]. split; simpl; try done.
  - destruct (keys (rl s) !! k) as [kl|] eqn:Hs; [|by rewrite !map_drop_None].
    destruct Hk as (l' & Hr & Hk'). destruct (time_Before (lastSeen kl) cutoff) eqn:Ht.
    + rewrite (map_drop_true _ (keys (rl s)) k kl) by done. by eapply map_drop_true.
    + rewrite (proj2 (map_drop_lookup _ (keys (rl s)) k kl)) by done. exists l'. split; [done|]. by apply map_drop_lookup.
  - intros k' kl Hne [Hx _]%map_drop_lookup. by apply (Ho k').
Qed.

(** The bucket of request [i] is spent from in both runs. *)
Lemma spend_alike k d ren s s' i now l l' w r :
  alike k d ren s s' → flight s !! i = Some (l, w, r) → ren !! l = Some l' → flight s' !! i = Some (l', w, r) →
  (step s (Spend i now)).1 = (step s' (Spend i now)).1 ∧
  alike k d ren (step s (Spend i now)).2 (step s' (Spend i now)).2.
Proof.
  intros [Hc Hk Hf Hb Hi Ho Hd] Hl Hr Hl'. simpl. rewrite Hl, Hl', Hc. unfold reserve.
  destruct (Hb _ _ Hr) as (b & -> & ->). destruct (Reserve now b) as [res b1].
  set (b2 := if negb (res_OK res) || (0 <? res_Delay now res) then res_Cancel now res b1 else b1).
  assert (∀ m m' : gmap positive Limiter, m = <[l := b2]> (buckets (rl s)) → m' = <[l' := b2]> (buckets (rl s')) →
    alike k d ren
      {| rl := {| cfg := cfg (rl s); keys := keys (rl s); anon := anon (rl s); buckets := m |}; flight := delete i (flight s) |}
      {| rl := {| cfg := cfg (rl s'); keys := keys (rl s'); anon := anon (rl s'); buckets := m' |}; flight := delete i (flight s') |})
    as Hal.
  { intros m m' -> ->. split; simpl; [done|done| | |done| |].
    - intros j. destruct (decide (j = i)) as [->|]; [by rewrite !lookup_delete_eq|]. rewrite !lookup_delete_ne by done.
      specialize (Hf j). destruct (flight s !! j) as [[[lj wj] rj]|]; [|done]. destruct (String.eqb _ k); [done|].
      destruct Hf as (? & ? & ?). split_and!; [done|by apply lookup_insert_is_Some'; right|done].
    - intros l1 l1' Hr1. destruct (decide (l1 = l)) as [->|Hne].
      + exists b2. simplify_eq. by rewrite !lookup_insert_eq.
      + rewrite !lookup_insert_ne; [by apply Hb| |done]. intros <-. apply Hne. by eapply Hi.
    - intros k' kl Hne Hk'. destruct (Ho _ _ Hne Hk'). split; [done|]. by apply lookup_insert_is_Some'; right.
    - intros j [x Hx]. apply Hd. apply lookup_delete_Some in Hx as [_ Hx]. by exists x. }
  destruct (negb (res_OK res) || (0 <? res_Delay now res)) eqn:Hv; (split; [done|]); apply Hal; done.
Qed.

(** A request of another key spends: nothing changes for [k]. *)
Lemma spend_other k d ren s s' i now l w r :
  alike k d ren s s' → flight s !! i = Some (l, w, r) → (key_of (cfg (rl s)) r).1 ≠ k →
  alike k d ren (step s (Spend i now)).2 s'.
Proof.
  intros [Hc Hk Hf Hb Hi Ho Hd] Hl Hne. pose proof (Hf i) as Hfi. rewrite Hl in Hfi.
  rewrite (proj2 (String.eqb_neq _ _) Hne) in Hfi. destruct Hfi as (Hr & [b Hbl] & Hfi'). simpl. rewrite Hl. unfold reserve.
  rewrite Hbl. destruct (Reserve now b) as [res b1].
  assert (∀ b2, alike k d ren
    {| rl := {| cfg := cfg (rl s); keys := keys (rl s); anon := anon (rl s); buckets := <[l := b2]> (buckets (rl s)) |};
       flight := delete i (flight s) |} s') as Hal.
  { intros b2. split; simpl; [done|done| | |done| |].
    - intros j. destruct (decide (j = i)) as [->|]; [by rewrite lookup_delete_eq|]. rewrite lookup_delete_ne by done.
      specialize (Hf j). destruct (flight s !! j) as [[[lj wj] rj]|]; [|done]. destruct (String.eqb _ k); [done|].
      destruct Hf as (? & ? & ?). split_and!; [done|by apply lookup_insert_is_Some'; right|done].
    - intros l1 l1' Hr1. rewrite lookup_insert_ne; [by apply Hb|]. congruence.
    - intros k' kl Hk'. intros Hx. destruct (Ho _ _ Hk' Hx). split; [done|]. by apply lookup_insert_is_Some'; right.
    - intros j [x Hx]. apply Hd. apply lookup_delete_Some in Hx as [_ Hx]. by exists x. }
  destruct (negb (res_OK res) || (0 <? res_Delay now res)); apply Hal.
Qed.

Lemma flight_free k d ren s s' i : alike k d ren s s' → i ∉ d → flight s !! i = None ∧ flight s' !! i = None.
Proof.
  intros [_ _ Hf _ _ _ Hd] Hi. specialize (Hf i). destruct (flight s !! i) as [x|] eqn:Hx; [|done].
  destruct Hi. apply Hd. by rewrite Hx.
Qed.

Lemma alike_done k d d' ren s s' : d ⊆ d' → alike k d ren s s' → alike k d' ren s s'.
Proof. intros Hsub [Hc Hk Hf Hb Hi Ho Hd]. split; [done..|]. intros i Hx. by apply Hsub, Hd. Qed.

(** The state in which request [i] has got bucket [l] of key [k']. *)
Definition with_bucket (s : state) (i : N) (k' : string) (now : Time) (l : positive) (an : Z) (bs : gmap positive Limiter)
    (w : ResponseWriter) (r : Request) : state :=
  {| rl := {| cfg := cfg (rl s); keys := <[k' := {| limiter := l; lastSeen := now |}]> (keys (rl s)); anon := an; buckets := bs |};
     flight := <[i := (l, w, r)]> (flight s) |}.

(** A request of another key gets a bucket that [k] does not use. *)
Lemma other_bucket k d ren s s' i k' now l an bs w r :
  alike k d ren s s' → i ∉ d → k' ≠ k → (key_of (cfg (rl s)) r).1 = k' → ren !! l = None → is_Some (bs !! l) →
  (∀ x b, buckets (rl s) !! x = Some b → bs !! x = Some b) →
  alike k ({[i]} ∪ d) ren (with_bucket s i k' now l an bs w r) s'.
Proof.
  intros Hal Hi Hne Hk' Hr Hl Hbs. destruct (flight_free _ _ _ _ _ _ Hal Hi) as [Hfree Hfree'].
  destruct Hal as [Hc Hk Hf Hb Hinj Ho Hd]. split; simpl; [done|by rewrite lookup_insert_ne| | |done| |].
  - intros j. destruct (decide (j = i)) as [->|].
    + rewrite lookup_insert_eq, Hk', (proj2 (String.eqb_neq _ _) Hne). done.
    + rewrite lookup_insert_ne by done. specialize (Hf j). destruct (flight s !! j) as [[[lj wj] rj]|]; [|done].
      destruct (String.eqb _ k); [done|]. destruct Hf as (? & [b ?] & ?). split_and!; [done|exists b; by apply Hbs|done].
  - intros l1 l1' Hr1. destruct (Hb _ _ Hr1) as (b & ? & ?). exists b. split; [by apply Hbs|done].
  - intros k2 kl Hk2 [[<- <-]|[_ Hx]]%lookup_insert_Some; [done|]. destruct (Ho _ _ Hk2 Hx) as [? [b ?]].
    split; [done|]. exists b. by apply Hbs.
  - intros j [x [[<- _]|[_ Hx]]%lookup_insert_Some]; [set_solver|]. apply elem_of_union_r, Hd. by exists x.
Qed.

Lemma enter_other k d ren s s' i now w r :
  alike k d ren s s' → i ∉ d → (key_of (cfg (rl s)) r).1 ≠ k →
  alike k ({[i]} ∪ d) ren (step s (Enter i now w r)).2 s'.
Proof.
  intros Hal Hi Hne. pose proof Hal as [Hc Hk Hf Hb Hinj Ho Hd]. simpl.
  destruct (key_of (cfg (rl s)) r) as [k' a] eqn:Hkey. simpl in Hne. unfold limiter_.
  assert ((key_of (cfg (rl s)) r).1 = k') as Hk' by (by rewrite Hkey).
  destruct (keys (rl s) !! k') as [kl|] eqn:Hx.
  - destruct (Ho _ _ Hne Hx) as [? ?]. simpl. apply (other_bucket k d ren s s' i k' now (limiter kl) (anon (rl s)) (buckets (rl s)) w r); done.
  - destruct (a && _); simpl; [apply (alike_done _ d); [set_solver|by destruct s]|].
    set (l := fresh (dom (buckets (rl s)))). assert (buckets (rl s) !! l = None) as Hl by apply not_elem_of_dom, is_fresh.
    apply (other_bucket k d ren s s' i k' now l); [done..| |by rewrite lookup_insert_eq|].
    + destruct (ren !! l) as [l'|] eqn:Hr; [|done]. destruct (Hb _ _ Hr) as (b & ? & _). congruence.
    + intros x b Hb'. rewrite lookup_insert_ne; [done|]. congruence.
Qed.

(** A request of [k] gets the same bucket in both runs, up to the renaming. *)
Lemma same_bucket k d ren s s' i now l l' an an' bs bs' w r :
  alike k d ren s s' → i ∉ d → (key_of (cfg (rl s)) r).1 = k → ren !! l = Some l' →
  (∀ x x', ren !! x = Some x' → ∃ b, bs !! x = Some b ∧ bs' !! x' = Some b) →
  (∀ x, is_Some (buckets (rl s) !! x) → is_Some (bs !! x)) →
  alike k ({[i]} ∪ d) ren (with_bucket s i k now l an bs w r) (with_bucket s' i k now l' an' bs' w r).
Proof.
  intros Hal Hi Hk' Hr Hbs Hsub. destruct Hal as [Hc Hk Hf Hb Hinj Ho Hd]. split; simpl; [done| | |done|done| |].
  - rewrite !lookup_insert_eq. eauto.
  - intros j. destruct (decide (j = i)) as [->|].
    + rewrite !lookup_insert_eq, Hk', String.eqb_refl. eauto.
    + rewrite !lookup_insert_ne by done. specialize (Hf j). destruct (flight s !! j) as [[[lj wj] rj]|]; [|done].
      destruct (String.eqb _ k); [done|]. destruct Hf as (? & ? & ?). auto.
  - intros k2 kl Hk2 [[<- _]|[_ Hx]]%lookup_insert_Some; [done|]. destruct (Ho _ _ Hk2 Hx). auto.
  - intros j [x [[<- _]|[_ Hx]]%lookup_insert_Some]; [set_solver|]. apply elem_of_union_r, Hd. by exists x.
Qed.

(** A new pair of buckets. *)
Lemma alike_extend k d ren s s' l l' b :
  alike k d ren s s' → keys (rl s) !! k = None → buckets (rl s) !! l = None → buckets (rl s') !! l' = None →
  let put (s : state) l := {| rl := {| cfg := cfg (rl s); keys := keys (rl s); anon := anon (rl s);
                                       buckets := <[l := b]> (buckets (rl s)) |}; flight := flight s |} in
  alike k d (<[l := l']> ren) (put s l) (put s' l').
Proof.
  intros [Hc Hk Hf Hb Hinj Ho Hd] Hkn Hl Hl'.
  assert (∀ x x', ren !! x = Some x' → x ≠ l ∧ x' ≠ l') as Hne.
  { intros x x' Hr. destruct (Hb _ _ Hr) as (? & ? & ?). split; congruence. }
  split; simpl; [done|by rewrite Hkn in *| | | | |done].
  - intros j. specialize (Hf j). destruct (flight s !! j) as [[[lj wj] rj]|]; [|done]. destruct (String.eqb _ k).
    + destruct Hf as (lj' & Hr & ?). exists lj'. rewrite lookup_insert_ne; [done|]. apply not_eq_sym. by apply Hne in Hr as [? ?].
    + destruct Hf as (? & [b' Hb'] & ?). rewrite !lookup_insert_ne by congruence. eauto.
  - intros l1 l1' [[<- <-]|[Hn Hr1]]%lookup_insert_Some; [exists b; by rewrite !lookup_insert_eq|].
    destruct (Hb _ _ Hr1) as (b1 & ? & ?). exists b1. destruct (Hne _ _ Hr1). by rewrite !lookup_insert_ne.
  - intros l1 l2 x [[<- <-]|[H1 Hr1]]%lookup_insert_Some [[<- Hx]|[H2 Hr2]]%lookup_insert_Some;
      [done|by apply Hne in Hr2 as [_ ?]|apply Hne in Hr1 as [_ ?]; congruence|by eapply Hinj].
  - intros k2 kl Hk2 Hx. destruct (Ho _ _ Hk2 Hx) as [? [b' Hb']]. rewrite !lookup_insert_ne by congruence. eauto.
Qed.

Lemma enter_same k d ren s s' i now w r :
  alike k d ren s s' → i ∉ d → (key_of (cfg (rl s)) r).1 = k → is_anon k = false →
  (step s (Enter i now w r)).1 = None ∧ (step s' (Enter i now w r)).1 = None ∧
  ∃ ren', alike k ({[i]} ∪ d) ren' (step s (Enter i now w r)).2 (step s' (Enter i now w r)).2.
Proof.
  intros Hal Hi Hk' Han. pose proof Hal as [Hc Hk Hf Hb Hinj Ho Hd]. simpl. rewrite Hc.
  pose proof (key_anon uuid_String (cfg (rl s)) r) as Ha. rewrite Hk', Han in Ha.
  destruct (key_of (cfg (rl s)) r) as [k' a] eqn:Hkey. simpl in *. subst k' a. unfold limiter_.
  assert ((key_of (cfg (rl s)) r).1 = k) as Hk' by (by rewrite Hkey).
  destruct (keys (rl s) !! k) as [kl|] eqn:Hx.
  - destruct Hk as (l' & Hr & Hk2). rewrite Hk2. simpl. split_and!; [done|done|]. exists ren. rewrite Hc.
    pose proof (same_bucket k d ren s s' i now (limiter kl) l' (anon (rl s)) (anon (rl s')) (buckets (rl s)) (buckets (rl s'))
      w r Hal Hi Hk' Hr Hb (λ _ Hs, Hs)) as Hres. unfold with_bucket in Hres. by rewrite Hc in Hres.
  - rewrite Hk. simpl. set (l := fresh (dom (buckets (rl s)))). set (l' := fresh (dom (buckets (rl s')))).
    assert (buckets (rl s) !! l = None) as Hl by apply not_elem_of_dom, is_fresh.
    assert (buckets (rl s') !! l' = None) as Hl' by apply not_elem_of_dom, is_fresh.
    split_and!; [done|done|]. exists (<[l := l']> ren). set (b := NewLimiter _ _).
    pose proof (alike_extend k d ren s s' l l' b Hal Hx Hl Hl') as Hext. simpl in Hext.
    pose proof (same_bucket _ _ _ _ _ i now l l' (anon (rl s)) (anon (rl s')) (<[l := b]> (buckets (rl s)))
      (<[l' := b]> (buckets (rl s'))) w r Hext Hi Hk' (lookup_insert_eq _ _ _) (al_buckets _ _ _ _ _ Hext) (λ _ Hs, Hs)) as Hres.
    unfold with_bucket in Hres. simpl in Hres. rewrite Hc in *. exact Hres.
Qed.

Lemma step_cfg s e : cfg (rl (step s e).2) = cfg (rl s).
Proof.
  destruct e as [i now w r|i now|cutoff]; simpl; [| |done].
  - destruct (key_of (cfg (rl s)) r) as [k a]. unfold limiter_. destruct (keys (rl s) !! k); [done|]. by destruct (a && _).
  - destruct (flight s !! i) as [[[l w] r]|]; [|done]. unfold reserve. destruct (buckets (rl s) !! l) as [b|]; [|done].
    destruct (Reserve now b). by destruct (_ || _).
Qed.

(** One event, in a run and in the run without the others. *)
Lemma step_alike k d ren s s' e :
  alike k d ren s s' → is_anon k = false → (∀ i, entered e = Some i → i ∉ d) →
  ∃ d' ren', d' = match entered e with Some i => {[i]} ∪ d | None => d end ∧
  if concerns (cfg (rl s)) k e then
    alike k d' ren' (step s e).2 (step s' e).2 ∧
    (∀ v, (step s e).1 = Some (k, v) ↔ (step s' e).1 = Some (k, v)) 
  else alike k d' ren' (step s e).2 s' ∧ ∀ v, (step s e).1 ≠ Some (k, v).
Proof.
  intros Hal Han Hent. destruct e as [i now w r|i now|cutoff]; cbn [concerns entered] in *.
  - specialize (Hent i eq_refl). destruct (String.eqb_spec (key_of (cfg (rl s)) r).1 k) as [Hk|Hk].
    + destruct (enter_same _ _ _ _ _ i now w r Hal Hent Hk Han) as (H1' & H2' & ren' & Hal').
      eexists _, ren'. rewrite H1', H2'. by split_and!.
    + eexists _, ren. split; [done|]. split; [by apply enter_other|]. intros v. simpl.
      destruct (key_of (cfg (rl s)) r) as [k' a]. simpl in Hk. destruct (limiter_ _ _ _ _) as [[l|] rl']; [done|].
      intros [= ? ?]. done.
  - exists d, ren. split; [done|]. pose proof (al_flight _ _ _ _ _ Hal i) as Hf.
    destruct (flight s !! i) as [[[l w] r]|] eqn:Hx.
    + destruct (String.eqb_spec (key_of (cfg (rl s)) r).1 k) as [Hk|Hk].
      * destruct Hf as (l' & Hr & Hl'). destruct (spend_alike _ _ _ _ _ i now l l' w r Hal Hx Hr Hl') as [-> Hal']. done.
      * destruct Hf as (_ & _ & Hno). pose proof (spend_other _ _ _ _ _ i now l w r Hal Hx Hk) as Hal'. revert Hal'.
        simpl. rewrite Hx, Hno. destruct (reserve _ _ _ _ _) as [v rl']. simpl. intros Hal'. split; [done|].
        intros v'. split; [|done]. intros [= ? ?]. done.
    + simpl. by rewrite Hx, Hf.
  - exists d, ren. split; [done|]. split; [by apply evict_alike|done].
Qed.

Lemma served_alike k es d ren s s' :
  alike k d ren s s' → is_anon k = false → (∀ i, i ∈ omap entered es → i ∉ d) → NoDup (omap entered es) →
  served k s es = served k s' (filter (λ e, concerns (cfg (rl s)) k e = true) es).
Proof.
  revert d ren s s'. induction es as [|e es IH]; intros d ren s s' Hal Han Hd Hnd; [done|].
  destruct (step_alike k d ren s s' e Hal Han) as (d' & ren' & Hd' & Hstep).
  { intros i He. apply Hd. simpl. rewrite He. by left. }
  assert (∀ i, i ∈ omap entered es → i ∉ d') as Hd2.
  { intros i Hin. subst d'. cbn [omap list_omap] in Hd, Hnd. destruct (entered e) as [j|].
    - apply NoDup_cons in Hnd as [Hj _]. apply not_elem_of_union. split; [|by apply Hd; right].
      apply not_elem_of_singleton. by intros ->.
    - by apply Hd. }
  assert (NoDup (omap entered es)) as Hnd2.
  { cbn [omap list_omap] in Hnd. destruct (entered e); [by apply NoDup_cons in Hnd as [_ ?]|done]. }
  rewrite filter_cons. pose proof (step_cfg s e) as Hcfg. destruct (concerns (cfg (rl s)) k e).
  - rewrite decide_True by done. destruct Hstep as [Hal' Hv]. cbn [served].
    destruct (step s e) as [o s1], (step s' e) as [o' s1']. simpl in *.
    pose proof (IH d' ren' s1 s1' Hal' Han Hd2 Hnd2) as IH'. rewrite Hcfg in IH'.
    destruct o as [[k1 v1]|], o' as [[k2 v2]|]; try destruct (String.eqb_spec k1 k) as [->|];
      try destruct (String.eqb_spec k2 k) as [->|]; try done.
    1: assert (v2 = v1) as -> by (destruct (Hv v1) as [Hv1 _]; by injection (Hv1 eq_refl)); by rewrite IH'.
    all: exfalso; first [destruct (Hv v1) as [Hv1 _]; specialize (Hv1 eq_refl); congruence
                        |destruct (Hv v2) as [_ Hv2]; specialize (Hv2 eq_refl); congruence].
  - rewrite decide_False by done. destruct Hstep as [Hal' Hv]. cbn [served]. destruct (step s e) as [o s1]. simpl in *.
    rewrite (IH d' ren' s1 s' Hal' Han Hd2 Hnd2), Hcfg. destruct o as [[k1 v1]|]; [|done].
    destruct (String.eqb_spec k1 k) as [->|]; [by destruct (Hv v1)|done].
Qed.

(** C28: callers do not interfere. Whatever requests of other tenants, subjects and
    client addresses arrive, in whatever interleaving with the cleanup, the
    requests of a tenant or of a subject are answered exactly as if the others
    were not there: nobody can use up, reset or enlarge another caller's budget,
    and a flood of unauthenticated requests costs an authenticated caller
    nothing. *)
Theorem callers_do_not_interfere (c : KeyedRateLimiterConfig) (rl0 : KeyedRateLimiter) (k : string) (es : list event) :
  NewKeyedRateLimiter c = Ok rl0 → is_anon k = false → NoDup (omap entered es) →
  let s0 := {| rl := rl0; flight := ∅ |} in
  served k s0 es = served k s0 (filter (λ e, concerns (cfg rl0) k e = true) es).
Proof.
  intros Hnew Han Hnd s0. apply (served_alike k es ∅ ∅ s0 s0); [|done|set_solver|done].
  unfold NewKeyedRateLimiter in Hnew. destruct (complete c) as [c'|]; [|done]. injection Hnew as <-.
  split; simpl; try done. intros i [x Hx]. by rewrite lookup_empty in Hx.
Qed.

End runs.

(** * A tenant beside a flood *)

Module sample.
Import ratelimit.Demo.

(** A tenant's two requests overlap each other, a flood of anonymous requests,
    another subject and a cleanup. *)
Definition subject : Request := from "10.0.0.1:4711" (ctxutil.WithUserSub ctxutil.Background "42").
Definition traffic : list event :=
  [Enter 1 Second new_response anonymous; Enter 2 Second new_response tenant; Spend 1 Second;
   Enter 3 (2 * Second) new_response (from "10.0.0.2:80" ctxutil.Background); Evict Second;
   Enter 4 (2 * Second) new_response tenant; Enter 5 (2 * Second) new_response subject; Spend 4 (2 * Second);
   Spend 5 (2 * Second); Spend 2 (3 * Second)].

Lemma callers_do_not_interfere_witness :
  served show_uuid "t:7" {| rl := limiter0; flight := ∅ |} traffic = [Next new_response tenant; Next new_response tenant] ∧
  served show_uuid "t:7" {| rl := limiter0; flight := ∅ |} traffic =
    served show_uuid "t:7" {| rl := limiter0; flight := ∅ |}
      (filter (λ e, concerns show_uuid (cfg limiter0) "t:7" e = true) traffic).
Proof.
  split; [vm_compute; reflexivity|].
  apply (callers_do_not_interfere show_uuid config limiter0 "t:7" traffic); [vm_compute; reflexivity|reflexivity|].
  apply (bool_decide_unpack _). vm_compute. exact I.
Defined.

End sample.

End isolation.
