(* ===== verification/Cleanup.v ===== *)
(** The background goroutines of the rate limiters (src/httpware/ratelimit.go,
    keyed_ratelimit.go): the cleanup loop, its ticker, the stop channel, the
    calls of Stop and the requests that run beside it, as a step relation; and
    what the loop reclaims. The keyed limiter's Stop goes through a [sync.Once],
    whose flag and mutex are stepped through. *)

From S2P Require Import Prelude GoText GoJson GoFloat CtxUtil Http ApiError RateLimit.

Module cleanup.
Import ratelimit.

(** * The loop and the calls of Stop *)

(** Where a call of the keyed limiter's Stop is: it enters [sync.Once.Do], waits
    for the mutex of the Once, looks at its flag again under the mutex, runs the
    function, which closes the channel, sets the flag, gives the mutex back, and
    has returned. *)
Inductive caller := Entering | Locking | Looking | Closing | Marking | Unlocking | Returned.

Definition holding (c : caller) : bool :=
  match c with Looking | Closing | Marking | Unlocking => true | _ => false end.

Section loop.
Context {T : Type} (evict : Time → T → T).

(** The limiter's table, the tick waiting in the ticker's channel (it holds one
    and drops the others), whether the stop channel is closed, whether the loop
    still runs, whether closing a closed channel has panicked, the flag and the
    mutex of the Once, and the calls of Stop. *)
Record proc := {
  table : T; tick : option Time; closed : bool; running : bool; panicked : bool;
  done_ : bool; locked : bool; callers : list caller;
}.

(** The goroutine is started with an empty channel. *)
Definition spawn (t : T) : proc :=
  {| table := t; tick := None; closed := false; running := true; panicked := false;
     done_ := false; locked := false; callers := [] |}.

(** The statement [close(rl.stop)]: a closed channel is not closed again, that
    panics. *)
Definition close_stop (s : proc) : proc :=
  {| table := table s; tick := tick s; closed := true; running := running s; panicked := panicked s || closed s;
     done_ := done_ s; locked := locked s; callers := callers s |}.

(** [httpware/ratelimit.go: RateLimiter.Stop] *)
Definition Stop (s : proc) : proc := close_stop s.

Definition set_once (d m : bool) (s : proc) : proc :=
  {| table := table s; tick := tick s; closed := closed s; running := running s; panicked := panicked s;
     done_ := d; locked := m; callers := callers s |}.

(** [httpware/keyed_ratelimit.go: KeyedRateLimiter.Stop]
    One step of a call, through the Once as the standard library has it: the
    flag is read without the mutex, then read again under it; the function runs
    when it is not set, and it is set after the function. [None]: the call
    cannot go on, because another one has the mutex or because it has
    returned. *)
Definition Stop_once (c : caller) (s : proc) : option (caller * proc) :=
  match c with
  | Entering => Some (if done_ s then Returned else Locking, s)
  | Locking => if locked s then None else Some (Looking, set_once (done_ s) true s)
  | Looking => Some (if done_ s then Unlocking else Closing, s)
  | Closing => Some (Marking, close_stop s)
  | Marking => Some (Unlocking, set_once true (locked s) s)
  | Unlocking => Some (Returned, set_once (done_ s) false s)
  | Returned => None
  end.

Definition with_callers (cs : list caller) (s : proc) : proc :=
  {| table := table s; tick := tick s; closed := closed s; running := running s; panicked := panicked s;
     done_ := done_ s; locked := locked s; callers := cs |}.

(** The two cases of the loop's select: it evicts, reading the clock, or it
    returns, which also stops the ticker. *)
Definition on_tick (now : Time) (s : proc) : proc :=
  {| table := evict now (table s); tick := None; closed := closed s; running := running s; panicked := panicked s;
     done_ := done_ s; locked := locked s; callers := callers s |}.
Definition on_stop (s : proc) : proc :=
  {| table := table s; tick := None; closed := closed s; running := false; panicked := panicked s;
     done_ := done_ s; locked := locked s; callers := callers s |}.

Inductive label :=
| LTick (t : Time)               (* the ticker fires *)
| LEvict (now : Time)            (* the loop takes the tick *)
| LReturn                        (* the loop takes the closed channel *)
| LCall                          (* a call of the keyed limiter's Stop begins *)
| LCaller (i : nat)              (* that call number i goes on *)
| LStop                          (* the tenant limiter's Stop *)
| LRequest (f : T → T).          (* a locked section of a request *)

(** [httpware/ratelimit.go: RateLimiter.cleanupLoop] *)
Inductive step : label → proc → proc → Prop :=
| step_tick t s :
    running s = true →
    step (LTick t) s {| table := table s; tick := Some (default t (tick s)); closed := closed s; running := true;
                        panicked := panicked s; done_ := done_ s; locked := locked s; callers := callers s |}
| step_evict t now s : running s = true → tick s = Some t → t ≤ now → step (LEvict now) s (on_tick now s)
| step_return s : running s = true → closed s = true → step LReturn s (on_stop s)
| step_call s : step LCall s (with_callers (callers s ++ [Entering]) s)
| step_caller i c c' s s' :
    callers s !! i = Some c → Stop_once c s = Some (c', s') → step (LCaller i) s (with_callers (<[i := c']> (callers s')) s')
| step_stop s : step LStop s (Stop s)
| step_request f s :
    step (LRequest f) s {| table := f (table s); tick := tick s; closed := closed s; running := running s;
                           panicked := panicked s; done_ := done_ s; locked := locked s; callers := callers s |}.

Inductive run : list label → proc → proc → Prop :=
| run_nil s : run [] s s
| run_cons l ls s1 s2 s3 : step l s1 s2 → run ls s2 s3 → run (l :: ls) s1 s3.

(** The step of a label, where there is one. *)
Definition exec (s : proc) (l : label) : option proc :=
  match l with
  | LTick t =>
      if running s
      then Some {| table := table s; tick := Some (default t (tick s)); closed := closed s; running := true;
                   panicked := panicked s; done_ := done_ s; locked := locked s; callers := callers s |}
      else None
  | LEvict now =>
      match tick s with Some t => if running s && (t <=? now) then Some (on_tick now s) else None | None => None end
  | LReturn => if running s && closed s then Some (on_stop s) else None
  | LCall => Some (with_callers (callers s ++ [Entering]) s)
  | LCaller i =>
      c ← callers s !! i; '(c', s') ← Stop_once c s; Some (with_callers (<[i := c']> (callers s')) s')
  | LStop => Some (Stop s)
  | LRequest f =>
      Some {| table := f (table s); tick := tick s; closed := closed s; running := running s;
              panicked := panicked s; done_ := done_ s; locked := locked s; callers := callers s |}
  end.

Fixpoint execs (ls : list label) (s : proc) : option proc :=
  match ls with [] => Some s | l :: ls' => exec s l ≫= execs ls' end.

Lemma exec_step s l s' : exec s l = Some s' → step l s s'.
Proof.
  destruct l as [t|now| | |i| |f]; simpl.
  - destruct (running s) eqn:Hr; [|done]. intros [= <-]. by apply step_tick.
  - destruct (tick s) as [t|] eqn:Ht; [|done]. destruct (running s) eqn:Hr; [|done]. simpl.
    destruct (Z.leb_spec t now); [|done]. intros [= <-]. by eapply step_evict.
  - destruct (running s) eqn:Hr, (closed s) eqn:Hc; try done. intros [= <-]. by apply step_return.
  - intros [= <-]. apply step_call.
  - destruct (callers s !! i) as [c|] eqn:Hi; [|done]. simpl. destruct (Stop_once c s) as [[c' s1]|] eqn:Hs; [|done].
    intros [= <-]. by eapply step_caller.
  - intros [= <-]. apply step_stop.
  - intros [= <-]. apply step_request.
Qed.

Lemma execs_run ls s s' : execs ls s = Some s' → run ls s s'.
Proof.
  revert s. induction ls as [|l ls IH]; intros s; simpl; [intros [= <-]; constructor|].
  destruct (exec s l) as [s1|] eqn:Hl; [|done]. simpl. intros Hs. econstructor; [by apply exec_step|by apply IH].
Qed.

Definition is_evict (l : label) : bool := match l with LEvict _ => true | _ => false end.
Definition is_ticker (l : label) : bool := match l with LTick _ => true | _ => false end.
Definition is_caller (l : label) : bool := match l with LCaller _ => true | _ => false end.
(** A step of the keyed limiter, whose only Stop is the one above. *)
Definition keyed (l : label) : bool := match l with LStop => false | _ => true end.

Definition count (p : label → bool) (ls : list label) : nat := length (List.filter p ls).

(** ** The Once *)

(** The mutex is taken exactly while a call holds it, and one call at most does. *)
Definition exclusive (cs : list caller) (m : bool) : Prop :=
  (m = true ↔ ∃ i c, cs !! i = Some c ∧ holding c = true) ∧
  ∀ i j c d, cs !! i = Some c → cs !! j = Some d → holding c = true → holding d = true → i = j.

(** What a call's place says of the flag and the channel. *)
Definition knows (s : proc) (c : caller) : Prop :=
  match c with
  | Closing => done_ s = false
  | Marking => closed s = true
  | Unlocking | Returned => done_ s = true
  | _ => True
  end.

(** The channel is closed exactly from the run of the function on, which only
    the holder that found the flag unset begins; the loop has ended only because
    the channel is closed. *)
Record inv (s : proc) : Prop := {
  inv_mutex : exclusive (callers s) (locked s);
  inv_flag : done_ s = true → closed s = true;
  inv_closed : closed s = true → done_ s = true ∨ ∃ i, callers s !! i = Some Marking;
  inv_callers i c : callers s !! i = Some c → knows s c;
  inv_panic : panicked s = false;
  inv_running : running s = false → closed s = true;
}.

Lemma spawn_inv t : inv (spawn t).
Proof. split; simpl; try done. split; [|done]. split; [done|]. intros (i & c & Hi & _). by rewrite lookup_nil in Hi. Qed.

Lemma exclusive_call cs m : exclusive cs m → exclusive (cs ++ [Entering]) m.
Proof.
  intros [Hh H1]. assert (∀ i c, (cs ++ [Entering]) !! i = Some c → holding c = true → cs !! i = Some c) as Hold.
  { intros i c [?|[_ Hi]]%lookup_app_Some Hc; [done|]. by apply list_lookup_singleton_Some in Hi as [_ <-]. }
  split; [|by eauto]. rewrite Hh. split; intros (i & c & Hi & Hc); exists i, c; [|by eauto].
  split; [by apply lookup_app_l_Some|done].
Qed.

Lemma exclusive_same cs m i c c' :
  exclusive cs m → cs !! i = Some c → holding c' = holding c → exclusive (<[i := c']> cs) m.
Proof.
  intros [Hh H1] Hi Hc. pose proof (lookup_lt_Some _ _ _ Hi) as Hlt.
  assert (∀ j d, <[i := c']> cs !! j = Some d → holding d = true → ∃ d', cs !! j = Some d' ∧ holding d' = true) as Hback.
  { intros j d [(<- & <- & _)|[_ Hj]]%list_lookup_insert_Some Hd; [exists c; by rewrite <- Hc|eauto]. }
  split.
  - rewrite Hh. split; [|intros (j & d & Hj & Hd); destruct (Hback j d Hj Hd) as (d' & ? & ?); eauto].
    intros (j & d & Hj & Hd). destruct (decide (i = j)) as [<-|Hne].
    + exists i, c'. split; [by apply list_lookup_insert_eq|]. congruence.
    + exists j, d. by rewrite list_lookup_insert_ne.
  - intros j k d e Hj Hk Hd He. destruct (Hback j d Hj Hd) as (? & ? & ?), (Hback k e Hk He) as (? & ? & ?). eauto.
Qed.

Lemma exclusive_lock cs i c' :
  exclusive cs false → (i < length cs)%nat → holding c' = true → exclusive (<[i := c']> cs) true.
Proof.
  intros [Hh H1] Hlt Hc. assert (∀ j d, <[i := c']> cs !! j = Some d → holding d = true → j = i) as Hone.
  { intros j d [(<- & _)|[_ Hj]]%list_lookup_insert_Some Hd; [done|]. exfalso.
    assert (false = true) as [=]. apply Hh. eauto. }
  split; [|intros j k d e Hj Hk Hd He; by rewrite (Hone j d Hj Hd), (Hone k e Hk He)].
  split; [|done]. intros _. exists i, c'. split; [by apply list_lookup_insert_eq|done].
Qed.

Lemma exclusive_unlock cs m i c c' :
  exclusive cs m → cs !! i = Some c → holding c = true → holding c' = false → exclusive (<[i := c']> cs) false.
Proof.
  intros [Hh H1] Hi Hc Hc'. assert (∀ j d, <[i := c']> cs !! j = Some d → holding d = true → False) as Hnone.
  { intros j d [(<- & <- & _)|[Hne Hj]]%list_lookup_insert_Some Hd; [congruence|]. eauto. }
  split; [|intros j k d e Hj _ Hd; by destruct (Hnone j d Hj Hd)].
  split; [done|]. intros (j & d & Hj & Hd). by destruct (Hnone j d Hj Hd).
Qed.

Lemma begin_inv s : inv s → inv (with_callers (callers s ++ [Entering]) s).
Proof.
  intros [Hm Hf Hc Hk Hp Hr]. split; simpl; try done.
  - by apply exclusive_call.
  - intros Hcl. destruct (Hc Hcl) as [?|[i Hi]]; [by left|]. right. exists i. by apply lookup_app_l_Some.
  - intros i c [Hi|[_ Hi]]%lookup_app_Some; [by apply Hk in Hi|]. by apply list_lookup_singleton_Some in Hi as [_ <-].
Qed.

(** A call moves, and neither the flag nor the channel changes. *)
Lemma move_inv s i c c' m :
  inv s → callers s !! i = Some c → c ≠ Marking → knows s c' → exclusive (<[i := c']> (callers s)) m →
  inv (with_callers (<[i := c']> (callers s)) (set_once (done_ s) m s)).
Proof.
  intros [Hm Hf Hc Hk Hp Hr] Hi Hne Hkn He. split; simpl; try done.
  - intros Hcl. destruct (Hc Hcl) as [?|[j Hj]]; [by left|]. right. exists j.
    rewrite list_lookup_insert_ne; [done|]. intros <-. congruence.
  - intros j d [(_ & <- & _)|[_ Hj]]%list_lookup_insert_Some; [by destruct c'|]. by apply (Hk j d).
Qed.

Lemma closing_inv s i :
  inv s → callers s !! i = Some Closing → inv (with_callers (<[i := Marking]> (callers s)) (close_stop s)).
Proof.
  intros [Hm Hf Hc Hk Hp Hr] Hi. pose proof (Hk i _ Hi) as Hd. simpl in Hd.
  assert (closed s = false) as Hcl.
  { destruct (closed s); [|done]. destruct (Hc eq_refl) as [?|[j Hj]]; [congruence|].
    assert (i = j) as <- by (by eapply (proj2 Hm)). congruence. }
  split; simpl; try done.
  - by eapply exclusive_same.
  - intros _. right. exists i. apply list_lookup_insert_eq. by eapply lookup_lt_Some.
  - intros j d [(_ & <- & _)|[_ Hj]]%list_lookup_insert_Some; [done|]. specialize (Hk j d Hj). by destruct d.
  - by rewrite Hp, Hcl.
Qed.

Lemma marking_inv s i :
  inv s → callers s !! i = Some Marking →
  inv (with_callers (<[i := Unlocking]> (callers s)) (set_once true (locked s) s)).
Proof.
  intros [Hm Hf Hc Hk Hp Hr] Hi. pose proof (Hk i _ Hi) as Hcl. simpl in Hcl. split; simpl; try done.
  - by eapply exclusive_same.
  - by left.
  - intros j d [(_ & <- & _)|[Hne Hj]]%list_lookup_insert_Some; [done|]. specialize (Hk j d Hj). destruct d; try done.
    destruct Hne. by eapply (proj2 Hm).
Qed.

Lemma set_once_same s : set_once (done_ s) (locked s) s = s.
Proof. by destruct s. Qed.

Lemma once_caller_inv s i c c' s' :
  inv s → callers s !! i = Some c → Stop_once c s = Some (c', s') → inv (with_callers (<[i := c']> (callers s')) s').
Proof.
  intros Hinv Hi. pose proof (inv_mutex _ Hinv) as Hm.
  assert (∀ d, c ≠ Marking → holding d = holding c → knows s d → inv (with_callers (<[i := d]> (callers s)) s)) as Hstay.
  { intros d Hne Hh Hd. rewrite <- (set_once_same s) at 2. eapply move_inv; [done|exact Hi|done|done|by eapply exclusive_same]. }
  destruct c; simpl; [| | | | | |done].
  - intros [= <- <-]. apply Hstay; [done|by destruct (done_ s)|]. destruct (done_ s) eqn:Hd; simpl; congruence || done.
  - destruct (locked s) eqn:Hl; [done|]. intros [= <- <-]. refine (move_inv s i Locking Looking true Hinv Hi _ _ _); [done|done|].
    apply exclusive_lock; [done|by eapply lookup_lt_Some|done].
  - intros [= <- <-]. apply Hstay; [done|by destruct (done_ s)|]. destruct (done_ s) eqn:Hd; simpl; congruence.
  - intros [= <- <-]. exact (closing_inv s i Hinv Hi).
  - intros [= <- <-]. exact (marking_inv s i Hinv Hi).
  - intros [= <- <-]. pose proof (inv_callers _ Hinv _ _ Hi) as Hd. simpl in Hd.
    refine (move_inv s i Unlocking Returned false Hinv Hi _ _ _); [done|done|by eapply exclusive_unlock].
Qed.

Lemma once_step_inv l s s' : step l s s' → keyed l = true → inv s → inv s'.
Proof.
  intros Hs Hl Hinv. destruct Hs as [t s Hr|t now s Hr Ht _|s Hr Hc|s|i c c' s s' Hi Hs|s|f s]; try done.
  - by destruct Hinv.
  - by destruct Hinv.
  - by destruct Hinv.
  - by apply begin_inv.
  - by eapply once_caller_inv.
  - by destruct Hinv.
Qed.

Lemma run_inv ls s s' : run ls s s' → Forall (λ l, keyed l = true) ls → inv s → inv s'.
Proof.
  induction 1 as [|l ls s1 s2 s3 Hs _ IH]; [done|]. intros [Hl Hls]%Forall_cons Hinv.
  apply IH; [done|]. by eapply once_step_inv.
Qed.

(** ** Progress and bounds *)

(** The steps a call has left at most. *)
Definition ahead (c : caller) : nat :=
  match c with Entering => 6 | Locking => 5 | Looking => 4 | Closing => 3 | Marking => 2 | Unlocking => 1 | Returned => 0 end.

Lemma ahead_insert (cs : list caller) i c c' :
  cs !! i = Some c → (sum_list_with ahead (<[i := c']> cs) + ahead c = sum_list_with ahead cs + ahead c')%nat.
Proof.
  revert i. induction cs as [|x cs IH]; intros [|i] Hi; simpl in *; [done|done| |].
  - injection Hi as ->. lia.
  - specialize (IH i Hi). lia.
Qed.

Lemma Stop_once_ahead c s c' s' : Stop_once c s = Some (c', s') → (ahead c' < ahead c)%nat ∧ callers s' = callers s.
Proof. destruct c; simpl; intros Hs; repeat case_match; simplify_eq; simpl; auto with lia. Qed.

Lemma step_ahead l s s' :
  step l s s' →
  (Nat.b2n (is_caller l) + sum_list_with ahead (callers s') + 6 * length (callers s) ≤
   sum_list_with ahead (callers s) + 6 * length (callers s'))%nat.
Proof.
  intros [t s0 Hr|t now s0 Hr Ht _|s0 Hr Hc|s0|i c c' s0 s1 Hi Hs|s0|f s0]; simpl; try lia.
  - rewrite sum_list_with_app, length_app. simpl. lia.
  - apply Stop_once_ahead in Hs as [Ha ->]. rewrite length_insert. pose proof (ahead_insert _ _ _ c' Hi). lia.
Qed.

Lemma run_ahead ls s s' :
  run ls s s' →
  (count is_caller ls + sum_list_with ahead (callers s') + 6 * length (callers s) ≤
   sum_list_with ahead (callers s) + 6 * length (callers s'))%nat.
Proof.
  induction 1 as [s|l ls s1 s2 s3 Hs _ IH]; [simpl; lia|]. pose proof (step_ahead _ _ _ Hs). unfold count in *. simpl.
  destruct (is_caller l); simpl in *; lia.
Qed.

(** Some call goes on as long as one has not returned: the one that has the
    mutex, if it is taken. *)
Lemma callers_progress s i c :
  inv s → callers s !! i = Some c → c ≠ Returned → ∃ j s', step (LCaller j) s s'.
Proof.
  intros Hinv Hi Hc. assert (∀ j d, callers s !! j = Some d → holding d = true → ∃ s', step (LCaller j) s s') as Hgo.
  { intros j d Hj Hd. destruct d; try done; eexists; by eapply step_caller. }
  destruct (holding c) eqn:Hh; [exists i; by eapply Hgo|]. destruct c; try done.
  - exists i. eexists. by eapply step_caller.
  - destruct (locked s) eqn:Hl; [|exists i; eexists; eapply step_caller; [done|]; simpl; by rewrite Hl].
    apply (proj1 (inv_mutex _ Hinv)) in Hl as (j & d & Hj & Hd). exists j. by eapply Hgo.
Qed.

Lemma step_evictions l s s' :
  step l s s' → (Nat.b2n (is_evict l) + (if tick s' then 1 else 0) ≤ (if tick s then 1 else 0) + Nat.b2n (is_ticker l))%nat.
Proof.
  intros [t s0 Hr|t now s0 Hr Ht _|s0 Hr Hc|s0|i c c' s0 s1 Hi Hs|s0|f s0]; simpl; rewrite ?Ht; try lia.
  assert (tick s1 = tick s0) as -> by (destruct c; simpl in Hs; repeat case_match; by simplify_eq). lia.
Qed.

Lemma run_evictions ls s s' :
  run ls s s' → (count is_evict ls + (if tick s' then 1 else 0) ≤ (if tick s then 1 else 0) + count is_ticker ls)%nat.
Proof.
  induction 1 as [s|l ls s1 s2 s3 Hs _ IH]; [simpl; lia|]. pose proof (step_evictions _ _ _ Hs). unfold count in *. simpl.
  destruct (is_evict l), (is_ticker l); simpl in *; lia.
Qed.

Lemma step_dead l s s' : step l s s' → running s = false → running s' = false ∧ is_evict l = false.
Proof.
  intros [t s0 Hr|t now s0 Hr Ht _|s0 Hr Hc|s0|i c c' s0 s1 Hi Hs|s0|f s0] Hd; simpl in *; try (congruence || done).
  assert (running s1 = running s0) as -> by (destruct c; simpl in Hs; repeat case_match; by simplify_eq). done.
Qed.

Lemma run_dead ls s s' : run ls s s' → running s = false → running s' = false ∧ count is_evict ls = 0%nat.
Proof.
  induction 1 as [|l ls s1 s2 s3 Hs _ IH]; [done|]. intros Hr. destruct (step_dead _ _ _ Hs Hr) as [Hr2 Hl].
  destruct (IH Hr2). split; [done|]. unfold count in *. simpl. by rewrite Hl.
Qed.

End loop.

(** * The two limiters *)

Definition tenant_evict `{RateLib} (now : Time) (rl : RateLimiter) : RateLimiter := evictStale rl now.

(** [httpware/keyed_ratelimit.go: KeyedRateLimiter.cleanupLoop] *)
Definition keyed_evict `{RateLib} (now : Time) (rl : KeyedRateLimiter) : KeyedRateLimiter :=
  evictIdle rl (time_Add now (- IdleTTL (cfg rl))).

(** The intervals of the tickers. *)
Definition tenant_interval : Duration := rateLimiterCleanupInterval.
Definition keyed_interval (c : KeyedRateLimiterConfig) : Duration := Z.min rateLimiterCleanupInterval (IdleTTL c).

(** C29: stopping the keyed limiter ends its goroutine, and Stop is safe to call
    more than once. Take a limiter, and any interleaving of any number of
    concurrent calls of Stop, each going through sync.Once step by step, with
    the cleanup loop, its ticker and requests. Then no close of the channel
    panics; every call of Stop returns: the calls take at most six steps each,
    and while one has not returned some call can go on; once one call has returned the
    channel is closed, so that while the loop runs it can return, and with no
    tick waiting it can do nothing else; the loop ends only because the channel
    was closed; it evicts at most once for each tick, and never after it ended,
    whatever follows. *)
Theorem stopped_cleanup_ends {T : Type} (evict : Time → T → T) (t : T) (ls more : list label) (s s' : proc) :
  run evict ls (spawn t) s → Forall (λ l, keyed l = true) ls → run evict more s s' →
  panicked s = false ∧
  (count is_caller ls ≤ 6 * length (callers s))%nat ∧
  (∀ i c, callers s !! i = Some c → c ≠ Returned → ∃ j s1, step evict (LCaller j) s s1) ∧
  (Returned ∈ callers s →
     closed s = true ∧
     (running s = true → ∃ s1, step evict LReturn s s1 ∧ running s1 = false) ∧
     (tick s = None → ∀ now s1, ¬ step evict (LEvict now) s s1)) ∧
  (running s = false → closed s = true ∧ running s' = false ∧ count is_evict more = 0%nat) ∧
  (count is_evict ls ≤ count is_ticker ls)%nat.
Proof.
  intros Hrun Hls Hmore. pose proof (run_inv _ _ _ _ Hrun Hls (spawn_inv t)) as Hinv. split_and!.
  - apply Hinv.
  - pose proof (run_ahead _ _ _ _ Hrun) as Ha. simpl in Ha. lia.
  - intros i c. by apply callers_progress.
  - intros [i Hi]%list_elem_of_lookup. apply (inv_callers _ Hinv) in Hi as Hd. apply (inv_flag _ Hinv) in Hd as Hc.
    split_and!; [done| |intros Ht now s1 Hs; inversion Hs; congruence].
    intros Hr. eexists. split; [by apply step_return|done].
  - intros Hr. split; [by apply (inv_running _ Hinv)|]. by eapply run_dead.
  - pose proof (run_evictions _ _ _ _ Hrun) as He. simpl in He. lia.
Qed.

(** What one eviction leaves. *)
Lemma keyed_evict_keys `{RateLib} now (rl : KeyedRateLimiter) k kl :
  keys (keyed_evict now rl) !! k = Some kl ↔ keys rl !! k = Some kl ∧ now - IdleTTL (cfg rl) ≤ lastSeen kl.
Proof.
  unfold keyed_evict, evictIdle, time_Before, time_Add. simpl. rewrite map_drop_lookup, Z.ltb_ge. intuition lia.
Qed.

(** Idle buckets are reclaimed, active ones are not: after an eviction the table
    holds exactly the buckets seen within the idle time, unchanged, and the
    anonymous counter has given their places back. *)
Theorem idle_buckets_are_reclaimed `{RateLib} (now : Time) (rl : KeyedRateLimiter) :
  counted rl →
  (∀ k kl, keys (keyed_evict now rl) !! k = Some kl ↔
     keys rl !! k = Some kl ∧ now - IdleTTL (cfg rl) ≤ lastSeen kl) ∧
  anon (keyed_evict now rl) =
    Z.of_nat (size (filter (λ kv, is_anon kv.1 = true) (keys (keyed_evict now rl)))).
Proof.
  intros Hc. split; [intros k kl; apply keyed_evict_keys|]. destruct Hc as [He _]. unfold keyed_evict, evictIdle. simpl.
  rewrite He. rewrite (filter_size_split (keys rl) (λ kl, time_Before (lastSeen kl) (time_Add now (- IdleTTL (cfg rl))))) at 1. lia.
Qed.

(** Stopping the tenant limiter twice closes its channel twice. *)
Theorem second_stop_panics {T : Type} (t : T) : panicked (Stop (Stop (spawn t))) = true.
Proof. done. Qed.

(** Two callers stop a limiter while a tick is waiting: both find the flag
    unset, one closes the channel while the other waits for the mutex; the loop
    evicts once and returns. *)
Definition sample_stops : list (label (T := Z)) :=
  [LTick 1; LCall; LCall; LCaller 0; LCaller 1; LCaller 1; LCaller 1; LCaller 1; LCaller 1; LCaller 1;
   LEvict 2; LCaller 0; LCaller 0; LCaller 0].

Definition sample_end : proc :=
  {| table := 4; tick := None; closed := true; running := true; panicked := false; done_ := true; locked := false;
     callers := [Returned; Returned] |}.

Lemma sample_run : run (λ _ n, n - 1) sample_stops (spawn 5) sample_end.
Proof. apply execs_run. vm_compute. reflexivity. Qed.

Lemma stopped_cleanup_ends_witness :
  run (λ _ n, n - 1) sample_stops (spawn 5) sample_end ∧ panicked sample_end = false ∧
  ∃ s1, step (λ _ n, n - 1) LReturn sample_end s1 ∧ running s1 = false.
Proof.
  split; [exact sample_run|].
  destruct (stopped_cleanup_ends (λ _ n, n - 1) 5 sample_stops [] sample_end sample_end sample_run
              ltac:(by repeat constructor) (run_nil _ _)) as (Hp & _ & _ & Hret & _).
  split; [exact Hp|]. apply Hret; [by left|reflexivity].
Defined.

End cleanup.
