(* ===== verification/HttpWare.v ===== *)
(** The small middlewares of package [httpware]: request ids (requestid.go),
    role-based access (rbac.go), the tenant guard (requiretenant.go), security
    headers (security.go), panic recovery (recover.go), the status recorder of
    the logger (logger.go) and the metrics labels (metrics.go); and the
    composition of the tenant guard with the token middleware. *)

From S2P Require Import Prelude GoText GoJson CtxUtil Http ApiError JwtKeys JwtAuth.

Module httpware.

(** * requestid.go *)

(** [httpware/requestid.go: MaxRequestIDLength] *)
Definition MaxRequestIDLength : Z := 128.

Definition request_id_byte (c : Z) : bool :=
  is_lower c || is_upper c || is_dec c || (c =? 46) || (c =? 95) || (c =? 58) || (c =? 45).

(** [httpware/requestid.go: ValidRequestID] *)
Definition ValidRequestID (id : string) : bool :=
  if String.eqb id "" || (MaxRequestIDLength <? slen id) then false else all_bytes request_id_byte id.

(** [httpware/requestid.go: RequestID]
    [fresh] is the UUID generated for this request. *)
Definition RequestID (fresh : string) : Gate := λ w r,
  let reqID := header_Get (req_Header r) "X-Request-ID" in
  let reqID := if negb (ValidRequestID reqID) then fresh else reqID in
  Next (rw_set_header w "X-Request-ID" reqID) (with_ctx r (ctxutil.WithRequestID (req_ctx r) reqID)).

(** * rbac.go *)

(** [httpware/rbac.go: RoleMap] *)
Definition RoleMap := gmap string (list string).

(** [httpware/rbac.go: RBAC.hasPermission] *)
Definition hasPermission (roles : RoleMap) (role perm : string) : bool :=
  match roles !! role with
  | None => false
  | Some perms => contains perms perm
  end.

(** [httpware/rbac.go: RBAC.Require] *)
Definition RBAC_Require (roles : RoleMap) (perm : string) : Gate := λ w r,
  if negb (hasPermission roles (ctxutil.GetUserRole (req_ctx r)) perm)
  then Reply (http_Error w "forbidden" 403) else Next w r.

(** * requiretenant.go *)

(** [httpware/requiretenant.go: RequireTenantWith] *)
Definition RequireTenantWith (write : option apierror.ErrorWriter) : Gate := λ w r,
  let write := default apierror.JSONWriter write in
  if (ctxutil.GetTenantID (req_ctx r) =? uuid_Nil)%N
  then Reply (write w r (apierror.Unauthorized "tenant context required"))
  else Next w r.

(** [httpware/requiretenant.go: RequireTenant] *)
Definition RequireTenant : Gate := RequireTenantWith None.

(** * security.go *)

Definition security_headers : list (string * string) :=
  [("X-Content-Type-Options", "nosniff"); ("X-Frame-Options", "DENY"); ("X-XSS-Protection", "0");
   ("Referrer-Policy", "strict-origin-when-cross-origin");
   ("Content-Security-Policy", "default-src 'none'; frame-ancestors 'none'");
   ("Strict-Transport-Security", "max-age=63072000; includeSubDomains; preload");
   ("Cache-Control", "no-store"); ("Permissions-Policy", "camera=(), microphone=(), geolocation=()")].

(** [httpware/security.go: SecurityHeaders] *)
Definition SecurityHeaders : Gate := λ w r,
  Next (fold_left (λ w kv, rw_set_header w kv.1 kv.2) security_headers w) r.

(** * recover.go, logger.go, metrics.go

    A handler that may panic: the response as far as it was written, and
    whether it panicked. *)
Definition PHandler := ResponseWriter → Request → ResponseWriter * bool.

(** [httpware/recover.go: Recover] *)
Definition Recover (next : PHandler) : PHandler := λ w r,
  let '(w', panicked) := next w r in
  if panicked : bool then (http_Error w' "internal server error" 500, false) else (w', false).

(** [httpware/logger.go: statusRecorder]
    The wrapped response and the recorded status. *)
Record statusRecorder := { sr_w : ResponseWriter; statusCode : Z }.

(** [httpware/logger.go: statusRecorder.WriteHeader] *)
Definition sr_WriteHeader (sr : statusRecorder) (code : Z) : statusRecorder :=
  {| sr_w := rw_write_header (sr_w sr) code; statusCode := code |}.

(** [Write] goes to the wrapped writer directly. *)
Definition sr_Write (sr : statusRecorder) (b : string) : statusRecorder :=
  {| sr_w := rw_write (sr_w sr) b; statusCode := statusCode sr |}.

(** A handler as the sequence of its writes. *)
Inductive action := AWriteHeader (code : Z) | AWrite (b : string).

Definition sr_run (sr : statusRecorder) (a : action) : statusRecorder :=
  match a with AWriteHeader code => sr_WriteHeader sr code | AWrite b => sr_Write sr b end.

(** A handler behind a recorder: what it writes for a request and whether it
    ends in a panic, which skips what follows the call. *)
Definition Writes := Request → list action * bool.

(** The "request completed" line: the fields of the entry, then the status and
    the tenant. The duration is left out. *)
Record logline := { ll_request_id : string; ll_method : string; ll_path : string; ll_status : Z; ll_tenant : string }.

(** [httpware/logger.go: Logger]
    [entry] names the entry made for this request; the handler finds it in its
    context. The tenant is read from the request that came in. *)
Definition Logger (uuid_String : UUID → string) (entry : Z) (next : Writes) (w : ResponseWriter) (r : Request)
  : statusRecorder * option logline :=
  let reqID := ctxutil.GetRequestID (req_ctx r) in
  let ctx := ctxutil.WithLogger (req_ctx r) entry in
  let '(acts, panicked) := next (with_ctx r ctx) in
  let sr := fold_left sr_run acts {| sr_w := w; statusCode := 200 |} in
  (sr, if panicked : bool then None else
       Some {| ll_request_id := reqID; ll_method := req_Method r; ll_path := req_Path r;
               ll_status := statusCode sr; ll_tenant := ctxutil.GetTenantIDStr uuid_String (req_ctx r) |}).

(** [httpware/metrics.go: RoutePattern] *)
Definition RoutePattern (r : Request) : string :=
  if negb (String.eqb (req_Pattern r) "") then req_Pattern r else "unmatched".

(** [httpware/metrics.go: Metrics]
    The labels of the request counter. *)
Definition Metrics (service : string) (next : Writes) (w : ResponseWriter) (r : Request)
  : statusRecorder * option (list string) :=
  let '(acts, panicked) := next r in
  let sr := fold_left sr_run acts {| sr_w := w; statusCode := 200 |} in
  (sr, if panicked : bool then None else
       Some [service; RoutePattern r; req_Method r; itoa (Z.quot (statusCode sr) 100) +:+ "xx"]).

(** * Properties *)

(** Whatever id a client sends, the one that reaches the context, and from
    there logs and outbound calls, is the one echoed in the response and is a
    valid id: at most 128 bytes, all of them letters, digits, dots, underscores,
    colons or dashes, so no line break or control character can be injected. *)
Theorem request_id_is_safe (fresh : string) (w : ResponseWriter) (r : Request) :
  ValidRequestID fresh = true →
  ∃ w' r' id, RequestID fresh w r = Next w' r' ∧
    ctxutil.GetRequestID (req_ctx r') = id ∧ header_Get (rw_Header w') "X-Request-ID" = id ∧
    id ≠ "" ∧ slen id ≤ MaxRequestIDLength ∧ Forall (λ b, request_id_byte b = true) (bytes id) ∧
    (ValidRequestID (header_Get (req_Header r) "X-Request-ID") = true →
     id = header_Get (req_Header r) "X-Request-ID").
Proof.
  intros Hf. unfold RequestID. set (id := if negb _ then _ else _).
  assert (ValidRequestID id = true) as Hid.
  { unfold id. destruct (ValidRequestID (header_Get _ _)) eqn:Hh; done. }
  eexists _, _, id. split; [done|]. split_and!.
  - simpl. unfold ctxutil.GetRequestID, ctxutil.WithRequestID. by rewrite ctxutil.Value_WithValue_eq.
  - simpl. apply header_Get_Set.
  - intros He. by rewrite He in Hid.
  - unfold ValidRequestID in Hid. destruct (_ || _) eqn:Hb; [done|]. by bool_to_prop.
  - unfold ValidRequestID in Hid. destruct (_ || _); [done|]. by apply all_bytes_spec.
  - intros Hh. unfold id. by rewrite Hh.
Qed.

Section tenant.
Context `{JwtLib, UuidLib, QuoteLib}.

(** Behind the token middleware and the tenant guard a handler never runs
    for the nil tenant: it runs only for a token that was verified and whose
    tenant claim parses to the tenant the handler reads, and which is not nil. *)
Theorem tenant_scoped_handler (m : jwtauth.Middleware) (st st' : jwtkeys.KeyCache) (env : jwtauth.Env)
    (w w' w'' : ResponseWriter) (r r' r'' : Request) :
  jwtauth.Handler m st env w r = (Next w' r', st') → jwtauth.clean (req_ctx r) →
  RequireTenant w' r' = Next w'' r'' →
  ∃ token claims, jwtauth.validateToken m st env token = (Some claims, st') ∧
    ctxutil.GetTenantID (req_ctx r'') ≠ uuid_Nil ∧
    TenantID claims ≠ "" ∧
    uuid_Parse (TenantID claims) = Some (ctxutil.GetTenantID (req_ctx r'')).
Proof.
  intros Hh Hc. destruct (jwtauth.admitted_identity _ _ _ _ _ _ _ _ Hh Hc)
    as (token & claims & _ & Hv & _ & _ & _ & _ & _ & _ & _ & Ht).
  unfold RequireTenant, RequireTenantWith. destruct (N.eqb_spec (ctxutil.GetTenantID (req_ctx r')) uuid_Nil) as [|Hne]; [done|].
  intros [= <- <-]. exists token, claims. split_and!; [done|done| |].
  - intros He. by rewrite He in Ht.
  - rewrite Ht in *. destruct (String.eqb (TenantID claims) ""); [done|].
    by destruct (uuid_Parse _).
Qed.

End tenant.

(** Access is denied by default: a request passes a permission check exactly
    when the caller's role is in the map and grants that permission; an unknown
    or missing role has none. *)
Theorem rbac_denies_by_default (roles : RoleMap) (perm : string) (w : ResponseWriter) (r : Request) :
  (RBAC_Require roles perm w r = Next w r ↔
   ∃ perms, roles !! ctxutil.GetUserRole (req_ctx r) = Some perms ∧ perm ∈ perms) ∧
  (RBAC_Require roles perm w r = Next w r ∨ RBAC_Require roles perm w r = Reply (http_Error w "forbidden" 403)).
Proof.
  unfold RBAC_Require, hasPermission. destruct (roles !! _) as [perms|] eqn:Hr; simpl.
  - destruct (contains perms perm) eqn:Hc; simpl.
    + apply contains_spec in Hc. split; [|by left]. split; [|done]. eauto.
    + apply contains_false in Hc. split; [|by right]. split; [done|]. by intros (? & [= <-] & ?).
  - split; [|by right]. split; [done|]. by intros (? & ? & _).
Qed.

(** A panic turns into an answer: the recovered handler never panics, and a
    response not yet started gets status 500. *)
Lemma Recover_never_panics next w r :
  (Recover next w r).2 = false ∧
  ((next w r).2 = true → rw_Status (next w r).1 = None → rw_Status (Recover next w r).1 = Some 500).
Proof.
  unfold Recover. destruct (next w r) as [w' p]. destruct p; [|done]. split; [done|].
  intros _ Hs. simpl in *. by rewrite Hs.
Qed.

(** The recorder keeps the last status a handler asks for, the response the
    first: when a handler fails after it has started its answer, the log and the
    metrics say 500 while the client got 200. *)
Theorem recorder_disagrees_with_response :
  let next : Writes := λ _, ([AWriteHeader 200; AWrite "partial"; AWriteHeader 500], false) in
  let r := {| req_Method := "GET"; req_Path := "/"; req_RawQuery := ""; req_Pattern := ""; req_RemoteAddr := "";
              req_Header := ∅; req_ctx := ctxutil.Background |} in
  let out := Logger (λ _, "") 1 next new_response r in
  rw_Status (sr_w out.1) = Some 200 ∧ ll_status <$> out.2 = Some 500 ∧
  (Metrics "api" next new_response r).2 = Some ["api"; "unmatched"; "GET"; "5xx"].
Proof. done. Qed.

(** The handler behind the logger reads the same request, and finds the
    request's own entry as its logger. *)
Lemma Logger_hands_over uuid_String entry next w r standard :
  let r' := with_ctx r (ctxutil.WithLogger (req_ctx r) entry) in
  (Logger uuid_String entry next w r).1 = fold_left sr_run (next r').1 {| sr_w := w; statusCode := 200 |} ∧
  ctxutil.GetLogger standard (req_ctx r') = entry ∧
  (∀ k, k ≠ ctxutil.loggerKey → ctxutil.Value (req_ctx r') k = ctxutil.Value (req_ctx r) k).
Proof.
  unfold Logger. simpl. destruct (next _) as [acts p]. split_and!; [done| |].
  - unfold ctxutil.GetLogger, ctxutil.WithLogger. by rewrite ctxutil.Value_WithValue_eq.
  - intros k Hk. unfold ctxutil.WithLogger. by apply ctxutil.Value_WithValue_ne.
Qed.

(** A logger in front of the token middleware, where it is documented to
    stand, names no tenant: whatever the handler behind it learns of the caller
    goes into a context of its own, and the line is written from the one that
    came in. *)
Theorem log_names_no_tenant uuid_String entry (next : Writes) (w : ResponseWriter) (r : Request) :
  jwtauth.clean (req_ctx r) →
  ∀ line, (Logger uuid_String entry next w r).2 = Some line → ll_tenant line = "".
Proof.
  intros Hc line. unfold Logger. destruct (next _) as [acts []]; [done|]. intros [= <-]. simpl.
  unfold ctxutil.GetTenantIDStr, ctxutil.GetTenantID, ctxutil.tenantIDKey. by rewrite Hc by set_solver.
Qed.

Definition demo_request : Request :=
  {| req_Method := "GET"; req_Path := "/"; req_RawQuery := ""; req_Pattern := ""; req_RemoteAddr := "";
     req_Header := {[ "X-Request-Id" := ["bad id"] ]}; req_ctx := ctxutil.Background |}.

Lemma request_id_is_safe_witness :
  ∃ w' r' id, RequestID "018f-fresh" new_response demo_request = Next w' r' ∧
    ctxutil.GetRequestID (req_ctx r') = id ∧ header_Get (rw_Header w') "X-Request-ID" = id ∧ id ≠ "".
Proof.
  destruct (request_id_is_safe "018f-fresh" new_response demo_request) as (w' & r' & id & H1 & H2 & H3 & H4 & _).
  - vm_compute. reflexivity.
  - exists w', r', id. exact (conj H1 (conj H2 (conj H3 H4))).
Defined.

(** ** A token that carries a tenant *)

Definition demo_claims : SocrateClaims :=
  {| Role := "admin"; AppRoles := None; TokenVersion := 1; AuthTime := 8000; Amr := None;
     TenantID := "t7"; Plan := ""; Email := ""; Name := "";
     Registered := jwtauth.Demo.registered; scopes := []; scopesErr := false |}.
#[local] Instance demo_lib : JwtLib :=
  {| jwt_decode token := Some ({| jh_alg := "RS256"; jh_kid := Some "k1" |}, demo_claims);
     jwt_verify _ k := bool_decide (k = jwtkeys.demo_key);
     jwt_claims_valid := jwtauth.Demo.claims_valid |}.
#[local] Instance demo_uuids : UuidLib :=
  {| uuid_Parse s := if String.eqb s "t7" then Some 7%N else None; uuid_of_sub _ := 7%N |}.
#[local] Instance demo_quotes : QuoteLib := {| go_quote s := s |}.

Definition demo_out := jwtauth.Handler jwtauth.Demo.mw jwtkeys.empty_cache jwtauth.Demo.env new_response jwtauth.Demo.request.
Definition demo_next : Request := match demo_out.1 with Next _ r => r | Reply _ => demo_request end.

Lemma tenant_scoped_handler_witness :
  ∃ token claims, jwtauth.validateToken jwtauth.Demo.mw jwtkeys.empty_cache jwtauth.Demo.env token = (Some claims, demo_out.2) ∧
    ctxutil.GetTenantID (req_ctx demo_next) ≠ uuid_Nil ∧ TenantID claims ≠ "" ∧
    uuid_Parse (TenantID claims) = Some (ctxutil.GetTenantID (req_ctx demo_next)).
Proof.
  apply (tenant_scoped_handler jwtauth.Demo.mw jwtkeys.empty_cache demo_out.2 jwtauth.Demo.env new_response
    new_response new_response jwtauth.Demo.request demo_next demo_next).
  - vm_compute. reflexivity.
  - intros k. reflexivity.
  - vm_compute. reflexivity.
Defined.

(** The logger in front of the token middleware: the handler answers for the
    tenant, the line has none. *)
Example demo_log_line :
  let next : Writes := λ r,
    match (jwtauth.Handler jwtauth.Demo.mw jwtkeys.empty_cache jwtauth.Demo.env new_response r).1 with
    | Next _ r => ([AWrite (ctxutil.GetTenantIDStr (λ _, "t7") (req_ctx r))], false)
    | Reply _ => ([AWriteHeader 401], false)
    end in
  let out := Logger (λ _, "t7") 1 next new_response jwtauth.Demo.request in
  rw_Body (sr_w out.1) = "t7" ∧ (λ l, (ll_status l, ll_tenant l)) <$> out.2 = Some (200, "").
Proof. vm_compute. done. Qed.

End httpware.
