(* ===== verification/Limits.v ===== *)
(** Request limits and build metadata: the size of a body
    (src/httpware/bodylimit.go), the deadline of a request
    (src/httpware/timeout.go) and the version endpoint
    (src/buildinfo/buildinfo.go). *)

From S2P Require Import Prelude GoText Utf8 GoJson JsonRoundtrip CtxUtil Http.

Module limits.

(** * Bodies *)

(** A request body, and [http.MaxBytesReader] around one. *)
Inductive reader :=
  | Body (s : string)
  | MaxBytesReader (r : reader) (n : Z).

(** Reading to the end: what was delivered, and the limit that was exceeded, if
    any; the reader stops there. A negative limit counts as 0. *)
Fixpoint ReadAll (r : reader) : string * option Z :=
  match r with
  | Body s => (s, None)
  | MaxBytesReader r n =>
      let n := Z.max n 0 in
      let '(s, err) := ReadAll r in
      if slen s <=? n then (s, err) else (String.substring 0 (Z.to_nat n) s, Some n)
  end.

Record BodyRequest := { br_req : Request; br_body : reader }.

(** [httpware/bodylimit.go: BodyLimit] *)
Definition BodyLimit {A} (maxBytes : Z) (next : ResponseWriter → BodyRequest → A) (w : ResponseWriter) (r : BodyRequest) : A :=
  next w {| br_req := br_req r; br_body := MaxBytesReader (br_body r) maxBytes |}.

(** The middleware of the list around a handler, the first one outermost. *)
Definition limited {A} (ns : list Z) (next : ResponseWriter → BodyRequest → A) : ResponseWriter → BodyRequest → A :=
  foldr (λ n h, BodyLimit n h) next ns.

Definition wrapped (ns : list Z) (r : reader) : reader := fold_left MaxBytesReader ns r.

Lemma limited_wrapped {A} ns (next : ResponseWriter → BodyRequest → A) w r :
  limited ns next w r = next w {| br_req := br_req r; br_body := wrapped ns (br_body r) |}.
Proof. revert r. induction ns as [|n ns IH]; intros r; [by destruct r|]. simpl. unfold BodyLimit at 1. by rewrite IH. Qed.

Lemma substring_slen n s : (n ≤ String.length s)%nat → slen (String.substring 0 n s) = Z.of_nat n.
Proof.
  unfold slen. intros Hn. f_equal. revert s Hn. induction n as [|n IH]; intros s Hn; [by destruct s|].
  destruct s as [|c s]; simpl in *; [lia|]. rewrite IH; lia.
Qed.

(** Nothing beyond the smallest limit is delivered, and the body is complete
    exactly when it fits into every limit. *)
Lemma ReadAll_wrapped ns r s :
  ReadAll r = (s, None) →
  Forall (λ n, slen (ReadAll (wrapped ns r)).1 ≤ Z.max n 0) ns ∧
  (Forall (λ n, slen s ≤ Z.max n 0) ns → ReadAll (wrapped ns r) = (s, None)) ∧
  (¬ Forall (λ n, slen s ≤ Z.max n 0) ns → ∃ n, (ReadAll (wrapped ns r)).2 = Some n).
Proof.
  intros Hr. induction ns as [|n ns (Hle & Hfit & Hex)] using rev_ind.
  { split_and!; [done|done|]. intros Hn. by destruct Hn. }
  assert (wrapped (ns ++ [n]) r = MaxBytesReader (wrapped ns r) n) as Hw by (unfold wrapped; by rewrite fold_left_app).
  rewrite Hw. cbn [ReadAll]. destruct (ReadAll (wrapped ns r)) as [t err] eqn:Ht. simpl in Hle, Hfit, Hex.
  destruct (Z.leb_spec (slen t) (Z.max n 0)) as [Hn|Hn]; simpl.
  - split_and!.
    + apply Forall_app. split; [done|by constructor].
    + intros [Hall _]%Forall_app. by apply Hfit.
    + intros Hnot. destruct (decide (Forall (λ n, slen s ≤ Z.max n 0) ns)) as [Hall|Hall]; [|by apply Hex].
      destruct Hnot. injection (Hfit Hall) as -> _. apply Forall_app. split; [done|by constructor].
  - assert (slen (String.substring 0 (Z.to_nat (Z.max n 0)) t) = Z.max n 0) as Hlen.
    { rewrite substring_slen; unfold slen in *; lia. }
    rewrite Hlen. split_and!; [| |eauto].
    + apply Forall_app. split; [|by repeat constructor]. apply (Forall_impl _ _ _ Hle). intros m Hm. simpl in Hm. lia.
    + intros [Hall [Hs _]%Forall_cons]%Forall_app. injection (Hfit Hall) as -> _. lia.
Qed.

(** Body limits combine to the smallest of them. A handler behind any number of
    BodyLimit middlewares, the global one and those of its route, reads its
    whole body exactly when the body fits into every limit, and is otherwise
    stopped with an error; it never receives more than any limit. *)
Theorem body_limits_combine {A} (ns : list Z) (next : ResponseWriter → BodyRequest → A) (w : ResponseWriter) (r : Request)
    (s : string) :
  ∃ b, limited ns next w {| br_req := r; br_body := Body s |} = next w {| br_req := r; br_body := b |} ∧
    Forall (λ n, slen (ReadAll b).1 ≤ Z.max n 0) ns ∧
    (Forall (λ n, slen s ≤ Z.max n 0) ns → ReadAll b = (s, None)) ∧
    (¬ Forall (λ n, slen s ≤ Z.max n 0) ns → ∃ n, (ReadAll b).2 = Some n).
Proof. exists (wrapped ns (Body s)). rewrite limited_wrapped. split; [done|]. by apply ReadAll_wrapped. Qed.

(** A route's larger limit does not lift the global one: with 4 bytes globally
    and 10 for the route, a body of 6 bytes is refused at 4, and the middleware
    itself writes no status. *)
Theorem route_limit_cannot_raise_the_global_one (r : Request) :
  limited [4; 10] (λ w r, (rw_Status w, ReadAll (br_body r))) new_response {| br_req := r; br_body := Body "upload" |} =
  (None, ("uplo", Some 4)).
Proof. reflexivity. Qed.

(** * Deadlines *)

(** A context with a deadline: its values, the deadline and whether the
    cancellation of the connection reaches it. *)
Record timed := { t_values : ctxutil.context; t_deadline : option Time; t_connection : bool }.

(** [context.WithoutCancel] and [context.WithTimeout]. *)
Definition WithoutCancel (c : timed) : timed := {| t_values := t_values c; t_deadline := None; t_connection := false |}.
Definition WithTimeout (c : timed) (now : Time) (d : Duration) : timed :=
  {| t_values := t_values c;
     t_deadline := Some (match t_deadline c with Some t => Z.min t (time_Add now d) | None => time_Add now d end);
     t_connection := t_connection c |}.

(** [httpware/timeout.go: Timeout]
    [now] is when the request reaches the middleware. *)
Definition Timeout (d : Duration) (now : Time) (c : timed) : timed := WithTimeout (WithoutCancel c) now d.

(** The innermost Timeout decides: whatever deadlines the outer middlewares set,
    the handler's is the one of the last, its values are the request's, and a
    client that disconnects does not cancel it. *)
Theorem innermost_timeout_decides (outer : list (Duration * Time)) (d : Duration) (now : Time) (c : timed) :
  Timeout d now (fold_left (λ c dt, Timeout dt.1 dt.2 c) outer c) =
  {| t_values := t_values c; t_deadline := Some (time_Add now d); t_connection := false |}.
Proof.
  unfold Timeout at 1, WithTimeout, WithoutCancel. simpl. f_equal.
  revert c. induction outer as [|[d' t'] outer IH]; intros c; [done|]. simpl. by rewrite IH.
Qed.

(** * Build metadata *)

(** [buildinfo/buildinfo.go:36-48] the variables set by the linker *)
Record build := { Version : string; BuildTime : string; GitCommit : string }.
Definition unset : build := {| Version := "dev"; BuildTime := ""; GitCommit := "" |}.

(** [buildinfo/buildinfo.go: Info] *)
Record Info := { i_Version : string; i_BuildTime : string; i_GitCommit : string; i_GoVersion : string }.

(** [buildinfo/buildinfo.go: Get] *)
Definition Get (b : build) (runtime_Version : string) : Info :=
  {| i_Version := Version b; i_BuildTime := BuildTime b; i_GitCommit := GitCommit b; i_GoVersion := runtime_Version |}.

Definition encode_Info (i : Info) : json :=
  JObj ([("version", JStr (i_Version i))] ++ omit_empty "buildTime" (i_BuildTime i) ++
        omit_empty "gitCommit" (i_GitCommit i) ++ [("goVersion", JStr (i_GoVersion i))]).

(** [buildinfo/buildinfo.go: Handler]
    The body is marshalled when the handler is made. *)
Definition Handler (b : build) (runtime_Version : string) : ResponseWriter → ResponseWriter :=
  let body := json_encode (encode_Info (Get b runtime_Version)) in
  λ w, rw_write (rw_write_header (rw_set_header w "Content-Type" "application/json") 200) body.

(** The version endpoint answers 200 with a JSON object that holds the version
    and the Go version, and the build time and the commit when they are known. *)
Theorem version_endpoint (b : build) (go : string) :
  let w := Handler b go new_response in
  rw_Status w = Some 200 ∧ header_Get (rw_Header w) "Content-Type" = "application/json" ∧
  json_parse (rw_Body w) = Some (canon (encode_Info (Get b go))).
Proof.
  split; [done|]. split; [apply header_Get_Set|]. cbn [rw_Body Handler rw_write rw_write_header rw_set_header new_response].
  rewrite append_nil. apply json_roundtrip. unfold encode_Info, omit_empty. cbn [json_wf].
  by destruct (String.eqb (i_BuildTime _) ""), (String.eqb (i_GitCommit _) "").
Qed.

End limits.
