(* ===== verification/Stack.v ===== *)
(** The middlewares of a protected service in the order the library documents
    (src/httpware, src/jwtauth, src/tiering, src/pep): request id, security
    headers, token, tenant, rate limit, permission, plan, policy. The theorems
    of the packages become one statement about the requests a handler sees. *)

From S2P Require Import Prelude GoText GoJson GoFloat CtxUtil Http ApiError JwtKeys JwtAuth SocrateToken Pep Tiering RateLimit HttpWare.

Module stack.

(** * Composition *)

(** A middleware with a state; [None] stands for a panic. *)
Definition SGate (S : Type) := S → ResponseWriter → Request → option verdict * S.

Definition pure {S} (g : Gate) : SGate S := λ st w r, (Some (g w r), st).

(** One middleware after another. *)
Definition seq {S} (g1 g2 : SGate S) : SGate S := λ st w r,
  match g1 st w r with
  | (Some (Next w r), st) => g2 st w r
  | x => x
  end.
Infix ">=>" := seq (at level 60, right associativity).

Lemma seq_Next {S} (g1 g2 : SGate S) st w r w' r' st' :
  (g1 >=> g2) st w r = (Some (Next w' r'), st') →
  ∃ w1 r1 st1, g1 st w r = (Some (Next w1 r1), st1) ∧ g2 st1 w1 r1 = (Some (Next w' r'), st').
Proof. unfold seq. destruct (g1 st w r) as [[[w1|w1 r1]|] st1]; [done| |done]. eauto. Qed.

Lemma pure_Next {S} (g : Gate) (st st' : S) w r w' r' :
  pure g st w r = (Some (Next w' r'), st') → g w r = Next w' r' ∧ st' = st.
Proof. unfold pure. by intros [= -> ->]. Qed.

(** What every part of a stack leaves alone, the stack leaves alone. *)
Lemma seq_keeps {S A} (f : S → A) (g1 g2 : SGate S) :
  (∀ st w r, f (g1 st w r).2 = f st) → (∀ st w r, f (g2 st w r).2 = f st) →
  ∀ st w r, f ((g1 >=> g2) st w r).2 = f st.
Proof.
  intros H1 H2 st w r. unfold seq. specialize (H1 st w r). destruct (g1 st w r) as [[[w1|w1 r1]|] st1]; simpl in *; [done| |done].
  by rewrite H2.
Qed.

(** * The service *)

Section service.
Context `{JwtLib, UuidLib, QuoteLib, ratelimit.RateLib, ratelimit.NetLib} (uuid_String : UUID → string).

(** What the process keeps between requests. *)
Record St := { keys : jwtkeys.KeyCache; limits : ratelimit.KeyedRateLimiter; enforcer : pep.Enforcer }.

(** Its configuration, and what a request finds when it arrives: a fresh id, the
    clock and the answers of the key and policy servers. *)
Record Service := {
  auth : jwtauth.Middleware; roles : httpware.RoleMap; permission : string;
  gate : tiering.Gate; minPlan : string; route : pep.Route;
}.
Record Arrival := {
  fresh_id : string; key_env : jwtauth.Env; at_limit : Time; decider : pep.Decider; at_check : Time;
}.

Definition auth_gate (svc : Service) (a : Arrival) : SGate St := λ st w r,
  let '(v, k) := jwtauth.Handler (auth svc) (keys st) (key_env a) w r in
  (Some v, {| keys := k; limits := limits st; enforcer := enforcer st |}).

Definition limit_gate (a : Arrival) : SGate St := λ st w r,
  let '(v, l) := ratelimit.keyed_Handler uuid_String (limits st) (at_limit a) w r in
  (Some v, {| keys := keys st; limits := l; enforcer := enforcer st |}).

Definition policy_gate (svc : Service) (a : Arrival) : SGate St := λ st w r,
  let '(v, e) := pep.Middleware (enforcer st) (decider a) (at_check a) (route svc) w r in
  (v, {| keys := keys st; limits := limits st; enforcer := e |}).

Definition front (a : Arrival) : SGate St :=
  pure (httpware.RequestID (fresh_id a)) >=> pure httpware.SecurityHeaders.

Definition identified (svc : Service) (a : Arrival) : SGate St :=
  front a >=> auth_gate svc a >=> pure httpware.RequireTenant.

Definition authorized (svc : Service) (a : Arrival) : SGate St :=
  limit_gate a >=> pure (httpware.RBAC_Require (roles svc) (permission svc)) >=>
  pure (tiering.Require_ (gate svc) (minPlan svc)) >=> policy_gate svc a.

Definition protected (svc : Service) (a : Arrival) : SGate St := identified svc a >=> authorized svc a.

(** ** Each part *)

Lemma auth_gate_Next svc a st w r w' r' st' :
  auth_gate svc a st w r = (Some (Next w' r'), st') →
  jwtauth.Handler (auth svc) (keys st) (key_env a) w r = (Next w' r', keys st') ∧
  limits st' = limits st ∧ enforcer st' = enforcer st.
Proof. unfold auth_gate. destruct (jwtauth.Handler _ _ _ _ _) as [v k]. by intros [= -> <-]. Qed.

Lemma limit_gate_Next a st w r w' r' st' :
  limit_gate a st w r = (Some (Next w' r'), st') →
  ratelimit.keyed_Handler uuid_String (limits st) (at_limit a) w r = (Next w' r', limits st') ∧
  keys st' = keys st ∧ enforcer st' = enforcer st.
Proof. unfold limit_gate. destruct (ratelimit.keyed_Handler _ _ _ _ _) as [v k]. by intros [= -> <-]. Qed.

Lemma policy_gate_Next svc a st w r w' r' st' :
  policy_gate svc a st w r = (Some (Next w' r'), st') →
  (pep.Middleware (enforcer st) (decider a) (at_check a) (route svc) w r).1 = Some (Next w' r') ∧
  keys st' = keys st ∧ limits st' = limits st.
Proof. unfold policy_gate. destruct (pep.Middleware _ _ _ _ _ _) as [v k]. by intros [= -> <-]. Qed.

(** Before the token is read the context holds nothing but the request id. *)
Lemma front_Next a st w r w' r' st' :
  front a st w r = (Some (Next w' r'), st') → jwtauth.clean (req_ctx r) →
  st' = st ∧ jwtauth.clean (req_ctx r') ∧ jwtauth.extractBearer r' = jwtauth.extractBearer r ∧
  req_RemoteAddr r' = req_RemoteAddr r.
Proof.
  intros (w1 & r1 & st1 & [Hid ->]%pure_Next & [Hsec ->]%pure_Next)%seq_Next Hc. unfold httpware.RequestID in Hid.
  unfold httpware.SecurityHeaders in Hsec. injection Hid as <- <-. injection Hsec as <- <-. split_and!; [done| |done|done].
  intros k Hk. cbn [req_ctx with_ctx]. unfold ctxutil.WithRequestID. rewrite ctxutil.Value_WithValue_ne; [by apply Hc|].
  unfold ctxutil.requestIDKey. intros [= <-]. apply Hk. by left.
Qed.

(** The identified request: who it is for, read from one verified token. *)
Lemma identified_Next svc a st w r w' r' st' :
  identified svc a st w r = (Some (Next w' r'), st') → jwtauth.clean (req_ctx r) →
  limits st' = limits st ∧ enforcer st' = enforcer st ∧ req_RemoteAddr r' = req_RemoteAddr r ∧
  ∃ token claims tenant,
    jwtauth.extractBearer r = Some token ∧
    jwtauth.validateToken (auth svc) (keys st) (key_env a) token = (Some claims, keys st') ∧
    ctxutil.GetRawJWT (req_ctx r') = token ∧
    uuid_Parse (TenantID claims) = Some tenant ∧ tenant ≠ uuid_Nil ∧ ctxutil.GetTenantID (req_ctx r') = tenant ∧
    ctxutil.GetUserRole (req_ctx r') = Role claims ∧
    ctxutil.GetUserPlan (req_ctx r') = (if String.eqb (Plan claims) "" then "freemium" else Plan claims).
Proof.
  intros (w1 & r1 & st1 & Hf & Hrest)%seq_Next Hc.
  destruct (front_Next _ _ _ _ _ _ _ Hf Hc) as (-> & Hc1 & Hb & Haddr).
  apply seq_Next in Hrest as (w2 & r2 & st2 & Ha & [Ht ->]%pure_Next).
  apply auth_gate_Next in Ha as (Hh & Hl & He).
  pose proof (jwtauth.Handler_Next _ _ _ _ _ _ _ _ Hh) as (tok0 & cl0 & _ & _ & _ & _ & _ & t0 & _ & Hr2).
  destruct (jwtauth.admitted_identity _ _ _ _ _ _ _ _ Hh Hc1)
    as (token & claims & Hbearer & Hv & Hraw & _ & Hrole & Hplan & _ & _ & _ & Htenant).
  unfold httpware.RequireTenant, httpware.RequireTenantWith in Ht.
  destruct (N.eqb_spec (ctxutil.GetTenantID (req_ctx r2)) uuid_Nil) as [|Hne]; [done|]. injection Ht as <- <-.
  split_and!; [done|done|by rewrite Hr2|]. exists token, claims, (ctxutil.GetTenantID (req_ctx r2)).
  split_and!; try done; [by rewrite <- Hb|].
  rewrite Htenant in *. destruct (String.eqb (TenantID claims) ""); [done|]. by destruct (uuid_Parse (TenantID claims)).
Qed.

Lemma identified_headers svc a st w r w' r' st' :
  identified svc a st w r = (Some (Next w' r'), st') → req_Header r' = req_Header r.
Proof.
  intros (w1 & r1 & st1 & Hf & Hrest)%seq_Next. apply seq_Next in Hf as (? & ? & ? & [Hid _]%pure_Next & [Hsec _]%pure_Next).
  unfold httpware.RequestID in Hid. unfold httpware.SecurityHeaders in Hsec. injection Hid as <- <-. injection Hsec as _ <-.
  apply seq_Next in Hrest as (w2 & r2 & st2 & (Hh & _)%auth_gate_Next & [Ht _]%pure_Next).
  unfold httpware.RequireTenant, httpware.RequireTenantWith in Ht.
  destruct (ctxutil.GetTenantID (req_ctx r2) =? uuid_Nil)%N; [done|]. injection Ht as _ <-.
  by destruct (jwtauth.Handler_Next _ _ _ _ _ _ _ _ Hh) as (? & ? & _ & _ & _ & _ & _ & ? & _ & ->).
Qed.

(** Nothing of an identified request changes on the way to its handler. *)
Lemma policy_gate_same svc a st w r w' r' st' : policy_gate svc a st w r = (Some (Next w' r'), st') → r' = r.
Proof.
  intros (Hm & _)%policy_gate_Next. unfold pep.Middleware in Hm.
  destruct (route svc r) as [[]|]; [|by injection Hm]. destruct (pep.Check_ _ _ _ _ _ _ _) as [[]]; [by injection Hm|done|done].
Qed.

Lemma limit_gate_same a st w r w' r' st' : limit_gate a st w r = (Some (Next w' r'), st') → r' = r.
Proof.
  intros (Hh & _)%limit_gate_Next. unfold ratelimit.keyed_Handler in Hh.
  destruct (ratelimit.key _ _ r). destruct (ratelimit.limiter_ _ _ _ _) as [[l|] rl]; [|done].
  unfold ratelimit.reserve in Hh. repeat case_match; by simplify_eq.
Qed.

Lemma authorized_same svc a st w r w' r' st' :
  authorized svc a st w r = (Some (Next w' r'), st') → r' = r ∧ keys st' = keys st.
Proof.
  intros (w1 & r1 & st1 & Hl & Hrest)%seq_Next. pose proof (limit_gate_same _ _ _ _ _ _ _ Hl) as ->.
  apply limit_gate_Next in Hl as (_ & Hkeys & _).
  apply seq_Next in Hrest as (? & r3 & ? & [Hrb ->]%pure_Next & Hrest).
  unfold httpware.RBAC_Require in Hrb. destruct (negb _); [done|]. injection Hrb as <- <-.
  apply seq_Next in Hrest as (? & r4 & ? & [Hg ->]%pure_Next & Hpol).
  unfold tiering.Require_ in Hg. destruct (negb _); [done|]. injection Hg as <- <-.
  split; [by eapply policy_gate_same|]. apply policy_gate_Next in Hpol as (_ & Hk & _). congruence.
Qed.

Lemma protected_tenant svc a st w r w' r' st' :
  protected svc a st w r = (Some (Next w' r'), st') → ctxutil.GetTenantID (req_ctx r') ≠ uuid_Nil.
Proof.
  intros (w1 & r1 & st1 & Hid & [-> _]%authorized_same)%seq_Next.
  apply seq_Next in Hid as (? & ? & ? & _ & Hid). apply seq_Next in Hid as (w3 & r3 & ? & _ & [Ht _]%pure_Next).
  unfold httpware.RequireTenant, httpware.RequireTenantWith in Ht.
  destruct (N.eqb_spec (ctxutil.GetTenantID (req_ctx r3)) uuid_Nil) as [|Hne]; [done|]. by injection Ht as <- <-.
Qed.

Lemma authorized_Next svc a st w r w' r' st' action resource :
  (∀ k kl, ratelimit.keys (limits st) !! k = Some kl → is_Some (ratelimit.buckets (limits st) !! ratelimit.limiter kl)) →
  pep.configured (enforcer st) → pep.MinimumMode (pep.cfg (enforcer st)) = policy.PolicyModeEnforce →
  route svc r = Some (action, resource) →
  authorized svc a st w r = (Some (Next w' r'), st') →
  (∃ kl b, ratelimit.bucket_of (limits st) (ratelimit.key uuid_String (ratelimit.cfg (limits st)) r).1
       (ratelimit.key uuid_String (ratelimit.cfg (limits st)) r).2 = Some b ∧
     ratelimit.keys (limits st') !! (ratelimit.key uuid_String (ratelimit.cfg (limits st)) r).1 = Some kl ∧
     ratelimit.res_OK (ratelimit.Reserve (at_limit a) b).1 = true ∧
     ratelimit.res_Delay (at_limit a) (ratelimit.Reserve (at_limit a) b).1 ≤ 0 ∧
     ratelimit.buckets (limits st') !! ratelimit.limiter kl = Some (ratelimit.Reserve (at_limit a) b).2) ∧
  httpware.hasPermission (roles svc) (ctxutil.GetUserRole (req_ctx r)) (permission svc) = true ∧
  tiering.TierAtLeast (tiering.registry (gate svc))
    (tiering.Normalise (tiering.registry (gate svc)) (ctxutil.GetUserPlan (req_ctx r))) (minPlan svc) = true ∧
  ∃ d, pep.answer (enforcer st) (decider a)
      {| policy.Subject := Some {| policy.ps_Token := ctxutil.GetRawJWT (req_ctx r); policy.ps_UserID := 0 |};
         policy.Action := action; policy.Resource := resource; policy.Context_ := pep.ContextFor r; policy.PEPMode := "" |} =
      (Some d, None) ∧
    policy.Allow d = true ∧ Forall (pep.honoured (enforcer st) (at_check a) (req_ctx r)) (pep.heeded (policy.Obligations d)).
Proof.
  intros Hobj Hcfg Hfloor Hroute (w1 & r1 & st1 & Hl & Hrest)%seq_Next.
  apply limit_gate_Next in Hl as (Hl & _ & He1).
  destruct (ratelimit.keyed_Handler_Next _ _ _ _ _ _ _ _ Hobj Hl) as (-> & -> & kl & b & Hof & Hk & _ & Hok & Hd & Hb).
  apply seq_Next in Hrest as (w2 & r2 & st2 & [Hp ->]%pure_Next & Hrest).
  unfold httpware.RBAC_Require in Hp. destruct (httpware.hasPermission _ _ _) eqn:Hperm; [|done]. injection Hp as <- <-.
  apply seq_Next in Hrest as (w3 & r3 & st3 & [Hg ->]%pure_Next & Hpol).
  unfold tiering.Require_ in Hg. destruct (tiering.TierAtLeast _ _ _) eqn:Htier; [|done]. injection Hg as <- <-.
  apply policy_gate_Next in Hpol as (Hm & _ & Hlim). rewrite He1 in Hm.
  destruct (pep.Middleware_Next _ _ _ _ _ _ _ _ _ _ Hcfg Hfloor Hroute Hm) as (_ & -> & _ & d & Ha & Hallow & Hob).
  split; [exists kl, b; by rewrite Hlim|]. split_and!; [done|done|]. by exists d.
Qed.

(** C3: behind the whole stack a handler sees only requests on which every layer
    agreed about one and the same caller. Take a request that arrives with no
    identity in its context and reaches the handler behind a policy enforcement
    point built by New with the minimum mode enforce, on a route that is mapped to
    an action, with a limiter each of whose keys has its bucket. Then its bearer
    token was verified; the tenant the handler reads is the one that token names,
    and not nil; that tenant's bucket, as the request found it (a full one if
    there was none), granted it a reservation without delay and was left with the
    reservation taken; the token's role grants the permission and its plan
    reaches the required one; and the policy server, asked with that very token as
    the subject about the route's action and resource, allowed it, with every
    obligation before the first one of empty name honoured by the context the
    handler reads (an empty name hides the obligations after it:
    [empty_obligation_is_dropped]). *)
Theorem protected_handler_agrees (svc : Service) (a : Arrival) (st st' : St) (w w' : ResponseWriter) (r r' : Request)
    (action : string) (resource : policy.PolicyResource) :
  jwtauth.clean (req_ctx r) →
  (∀ k kl, ratelimit.keys (limits st) !! k = Some kl → is_Some (ratelimit.buckets (limits st) !! ratelimit.limiter kl)) →
  pep.configured (enforcer st) → pep.MinimumMode (pep.cfg (enforcer st)) = policy.PolicyModeEnforce →
  route svc r' = Some (action, resource) →
  protected svc a st w r = (Some (Next w' r'), st') →
  ∃ token claims tenant kl b d,
    jwtauth.extractBearer r = Some token ∧
    jwtauth.validateToken (auth svc) (keys st) (key_env a) token = (Some claims, keys st') ∧
    uuid_Parse (TenantID claims) = Some tenant ∧ tenant ≠ uuid_Nil ∧ ctxutil.GetTenantID (req_ctx r') = tenant ∧
    ratelimit.bucket_of (limits st) ("t:" +:+ uuid_String tenant) false = Some b ∧
    ratelimit.res_OK (ratelimit.Reserve (at_limit a) b).1 = true ∧
    ratelimit.res_Delay (at_limit a) (ratelimit.Reserve (at_limit a) b).1 ≤ 0 ∧
    ratelimit.keys (limits st') !! ("t:" +:+ uuid_String tenant) = Some kl ∧
    ratelimit.buckets (limits st') !! ratelimit.limiter kl = Some (ratelimit.Reserve (at_limit a) b).2 ∧
    httpware.hasPermission (roles svc) (Role claims) (permission svc) = true ∧
    tiering.TierAtLeast (tiering.registry (gate svc))
      (tiering.Normalise (tiering.registry (gate svc)) (if String.eqb (Plan claims) "" then "freemium" else Plan claims))
      (minPlan svc) = true ∧
    pep.answer (enforcer st) (decider a)
      {| policy.Subject := Some {| policy.ps_Token := token; policy.ps_UserID := 0 |};
         policy.Action := action; policy.Resource := resource; policy.Context_ := pep.ContextFor r; policy.PEPMode := "" |} =
      (Some d, None) ∧
    policy.Allow d = true ∧ Forall (pep.honoured (enforcer st) (at_check a) (req_ctx r')) (pep.heeded (policy.Obligations d)).
Proof.
  intros Hc Hobj Hcfg Hfloor Hroute (w1 & r1 & st1 & Hid & Hauth)%seq_Next.
  destruct (identified_Next _ _ _ _ _ _ _ _ Hid Hc)
    as (Hl & He & Haddr & token & claims & tenant & Hb & Hv & Hraw & Hp & Hne & Ht & Hrole & Hplan).
  rewrite <- Hl in Hobj. rewrite <- He in Hcfg, Hfloor. rewrite <- He.
  destruct (authorized_same _ _ _ _ _ _ _ _ Hauth) as [-> Hkeys].
  destruct (authorized_Next _ _ _ _ _ _ _ _ _ _ Hobj Hcfg Hfloor Hroute Hauth)
    as ((kl & b & Hof & Hk & Hok & Hdelay & Hbk) & Hperm & Htier & d & Hans & Hallow & Hob).
  unfold ratelimit.key in Hof, Hk. rewrite Ht in Hof, Hk. rewrite (proj2 (N.eqb_neq _ _) Hne) in Hof, Hk. simpl in Hof, Hk.
  rewrite Hl in Hof.
  rewrite Hrole in Hperm. rewrite Hplan in Htier. rewrite Hraw in Hans.
  unfold pep.ContextFor in *. rewrite Haddr in Hans. exists token, claims, tenant, kl, b, d.
  split_and!; try done. by rewrite Hkeys.
Qed.

(** A request that is not identified costs the others nothing: it is answered
    before any bucket is touched or the policy server is asked. *)
Theorem unidentified_requests_cost_nothing (svc : Service) (a : Arrival) (st : St) (w : ResponseWriter) (r : Request) :
  (∀ w1 r1, (identified svc a st w r).1 ≠ Some (Next w1 r1)) →
  protected svc a st w r = identified svc a st w r ∧
  limits (protected svc a st w r).2 = limits st ∧ enforcer (protected svc a st w r).2 = enforcer st.
Proof.
  intros Hn. assert (protected svc a st w r = identified svc a st w r) as Heq.
  { unfold protected, seq at 1. destruct (identified svc a st w r) as [[[w1|w1 r1]|] st1]; [done| |done].
    by destruct (Hn w1 r1). }
  rewrite Heq. split; [done|].
  assert (∀ A (f : St → A), (∀ st w r, f (auth_gate svc a st w r).2 = f st) → f (identified svc a st w r).2 = f st) as Hk
    by (intros A f Hf; repeat apply seq_keeps; by intros).
  split; apply Hk; intros; unfold auth_gate; by destruct (jwtauth.Handler _ _ _ _ _).
Qed.

End service.

(** * A service *)

Module sample.

Definition claims : SocrateClaims :=
  {| Role := "admin"; AppRoles := None; TokenVersion := 1; AuthTime := 8000; Amr := Some ["pwd"; "mfa"];
     TenantID := "t7"; Plan := "enterprise"; Email := ""; Name := "";
     Registered := jwtauth.Demo.registered; scopes := []; scopesErr := false |}.
#[local] Instance lib : JwtLib :=
  {| jwt_decode token := Some ({| jh_alg := "RS256"; jh_kid := Some "k1" |}, claims);
     jwt_verify _ k := bool_decide (k = jwtkeys.demo_key);
     jwt_claims_valid := jwtauth.Demo.claims_valid |}.
#[local] Instance uuids : UuidLib :=
  {| uuid_Parse s := if String.eqb s "t7" then Some 7%N else None; uuid_of_sub _ := 7%N |}.
#[local] Instance quotes : QuoteLib := {| go_quote s := s |}.

Definition svc : Service :=
  {| auth := jwtauth.Demo.mw; roles := {["admin" := ["reports:write"]]}; permission := "reports:write";
     gate := {| tiering.registry := tiering.DefaultRegistry; tiering.upgradeURL := "" |}; minPlan := "pro";
     route := pep.demo_route |}.
Definition arrival : Arrival :=
  {| fresh_id := "018f-fresh"; key_env := jwtauth.Demo.env; at_limit := Second; decider := pep.demo_decider;
     at_check := time_Unix 9000 |}.
Definition fresh : St :=
  {| keys := jwtkeys.empty_cache; limits := ratelimit.Demo.limiter0; enforcer := pep.demo_enforcer |}.

Definition out := protected ratelimit.Demo.show_uuid svc arrival fresh new_response jwtauth.Demo.request.
Definition seen : ResponseWriter * Request :=
  match out.1 with Some (Next w r) => (w, r) | _ => (new_response, jwtauth.Demo.request) end.

Lemma protected_handler_agrees_witness :
  ∃ token tenant kl, jwtauth.extractBearer jwtauth.Demo.request = Some token ∧
    ctxutil.GetTenantID (req_ctx seen.2) = tenant ∧ tenant = 7%N ∧
    is_Some (ratelimit.bucket_of (limits fresh) "t:7" false) ∧
    ratelimit.keys (limits out.2) !! "t:7" = Some kl.
Proof.
  assert (out = (Some (Next seen.1 seen.2), out.2)) as Hout by (vm_compute; reflexivity).
  destruct (protected_handler_agrees ratelimit.Demo.show_uuid svc arrival fresh out.2 new_response seen.1
    jwtauth.Demo.request seen.2 "invoice.read" (policy.Resource pep.demo_req))
    as (token & cl & tenant & kl & b & d & Hb & _ & Hp & _ & Ht & Hof & _ & _ & Hk & _).
  - intros k _. reflexivity.
  - intros k kl Hk. vm_compute in Hk. discriminate.
  - exact pep.demo_configured.
  - reflexivity.
  - reflexivity.
  - exact Hout.
  - assert (ctxutil.GetTenantID (req_ctx seen.2) = 7%N) as H7 by (vm_compute; reflexivity).
    rewrite H7 in Ht. subst tenant. exists token, 7%N, kl. exact (conj Hb (conj H7 (conj eq_refl (conj (ex_intro _ b Hof) Hk)))).
Defined.

End sample.

End stack.
