(* ===== verification/Downstream.v ===== *)
(** The browser's request all the way: through the gateway of the BFF
    (src/bff/gateway.go) and its reverse proxy to a backend behind the token
    middleware (src/jwtauth, src/httpware). Who the backend's handler believes
    the caller to be is who the session belongs to. *)

From S2P Require Import Prelude GoText GoJson GoFloat CtxUtil Http ApiError JwtKeys JwtAuth SocrateToken Session SessionStore BffMisc Gateway Pep Tiering RateLimit HttpWare Stack.

Module downstream.
Import session store bff gateway.

(** The director of [httputil.NewSingleHostReverseProxy] rewrites the URL and, of
    the headers, at most User-Agent. *)
Definition keeps_headers (director : Request → Request) : Prop :=
  ∀ r k, k ≠ "User-Agent" → req_Header (director r) !! k = req_Header r !! k.

(** What arrives carries the two headers as they were sent. *)
Definition delivered (sent arrived : Request) : Prop :=
  ∀ k, k ∈ ["Authorization"; "Cookie"] → req_Header arrived !! k = req_Header sent !! k.

Lemma header_Get_lookup h h' k :
  canonical_key k = k → h !! k = h' !! k → header_Get h k = header_Get h' k.
Proof. intros Hk Hl. unfold header_Get. by rewrite Hk, Hl. Qed.

(** The director of the gateway keeps both headers. *)
Lemma Director_keeps director r k :
  keeps_headers director → k ∈ ["Authorization"; "Cookie"] → req_Header (Director director r) !! k = req_Header r !! k.
Proof.
  intros Hd Hk. unfold Director. simpl. unfold header_Del.
  assert (canonical_key "X-Real-IP" = "X-Real-Ip" ∧ canonical_key "True-Client-IP" = "True-Client-Ip" ∧
          canonical_key "Forwarded" = "Forwarded") as (-> & -> & ->) by (vm_compute; done).
  rewrite !elem_of_cons in Hk. destruct Hk as [->|[->|Hk]]; [| |by apply not_elem_of_nil in Hk].
  - rewrite !lookup_delete_ne by done. by apply Hd.
  - rewrite !lookup_delete_ne by done. by apply Hd.
Qed.

Section end_to_end.
Context {SSt : Type} `{SessionStoreLaws SSt}.
Context `{JwtLib, UuidLib, QuoteLib, ratelimit.RateLib, ratelimit.NetLib}.

(** C4: a browser session speaks only for itself. Take a request that the gateway
    forwards (authentication on, pass-through off, over any well-formed store)
    and that reaches a backend with its Authorization and Cookie headers as they
    were sent, through a reverse proxy whose own director rewrites no header but
    User-Agent; and let the backend's token and tenant middlewares, in a context
    that holds none of their values yet, let it through. Then the store's Get
    found, under the value of the browser's cookie, a session that had not
    expired, and the browser sent that session's CSRF secret with a POST, PUT,
    PATCH or DELETE. The token the backend verified, and whose role and tenant the
    handler reads, is a bearer of that session: its access token while valid for
    longer than the leeway, or else that of the refresher's answer to its refresh
    token; whatever Authorization header the browser had sent. The session
    cookie never reached the backend. *)
Theorem session_speaks_for_itself (g : Gateway) (ck : Clock) (refresh : TokenRefresher) (h : heap) (st : SSt) (c : heap * SSt)
    (w w' : ResponseWriter) (r r' : Request) (director : Request → Request) (svc : stack.Service) (a : stack.Arrival)
    (bst bst' : stack.St) (bw bw' : ResponseWriter) (rb rb' : Request) :
  DisableAuth g = false → AllowPassthrough g = false → store_wf h st →
  ProxyWithSession g ck refresh h st w r = (Next w' r', c) →
  keeps_headers director → delivered (Director director r') rb → jwtauth.clean (req_ctx rb) →
  stack.identified svc a bst bw rb = (Some (Next bw' rb'), bst') →
  ∃ sid l h1 st1 s token claims,
    SessionID (Cookie_ g) r = Some sid ∧ store_Get (at_get ck) h st sid = (Some l, (h1, st1)) ∧ h1 !! l = Some s ∧
    id s = sid ∧ store_expired st (at_get ck) s = false ∧
    (IsUnsafeMethod (req_Method r) = true → csrf s ≠ "" ∧ header_Get (req_Header r) (csrfHeader g) = csrf s) ∧
    forwarded_token g ck refresh s token ∧
    jwtauth.validateToken (stack.auth svc) (stack.keys bst) (stack.key_env a) token = (Some claims, stack.keys bst') ∧
    ctxutil.GetRawJWT (req_ctx rb') = token ∧ ctxutil.GetUserRole (req_ctx rb') = Role claims ∧
    uuid_Parse (TenantID claims) = Some (ctxutil.GetTenantID (req_ctx rb')) ∧
    req_Header rb' !! "Cookie" = None.
Proof.
  intros Hd Hp Hwf Hproxy Hdir Hdel Hclean Hid.
  destruct (proxy_forwards g ck refresh h st w w' r r' c Hd Hp Hwf Hproxy)
    as (sid & l & h1 & st1 & s & tok & Hsid & Hget & Hl & Hs & Hexp & Hcsrf & Htok & Hauth & Hcookie & _).
  destruct (stack.identified_Next _ _ _ _ _ _ _ _ Hid Hclean)
    as (_ & _ & _ & token & claims & tenant & Hb & Hv & Hraw & Ht & _ & Hten & Hrole & _).
  assert (token = tok) as ->.
  { unfold jwtauth.extractBearer in Hb.
    rewrite (header_Get_lookup (req_Header rb) (req_Header r') "Authorization") in Hb; [|done|].
    - rewrite Hauth in Hb. by injection Hb.
    - rewrite Hdel by (by left). apply Director_keeps; [done|by left]. }
  exists sid, l, h1, st1, s, tok, claims. split_and!; try done.
  - by rewrite Hten.
  - rewrite (stack.identified_headers _ _ _ _ _ _ _ _ Hid), Hdel by (right; by left).
    rewrite Director_keeps; [done|done|]. right. by left.
Qed.

End end_to_end.

(** * A browser, a gateway and a backend *)

Module sample.
Import gateway.Demo stack.sample.
#[local] Existing Instances lib uuids quotes.

(** The browser's request carries a forged Authorization header; its session's
    token has expired and is refreshed. *)
Definition forwarded : Request := with_header req (forward_header (req_Header req) "a2").
Definition backend : stack.Service :=
  {| stack.auth := jwtauth.New "https://socrate/jwks" "https://socrate" [jwtauth.WithAudience "api"]; stack.roles := ∅;
     stack.permission := ""; stack.gate := stack.gate svc; stack.minPlan := ""; stack.route := λ _, None |}.
Definition arrived : Request :=
  {| req_Method := "POST"; req_Path := "/api"; req_RawQuery := ""; req_Pattern := ""; req_RemoteAddr := "";
     req_Header := {[ "Authorization" := ["Bearer a2"]; "X-Csrf-Token" := ["csrf"] ]}; req_ctx := ctxutil.Background |}.
Definition admitted := stack.identified backend arrival fresh new_response arrived.
Definition handled : ResponseWriter * Request :=
  match admitted.1 with Some (Next w r) => (w, r) | _ => (new_response, arrived) end.

Lemma session_speaks_for_itself_witness :
  ∃ l h1 st1 token, store_Get (2000 * Second) h0 st0 "s1" = (Some l, (h1, st1)) ∧ ctxutil.GetRawJWT (req_ctx handled.2) = token ∧ token = "a2" ∧
    req_Header handled.2 !! "Cookie" = None.
Proof.
  destruct (session_speaks_for_itself g (clock (2000 * Second)) rotate h0 st0
    (ProxyWithSession g (clock (2000 * Second)) rotate h0 st0 new_response req).2 new_response new_response req forwarded
    (λ r, r) backend arrival fresh admitted.2 new_response handled.1 arrived handled.2)
    as (sid & l & h1 & st1 & s & token & claims & Hsid & Hget & _ & _ & _ & _ & _ & _ & Hraw & _ & _ & Hc).
  - reflexivity.
  - reflexivity.
  - apply (mem_wf_Put h0 (NewMemoryStore 0 0) 1). split; intros ? ? Hx; simpl in Hx; by rewrite lookup_empty in Hx.
  - vm_compute. reflexivity.
  - intros r k _. reflexivity.
  - intros k Hk. apply elem_of_cons in Hk as [->|Hk]; [vm_compute; reflexivity|].
    apply elem_of_cons in Hk as [->|Hk]; [vm_compute; reflexivity|]. by apply not_elem_of_nil in Hk.
  - intros k _. reflexivity.
  - vm_compute. reflexivity.
  - assert (sid = "s1") as -> by (vm_compute in Hsid; congruence).
    exists l, h1, st1, token. split; [exact Hget|]. split; [exact Hraw|]. split; [|exact Hc].
    rewrite <- Hraw. vm_compute. reflexivity.
Defined.

End sample.

End downstream.
