(* ===== verification/SocrateService.v ===== *)
(** The stateful parts of the Socrate client (package [socrate]): the
    service-account token and its cache (src/socrate/client.go), the bounded
    cache of scoped tokens (service_token_scopes.go), what is sent on a user's
    behalf (attribution.go, helpers.go), and the reading of policy decisions
    (policy.go). A cached scoped token is an object shared by its callers. *)

From S2P Require Import Prelude GoText Utf8 GoJson CtxUtil Http BffMisc SocrateToken Pep.

Module service.
Import socrate.

(** * The token endpoint's answer (client.go) *)

(** [socrate/client.go: tokenResponse]
    The raw scope is [None] when the field is absent. *)
Record tokenResponse := { tr_AccessToken : string; tr_ExpiresIn : Z; tr_TokenType : string; tr_Scope : option json }.

Definition zero_tokenResponse : tokenResponse :=
  {| tr_AccessToken := ""; tr_ExpiresIn := 0; tr_TokenType := ""; tr_Scope := None |}.

Definition decode_tokenResponse (l : list (string * json)) : option tokenResponse :=
  access ← decode_field decode_string "" "access_token" l;
  exp ← decode_field decode_int 0 "expires_in" l;
  typ ← decode_field decode_string "" "token_type" l;
  scope ← decode_field decode_raw None "scope" l;
  Some {| tr_AccessToken := access; tr_ExpiresIn := exp; tr_TokenType := typ; tr_Scope := scope |}.

(** [socrate/client.go: serviceTokenRenewBefore] *)
Definition serviceTokenRenewBefore : Duration := 30 * Second.
(** [socrate/client.go: unknownTokenLifetime] *)
Definition unknownTokenLifetime : Duration := Minute.

(** The exp claim of a token, read without verification. *)
Definition exp_claim (token : string) : option Z :=
  match str_split "." token with
  | [_; payload; _] =>
      match b64_decode payload with
      | None => None
      | Some text => unmarshal_struct (λ l, decode_field decode_int 0 "exp" l) 0 text
      end
  | _ => None
  end.

(** [socrate/client.go: tokenExpiry] *)
Definition tokenExpiry (tr : tokenResponse) (sent : Time) : Time :=
  let fallback := if 0 <? tr_ExpiresIn tr then time_Add sent (seconds (tr_ExpiresIn tr))
                  else time_Add sent unknownTokenLifetime in
  match exp_claim (tr_AccessToken tr) with
  | Some exp => if unix_of sent <? exp then time_Unix exp else fallback
  | None => fallback
  end.

(** [socrate/client.go: Client.exchangeClientCredentials]
    [a] is the server's answer to the request sent at [sent]. *)
Definition exchangeClientCredentials (a : http_answer) (sent : Time) (httpErr : Z → string → goerr)
  : result goerr (tokenResponse * Time) :=
  match a with
  | TransportError => Err (EWrap "token exchange" (EMsg "transport"))
  | _ =>
      match readBody a with
      | None => Err (EWrap "read token response" (EMsg "read"))
      | Some b =>
          if negb (status_of a =? 200) then Err (httpErr (status_of a) b)
          else match unmarshal_struct decode_tokenResponse zero_tokenResponse b with
               | None => Err (EWrap "decode token response" (EMsg "json"))
               | Some tr =>
                   if String.eqb (tr_AccessToken tr) "" then
                     Err (EMsg "token exchange: no access_token in the response")
                   else Ok (tr, tokenExpiry tr sent)
               end
      end
  end.

(** * The client's caches *)

(** [socrate/service_token_scopes.go: scopedServiceToken] *)
Record scopedServiceToken := { token : string; expiry : Time; lastUsed : Z }.

(** [socrate/client.go: Client]
    The parts that change, and the secret; [scoped] is nil or maps a scope set
    to an entry object of [entries]. *)
Record Client := {
  clientSecret : string;
  svcToken : string;
  svcTokenExpiry : Time;
  scoped : option (gmap string positive);
  entries : gmap positive scopedServiceToken;
  scopedTick : Z;
}.

Definition no_secret : goerr := EMsg "socrate: client_secret required for service-account token exchange".

(** [socrate/client.go: Client.ServiceToken]
    [now] is read for the cache check; the exchange, if any, is sent at [sent]
    and answered [a]. *)
Definition ServiceToken (c : Client) (now sent : Time) (a : http_answer)
  : result goerr (string * Time) * Client :=
  if negb (String.eqb (svcToken c) "") &&
     time_Before (time_Add now serviceTokenRenewBefore) (svcTokenExpiry c) then
    (Ok (svcToken c, svcTokenExpiry c), c)
  else if String.eqb (clientSecret c) "" then (Err no_secret, c)
  else
    match exchangeClientCredentials a sent
            (λ status body, EMsg ("token exchange HTTP " +:+ itoa status +:+ ": " +:+ body)) with
    | Err e => (Err e, c)
    | Ok (tr, exp) =>
        (Ok (tr_AccessToken tr, exp),
         {| clientSecret := clientSecret c; svcToken := tr_AccessToken tr; svcTokenExpiry := exp;
            scoped := scoped c; entries := entries c; scopedTick := scopedTick c |})
    end.

(** The two locked sections of [InvalidateServiceToken]. *)
Definition drop_svc (c : Client) : Client :=
  {| clientSecret := clientSecret c; svcToken := ""; svcTokenExpiry := 0; scoped := scoped c;
     entries := entries c; scopedTick := scopedTick c |}.
Definition drop_scoped (c : Client) : Client :=
  {| clientSecret := clientSecret c; svcToken := svcToken c; svcTokenExpiry := svcTokenExpiry c; scoped := None;
     entries := entries c; scopedTick := scopedTick c |}.

(** [socrate/client.go: Client.InvalidateServiceToken] *)
Definition InvalidateServiceToken (c : Client) : Client := drop_scoped (drop_svc c).

(** * Scoped tokens (service_token_scopes.go) *)

(** [socrate/service_token_scopes.go: ErrScopeNotGranted] *)
Definition ErrScopeNotGranted : string := "socrate: scope not granted".
(** [socrate/service_token_scopes.go: maxScopedServiceTokens] *)
Definition maxScopedServiceTokens : nat := 16.

(** [socrate/service_token_scopes.go: isScopeToken] *)
Definition isScopeToken (s : string) : bool :=
  if String.eqb s "" then false
  else all_bytes (λ ch, negb ((ch <? 33) || (126 <? ch) || (ch =? 34) || (ch =? 92))) s.

(** [slices.Compact]: runs of equal values keep their first. *)
Fixpoint compact (l : list string) : list string :=
  match l with
  | x :: ((y :: _) as rest) => if String.eqb x y then compact rest else x :: compact rest
  | _ => l
  end.

(** [socrate/service_token_scopes.go: normaliseScopes] *)
Definition normaliseScopes (scopes : list string) : result goerr (list string) :=
  match scopes with
  | [] => Err (EMsg "socrate: ServiceTokenWithScopes needs at least one scope")
  | _ =>
      if forallb isScopeToken scopes then Ok (compact (merge_sort string_le scopes))
      else Err (EMsg "socrate: invalid scope")
  end.

(** The least recently used key, found by ranging over the map. *)
Definition older (es : gmap positive scopedServiceToken) (acc : string * Z) (kv : string * positive)
  : string * Z :=
  let u := default 0 (lastUsed <$> es !! kv.2) in
  if String.eqb acc.1 "" || (u <? acc.2) then (kv.1, u) else acc.

(** [socrate/service_token_scopes.go: Client.scopedEntry]
    The tick is an unsigned 64-bit counter. *)
Definition scopedEntry (c : Client) (key : string) : positive * Client :=
  let tick := (scopedTick c + 1) mod 2 ^ 64 in
  let m := default ∅ (scoped c) in
  match m !! key with
  | Some l =>
      let es := match entries c !! l with
                | Some e => <[l := {| token := token e; expiry := expiry e; lastUsed := tick |}]> (entries c)
                | None => entries c
                end in
      (l, {| clientSecret := clientSecret c; svcToken := svcToken c; svcTokenExpiry := svcTokenExpiry c;
             scoped := scoped c; entries := es; scopedTick := tick |})
  | None =>
      let m := if (maxScopedServiceTokens <=? size m)%nat
               then delete (fold_left (older (entries c)) (map_to_list m) ("", 0)).1 m else m in
      let l := fresh (dom (entries c)) in
      (l, {| clientSecret := clientSecret c; svcToken := svcToken c; svcTokenExpiry := svcTokenExpiry c;
             scoped := Some (<[key := l]> m);
             entries := <[l := {| token := ""; expiry := 0; lastUsed := tick |}]> (entries c);
             scopedTick := tick |})
  end.

(** [socrate/service_token_scopes.go:90-106] the check of the granted scopes *)
Definition check_granted (set : list string) (scope : option json) : option goerr :=
  match scope with
  | None | Some JNull => None
  | Some (JStr granted) =>
      if forallb (contains (fields granted)) set then None
      else Some (EWrap "the token response lacks scopes" (ESentinel ErrScopeNotGranted))
  | Some _ => Some (EWrap "the token response's scope is not a string" (ESentinel ErrScopeNotGranted))
  end.

Definition scope_error (status : Z) (body : string) : goerr :=
  let oe := newOAuthError status body in
  if String.eqb (oe_Code oe) "invalid_scope" then EWrap2 (ESentinel ErrScopeNotGranted) (EOAuth oe) else EOAuth oe.

(** The cached token of an entry is still good. *)
Definition live (e : scopedServiceToken) (now : Time) : bool :=
  negb (String.eqb (token e) "") && time_Before (time_Add now serviceTokenRenewBefore) (expiry e).

(** [socrate/client.go:344-346] the scope parameter of the request
    Sent when the scope is not empty. *)
Definition scope_param (scope : string) : option string := if negb (String.eqb scope "") then Some scope else None.

(** An exchange with the token endpoint: the scope parameter of the request,
    when it was sent and what the endpoint answered. *)
Record exchange := { x_scope : option string; x_sent : Time; x_answer : http_answer }.

(** [socrate/service_token_scopes.go:73-108] the section under the entry's lock
    The endpoint answers according to the scope parameter it is sent; the
    exchange, if there is one, is returned with the result. *)
Definition useEntry (c : Client) (l : positive) (set : list string) (now sent : Time)
    (ask : option string → http_answer) : result goerr (string * Time) * Client * list exchange :=
  let scope := str_join " " set in
  match entries c !! l with
  | None => (Err (EMsg "no entry"), c, [])
  | Some e =>
      if live e now then (Ok (token e, expiry e), c, [])
      else
        let param := scope_param scope in
        let x := {| x_scope := param; x_sent := sent; x_answer := ask param |} in
        match exchangeClientCredentials (x_answer x) sent scope_error with
        | Err err => (Err err, c, [x])
        | Ok (tr, exp) =>
            match check_granted set (tr_Scope tr) with
            | Some err => (Err err, c, [x])
            | None =>
                (Ok (tr_AccessToken tr, exp),
                 {| clientSecret := clientSecret c; svcToken := svcToken c;
                    svcTokenExpiry := svcTokenExpiry c; scoped := scoped c;
                    entries := <[l := {| token := tr_AccessToken tr; expiry := exp;
                                         lastUsed := lastUsed e |}]> (entries c);
                    scopedTick := scopedTick c |}, [x])
            end
        end
  end.

(** [socrate/service_token_scopes.go: Client.ServiceTokenWithScopes] *)
Definition ServiceTokenWithScopes (c : Client) (now sent : Time) (ask : option string → http_answer)
    (scopes : list string) : result goerr (string * Time) * Client * list exchange :=
  match normaliseScopes scopes with
  | Err e => (Err e, c, [])
  | Ok set =>
      if String.eqb (clientSecret c) "" then (Err no_secret, c, [])
      else
        let '(l, c) := scopedEntry c (str_join " " set) in
        useEntry c l set now sent ask
  end.

(** * Lemmas: scope sets *)

Lemma compact_cons x y l :
  compact (x :: y :: l) = if String.eqb x y then compact (y :: l) else x :: compact (y :: l).
Proof. reflexivity. Qed.

Lemma compact_elem l x : x ∈ compact l ↔ x ∈ l.
Proof.
  induction l as [|y [|z l] IH]; [done|done|]. rewrite compact_cons.
  destruct (String.eqb_spec y z) as [->|Hne]; rewrite ?elem_of_cons, IH, ?elem_of_cons; naive_solver.
Qed.

Lemma compact_sorted l : StronglySorted string_le l → StronglySorted string_le (compact l) ∧ NoDup (compact l).
Proof.
  induction l as [|y [|z l] IH]; intros Hs.
  - split; constructor.
  - split; [done|apply NoDup_singleton].
  - rewrite compact_cons. apply StronglySorted_inv in Hs as [Hs Hall]. destruct (IH Hs) as [IH1 IH2].
    destruct (String.eqb_spec y z) as [->|Hne]; [done|]. split.
    + constructor; [done|]. apply Forall_forall. intros x Hx.
      rewrite compact_elem in Hx. rewrite Forall_forall in Hall. by apply Hall.
    + apply NoDup_cons. split; [|done]. rewrite compact_elem. intros Hy. apply Hne.
      apply (anti_symm string_le); [by apply Forall_inv in Hall|].
      apply elem_of_cons in Hy as [->|Hy]; [by apply Forall_inv in Hall|].
      apply StronglySorted_inv in Hs as [_ Hz]. rewrite Forall_forall in Hz. by apply Hz.
Qed.

(** The normal form of a list of scopes: sorted, without duplicates, with the
    same members. *)
Lemma normaliseScopes_Ok scopes set :
  normaliseScopes scopes = Ok set →
  set ≠ [] ∧ (∀ x, x ∈ set ↔ x ∈ scopes) ∧ StronglySorted string_le set ∧ NoDup set ∧
  Forall (λ s, isScopeToken s = true) set.
Proof.
  unfold normaliseScopes. destruct scopes as [|s0 scopes]; [done|].
  destruct (forallb isScopeToken (s0 :: scopes)) eqn:Hv; [|done]. intros [= <-].
  set (l := s0 :: scopes) in *.
  assert (∀ x, x ∈ compact (merge_sort string_le l) ↔ x ∈ l) as Hmem.
  { intros x. by rewrite compact_elem, (merge_sort_Permutation string_le l). }
  destruct (compact_sorted (merge_sort string_le l)) as [Hs Hnd].
  { apply Sorted_StronglySorted; [apply _|]. apply Sorted_merge_sort, _. }
  split_and!; [|done..|].
  - intros He. apply (not_elem_of_nil s0). rewrite <- He. apply Hmem. set_solver.
  - apply Forall_forall. intros x Hx%Hmem. eapply forallb_forall in Hv; [done|]. by apply list_elem_of_In.
Qed.

Lemma scope_token_nospace s : isScopeToken s = true → Forall (λ b, b ≠ 32) (bytes s).
Proof.
  unfold isScopeToken. destruct String.eqb; [done|]. intros Hs%all_bytes_spec.
  eapply Forall_impl; [exact Hs|]. intros b Hb. simpl in Hb. bool_to_prop. lia.
Qed.

(** Two requests use the same cache key exactly when they name the same scopes,
    whatever the order and the duplicates. *)
Lemma scope_sets_have_own_keys (l1 l2 set1 set2 : list string) :
  normaliseScopes l1 = Ok set1 → normaliseScopes l2 = Ok set2 →
  (str_join " " set1 = str_join " " set2 ↔ ∀ s, s ∈ l1 ↔ s ∈ l2).
Proof.
  intros (Hn1 & Hm1 & Hs1 & Hd1 & Hv1)%normaliseScopes_Ok (Hn2 & Hm2 & Hs2 & Hd2 & Hv2)%normaliseScopes_Ok.
  split.
  - intros Hj. apply (f_equal (str_split " ")) in Hj. rewrite !(split_join " ") in Hj; [|try done..].
    + subst. intros s. by rewrite <- Hm1, <- Hm2.
    + eapply Forall_impl; [exact Hv2|]. apply scope_token_nospace.
    + eapply Forall_impl; [exact Hv1|]. apply scope_token_nospace.
  - intros Hsame. f_equal. apply (StronglySorted_unique string_le); [done..|].
    apply NoDup_Permutation; [done..|]. intros x. by rewrite Hm1, Hm2.
Qed.

(** * Lemmas: the caches *)

Lemma exchange_Ok a sent err tr exp :
  exchangeClientCredentials a sent err = Ok (tr, exp) →
  tr_AccessToken tr ≠ "" ∧ exp = tokenExpiry tr sent ∧ status_of a = 200.
Proof.
  unfold exchangeClientCredentials. destruct a as [|s|s b]; [done|done|].
  destruct (readBody _) as [body|]; [|done].
  destruct (Z.eqb_spec (status_of (Answer s b)) 200) as [Hs|]; [|done]. simpl negb. cbv iota.
  destruct unmarshal_struct as [tr0|]; [|done].
  destruct (String.eqb_spec (tr_AccessToken tr0) ""); [done|]. by intros [= <- <-].
Qed.

(** A service token is handed out only while it has more than 30 seconds to
    live or fresh from a successful exchange, and is never empty; a failed
    exchange leaves the cache as it was, and after an invalidation the next call
    exchanges again. *)
Theorem service_token_is_live (c : Client) (now sent : Time) (a : http_answer) :
  match ServiceToken c now sent a with
  | (Ok (tok, exp), c') =>
      tok ≠ "" ∧ svcToken c' = tok ∧ svcTokenExpiry c' = exp ∧
      ((c' = c ∧ now + 30 * Second < exp) ∨
       (∃ tr, exchangeClientCredentials a sent (λ status body,
                EMsg ("token exchange HTTP " +:+ itoa status +:+ ": " +:+ body)) = Ok (tr, exp) ∧
              tok = tr_AccessToken tr ∧ exp = tokenExpiry tr sent ∧ clientSecret c ≠ ""))
  | (Err e, c') => c' = c
  end ∧
  (∀ tok exp c', ServiceToken (InvalidateServiceToken c) now sent a = (Ok (tok, exp), c') →
     status_of a = 200 ∧ clientSecret c ≠ "").
Proof.
  assert (∀ c0, match ServiceToken c0 now sent a with
    | (Ok (tok, exp), c') =>
        tok ≠ "" ∧ svcToken c' = tok ∧ svcTokenExpiry c' = exp ∧
        ((c' = c0 ∧ now + 30 * Second < exp) ∨
         (∃ tr, exchangeClientCredentials a sent (λ status body,
                  EMsg ("token exchange HTTP " +:+ itoa status +:+ ": " +:+ body)) = Ok (tr, exp) ∧
                tok = tr_AccessToken tr ∧ exp = tokenExpiry tr sent ∧ clientSecret c0 ≠ ""))
    | (Err e, c') => c' = c0
    end) as Hlive.
  { intros c0. unfold ServiceToken. destruct (_ && _) eqn:Hc; bool_to_prop.
    - unfold time_Before, time_Add in *. bool_to_prop. split_and!; [done..|]. by left.
    - destruct (String.eqb_spec (clientSecret c0) ""); [done|].
      destruct exchangeClientCredentials as [[tr exp]|e] eqn:Hx; [|done].
      destruct (exchange_Ok _ _ _ _ _ Hx) as (Hne & He & _). simpl. split_and!; [done..|]. right. eauto. }
  split; [apply Hlive|]. intros tok exp c' Ht. specialize (Hlive (InvalidateServiceToken c)).
  unfold ServiceToken in Ht. simpl in Ht. destruct (String.eqb_spec (clientSecret c) ""); [done|].
  destruct exchangeClientCredentials as [[tr x]|e] eqn:Hx; [|done].
  destruct (exchange_Ok _ _ _ _ _ Hx) as (_ & _ & ?). done.
Qed.

(** The expiry reported for a token is the one its verifiers check when the
    token carries one in the future, else the announced lifetime counted from
    before the request was sent, else one minute: always after the request and
    never past what the server announced. *)
Theorem tokenExpiry_spec (tr : tokenResponse) (sent : Time) :
  0 ≤ sent → in_int64 (tr_ExpiresIn tr * Second) →
  let e := tokenExpiry tr sent in
  (∀ exp, exp_claim (tr_AccessToken tr) = Some exp → unix_of sent < exp → e = time_Unix exp) ∧
  ((∀ exp, exp_claim (tr_AccessToken tr) = Some exp → exp ≤ unix_of sent) →
   sent < e ∧
   e = sent + (if 0 <? tr_ExpiresIn tr then tr_ExpiresIn tr * Second else Minute)).
Proof.
  intros Hsent Hr. unfold tokenExpiry. split.
  - intros exp -> Hlt. by rewrite (proj2 (Z.ltb_lt _ _) Hlt).
  - intros Hold. set (fallback := if 0 <? tr_ExpiresIn tr then _ else _).
    assert (fallback = sent + (if 0 <? tr_ExpiresIn tr then tr_ExpiresIn tr * Second else Minute)) as Hf.
    { unfold fallback, time_Add, seconds. destruct (0 <? _); [|done]. by rewrite wrap64_id. }
    assert (sent < fallback) as Hgt.
    { rewrite Hf. destruct (0 <? _) eqn:Hp; bool_to_prop; unfold Minute, Second in *; lia. }
    destruct (exp_claim _) as [exp|]; [|done].
    specialize (Hold exp eq_refl). by rewrite (proj2 (Z.ltb_ge _ _) Hold).
Qed.

(** ** The bound on scoped entries *)

Definition scoped_size (c : Client) : nat := size (default ∅ (scoped c)).

Definition keys_nonempty (c : Client) : Prop := default ∅ (scoped c) !! "" = None.

Lemma older_fold es l acc :
  Forall (λ kv : string * positive, kv.1 ≠ "") l → acc.1 ≠ "" ∨ l ≠ [] →
  let r := fold_left (older es) l acc in r.1 ≠ "" ∧ (r.1 = acc.1 ∨ r.1 ∈ l.*1).
Proof.
  revert acc. induction l as [|kv l IH]; intros acc Hne Hacc; simpl.
  - split; [naive_solver|by left].
  - apply Forall_cons in Hne as [Hk Hne].
    assert ((older es acc kv).1 = kv.1 ∨ older es acc kv = acc ∧ acc.1 ≠ "") as [Ho|[-> Hb]].
    { unfold older. destruct (String.eqb_spec acc.1 ""); [by left|]. destruct (_ <? _); [by left|by right]. }
    + destruct (IH (older es acc kv) Hne) as [H1 H2]; [left; by rewrite Ho|].
      split; [done|]. right. apply elem_of_cons. rewrite Ho in H2. done.
    + destruct (IH acc Hne ltac:(by left)) as [H1 [H2|H2]]; (split; [done|]); [by left|right].
      apply elem_of_cons. by right.
Qed.

Lemma evicted_key (m : gmap string positive) es :
  m !! "" = None → m ≠ ∅ → is_Some (m !! (fold_left (older es) (map_to_list m) ("", 0)).1).
Proof.
  intros Hemp Hne. destruct (older_fold es (map_to_list m) ("", 0)) as [H1 H2].
  - apply Forall_forall. intros [k v] Hk%elem_of_map_to_list. simpl. intros ->. congruence.
  - right. intros Hl%map_to_list_empty_iff. done.
  - destruct H2 as [H2|H2]; [done|]. apply list_elem_of_fmap in H2 as ([k v] & -> & Hk%elem_of_map_to_list).
    simpl. eauto.
Qed.

Lemma scopedEntry_bounded c key :
  key ≠ "" → keys_nonempty c → (scoped_size c ≤ maxScopedServiceTokens)%nat →
  keys_nonempty (scopedEntry c key).2 ∧ (scoped_size (scopedEntry c key).2 ≤ maxScopedServiceTokens)%nat.
Proof.
  unfold keys_nonempty, scoped_size, scopedEntry. intros Hk Hne Hb.
  set (m := default ∅ (scoped c)) in *. destruct (m !! key) as [l|] eqn:Hm; [done|].
  cbn [snd scoped default].
  match goal with |- context [<[key := _]> ?x] => set (m' := x) end.
  assert (m' !! "" = None ∧ m' !! key = None ∧ (size m' < maxScopedServiceTokens)%nat) as (H1 & H2 & H3).
  { unfold m'. destruct (Nat.leb_spec maxScopedServiceTokens (size m)) as [Hfull|Hroom]; [|done].
    set (victim := (fold_left _ _ _).1).
    assert (is_Some (m !! victim)) as Hv.
    { apply evicted_key; [done|]. intros ->. rewrite map_size_empty in Hfull. unfold maxScopedServiceTokens in Hfull. lia. }
    split_and!; [apply lookup_delete_None; by right..|].
    rewrite (map_size_delete_Some _ _ Hv). unfold maxScopedServiceTokens in *. lia. }
  unfold id. split; [by rewrite lookup_insert_ne|]. rewrite map_size_insert_None by done. lia.
Qed.

Lemma key_nonempty scopes set : normaliseScopes scopes = Ok set → str_join " " set ≠ "".
Proof.
  intros (Hne & _ & _ & _ & Hv)%normaliseScopes_Ok. destruct set as [|w l]; [done|].
  apply Forall_cons in Hv as [Hw _]. destruct w as [|c w]; [done|].
  destruct l; simpl; [done|]. unfold str_join. simpl. by rewrite append_cons.
Qed.

(** ** Concurrent calls

    A call of [ServiceTokenWithScopes] takes two locks one after the other: in
    between, other calls may run, evict its entry or invalidate the cache. *)

(** A locked section of one of the callers, which are numbered. *)
Inductive section :=
| SEntry (t : nat) (scopes : list string)
| SUse (t : nat) (now sent : Time) (ask : option string → http_answer)
| SPlain (now sent : Time) (a : http_answer)
| SDropSvc
| SDropScoped.

(** The client, the set and the entry each caller holds between its sections,
    and every exchange [useEntry] has made so far. *)
Record config := {
  client : Client;
  held : gmap nat (list string * positive);
  exchanges : list exchange;
}.

(** A client that has made no call. *)
Definition new_client (secret : string) : Client :=
  {| clientSecret := secret; svcToken := ""; svcTokenExpiry := 0; scoped := None; entries := ∅; scopedTick := 0 |}.

Definition start (secret : string) : config := {| client := new_client secret; held := ∅; exchanges := [] |}.

(** What a caller gets from its second section, and the exchange it made. *)
Definition use_result (s : config) (t : nat) (now sent : Time) (ask : option string → http_answer)
  : option (result goerr (string * Time) * list exchange) :=
  match held s !! t with
  | Some (set, l) => let '(r, _, xs) := useEntry (client s) l set now sent ask in Some (r, xs)
  | None => None
  end.

(** An exchange that yields the token for [set]: its request named the members
    of [set], separated by spaces, as its scope, and its answer carries the
    token and does not say that a member of [set] is missing. *)
Definition grants (set : list string) (x : exchange) (tok : string) (exp : Time) : Prop :=
  x_scope x = Some (str_join " " set) ∧
  ∃ tr, exchangeClientCredentials (x_answer x) (x_sent x) scope_error = Ok (tr, exp) ∧ tok = tr_AccessToken tr ∧
        check_granted set (tr_Scope tr) = None.

Definition run_section (s : config) (k : section) : config :=
  match k with
  | SEntry t scopes =>
      match normaliseScopes scopes with
      | Err _ => s
      | Ok set =>
          if String.eqb (clientSecret (client s)) "" then s
          else let '(l, c) := scopedEntry (client s) (str_join " " set) in
               {| client := c; held := <[t := (set, l)]> (held s); exchanges := exchanges s |}
      end
  | SUse t now sent ask =>
      match held s !! t with
      | None => s
      | Some (set, l) =>
          let '(_, c, xs) := useEntry (client s) l set now sent ask in
          {| client := c; held := delete t (held s); exchanges := xs ++ exchanges s |}
      end
  | SPlain now sent a =>
      {| client := (ServiceToken (client s) now sent a).2; held := held s; exchanges := exchanges s |}
  | SDropSvc => {| client := drop_svc (client s); held := held s; exchanges := exchanges s |}
  | SDropScoped => {| client := drop_scoped (client s); held := held s; exchanges := exchanges s |}
  end.

Lemma useEntry_scoped c l set now sent ask : scoped (useEntry c l set now sent ask).1.2 = scoped c.
Proof.
  unfold useEntry. destruct (entries c !! l) as [e|]; [|done]. destruct (live e now); [done|].
  destruct exchangeClientCredentials as [[tr exp]|err]; [|done]. by destruct check_granted.
Qed.

Lemma ServiceToken_caches c now sent a :
  scoped (ServiceToken c now sent a).2 = scoped c ∧ entries (ServiceToken c now sent a).2 = entries c.
Proof.
  unfold ServiceToken. destruct (_ && _); [done|]. destruct (String.eqb (clientSecret c) ""); [done|].
  by destruct exchangeClientCredentials as [[tr exp]|err].
Qed.

(** C24: the cache of scoped tokens stays bounded. Whatever sets of scopes any
    number of concurrent callers ask for, however their locked sections, the
    exchanges of the scope-less token and invalidations interleave, and whatever
    the token endpoint answers, at most 16 sets are cached at any time: the
    eviction finds an entry to remove whenever the cache is full. *)
Theorem scoped_cache_bounded (secret : string) (ks : list section) :
  (scoped_size (client (fold_left run_section ks (start secret))) ≤ maxScopedServiceTokens)%nat.
Proof.
  assert (∀ s, keys_nonempty (client s) → (scoped_size (client s) ≤ maxScopedServiceTokens)%nat →
    (scoped_size (client (fold_left run_section ks s)) ≤ maxScopedServiceTokens)%nat) as Hgen.
  { induction ks as [|k ks IH]; intros s Hne Hb; simpl; [done|].
    assert (keys_nonempty (client (run_section s k)) ∧
            (scoped_size (client (run_section s k)) ≤ maxScopedServiceTokens)%nat) as [? ?]; [|by apply IH].
    destruct k as [t scopes|t now sent ask|now sent a| |]; cbn [run_section].
    - destruct (normaliseScopes scopes) as [set|] eqn:Hset; [|done].
      destruct (String.eqb (clientSecret (client s)) ""); [done|].
      pose proof (scopedEntry_bounded (client s) _ (key_nonempty _ _ Hset) Hne Hb) as Hs.
      by destruct (scopedEntry (client s) (str_join " " set)).
    - destruct (held s !! t) as [[set l]|]; [|done].
      pose proof (useEntry_scoped (client s) l set now sent ask) as Hs.
      destruct useEntry as [[r c] xs]. unfold keys_nonempty, scoped_size. simpl in *. by rewrite Hs.
    - unfold keys_nonempty, scoped_size. simpl. by rewrite (proj1 (ServiceToken_caches _ _ _ _)).
    - done.
    - split; [done|]. unfold scoped_size. simpl. rewrite map_size_empty. lia. }
  apply Hgen; [done|]. unfold scoped_size. simpl. rewrite map_size_empty. lia.
Qed.

(** ** Whose token is handed out *)

(** A set of scopes as [normaliseScopes] gives it. *)
Definition scope_set (set : list string) : Prop := set ≠ [] ∧ Forall (λ s, isScopeToken s = true) set.

Lemma scope_key_inj set1 set2 :
  scope_set set1 → scope_set set2 → str_join " " set1 = str_join " " set2 → set1 = set2.
Proof.
  intros [Hn1 Hv1] [Hn2 Hv2] Hj. apply (f_equal (str_split " ")) in Hj.
  rewrite !(split_join " ") in Hj; [done|done| |done|]; (eapply Forall_impl; [eassumption|]); apply scope_token_nospace.
Qed.

Lemma normalised_set scopes set : normaliseScopes scopes = Ok set → scope_set set.
Proof. intros (? & _ & _ & _ & ?)%normaliseScopes_Ok. done. Qed.

(** Every entry object belongs to one set of scopes for ever: the map files it
    under that set's key, a caller holds it for that set, and its token was
    granted for that set. *)
Record owned (owner : gmap positive (list string)) (s : config) : Prop := {
  ow_key k l : default ∅ (scoped (client s)) !! k = Some l →
    ∃ set, owner !! l = Some set ∧ scope_set set ∧ k = str_join " " set;
  ow_held t set l : held s !! t = Some (set, l) → owner !! l = Some set ∧ scope_set set;
  ow_dom l : is_Some (owner !! l) ↔ is_Some (entries (client s) !! l);
  ow_token l e set : entries (client s) !! l = Some e → owner !! l = Some set → token e ≠ "" →
    ∃ x, x ∈ exchanges s ∧ grants set x (token e) (expiry e);
}.

Lemma scopedEntry_owned owner s set t l c :
  owned owner s → scope_set set → scopedEntry (client s) (str_join " " set) = (l, c) →
  ∃ owner', owned owner' {| client := c; held := <[t := (set, l)]> (held s); exchanges := exchanges s |}.
Proof.
  intros [Hkey Hheld Hdom Htok] Hset. unfold scopedEntry.
  destruct (default ∅ (scoped (client s)) !! str_join " " set) as [l0|] eqn:Hk.
  - intros [= <- <-]. exists owner. destruct (Hkey _ _ Hk) as (set0 & Ho & Hset0 & Hj).
    apply scope_key_inj in Hj as <-; [|done..].
    destruct (proj1 (Hdom l0) (mk_is_Some _ _ Ho)) as [e0 He0]. rewrite He0.
    split; cbn [client held exchanges scoped entries]; [done| | |].
    + intros t1 set1 l1. rewrite lookup_insert_Some. intros [[_ [= <- <-]]|[_ ?]]; [done|eauto].
    + intros l1. rewrite lookup_insert_is_Some, Hdom. destruct (decide (l0 = l1)) as [->|]; [|tauto].
      rewrite He0. naive_solver.
    + intros l1 e1 set1. rewrite lookup_insert_Some. intros [[<- <-]|[_ He1]]; [|by apply Htok].
      simpl. by apply Htok.
  - cbv zeta. match goal with |- context [<[str_join " " set := _]> ?x] => set (m := x) end.
    assert (m ⊆ default ∅ (scoped (client s))) as Hm
      by (unfold m; destruct (_ <=? _)%nat; [apply delete_subseteq|done]).
    clearbody m. set (l0 := fresh (dom (entries (client s)))). intros [= <- <-].
    assert (entries (client s) !! l0 = None) as Hfresh.
    { apply not_elem_of_dom, (is_fresh (dom (entries (client s)))). }
    assert (owner !! l0 = None) as Hno by (apply eq_None_not_Some; rewrite Hdom, Hfresh; by intros []).
    exists (<[l0 := set]> owner). split; cbn [client held exchanges scoped entries default from_option]; unfold id.
    + intros k1 l1. rewrite lookup_insert_Some. intros [[<- <-]|[_ H1]].
      * exists set. by rewrite lookup_insert_eq.
      * destruct (Hkey k1 l1) as (set1 & Ho & ?); [by eapply lookup_weaken|].
        exists set1. rewrite lookup_insert_ne by congruence. done.
    + intros t1 set1 l1. rewrite lookup_insert_Some. intros [[_ [= <- <-]]|[_ H1]]; [by rewrite lookup_insert_eq|].
      apply Hheld in H1 as [??]. rewrite lookup_insert_ne by congruence. done.
    + intros l1. rewrite !lookup_insert_is_Some. specialize (Hdom l1). tauto.
    + intros l1 e1 set1. rewrite lookup_insert_Some. intros [[<- <-]|[Hne He1]]; [done|].
      rewrite lookup_insert_ne by done. by apply Htok.
Qed.

Lemma scope_set_param set : scope_set set → scope_param (str_join " " set) = Some (str_join " " set).
Proof.
  intros [Hne Hv]. unfold scope_param. destruct (String.eqb_spec (str_join " " set) "") as [He|]; [|done].
  destruct set as [|[|b w] l]; [done|by apply Forall_inv in Hv|].
  destruct l; unfold str_join in He; simpl in He; rewrite ?append_cons in He; done.
Qed.

(** The second section, for the caller that holds the entry of [set]. *)
Lemma useEntry_owned owner s t set l now sent ask :
  owned owner s → held s !! t = Some (set, l) →
  owned owner (run_section s (SUse t now sent ask)) ∧
  ∀ tok exp xs, use_result s t now sent ask = Some (Ok (tok, exp), xs) →
    tok ≠ "" ∧ ((∃ x, xs = [x] ∧ x_answer x = ask (x_scope x) ∧ x_sent x = sent ∧ grants set x tok exp) ∨
                xs = [] ∧ now + 30 * Second < exp ∧ ∃ x, x ∈ exchanges s ∧ grants set x tok exp).
Proof.
  intros [Hkey Hheld Hdom Htok] Ht. unfold use_result. cbn [run_section]. rewrite Ht.
  destruct (Hheld _ _ _ Ht) as [Ho Hset]. destruct (proj1 (Hdom l) (mk_is_Some _ _ Ho)) as [e He].
  assert (∀ ex, exchanges s ⊆ ex →
    owned owner {| client := client s; held := delete t (held s); exchanges := ex |}) as Hsame.
  { intros ex Hex. split; cbn [client held exchanges]; [done| |done|].
    - intros t1 set1 l1 [_ H1]%lookup_delete_Some. by eapply Hheld.
    - intros l1 e1 set1 He1 Ho1 Ht1. destruct (Htok l1 e1 set1 He1 Ho1 Ht1) as (x0 & ? & ?).
      exists x0. split; [|done]. by apply Hex. }
  unfold useEntry. rewrite He. destruct (live e now) eqn:Hlive.
  { split; [by apply Hsame|]. intros tok exp xs [= <- <- <-]. apply andb_true_iff in Hlive as [Hne Hb].
    destruct (String.eqb_spec (token e) "") as [|Hne']; [done|]. split; [done|]. right.
    unfold time_Before, time_Add in Hb. apply Z.ltb_lt in Hb. split; [done|]. split; [done|]. by apply (Htok l). }
  rewrite (scope_set_param set Hset). cbv zeta. cbn [x_answer].
  set (x := {| x_scope := _; x_sent := _; x_answer := _ |}).
  assert (owned owner {| client := client s; held := delete t (held s); exchanges := [x] ++ exchanges s |})
    as Hasked by (apply Hsame; set_solver).
  destruct exchangeClientCredentials as [[tr exp]|err] eqn:Hx; [|done].
  destruct check_granted eqn:Hg; [done|].
  assert (grants set x (tr_AccessToken tr) exp) as Hgr by (split; [done|]; exists tr; done).
  split.
  - destruct Hasked as [Hkey' Hheld' Hdom' Htok']. cbn [client held exchanges] in *.
    split; cbn [client held exchanges scoped entries]; [done|done| |].
    + intros l1. rewrite lookup_insert_is_Some, Hdom'. destruct (decide (l = l1)) as [->|]; [|tauto].
      rewrite He. naive_solver.
    + intros l1 e1 set1. rewrite lookup_insert_Some. intros [[<- <-]|[_ He1]] Ho1; [|by apply (Htok' l1)].
      assert (set1 = set) as -> by congruence. intros _. exists x.
      split; [apply elem_of_cons; by left|done].
  - intros tok exp' xs [= <- <- <-]. split; [|left; by exists x]. by destruct (exchange_Ok _ _ _ _ _ Hx).
Qed.

Lemma run_sections_owned secret ks : ∃ owner, owned owner (fold_left run_section ks (start secret)).
Proof.
  induction ks as [|k ks [owner IH]] using rev_ind.
  { exists ∅. split; simpl; try done. intros l. by rewrite !lookup_empty. }
  rewrite fold_left_app. cbn [fold_left]. set (s := fold_left run_section ks (start secret)) in *.
  destruct k as [t scopes|t now sent ask|now sent a| |].
  - cbn [run_section]. destruct (normaliseScopes scopes) as [set|] eqn:Hset; [|eauto].
    destruct (String.eqb (clientSecret (client s)) ""); [eauto|].
    destruct (scopedEntry (client s) (str_join " " set)) as [l c] eqn:Hs.
    by eapply scopedEntry_owned; [done|eapply normalised_set|].
  - destruct (held s !! t) as [[set l]|] eqn:Ht.
    + exists owner. by eapply useEntry_owned.
    + exists owner. cbn [run_section]. by rewrite Ht.
  - exists owner. destruct IH as [Hkey Hheld Hdom Htok]. cbn [run_section].
    destruct (ServiceToken_caches (client s) now sent a) as [Hs He].
    split; cbn [client held exchanges]; by rewrite ?Hs, ?He.
  - exists owner. by destruct IH.
  - exists owner. destruct IH as [Hkey Hheld Hdom Htok]. by split.
Qed.

(** The caller of a section, where it is one of a call of [ServiceTokenWithScopes]. *)
Definition section_of (k : section) : option nat :=
  match k with SEntry t _ | SUse t _ _ _ => Some t | _ => None end.

Lemma run_section_secret s k : clientSecret (client (run_section s k)) = clientSecret (client s).
Proof.
  destruct k as [t scopes|t now sent ask|now sent a| |]; cbn [run_section]; try done.
  - destruct (normaliseScopes scopes); [|done]. destruct (String.eqb _ _); [done|].
    unfold scopedEntry. by destruct (default ∅ _ !! _).
  - destruct (held s !! t) as [[set l]|]; [|done]. unfold useEntry.
    destruct (entries _ !! l) as [e|]; [|done]. destruct (live e now); [done|].
    destruct exchangeClientCredentials as [[tr exp]|]; [|done]. by destruct check_granted.
  - simpl. unfold ServiceToken. destruct (_ && _); [done|]. destruct (String.eqb _ _); [done|].
    by destruct exchangeClientCredentials as [[tr exp]|].
Qed.

Lemma run_sections_secret secret ks : clientSecret (client (fold_left run_section ks (start secret))) = secret.
Proof.
  induction ks as [|k ks IH] using rev_ind; [done|].
  rewrite fold_left_app. cbn [fold_left]. by rewrite run_section_secret.
Qed.

Lemma run_section_other s k t : section_of k ≠ Some t → held (run_section s k) !! t = held s !! t.
Proof.
  destruct k as [t' scopes|t' now sent ask|now sent a| |]; cbn [run_section section_of]; try done; intros Hne.
  - destruct (normaliseScopes scopes); [|done]. destruct (String.eqb _ _); [done|].
    destruct scopedEntry. simpl. apply lookup_insert_ne. congruence.
  - destruct (held s !! t') as [[set l]|]; [|done]. destruct useEntry as [[r c] xs].
    simpl. apply lookup_delete_ne. congruence.
Qed.

Lemma run_sections_other s ks t :
  Forall (λ k, section_of k ≠ Some t) ks → held (fold_left run_section ks s) !! t = held s !! t.
Proof.
  intros Hks. revert s. induction Hks as [|k ks Hk _ IH]; intros s; simpl; [done|].
  rewrite IH. by apply run_section_other.
Qed.

(** C17: a scoped service token is handed out only for the scopes it was granted
    for. Take a client with a secret, and a call of ServiceTokenWithScopes with
    scope tokens [scopes], [set] being their sorted list without duplicates:
    whatever locked sections of other callers, evictions and invalidations ran
    before and run between its two sections, the token it gets is not empty,
    and either this call made one exchange, at its time and answered by the
    token endpoint, or it made none, the token has more than 30 seconds to live,
    and an earlier call made the exchange. In both cases the request of that
    exchange carried the members of [set], separated by spaces, as its scope
    parameter, and its answer held the token with its expiry and did not say
    that a member of [set] is missing (an answer without a scope field says
    nothing). *)
Theorem scoped_token_was_granted (secret : string) (before between : list section) (t : nat)
    (scopes set : list string) (now sent : Time) (ask : option string → http_answer)
    (tok : string) (exp : Time) (xs : list exchange) :
  let s := fold_left run_section (before ++ SEntry t scopes :: between) (start secret) in
  secret ≠ "" → normaliseScopes scopes = Ok set → Forall (λ k, section_of k ≠ Some t) between →
  use_result s t now sent ask = Some (Ok (tok, exp), xs) →
  tok ≠ "" ∧
  ((∃ x, xs = [x] ∧ x_answer x = ask (x_scope x) ∧ x_sent x = sent ∧ grants set x tok exp) ∨
   xs = [] ∧ now + 30 * Second < exp ∧ ∃ x, x ∈ exchanges s ∧ grants set x tok exp).
Proof.
  intros s Hsec Hset Hother Hu.
  destruct (run_sections_owned secret (before ++ SEntry t scopes :: between)) as [owner Hown]. fold s in Hown.
  assert (∃ l, held s !! t = Some (set, l)) as [l Ht].
  { unfold s. rewrite fold_left_app. cbn [fold_left]. rewrite run_sections_other by done.
    cbn [run_section]. rewrite Hset, run_sections_secret, (proj2 (String.eqb_neq _ _) Hsec).
    destruct scopedEntry as [l c]. exists l. apply lookup_insert_eq. }
  by apply (useEntry_owned owner s t set l now sent ask Hown Ht).
Qed.

(** * Requests on a user's behalf (attribution.go, helpers.go) *)

(** [net.ParseIP(s).String()]: the canonical text of an address. *)
Class IPLib := { canonical_ip : string → option string }.

(** [socrate/attribution.go: maxAttributedUserAgentBytes] *)
Definition maxAttributedUserAgentBytes : Z := 512.

(** [socrate/attribution.go: WithClientAttribution] *)
Definition WithClientAttribution (ctx : ctxutil.context) (a : ClientAttribution) : ctxutil.context :=
  ctxutil.WithValue ctx ctxutil.clientAttributionKey (ctxutil.VAttribution a).

(** [socrate/attribution.go: ClientAttributionFrom] *)
Definition ClientAttributionFrom (ctx : ctxutil.context) : option ClientAttribution :=
  match ctxutil.Value ctx ctxutil.clientAttributionKey with
  | Some (ctxutil.VAttribution a) => Some a
  | _ => None
  end.

(** [strings.ToValidUTF8(s, "")]. *)
Definition drop_invalid (s : string) : string := unrunes (filter (λ r, rune_valid r = true) (runes s)).

(** [socrate/attribution.go:97-105] the loop of sanitizeUserAgent *)
Fixpoint ua_loop (l : list rune) (b : string) : string :=
  match l with
  | [] => b
  | r :: l' =>
      if is_control (r_val r) then ua_loop l' b
      else if maxAttributedUserAgentBytes <? slen b + slen (r_raw r) then b
      else ua_loop l' (b +:+ r_raw r)
  end.

(** [socrate/attribution.go: sanitizeUserAgent] *)
Definition sanitizeUserAgent (ua : string) : string := trim_space (ua_loop (runes (drop_invalid ua)) "").

(** [socrate/attribution.go: ApplyClientAttribution]
    The headers of a request whose context is [ctx]. *)
Definition ApplyClientAttribution `{IPLib} (ctx : ctxutil.context) (h : Header) : Header :=
  match ClientAttributionFrom ctx with
  | None => h
  | Some a =>
      let h := match canonical_ip (trim_space (ca_IP a)) with
               | Some ip => header_Del (header_Set h "X-Forwarded-For" ip) "X-Real-IP"
               | None => h
               end in
      let ua := sanitizeUserAgent (ca_UserAgent a) in
      if negb (String.eqb ua "") then header_Set h "User-Agent" ua else h
  end.

(** [socrate/helpers.go: correlationIDHeader] *)
Definition correlationIDHeader : string := "X-Correlation-ID".
(** [socrate/helpers.go: maxCorrelationIDLength] *)
Definition maxCorrelationIDLength : Z := 128.

(** [socrate/helpers.go: setCorrelationID] *)
Definition setCorrelationID (ctx : ctxutil.context) (h : Header) : Header :=
  let id := ctxutil.GetRequestID ctx in
  if String.eqb id "" || (maxCorrelationIDLength <? slen id) then h
  else if all_bytes (λ b, (33 <=? b) && (b <=? 126)) id then header_Set h correlationIDHeader id else h.

(** [socrate/helpers.go: statusIn] *)
Definition statusIn (code : Z) (allowed : list Z) : bool :=
  match allowed with [] => code =? 200 | _ => contains allowed code end.

(** [socrate/helpers.go: decodeJSON]
    [decode] unmarshals the body; [None] discards it. *)
Definition decodeJSON {A} (a : http_answer) (label : string) (zero : A) (decode : option (string → option A))
    (okCodes : list Z) : result goerr A :=
  match readBody a with
  | None => Err (EWrap ("read " +:+ label +:+ " response") (EMsg "read"))
  | Some b =>
      if negb (statusIn (status_of a) okCodes) then
        Err (EMsg (label +:+ " HTTP " +:+ itoa (status_of a) +:+ ": " +:+ b))
      else match decode with
           | None => Ok zero
           | Some dec => match dec b with
                         | Some x => Ok x
                         | None => Err (EWrap ("decode " +:+ label) (EMsg "json"))
                         end
           end
  end.

(** ** Policy decisions (policy.go) *)

Definition zero_Decision : policy.Decision :=
  {| policy.Allow := false; policy.Rule := ""; policy.Reason := ""; policy.Obligations := [];
     policy.PolicyVersion := 0; policy.Mode := ""; policy.PEPModeAccepted := false |}.

Definition decode_Decision (b : string) : option policy.Decision :=
  unmarshal_struct (λ l,
    allow ← decode_field decode_bool false "allow" l;
    rule ← decode_field decode_string "" "rule" l;
    reason ← decode_field decode_string "" "reason" l;
    obl ← decode_field decode_strings None "obligations" l;
    version ← decode_field decode_int 0 "policy_version" l;
    mode ← decode_field decode_string "" "mode" l;
    accepted ← decode_field decode_bool false "pep_mode_accepted" l;
    Some {| policy.Allow := allow; policy.Rule := rule; policy.Reason := reason;
            policy.Obligations := default [] obl; policy.PolicyVersion := version; policy.Mode := mode;
            policy.PEPModeAccepted := accepted |}) zero_Decision b.

(** [_ = json.Unmarshal(b, &d)]: what could be decoded, type errors skipped. *)
Definition decode_Decision_lenient (b : string) : policy.Decision :=
  unmarshal_struct_lenient (λ l,
    {| policy.Allow := decode_field_lenient decode_bool false "allow" l;
       policy.Rule := decode_field_lenient decode_string "" "rule" l;
       policy.Reason := decode_field_lenient decode_string "" "reason" l;
       policy.Obligations := default [] (decode_field_lenient decode_strings_lenient None "obligations" l);
       policy.PolicyVersion := decode_field_lenient decode_int 0 "policy_version" l;
       policy.Mode := decode_field_lenient decode_string "" "mode" l;
       policy.PEPModeAccepted := decode_field_lenient decode_bool false "pep_mode_accepted" l |})
    zero_Decision b.

(** [socrate/policy.go:128-153] what Decide makes of the answer *)
Definition read_decision (a : http_answer) : option policy.Decision * option goerr :=
  match a with
  | TransportError => (None, Some (EWrap "decide" (EMsg "transport")))
  | _ =>
      match readBody a with
      | None => (None, Some (EMsg "read"))
      | Some b =>
          let st := status_of a in
          if st =? 200 then
            match decode_Decision b with
            | None => (None, Some (EWrap "decode decision" (EMsg "json")))
            | Some d => (Some d, None)
            end
          else if st =? 503 then
            (Some (decode_Decision_lenient b), Some (ESentinel policy.ErrPolicyUnavailable))
          else if st =? 400 then
            (None, Some (EWrap "decide HTTP 400" (ESentinel policy.ErrPolicyRequestRejected)))
          else (None, Some (EMsg ("decide HTTP " +:+ itoa st +:+ ": " +:+ b)))
      end
  end.

(** ** Properties *)

Definition safe_byte (b : Z) : Prop := 32 ≤ b ∧ b ≠ 127.

Lemma ua_loop_safe s l b :
  (∀ r, r ∈ l → r ∈ runes s) → slen b ≤ maxAttributedUserAgentBytes → Forall safe_byte (bytes b) →
  slen (ua_loop l b) ≤ maxAttributedUserAgentBytes ∧ Forall safe_byte (bytes (ua_loop l b)).
Proof.
  revert b. induction l as [|r l IH]; intros b Hl Hb Hs; simpl; [done|].
  destruct (is_control (r_val r)) eqn:Hc; [apply IH; [set_solver|done..]|].
  destruct (_ <? _) eqn:Hlen; [done|]. bool_to_prop. apply IH; [set_solver|by rewrite slen_app|].
  rewrite bytes_app. apply Forall_app. split; [done|].
  assert (r ∈ runes s) as Hr by set_solver.
  pose proof (proj1 (Forall_forall _ _) (runes_raw s r Hr)) as Hraw.
  pose proof (proj1 (Forall_forall _ _) (bytes_range (r_raw r))) as Hrange.
  apply Forall_forall. intros x Hx. specialize (Hraw x Hx). specialize (Hrange x Hx).
  simpl in Hraw, Hrange. unfold is_control in Hc. unfold safe_byte.
  destruct Hraw as [?| ->]; [lia|].
  destruct (Z.leb_spec 0 (r_val r)); destruct (Z.ltb_spec (r_val r) 32); destruct (Z.leb_spec 127 (r_val r));
    destruct (Z.ltb_spec (r_val r) 160); simpl in *; try done; lia.
Qed.

Lemma trim_space_bytes (P : Z → Prop) s : Forall P (bytes s) → Forall P (bytes (trim_space s)).
Proof.
  intros Hs. destruct (trim_runes_split (runes s)) as (k & k' & Hk). unfold trim_space.
  rewrite <- (unrunes_runes s), Hk, !unrunes_app, !bytes_app, !Forall_app in Hs. naive_solver.
Qed.

(** What is sent to the identity provider on a browser's behalf cannot be
    used against it: the user agent is at most 512 bytes without any control
    byte; when the caller resolved an address, X-Forwarded-For is exactly that
    one address and X-Real-IP is gone, whatever the request carried before;
    without attribution the request is untouched. *)
Theorem attribution_is_safe `{IPLib} (ctx : ctxutil.context) (h : Header) (a : ClientAttribution) :
  (ClientAttributionFrom ctx = None → ApplyClientAttribution ctx h = h) ∧
  (ClientAttributionFrom ctx = Some a →
   let h' := ApplyClientAttribution ctx h in
   let ua := sanitizeUserAgent (ca_UserAgent a) in
   (∀ ip, canonical_ip (trim_space (ca_IP a)) = Some ip →
      h' !! "X-Forwarded-For" = Some [ip] ∧ h' !! "X-Real-Ip" = None) ∧
   (canonical_ip (trim_space (ca_IP a)) = None → h' !! "X-Forwarded-For" = h !! "X-Forwarded-For") ∧
   (ua ≠ "" → h' !! "User-Agent" = Some [ua]) ∧
   slen ua ≤ 512 ∧ Forall (λ b, 32 ≤ b ∧ b ≠ 127) (bytes ua)).
Proof.
  unfold ApplyClientAttribution. split; [by intros ->|]. intros ->. simpl.
  change (canonical_key "X-Forwarded-For") with "X-Forwarded-For".
  assert (slen (sanitizeUserAgent (ca_UserAgent a)) ≤ 512 ∧
          Forall safe_byte (bytes (sanitizeUserAgent (ca_UserAgent a)))) as [Hlen Hsafe].
  { destruct (ua_loop_safe (drop_invalid (ca_UserAgent a)) (runes (drop_invalid (ca_UserAgent a))) "")
      as [H1 H2]; [done|done|constructor|].
    split; [|by apply trim_space_bytes]. unfold sanitizeUserAgent.
    etrans; [apply trim_space_length|exact H1]. }
  unfold header_Set, header_Del.
  change (canonical_key "X-Forwarded-For") with "X-Forwarded-For".
  change (canonical_key "X-Real-IP") with "X-Real-Ip". change (canonical_key "User-Agent") with "User-Agent".
  split_and!; [| | |done|done].
  - intros ip ->. destruct (negb _); [rewrite !(lookup_insert_ne _ "User-Agent") by done|];
      by rewrite lookup_delete_ne, lookup_insert_eq, lookup_delete_eq.
  - intros ->. destruct (negb _); [by rewrite lookup_insert_ne|done].
  - intros Hua. rewrite (proj2 (String.eqb_neq _ _) Hua). simpl. by rewrite lookup_insert_eq.
Qed.

(** The enforcement point and the client agree on outages: an answer 503
    still carries the server's mode when the body has one, a rejected request is
    recognised as such, and no answer other than 200 yields a decision without
    an error. *)
Theorem decision_answers (a : http_answer) :
  (∀ d, read_decision a = (Some d, None) → status_of a = 200) ∧
  (∀ d err, read_decision a = (d, Some err) →
     errors_Is err policy.ErrPolicyRequestRejected = true ↔ ∃ b, a = Answer 400 b ∧ slen b ≤ maxResponseBytes) ∧
  (∀ b, a = Answer 503 b → slen b ≤ maxResponseBytes →
     read_decision a = (Some (decode_Decision_lenient b), Some (ESentinel policy.ErrPolicyUnavailable))).
Proof.
  split_and!.
  - intros d. unfold read_decision. destruct a as [|s|s b]; [done|done|].
    destruct (readBody _) as [body|]; [|done]. simpl.
    destruct (Z.eqb_spec s 200); [done|]. destruct (s =? 503); [done|]. by destruct (s =? 400).
  - intros d err. unfold read_decision. destruct a as [|s|s b]; [naive_solver|naive_solver|].
    simpl readBody. destruct (maxResponseBytes <? slen b) eqn:Hb; bool_to_prop.
    + intros [= <- <-]. simpl. split; [done|]. intros (b' & [= -> ->] & ?). lia.
    + simpl. destruct (Z.eqb_spec s 200) as [->|].
      { destruct decode_Decision; [done|]. intros [= <- <-]. simpl. split; [done|]. naive_solver. }
      destruct (Z.eqb_spec s 503) as [->|].
      { intros [= <- <-]. simpl. split; [done|]. naive_solver. }
      destruct (Z.eqb_spec s 400) as [->|]; intros [= <- <-]; simpl; split; try done; naive_solver.
  - intros b -> Hb. unfold read_decision. simpl readBody.
    by rewrite (proj2 (Z.ltb_ge _ _)) by lia.
Qed.

(** ** Witnesses *)

Definition sample_answer : http_answer :=
  Answer 200 (json_encode (JObj [("access_token", JStr "t1"); ("expires_in", JNum "3600"); ("scope", JStr "a b")])).

(** Two callers name the same scopes in different orders; the second is served
    from the cache while the server cannot be reached. *)
Definition sample_ask (scope : option string) : http_answer :=
  if decide (scope = Some "a b") then sample_answer else TransportError.

Definition sample_between : list section := [SUse 1 1000 1000 sample_ask].

Lemma scoped_token_was_granted_witness :
  let s := fold_left run_section ([SEntry 1 ["b"; "a"]] ++ SEntry 2 ["a"; "b"; "a"] :: sample_between) (start "s3cret") in
  use_result s 2 (10 * Minute) (10 * Minute) (λ _, TransportError) = Some (Ok ("t1", 1000 + 3600 * Second), []) ∧
  ∃ x, x ∈ exchanges s ∧ grants ["a"; "b"] x "t1" (1000 + 3600 * Second).
Proof.
  intros s. assert (use_result s 2 (10 * Minute) (10 * Minute) (λ _, TransportError) =
                    Some (Ok ("t1", 1000 + 3600 * Second), [])) as Hu by (vm_compute; reflexivity).
  split; [exact Hu|].
  destruct (scoped_token_was_granted "s3cret" [SEntry 1 ["b"; "a"]] sample_between 2 ["a"; "b"; "a"] ["a"; "b"]
             (10 * Minute) (10 * Minute) (λ _, TransportError) "t1" (1000 + 3600 * Second) []
             ltac:(discriminate) ltac:(vm_compute; reflexivity) ltac:(by repeat constructor) Hu)
    as [_ [(x & Hx & _)|(_ & _ & Hx)]]; [discriminate Hx|exact Hx].
Defined.

Lemma tokenExpiry_spec_witness :
  let tr := {| tr_AccessToken := "opaque"; tr_ExpiresIn := 3600; tr_TokenType := "Bearer"; tr_Scope := None |} in
  tokenExpiry tr (5 * Second) = 5 * Second + 3600 * Second.
Proof.
  intros tr. refine (proj2 (proj2 (tokenExpiry_spec tr (5 * Second) _ _) _)); [done|vm_compute; split; congruence|].
  intros exp Hexp. assert (exp_claim (tr_AccessToken tr) = None) as Hn by reflexivity. congruence.
Defined.

#[local] Instance sample_ip : IPLib := {| canonical_ip s := if String.eqb s "192.0.2.7" then Some s else None |}.

Lemma attribution_is_safe_witness :
  let ctx := WithClientAttribution ctxutil.Background {| ca_IP := " 192.0.2.7 "; ca_UserAgent := "curl" |} in
  ApplyClientAttribution ctx {["X-Forwarded-For" := ["203.0.113.9"]; "X-Real-Ip" := ["x"]]}
    !! "X-Forwarded-For" = Some ["192.0.2.7"].
Proof.
  intros ctx. set (a := {| ca_IP := " 192.0.2.7 "; ca_UserAgent := "curl" |}).
  refine (proj1 (proj1 (proj2 (attribution_is_safe ctx _ a) _) "192.0.2.7" _)); reflexivity.
Defined.

Lemma service_token_is_live_witness :
  let c := InvalidateServiceToken (new_client "s3cret") in
  clientSecret (new_client "s3cret") ≠ "".
Proof.
  intros c. refine (proj2 (proj2 (service_token_is_live (new_client "s3cret") 0 0 sample_answer) "t1" (3600 * Second) _ _)).
  vm_compute. reflexivity.
Defined.

Lemma decision_answers_witness : status_of (Answer 200 "{}") = 200.
Proof. apply (proj1 (decision_answers (Answer 200 "{}")) zero_Decision). vm_compute. reflexivity. Defined.

End service.
