(* ===== verification/SocrateHttp.v ===== *)
(** The requests of the Socrate client (src/socrate/client.go, bff.go): the
    client's state, the low-level senders with the credential each of them
    attaches, the resolution of the application id and the service token as
    operations that send requests, in a state and error monad over the client,
    the requests sent so far and the response bodies still open. *)

From S2P Require Import Prelude GoText GoUrl GoJson CtxUtil Http BffMisc SocrateToken Pep SocrateService.

(** A request as it is handed to the HTTP client. *)
Record HttpRequest := { hr_Method : string; hr_URL : string; hr_Header : Header; hr_Body : string }.

(** A parsed URL: its host and port, and the rest. *)
Record URL := { u_Scheme : string; u_Host : string; u_Tail : string }.

(** [url.Parse] and [URL.String]. *)
Class UrlLib := { url_Parse : string → option URL; url_String : URL → string }.

(** The network and the clock: what is answered may depend on everything sent
    before; a clock reading is numbered. *)
Class Network := { serve : list HttpRequest → HttpRequest → socrate.http_answer; clock : nat → Time }.

Module client.
Import socrate.

(** * Construction *)

(** [socrate/client.go: Client]
    [tokens] holds the secret and the token caches. *)
Record Client := {
  baseURL : string;
  adminBaseURL : string;
  clientID : string;
  resolvedAppID : string;
  httpTimeout : Duration;
  tokens : service.Client;
}.

Definition clientSecret (c : Client) : string := service.clientSecret (tokens c).

(** [socrate/client.go: ClientConfig] *)
Record ClientConfig := {
  cfg_BaseURL : string;
  cfg_AdminBaseURL : string;
  cfg_ClientID : string;
  cfg_ClientSecret : string;
  cfg_AppID : string;
  cfg_Timeout : Duration;
}.

Definition all_digits (s : string) : bool := all_bytes (λ b, (48 <=? b) && (b <=? 57)) s.

(** [URL.Hostname]: the host without a port, and without the brackets of an
    IPv6 address. *)
Definition url_Hostname (u : URL) : string :=
  let host := u_Host u in
  let host := match last_index_byte ":" host with
              | Some i => if all_digits (String.substring (i + 1) (String.length host - i - 1) host)
                          then String.substring 0 i host else host
              | None => host
              end in
  let n := String.length host in
  match host with
  | String c _ =>
      if Ascii.eqb c "[" && match last_index_byte "]" host with Some i => (i =? n - 1)%nat | None => false end
      then String.substring 1 (n - 2) host else host
  | EmptyString => host
  end.

(** [socrate/client.go: NewClient] *)
Definition NewClient `{UrlLib} (cfg : ClientConfig) : result goerr Client :=
  if String.eqb (cfg_BaseURL cfg) "" then Err (EMsg "socrate: base URL is required")
  else if String.eqb (cfg_ClientID cfg) "" then Err (EMsg "socrate: client ID is required")
  else
    let timeout := if cfg_Timeout cfg =? 0 then 30 * Second else cfg_Timeout cfg in
    let admin :=
      if String.eqb (cfg_AdminBaseURL cfg) "" then
        match url_Parse (cfg_BaseURL cfg) with
        | Some u => url_String {| u_Scheme := u_Scheme u; u_Host := url_Hostname u +:+ ":8081"; u_Tail := u_Tail u |}
        | None => cfg_BaseURL cfg
        end
      else cfg_AdminBaseURL cfg in
    Ok {| baseURL := cfg_BaseURL cfg; adminBaseURL := admin; clientID := cfg_ClientID cfg;
          resolvedAppID := cfg_AppID cfg; httpTimeout := timeout;
          tokens := {| service.clientSecret := cfg_ClientSecret cfg; service.svcToken := "";
                       service.svcTokenExpiry := 0; service.scoped := None; service.entries := ∅;
                       service.scopedTick := 0 |} |}.

(** [socrate/client.go: WithJWT] *)
Definition WithJWT (ctx : ctxutil.context) (jwt : string) : ctxutil.context := ctxutil.WithRawJWT ctx jwt.

(** * The monad *)

(** The client, the requests sent, the number of response bodies not yet
    closed, and the number of clock readings. *)
Record St := { cl : Client; sent : list HttpRequest; opened : Z; ticks : nat }.

Definition M (A : Type) : Type := St → result goerr A * St.

#[global] Instance M_ret : MRet M := λ A x st, (Ok x, st).
#[global] Instance M_bind : MBind M := λ A B f m st,
  match m st with
  | (Ok x, st') => f x st'
  | (Err e, st') => (Err e, st')
  end.

Definition fail {A} (e : goerr) : M A := λ st, (Err e, st).

(** [fmt.Errorf("label: %w", err)]. *)
Definition wrap {A} (label : string) (m : M A) : M A := λ st,
  match m st with
  | (Err e, st') => (Err (EWrap label e), st')
  | ok => ok
  end.

(** An action given by its effect. *)
Definition act {A} (f : St → result goerr A * St) : M A := f.

Definition self : M Client := λ st, (Ok (cl st), st).
Definition set_client (c : Client) : M unit := λ st,
  (Ok tt, {| cl := c; sent := sent st; opened := opened st; ticks := ticks st |}).

(** Close a response body. *)
Definition closed (st : St) : St :=
  {| cl := cl st; sent := sent st; opened := opened st - 1; ticks := ticks st |}.

Section senders.
Context `{UrlLib, Network, service.IPLib}.

Definition time_Now : M Time := λ st,
  (Ok (clock (ticks st)), {| cl := cl st; sent := sent st; opened := opened st; ticks := S (ticks st) |}).

(** [http.NewRequestWithContext]: fails on a URL that does not parse. *)
Definition NewRequest (method url body : string) : M HttpRequest :=
  match url_Parse url with
  | Some _ => mret {| hr_Method := method; hr_URL := url; hr_Header := ∅; hr_Body := body |}
  | None => fail (EMsg "invalid URL")
  end.

Definition with_headers (h : Header) (r : HttpRequest) : HttpRequest :=
  {| hr_Method := hr_Method r; hr_URL := hr_URL r; hr_Header := h; hr_Body := hr_Body r |}.

(** [httpClient.Do]: a response comes with an open body. *)
Definition Do (r : HttpRequest) : M http_answer := λ st,
  let st' := {| cl := cl st; sent := sent st ++ [r]; opened := opened st; ticks := ticks st |} in
  match serve (sent st) r with
  | TransportError => (Err (EMsg "transport"), st')
  | a => (Ok a, {| cl := cl st'; sent := sent st'; opened := opened st + 1; ticks := ticks st' |})
  end.

(** [socrate/client.go: readBody]
    The body is closed whatever happens. *)
Definition read_body (resp : http_answer) : M string := λ st,
  (match readBody resp with Some b => Ok b | None => Err (EMsg "read") end, closed st).

(** [json.Unmarshal(b, &out)], an error wrapped with [label]. *)
Definition unmarshal_as {A} (label : string) (dec : A → json → option A) (zero : A) (b : string) : M A :=
  match unmarshal dec zero b with
  | Some x => mret x
  | None => fail (EWrap label (EMsg "json"))
  end.

(** [fmt.Errorf("label HTTP %d: %s", resp.StatusCode, b)]. *)
Definition http_fail {A} (label : string) (resp : http_answer) (b : string) : M A :=
  fail (EMsg (label +:+ " HTTP " +:+ itoa (status_of resp) +:+ ": " +:+ b)).

(** [socrate/helpers.go: decodeJSON]
    Into a value of type [A]. *)
Definition decode_json {A} (resp : http_answer) (label : string) (dec : A → json → option A) (zero : A)
    (okCodes : list Z) : M A := λ st,
  (service.decodeJSON resp label zero (Some (unmarshal dec zero)) okCodes, closed st).

(** The same call with a nil destination. *)
Definition decode_nothing (resp : http_answer) (label : string) (okCodes : list Z) : M unit := λ st,
  (service.decodeJSON resp label tt None okCodes, closed st).

(** * Senders *)

(** A JSON request body: none, or a value to marshal, [None] when it cannot be
    marshalled. *)
Inductive body := NoBody | Json (v : option json).

Definition marshal (b : body) : M string :=
  match b with
  | NoBody => mret ""
  | Json (Some v) => mret (json_encode v)
  | Json None => fail (EMsg "json: unsupported value")
  end.

(** [socrate/client.go: Client.doHTTP] *)
Definition doHTTP (ctx : ctxutil.context) (token method fullURL : string) (b : body) : M http_answer :=
  text ← wrap "marshal request body" (marshal b);
  req ← wrap "create request" (NewRequest method fullURL text);
  let h := header_Set (hr_Header req) "Authorization" ("Bearer " +:+ token) in
  let h := header_Set h "Content-Type" "application/json" in
  Do (with_headers (service.setCorrelationID ctx h) req).

(** [socrate/client.go: Client.oauthURL] *)
Definition oauthURL (path : string) : M string := c ← self; mret (baseURL c +:+ path).
(** [socrate/client.go: Client.adminURL] *)
Definition adminURL (path : string) : M string := c ← self; mret (adminBaseURL c +:+ path).

Definition no_jwt : goerr := EMsg "socrate: no JWT in context".

(** [socrate/client.go: Client.doWithJWT] *)
Definition doWithJWT (ctx : ctxutil.context) (method fullURL : string) (b : body) : M http_answer :=
  let jwt := ctxutil.GetRawJWT ctx in
  if String.eqb jwt "" then fail no_jwt else doHTTP ctx jwt method fullURL b.

(** [socrate/client.go: Client.exchangeClientCredentials]
    The form, the request and the answer; see [service.exchangeClientCredentials]
    for what is made of the answer. *)
Definition credentials_form (c : Client) (scope : string) : Values :=
  let data := values_of [("grant_type", "client_credentials"); ("client_id", clientID c);
                         ("client_secret", clientSecret c)] in
  if negb (String.eqb scope "") then values_Set data "scope" scope else data.

(** [socrate/client.go: Client.exchangeClientCredentials] *)
Definition exchangeClientCredentials (ctx : ctxutil.context) (scope : string) (httpErr : Z → string → goerr)
  : M (service.tokenResponse * Time) :=
  c ← self;
  u ← oauthURL "/oauth/token";
  req ← wrap "build token request" (NewRequest "POST" u (values_Encode (credentials_form c scope)));
  let h := header_Set (hr_Header req) "Content-Type" "application/x-www-form-urlencoded" in
  sent_at ← time_Now;
  resp ← wrap "token exchange" (Do (with_headers (service.setCorrelationID ctx h) req));
  act (λ st, (service.exchangeClientCredentials resp sent_at httpErr, closed st)).

Definition store_tokens (t : service.Client) : M unit :=
  c ← self;
  set_client {| baseURL := baseURL c; adminBaseURL := adminBaseURL c; clientID := clientID c;
                resolvedAppID := resolvedAppID c; httpTimeout := httpTimeout c; tokens := t |}.

Definition token_error (status : Z) (b : string) : goerr :=
  EMsg ("token exchange HTTP " +:+ itoa status +:+ ": " +:+ b).

(** The cached token is there and does not expire soon; the clock is read only
    when there is a token. *)
Definition token_cached : M bool :=
  c ← self;
  if String.eqb (service.svcToken (tokens c)) "" then mret false
  else
    now ← time_Now;
    mret (time_Before (time_Add now service.serviceTokenRenewBefore) (service.svcTokenExpiry (tokens c))).

(** [socrate/client.go: Client.ServiceToken] *)
Definition ServiceToken (ctx : ctxutil.context) : M (string * Time) :=
  cached ← token_cached;
  c ← self;
  let t := tokens c in
  if cached : bool then mret (service.svcToken t, service.svcTokenExpiry t)
  else if String.eqb (clientSecret c) "" then fail service.no_secret
  else
    '(tr, expiry) ← exchangeClientCredentials ctx "" token_error;
    _ ← store_tokens {| service.clientSecret := service.clientSecret t;
                        service.svcToken := service.tr_AccessToken tr; service.svcTokenExpiry := expiry;
                        service.scoped := service.scoped t; service.entries := service.entries t;
                        service.scopedTick := service.scopedTick t |};
    mret (service.tr_AccessToken tr, expiry).

(** [socrate/client.go: Client.getServiceToken] *)
Definition getServiceToken (ctx : ctxutil.context) : M string :=
  '(tok, _) ← ServiceToken ctx; mret tok.

(** [socrate/client.go: Client.doWithServiceToken] *)
Definition doWithServiceToken (ctx : ctxutil.context) (method fullURL : string) (b : body) : M http_answer :=
  tok ← wrap "get service token" (getServiceToken ctx);
  doHTTP ctx tok method fullURL b.

(** [socrate/bff.go: Client.postForm] *)
Definition postForm (ctx : ctxutil.context) (fullURL : string) (data : Values) : M http_answer :=
  req ← wrap "build form request" (NewRequest "POST" fullURL (values_Encode data));
  let h := header_Set (hr_Header req) "Content-Type" "application/x-www-form-urlencoded" in
  let h := service.ApplyClientAttribution ctx h in
  Do (with_headers (service.setCorrelationID ctx h) req).

(** [socrate/bff.go: Client.doHTTPNoAuth] *)
Definition doHTTPNoAuth (ctx : ctxutil.context) (method fullURL : string) (b : body) : M http_answer :=
  text ← wrap "marshal request body" (marshal b);
  req ← wrap "create request" (NewRequest method fullURL text);
  let h := header_Set (hr_Header req) "Content-Type" "application/json" in
  let h := service.ApplyClientAttribution ctx h in
  Do (with_headers (service.setCorrelationID ctx h) req).

(** * The application id *)

(** [socrate/client.go: isSocrateErrorBody] *)
Definition isSocrateErrorBody (b : string) : bool :=
  match unmarshal_struct (λ l, decode_field (decode_ptr "" decode_string) None "error" l) None b with
  | Some (Some _) => true
  | _ => false
  end.

Definition decode_app (cur : Z * string) (l : list (string * json)) : option (Z * string) :=
  id ← decode_field decode_uint cur.1 "id" l;
  client ← decode_field decode_string cur.2 "client_id" l;
  Some (id, client).

Definition decode_apps (cur : option (list (Z * string))) (l : list (string * json))
  : option (option (list (Z * string))) :=
  decode_field (decode_list (decode_object decode_app) (0, "")) cur "apps" l.

Definition set_app_id (id : string) : M unit :=
  c ← self;
  set_client {| baseURL := baseURL c; adminBaseURL := adminBaseURL c; clientID := clientID c;
                resolvedAppID := id; httpTimeout := httpTimeout c; tokens := tokens c |}.

(** [socrate/client.go: Client.parseAppID] *)
Definition parseAppID (resp : http_answer) : M string :=
  b ← wrap "read apps response" (read_body resp);
  if negb (status_of resp =? 200) then http_fail "fetch apps" resp b
  else
    apps ← unmarshal_as "decode apps" (decode_object decode_apps) None b;
    c ← self;
    match list_find (λ app : Z * string, app.2 = clientID c) (default [] apps) with
    | Some (_, app) => _ ← set_app_id (itoa app.1); mret (itoa app.1)
    | None => fail (EMsg ("socrate: no app found for client_id " +:+ clientID c))
    end.

(** [socrate/client.go: Client.getAppID] *)
Definition getAppID (ctx : ctxutil.context) : M string :=
  c ← self;
  if negb (String.eqb (resolvedAppID c) "") then mret (resolvedAppID c)
  else
    u ← adminURL "/api/admin/apps";
    resp ← wrap "fetch apps" (doWithJWT ctx "GET" u NoBody);
    parseAppID resp.

(** [socrate/client.go: Client.getAppIDAsService]
    On 401 the body is neither read nor closed. *)
Definition getAppIDAsService (ctx : ctxutil.context) : M string :=
  c ← self;
  if negb (String.eqb (resolvedAppID c) "") then mret (resolvedAppID c)
  else
    u ← adminURL "/api/admin/apps";
    resp ← wrap "fetch apps" (doWithServiceToken ctx "GET" u NoBody);
    if status_of resp =? 401 then
      fail (EMsg "socrate: AppID must be set in ClientConfig for service-account calls")
    else parseAppID resp.

(** The token of an entry is there and does not expire soon. *)
Definition entry_live (e : service.scopedServiceToken) : M bool :=
  if String.eqb (service.token e) "" then mret false
  else now ← time_Now; mret (service.live e now).

Definition store_entry (l : positive) (e : service.scopedServiceToken) : M unit :=
  c ← self;
  let t := tokens c in
  store_tokens {| service.clientSecret := service.clientSecret t; service.svcToken := service.svcToken t;
                  service.svcTokenExpiry := service.svcTokenExpiry t; service.scoped := service.scoped t;
                  service.entries := <[l := e]> (service.entries t);
                  service.scopedTick := service.scopedTick t |}.

(** [socrate/service_token_scopes.go: Client.ServiceTokenWithScopes]
    Run without interruption; [SocrateService] has its two locked sections as
    steps that interleave. *)
Definition ServiceTokenWithScopes (ctx : ctxutil.context) (scopes : list string) : M (string * Time) :=
  match service.normaliseScopes scopes with
  | Err e => fail e
  | Ok set =>
      c ← self;
      if String.eqb (clientSecret c) "" then fail service.no_secret
      else
        let key := str_join " " set in
        let '(l, t) := service.scopedEntry (tokens c) key in
        _ ← store_tokens t;
        match service.entries t !! l with
        | None => fail (EMsg "no entry")
        | Some e =>
            live ← entry_live e;
            if live : bool then mret (service.token e, service.expiry e)
            else
              '(tr, expiry) ← exchangeClientCredentials ctx key service.scope_error;
              match service.check_granted set (service.tr_Scope tr) with
              | Some err => fail err
              | None =>
                  _ ← store_entry l {| service.token := service.tr_AccessToken tr; service.expiry := expiry;
                                       service.lastUsed := service.lastUsed e |};
                  mret (service.tr_AccessToken tr, expiry)
              end
        end
  end.

(** [socrate/client.go: Client.InvalidateServiceToken] *)
Definition InvalidateServiceToken : M unit :=
  c ← self; store_tokens (service.InvalidateServiceToken (tokens c)).

(** * Lemmas: what a successful step did *)

Lemma bind_Ok {A B} (m : M A) (f : A → M B) st y st' :
  (m ≫= f) st = (Ok y, st') → ∃ x st1, m st = (Ok x, st1) ∧ f x st1 = (Ok y, st').
Proof. unfold mbind, M_bind. destruct (m st) as [[x|e] st1]; [|done]. eauto. Qed.

Lemma wrap_Ok {A} label (m : M A) st x st' : wrap label m st = (Ok x, st') → m st = (Ok x, st').
Proof. unfold wrap. by destruct (m st) as [[y|e] st1]; intros [= -> ->]. Qed.

Lemma Do_Ok r st a st' :
  Do r st = (Ok a, st') → sent st' = sent st ++ [r] ∧ serve (sent st) r = a ∧ a ≠ TransportError ∧ cl st' = cl st.
Proof. unfold Do. by destruct (serve (sent st) r); intros [= <- <-]. Qed.

Lemma NewRequest_Ok method u b st r st' :
  NewRequest method u b st = (Ok r, st') →
  r = {| hr_Method := method; hr_URL := u; hr_Header := ∅; hr_Body := b |} ∧ st' = st.
Proof. unfold NewRequest. destruct (url_Parse u); [|done]. by intros [= <- <-]. Qed.

(** The last answer received. *)
Definition last_answer (st : St) (a : http_answer) : Prop :=
  ∃ pre r, sent st = pre ++ [r] ∧ serve pre r = a.

Lemma doHTTP_Ok ctx tok method u b st a st' :
  doHTTP ctx tok method u b st = (Ok a, st') → last_answer st' a ∧ a ≠ TransportError.
Proof.
  intros (text & st1 & _ & Hreq)%bind_Ok. apply bind_Ok in Hreq as (req & st2 & _ & Hdo).
  apply Do_Ok in Hdo as (Hs & Ha & Hne & _). split; [|done]. by exists (sent st2), (with_headers (service.setCorrelationID ctx
    (header_Set (header_Set (hr_Header req) "Authorization" ("Bearer " +:+ tok)) "Content-Type" "application/json")) req).
Qed.

Lemma doWithJWT_Ok ctx method u b st a st' :
  doWithJWT ctx method u b st = (Ok a, st') → last_answer st' a ∧ a ≠ TransportError.
Proof. unfold doWithJWT. destruct (String.eqb _ ""); [done|]. apply doHTTP_Ok. Qed.

Lemma doWithServiceToken_Ok ctx method u b st a st' :
  doWithServiceToken ctx method u b st = (Ok a, st') → last_answer st' a ∧ a ≠ TransportError.
Proof. intros (tok & st1 & _ & Hdo)%bind_Ok. by apply doHTTP_Ok in Hdo. Qed.

(** A body that could be read. *)
Lemma read_body_Ok resp st b st' :
  read_body resp st = (Ok b, st') →
  resp = Answer (status_of resp) b ∧ slen b ≤ maxResponseBytes ∧ sent st' = sent st ∧ cl st' = cl st.
Proof.
  unfold read_body. destruct resp as [|s|s text]; [done|done|]. simpl.
  destruct (maxResponseBytes <? slen text) eqn:Hl; [done|]. bool_to_prop. by intros [= <- <-].
Qed.

End senders.

(** The default address of the administration API is the host of the base URL
    with another port. For an IPv6 host the brackets are lost: the authority
    [::1:8081] is no longer a host and a port. *)
Example ipv6_admin_host_loses_brackets :
  url_Hostname {| u_Scheme := "http"; u_Host := "[::1]:8080"; u_Tail := "" |} +:+ ":8081" = "::1:8081" ∧
  url_Hostname {| u_Scheme := "http"; u_Host := "auth.example.com:8080"; u_Tail := "" |} +:+ ":8081" = "auth.example.com:8081".
Proof. split; reflexivity. Qed.

End client.
