(* ===== verification/SocrateUsers.v ===== *)
(** The user-facing methods of the Socrate client: members of the application,
    token operations, magic links and audit events (src/socrate/client.go), the
    login helpers of a backend for frontends (bff.go), policy decisions
    (policy.go), sign-up (signup.go) and the caller's profile (profile.go). *)

From S2P Require Import Prelude GoText GoUrl GoJson CtxUtil Http BffMisc SocrateToken Pep SocrateService SocrateHttp.

Module users.
Import socrate client.

(** [socrate/client.go: ErrUserAlreadyExists] *)
Definition ErrUserAlreadyExists : string := "user already exists in Socrate".
(** [socrate/client.go: ErrMagicLinkRateLimited] *)
Definition ErrMagicLinkRateLimited : string := "magic link rate limit reached, please try again later".
(** [socrate/client.go: ErrUserNotInApp] *)
Definition ErrUserNotInApp : string := "socrate: user is not a member of this application".
(** [socrate/client.go: ErrInvalidProfileUpdate] *)
Definition ErrInvalidProfileUpdate : string := "socrate: invalid profile update".
(** [socrate/bff.go: ErrMagicLinkAlreadyUsed] *)
Definition ErrMagicLinkAlreadyUsed : string := "magic link already used".
(** [socrate/bff.go: ErrMagicLinkInvalid] *)
Definition ErrMagicLinkInvalid : string := "magic link invalid or expired".
(** [socrate/bff.go: ErrInvalidCredentials] *)
Definition ErrInvalidCredentials : string := "invalid credentials".

(** * Data *)

Section data.
Context `{TimeJson}.

(** [socrate/client.go: User] *)
Record User := {
  User_ID : Z; User_Email : string; User_Name : string; User_Role : string; User_IsVerified : bool;
  User_InviteSent : bool; User_CreatedAt : Time; User_LastLogin : option Time; User_AvatarURL : option string;
  User_TokenVersion : option Z; User_Locked : option bool;
}.
Definition zero_User : User :=
  {| User_ID := 0; User_Email := ""; User_Name := ""; User_Role := ""; User_IsVerified := false;
  User_InviteSent := false; User_CreatedAt := 0; User_LastLogin := None; User_AvatarURL := None;
  User_TokenVersion := None; User_Locked := None |}.
Definition decode_User (cur : User) (l : list (string * json)) : option User :=
  x0 ← decode_field decode_uint (User_ID cur) "id" l;
  x1 ← decode_field decode_string (User_Email cur) "email" l;
  x2 ← decode_field decode_string (User_Name cur) "name" l;
  x3 ← decode_field decode_string (User_Role cur) "role" l;
  x4 ← decode_field decode_bool (User_IsVerified cur) "is_verified" l;
  x5 ← decode_field decode_bool (User_InviteSent cur) "invite_sent" l;
  x6 ← decode_field decode_time (User_CreatedAt cur) "created_at" l;
  x7 ← decode_field (decode_ptr 0 decode_time) (User_LastLogin cur) "last_login" l;
  x8 ← decode_field (decode_ptr "" decode_string) (User_AvatarURL cur) "avatar_url" l;
  x9 ← decode_field (decode_ptr 0 decode_int) (User_TokenVersion cur) "token_version" l;
  x10 ← decode_field (decode_ptr false decode_bool) (User_Locked cur) "locked" l;
  Some {| User_ID := x0; User_Email := x1; User_Name := x2; User_Role := x3; User_IsVerified := x4;
       User_InviteSent := x5; User_CreatedAt := x6; User_LastLogin := x7; User_AvatarURL := x8;
       User_TokenVersion := x9; User_Locked := x10 |}.

(** [socrate/client.go: UserListResponse] *)
Record UserListResponse := {
  UserListResponse_Users : option (list User); UserListResponse_TotalCount : Z; UserListResponse_Page : Z;
  UserListResponse_PageSize : Z;
}.
Definition zero_UserListResponse : UserListResponse :=
  {| UserListResponse_Users := None; UserListResponse_TotalCount := 0; UserListResponse_Page := 0;
  UserListResponse_PageSize := 0 |}.
Definition decode_UserListResponse (cur : UserListResponse) (l : list (string * json)) : option UserListResponse :=
  x0 ← decode_field (decode_list (decode_object decode_User) zero_User) (UserListResponse_Users cur) "users" l;
  x1 ← decode_field decode_int (UserListResponse_TotalCount cur) "total_count" l;
  x2 ← decode_field decode_int (UserListResponse_Page cur) "page" l;
  x3 ← decode_field decode_int (UserListResponse_PageSize cur) "page_size" l;
  Some {| UserListResponse_Users := x0; UserListResponse_TotalCount := x1; UserListResponse_Page := x2;
       UserListResponse_PageSize := x3 |}.

(** [socrate/client.go: CreateUserRequest] *)
Record CreateUserRequest := {
  CreateUserRequest_Email : string; CreateUserRequest_Name : string; CreateUserRequest_Role : string;
}.
Definition encode_CreateUserRequest (r : CreateUserRequest) : json :=
  JObj ([("email", JStr (CreateUserRequest_Email r))] ++ omit_empty "name" (CreateUserRequest_Name r) ++
        [("role", JStr (CreateUserRequest_Role r))]).

(** [socrate/client.go: CreateUserResult] *)
Record CreateUserResult := {
  CreateUserResult_UserID : Z; CreateUserResult_InviteToken : string; CreateUserResult_Role : string;
  CreateUserResult_EmailSent : bool; CreateUserResult_EmailError : string;
}.
Definition zero_CreateUserResult : CreateUserResult :=
  {| CreateUserResult_UserID := 0; CreateUserResult_InviteToken := ""; CreateUserResult_Role := "";
  CreateUserResult_EmailSent := false; CreateUserResult_EmailError := "" |}.
Definition decode_CreateUserResult (cur : CreateUserResult) (l : list (string * json)) : option CreateUserResult :=
  x0 ← decode_field decode_uint (CreateUserResult_UserID cur) "user_id" l;
  x1 ← decode_field decode_string (CreateUserResult_InviteToken cur) "invite_token" l;
  x2 ← decode_field decode_string (CreateUserResult_Role cur) "role" l;
  x3 ← decode_field decode_bool (CreateUserResult_EmailSent cur) "email_sent" l;
  x4 ← decode_field decode_string (CreateUserResult_EmailError cur) "email_error" l;
  Some {| CreateUserResult_UserID := x0; CreateUserResult_InviteToken := x1; CreateUserResult_Role := x2;
       CreateUserResult_EmailSent := x3; CreateUserResult_EmailError := x4 |}.

(** [socrate/client.go: ServiceInviteRequest] *)
Record ServiceInviteRequest := {
  ServiceInviteRequest_Email : string; ServiceInviteRequest_Role : string;
}.
Definition encode_ServiceInviteRequest (r : ServiceInviteRequest) : json :=
  JObj ([("email", JStr (ServiceInviteRequest_Email r))] ++ [("role", JStr (ServiceInviteRequest_Role r))]).

(** [socrate/client.go: ProfileInfo] *)
Record ProfileInfo := {
  ProfileInfo_Sub : string; ProfileInfo_Email : string; ProfileInfo_Name : string;
  ProfileInfo_DisplayName : string; ProfileInfo_FirstName : string; ProfileInfo_LastName : string;
  ProfileInfo_GivenName : string; ProfileInfo_FamilyName : string; ProfileInfo_EmailVerified : bool;
  ProfileInfo_Picture : string;
}.
Definition zero_ProfileInfo : ProfileInfo :=
  {| ProfileInfo_Sub := ""; ProfileInfo_Email := ""; ProfileInfo_Name := ""; ProfileInfo_DisplayName := "";
  ProfileInfo_FirstName := ""; ProfileInfo_LastName := ""; ProfileInfo_GivenName := "";
  ProfileInfo_FamilyName := ""; ProfileInfo_EmailVerified := false; ProfileInfo_Picture := "" |}.
Definition decode_ProfileInfo (cur : ProfileInfo) (l : list (string * json)) : option ProfileInfo :=
  x0 ← decode_field decode_string (ProfileInfo_Sub cur) "sub" l;
  x1 ← decode_field decode_string (ProfileInfo_Email cur) "email" l;
  x2 ← decode_field decode_string (ProfileInfo_Name cur) "name" l;
  x3 ← decode_field decode_string (ProfileInfo_DisplayName cur) "display_name" l;
  x4 ← decode_field decode_string (ProfileInfo_FirstName cur) "first_name" l;
  x5 ← decode_field decode_string (ProfileInfo_LastName cur) "last_name" l;
  x6 ← decode_field decode_string (ProfileInfo_GivenName cur) "given_name" l;
  x7 ← decode_field decode_string (ProfileInfo_FamilyName cur) "family_name" l;
  x8 ← decode_field decode_bool (ProfileInfo_EmailVerified cur) "email_verified" l;
  x9 ← decode_field decode_string (ProfileInfo_Picture cur) "picture" l;
  Some {| ProfileInfo_Sub := x0; ProfileInfo_Email := x1; ProfileInfo_Name := x2; ProfileInfo_DisplayName := x3;
       ProfileInfo_FirstName := x4; ProfileInfo_LastName := x5; ProfileInfo_GivenName := x6;
       ProfileInfo_FamilyName := x7; ProfileInfo_EmailVerified := x8; ProfileInfo_Picture := x9 |}.

(** [socrate/client.go: ActivityLog] *)
Record ActivityLog := {
  ActivityLog_ID : Z; ActivityLog_EventType : string; ActivityLog_Severity : string;
  ActivityLog_UserID : option Z; ActivityLog_UserEmail : string; ActivityLog_AppID : option Z;
  ActivityLog_IPAddress : string; ActivityLog_UserAgent : string; ActivityLog_Success : bool;
  ActivityLog_Details : option json; ActivityLog_Metadata : option json; ActivityLog_RequestID : string;
  ActivityLog_SessionID : string; ActivityLog_CreatedAt : Time;
}.
Definition zero_ActivityLog : ActivityLog :=
  {| ActivityLog_ID := 0; ActivityLog_EventType := ""; ActivityLog_Severity := ""; ActivityLog_UserID := None;
  ActivityLog_UserEmail := ""; ActivityLog_AppID := None; ActivityLog_IPAddress := "";
  ActivityLog_UserAgent := ""; ActivityLog_Success := false; ActivityLog_Details := None;
  ActivityLog_Metadata := None; ActivityLog_RequestID := ""; ActivityLog_SessionID := "";
  ActivityLog_CreatedAt := 0 |}.
Definition decode_ActivityLog (cur : ActivityLog) (l : list (string * json)) : option ActivityLog :=
  x0 ← decode_field decode_uint (ActivityLog_ID cur) "id" l;
  x1 ← decode_field decode_string (ActivityLog_EventType cur) "event_type" l;
  x2 ← decode_field decode_string (ActivityLog_Severity cur) "severity" l;
  x3 ← decode_field (decode_ptr 0 decode_uint) (ActivityLog_UserID cur) "user_id" l;
  x4 ← decode_field decode_string (ActivityLog_UserEmail cur) "user_email" l;
  x5 ← decode_field (decode_ptr 0 decode_uint) (ActivityLog_AppID cur) "app_id" l;
  x6 ← decode_field decode_string (ActivityLog_IPAddress cur) "ip_address" l;
  x7 ← decode_field decode_string (ActivityLog_UserAgent cur) "user_agent" l;
  x8 ← decode_field decode_bool (ActivityLog_Success cur) "success" l;
  x9 ← decode_field decode_raw (ActivityLog_Details cur) "details" l;
  x10 ← decode_field decode_raw (ActivityLog_Metadata cur) "metadata" l;
  x11 ← decode_field decode_string (ActivityLog_RequestID cur) "request_id" l;
  x12 ← decode_field decode_string (ActivityLog_SessionID cur) "session_id" l;
  x13 ← decode_field decode_time (ActivityLog_CreatedAt cur) "created_at" l;
  Some {| ActivityLog_ID := x0; ActivityLog_EventType := x1; ActivityLog_Severity := x2;
       ActivityLog_UserID := x3; ActivityLog_UserEmail := x4; ActivityLog_AppID := x5;
       ActivityLog_IPAddress := x6; ActivityLog_UserAgent := x7; ActivityLog_Success := x8;
       ActivityLog_Details := x9; ActivityLog_Metadata := x10; ActivityLog_RequestID := x11;
       ActivityLog_SessionID := x12; ActivityLog_CreatedAt := x13 |}.

(** [socrate/client.go: ActivityLogResponse] *)
Record ActivityLogResponse := {
  ActivityLogResponse_Events : option (list ActivityLog); ActivityLogResponse_TotalCount : Z;
  ActivityLogResponse_Page : Z; ActivityLogResponse_PageSize : Z;
}.
Definition zero_ActivityLogResponse : ActivityLogResponse :=
  {| ActivityLogResponse_Events := None; ActivityLogResponse_TotalCount := 0; ActivityLogResponse_Page := 0;
  ActivityLogResponse_PageSize := 0 |}.
Definition decode_ActivityLogResponse (cur : ActivityLogResponse) (l : list (string * json)) : option ActivityLogResponse :=
  x0 ← decode_field (decode_list (decode_object decode_ActivityLog) zero_ActivityLog) (ActivityLogResponse_Events cur) "events" l;
  x1 ← decode_field decode_int (ActivityLogResponse_TotalCount cur) "total_count" l;
  x2 ← decode_field decode_int (ActivityLogResponse_Page cur) "page" l;
  x3 ← decode_field decode_int (ActivityLogResponse_PageSize cur) "page_size" l;
  Some {| ActivityLogResponse_Events := x0; ActivityLogResponse_TotalCount := x1;
       ActivityLogResponse_Page := x2; ActivityLogResponse_PageSize := x3 |}.

(** [socrate/client.go: IntrospectResponse] *)
Record IntrospectResponse := {
  IntrospectResponse_Active : bool; IntrospectResponse_Sub : string; IntrospectResponse_Scope : string;
  IntrospectResponse_ClientID : string; IntrospectResponse_TokenType : string; IntrospectResponse_Exp : Z;
  IntrospectResponse_Iat : Z; IntrospectResponse_Role : string;
}.
Definition zero_IntrospectResponse : IntrospectResponse :=
  {| IntrospectResponse_Active := false; IntrospectResponse_Sub := ""; IntrospectResponse_Scope := "";
  IntrospectResponse_ClientID := ""; IntrospectResponse_TokenType := ""; IntrospectResponse_Exp := 0;
  IntrospectResponse_Iat := 0; IntrospectResponse_Role := "" |}.
Definition decode_IntrospectResponse (cur : IntrospectResponse) (l : list (string * json)) : option IntrospectResponse :=
  x0 ← decode_field decode_bool (IntrospectResponse_Active cur) "active" l;
  x1 ← decode_field decode_string (IntrospectResponse_Sub cur) "sub" l;
  x2 ← decode_field decode_string (IntrospectResponse_Scope cur) "scope" l;
  x3 ← decode_field decode_string (IntrospectResponse_ClientID cur) "client_id" l;
  x4 ← decode_field decode_string (IntrospectResponse_TokenType cur) "token_type" l;
  x5 ← decode_field decode_int (IntrospectResponse_Exp cur) "exp" l;
  x6 ← decode_field decode_int (IntrospectResponse_Iat cur) "iat" l;
  x7 ← decode_field decode_string (IntrospectResponse_Role cur) "role" l;
  Some {| IntrospectResponse_Active := x0; IntrospectResponse_Sub := x1; IntrospectResponse_Scope := x2;
       IntrospectResponse_ClientID := x3; IntrospectResponse_TokenType := x4; IntrospectResponse_Exp := x5;
       IntrospectResponse_Iat := x6; IntrospectResponse_Role := x7 |}.

(** [socrate/client.go: MagicLinkResponse] *)
Record MagicLinkResponse := {
  MagicLinkResponse_Message : string; MagicLinkResponse_MagicURL : string;
}.
Definition zero_MagicLinkResponse : MagicLinkResponse :=
  {| MagicLinkResponse_Message := ""; MagicLinkResponse_MagicURL := "" |}.
Definition decode_MagicLinkResponse (cur : MagicLinkResponse) (l : list (string * json)) : option MagicLinkResponse :=
  x0 ← decode_field decode_string (MagicLinkResponse_Message cur) "message" l;
  x1 ← decode_field decode_string (MagicLinkResponse_MagicURL cur) "magic_url" l;
  Some {| MagicLinkResponse_Message := x0; MagicLinkResponse_MagicURL := x1 |}.

(** [socrate/profile.go: FullProfile] *)
Record FullProfile := {
  FullProfile_ID : Z; FullProfile_Email : string; FullProfile_Name : string; FullProfile_Role : string;
  FullProfile_IsVerified : bool; FullProfile_Title : option string; FullProfile_Division : option string;
  FullProfile_Company : option string; FullProfile_Country : option string; FullProfile_Phone : option string;
  FullProfile_JobTitle : option string; FullProfile_Department : option string;
  FullProfile_Language : option string; FullProfile_Timezone : option string;
  FullProfile_AvatarURL : option string; FullProfile_LastLogin : option Time; FullProfile_CreatedAt : Time;
}.
Definition zero_FullProfile : FullProfile :=
  {| FullProfile_ID := 0; FullProfile_Email := ""; FullProfile_Name := ""; FullProfile_Role := "";
  FullProfile_IsVerified := false; FullProfile_Title := None; FullProfile_Division := None;
  FullProfile_Company := None; FullProfile_Country := None; FullProfile_Phone := None;
  FullProfile_JobTitle := None; FullProfile_Department := None; FullProfile_Language := None;
  FullProfile_Timezone := None; FullProfile_AvatarURL := None; FullProfile_LastLogin := None;
  FullProfile_CreatedAt := 0 |}.
Definition decode_FullProfile (cur : FullProfile) (l : list (string * json)) : option FullProfile :=
  x0 ← decode_field decode_uint (FullProfile_ID cur) "id" l;
  x1 ← decode_field decode_string (FullProfile_Email cur) "email" l;
  x2 ← decode_field decode_string (FullProfile_Name cur) "name" l;
  x3 ← decode_field decode_string (FullProfile_Role cur) "role" l;
  x4 ← decode_field decode_bool (FullProfile_IsVerified cur) "is_verified" l;
  x5 ← decode_field (decode_ptr "" decode_string) (FullProfile_Title cur) "title" l;
  x6 ← decode_field (decode_ptr "" decode_string) (FullProfile_Division cur) "division" l;
  x7 ← decode_field (decode_ptr "" decode_string) (FullProfile_Company cur) "company" l;
  x8 ← decode_field (decode_ptr "" decode_string) (FullProfile_Country cur) "country" l;
  x9 ← decode_field (decode_ptr "" decode_string) (FullProfile_Phone cur) "phone" l;
  x10 ← decode_field (decode_ptr "" decode_string) (FullProfile_JobTitle cur) "job_title" l;
  x11 ← decode_field (decode_ptr "" decode_string) (FullProfile_Department cur) "department" l;
  x12 ← decode_field (decode_ptr "" decode_string) (FullProfile_Language cur) "language" l;
  x13 ← decode_field (decode_ptr "" decode_string) (FullProfile_Timezone cur) "timezone" l;
  x14 ← decode_field (decode_ptr "" decode_string) (FullProfile_AvatarURL cur) "avatar_url" l;
  x15 ← decode_field (decode_ptr 0 decode_time) (FullProfile_LastLogin cur) "last_login" l;
  x16 ← decode_field decode_time (FullProfile_CreatedAt cur) "created_at" l;
  Some {| FullProfile_ID := x0; FullProfile_Email := x1; FullProfile_Name := x2; FullProfile_Role := x3;
       FullProfile_IsVerified := x4; FullProfile_Title := x5; FullProfile_Division := x6;
       FullProfile_Company := x7; FullProfile_Country := x8; FullProfile_Phone := x9;
       FullProfile_JobTitle := x10; FullProfile_Department := x11; FullProfile_Language := x12;
       FullProfile_Timezone := x13; FullProfile_AvatarURL := x14; FullProfile_LastLogin := x15;
       FullProfile_CreatedAt := x16 |}.

(** [socrate/profile.go: UpdateProfileRequest] *)
Record UpdateProfileRequest := {
  UpdateProfileRequest_Name : option string; UpdateProfileRequest_Title : option string;
  UpdateProfileRequest_Division : option string; UpdateProfileRequest_Company : option string;
  UpdateProfileRequest_Country : option string; UpdateProfileRequest_Phone : option string;
  UpdateProfileRequest_JobTitle : option string; UpdateProfileRequest_Department : option string;
  UpdateProfileRequest_Language : option string; UpdateProfileRequest_Timezone : option string;
  UpdateProfileRequest_AvatarURL : option string;
}.
Definition encode_UpdateProfileRequest (r : UpdateProfileRequest) : json :=
  JObj (omit_nil "name" (UpdateProfileRequest_Name r) (λ v, JStr v) ++
        omit_nil "title" (UpdateProfileRequest_Title r) (λ v, JStr v) ++
        omit_nil "division" (UpdateProfileRequest_Division r) (λ v, JStr v) ++
        omit_nil "company" (UpdateProfileRequest_Company r) (λ v, JStr v) ++
        omit_nil "country" (UpdateProfileRequest_Country r) (λ v, JStr v) ++
        omit_nil "phone" (UpdateProfileRequest_Phone r) (λ v, JStr v) ++
        omit_nil "job_title" (UpdateProfileRequest_JobTitle r) (λ v, JStr v) ++
        omit_nil "department" (UpdateProfileRequest_Department r) (λ v, JStr v) ++
        omit_nil "language" (UpdateProfileRequest_Language r) (λ v, JStr v) ++
        omit_nil "timezone" (UpdateProfileRequest_Timezone r) (λ v, JStr v) ++
        omit_nil "avatar_url" (UpdateProfileRequest_AvatarURL r) (λ v, JStr v)).

(** [socrate/signup.go: SignupRequest] *)
Record SignupRequest := {
  SignupRequest_Name : string; SignupRequest_Email : string; SignupRequest_Password : string;
}.

(** [socrate/signup.go: SignupResult] *)
Record SignupResult := {
  SignupResult_UserID : Z; SignupResult_Message : string; SignupResult_VerifyURL : string;
}.
Definition zero_SignupResult : SignupResult :=
  {| SignupResult_UserID := 0; SignupResult_Message := ""; SignupResult_VerifyURL := "" |}.
Definition decode_SignupResult (cur : SignupResult) (l : list (string * json)) : option SignupResult :=
  x0 ← decode_field decode_uint (SignupResult_UserID cur) "user_id" l;
  x1 ← decode_field decode_string (SignupResult_Message cur) "message" l;
  x2 ← decode_field decode_string (SignupResult_VerifyURL cur) "verify_url" l;
  Some {| SignupResult_UserID := x0; SignupResult_Message := x1; SignupResult_VerifyURL := x2 |}.

End data.

(** [LoginResult] over the current content. *)
Definition zero_LoginResult : LoginResult :=
  {| lr_AccessToken := ""; lr_RefreshToken := ""; lr_IDToken := ""; lr_TokenType := ""; lr_ExpiresIn := 0;
     lr_UserID := 0; lr_Roles := None; lr_AppRoles := None; lr_MustChangePassword := false |}.
Definition decode_LoginResult (cur : LoginResult) (l : list (string * json)) : option LoginResult :=
  access ← decode_field decode_string (lr_AccessToken cur) "access_token" l;
  refresh ← decode_field decode_string (lr_RefreshToken cur) "refresh_token" l;
  id ← decode_field decode_string (lr_IDToken cur) "id_token" l;
  typ ← decode_field decode_string (lr_TokenType cur) "token_type" l;
  exp ← decode_field decode_int (lr_ExpiresIn cur) "expires_in" l;
  user ← decode_field decode_uint (lr_UserID cur) "user_id" l;
  roles ← decode_field (decode_list decode_string "") (lr_Roles cur) "roles" l;
  approles ← decode_field decode_string_map (lr_AppRoles cur) "app_roles" l;
  change ← decode_field decode_bool (lr_MustChangePassword cur) "must_change_password" l;
  Some {| lr_AccessToken := access; lr_RefreshToken := refresh; lr_IDToken := id; lr_TokenType := typ;
          lr_ExpiresIn := exp; lr_UserID := user; lr_Roles := roles; lr_AppRoles := approles;
          lr_MustChangePassword := change |}.

Section methods.
Context `{TimeJson, UrlLib, Network, service.IPLib}.

(** * Members, on the caller's behalf (client.go) *)

(** [socrate/client.go: Client.ListUsers] *)
Definition ListUsers (ctx : ctxutil.context) (search : string) (page pageSize : Z) : M UserListResponse :=
  appID ← wrap "resolve app ID" (getAppID ctx);
  let path := "/api/apps/" +:+ appID +:+ "/users?page=" +:+ itoa page +:+ "&page_size=" +:+ itoa pageSize in
  let path := if negb (String.eqb search "") then path +:+ "&search=" +:+ QueryEscape search else path in
  u ← adminURL path;
  resp ← doWithJWT ctx "GET" u NoBody;
  b ← read_body resp;
  if negb (status_of resp =? 200) then http_fail "list users" resp b
  else unmarshal_as "decode list users" (decode_object decode_UserListResponse) zero_UserListResponse b.

(** [socrate/client.go: Client.GetUser] *)
Definition GetUser (ctx : ctxutil.context) (userID : string) : M (option User) :=
  appID ← wrap "resolve app ID" (getAppID ctx);
  u ← adminURL ("/api/apps/" +:+ appID +:+ "/users/" +:+ PathEscape userID);
  resp ← doWithJWT ctx "GET" u NoBody;
  b ← read_body resp;
  if status_of resp =? 404 then mret None
  else if negb (status_of resp =? 200) then http_fail "get user" resp b
  else x ← unmarshal_as "decode user" (decode_object decode_User) zero_User b; mret (Some x).

(** [socrate/client.go: Client.CreateUser] *)
Definition CreateUser (ctx : ctxutil.context) (req : CreateUserRequest) : M CreateUserResult :=
  appID ← wrap "resolve app ID" (getAppID ctx);
  u ← adminURL ("/api/apps/" +:+ appID +:+ "/users");
  resp ← doWithJWT ctx "POST" u (Json (Some (encode_CreateUserRequest req)));
  b ← read_body resp;
  if status_of resp =? 409 then fail (ESentinel ErrUserAlreadyExists)
  else if negb (status_of resp =? 201) && negb (status_of resp =? 200) then http_fail "create user" resp b
  else unmarshal_as "decode create user response" (decode_object decode_CreateUserResult) zero_CreateUserResult b.

(** [socrate/client.go: Client.UpdateUserRole] *)
Definition UpdateUserRole (ctx : ctxutil.context) (userID role : string) : M unit :=
  appID ← wrap "resolve app ID" (getAppID ctx);
  u ← adminURL ("/api/apps/" +:+ appID +:+ "/users/" +:+ PathEscape userID);
  resp ← doWithJWT ctx "PUT" u (Json (Some (enc_string_map {["role" := role]})));
  b ← read_body resp;
  if negb (status_of resp =? 200) then http_fail "update user role" resp b else mret tt.

(** [socrate/client.go: Client.DeleteUser] *)
Definition DeleteUser (ctx : ctxutil.context) (userID : string) : M unit :=
  appID ← wrap "resolve app ID" (getAppID ctx);
  u ← adminURL ("/api/apps/" +:+ appID +:+ "/users/" +:+ PathEscape userID);
  resp ← doWithJWT ctx "DELETE" u NoBody;
  b ← read_body resp;
  if negb (status_of resp =? 200) && negb (status_of resp =? 204) then http_fail "delete user" resp b
  else mret tt.

(** [socrate/client.go: Client.ResendVerification] *)
Definition ResendVerification (ctx : ctxutil.context) (userID : string) : M unit :=
  appID ← wrap "resolve app ID" (getAppID ctx);
  u ← adminURL ("/api/apps/" +:+ appID +:+ "/users/" +:+ PathEscape userID +:+ "/resend-verification");
  resp ← doWithJWT ctx "POST" u NoBody;
  b ← read_body resp;
  if negb (status_of resp =? 200) && negb (status_of resp =? 204) then http_fail "resend verification" resp b
  else mret tt.

(** [socrate/client.go: Client.ForcePasswordReset] *)
Definition ForcePasswordReset (ctx : ctxutil.context) (userID : string) : M unit :=
  appID ← wrap "resolve app ID" (getAppID ctx);
  u ← adminURL ("/api/apps/" +:+ appID +:+ "/users/" +:+ PathEscape userID +:+ "/reset-password");
  resp ← doWithJWT ctx "POST" u NoBody;
  b ← read_body resp;
  if negb (status_of resp =? 200) && negb (status_of resp =? 204) then http_fail "force password reset" resp b
  else mret tt.

(** * Members, as the application (client.go) *)

(** [socrate/client.go: Client.GetUserAsService] *)
Definition GetUserAsService (ctx : ctxutil.context) (userID : string) : M (option User) :=
  appID ← wrap "resolve app ID" (getAppIDAsService ctx);
  u ← adminURL ("/api/apps/" +:+ appID +:+ "/service/users/" +:+ PathEscape userID);
  resp ← doWithServiceToken ctx "GET" u NoBody;
  b ← read_body resp;
  if status_of resp =? 404 then
    if negb (isSocrateErrorBody b) then fail (EMsg ("get user HTTP 404 without a Socrate error body: " +:+ b))
    else mret None
  else if negb (status_of resp =? 200) then http_fail "get user" resp b
  else x ← unmarshal_as "decode user" (decode_object decode_User) zero_User b; mret (Some x).

(** The error text of a refusal, when the body has one. *)
Definition error_text (b : string) : option string :=
  match unmarshal_struct (λ l, decode_field decode_string "" "error" l) "" b with
  | Some e => if negb (String.eqb e "") then Some e else None
  | None => None
  end.

(** [socrate/client.go: Client.UpdateUserAsService] *)
Definition UpdateUserAsService (ctx : ctxutil.context) (userID : string) (req : UpdateProfileRequest) : M User :=
  appID ← wrap "resolve app ID" (getAppIDAsService ctx);
  u ← adminURL ("/api/apps/" +:+ appID +:+ "/service/users/" +:+ PathEscape userID);
  resp ← doWithServiceToken ctx "PATCH" u (Json (Some (encode_UpdateProfileRequest req)));
  b ← read_body resp;
  let st := status_of resp in
  if st =? 200 then unmarshal_as "decode user" (decode_object decode_User) zero_User b
  else if (st =? 404) && isSocrateErrorBody b then fail (ESentinel ErrUserNotInApp)
  else
    match (if st =? 400 then error_text b else None) with
    | Some e => fail (EWrap e (ESentinel ErrInvalidProfileUpdate))
    | None =>
        if (st =? 404) || (st =? 405) then
          fail (EMsg ("update user HTTP " +:+ itoa st +:+ ": PATCH /api/apps/{id}/service/users/{user_id} " +:+
                      "needs Socrate v1.7.0 or later: " +:+ b))
        else http_fail "update user" resp b
    end.

(** [socrate/client.go: Client.RegisterUser] *)
Definition RegisterUser (ctx : ctxutil.context) (req : CreateUserRequest) : M CreateUserResult :=
  appID ← wrap "resolve app ID" (getAppIDAsService ctx);
  u ← adminURL ("/api/apps/" +:+ appID +:+ "/service/users");
  resp ← doWithServiceToken ctx "POST" u (Json (Some (encode_CreateUserRequest req)));
  b ← read_body resp;
  if status_of resp =? 409 then fail (ESentinel ErrUserAlreadyExists)
  else if negb (status_of resp =? 201) && negb (status_of resp =? 200) then http_fail "register user" resp b
  else unmarshal_as "decode register user response" (decode_object decode_CreateUserResult) zero_CreateUserResult b.

(** [socrate/client.go: Client.InviteUserAsService] *)
Definition InviteUserAsService (ctx : ctxutil.context) (req : ServiceInviteRequest) : M CreateUserResult :=
  appID ← wrap "resolve app ID" (getAppIDAsService ctx);
  u ← adminURL ("/api/apps/" +:+ appID +:+ "/service/users");
  resp ← doWithServiceToken ctx "POST" u (Json (Some (encode_ServiceInviteRequest req)));
  b ← read_body resp;
  if status_of resp =? 409 then fail (ESentinel ErrUserAlreadyExists)
  else if negb (status_of resp =? 201) && negb (status_of resp =? 200) then http_fail "invite user" resp b
  else unmarshal_as "decode invite user response" (decode_object decode_CreateUserResult) zero_CreateUserResult b.

(** * Token operations (client.go) *)

Definition with_names (p : ProfileInfo) (first last : string) : ProfileInfo :=
  {| ProfileInfo_Sub := ProfileInfo_Sub p; ProfileInfo_Email := ProfileInfo_Email p;
     ProfileInfo_Name := ProfileInfo_Name p; ProfileInfo_DisplayName := ProfileInfo_DisplayName p;
     ProfileInfo_FirstName := first; ProfileInfo_LastName := last; ProfileInfo_GivenName := ProfileInfo_GivenName p;
     ProfileInfo_FamilyName := ProfileInfo_FamilyName p; ProfileInfo_EmailVerified := ProfileInfo_EmailVerified p;
     ProfileInfo_Picture := ProfileInfo_Picture p |}.

(** [socrate/client.go: Client.GetCurrentUserProfile] *)
Definition GetCurrentUserProfile (ctx : ctxutil.context) : M (option ProfileInfo) :=
  u ← oauthURL "/oauth/userinfo";
  resp ← wrap "userinfo" (doWithJWT ctx "GET" u NoBody);
  b ← read_body resp;
  if (status_of resp =? 401) || (status_of resp =? 404) then mret None
  else if negb (status_of resp =? 200) then http_fail "userinfo" resp b
  else
    p ← unmarshal_as "decode userinfo" (decode_object decode_ProfileInfo) zero_ProfileInfo b;
    let first := if String.eqb (ProfileInfo_FirstName p) "" then ProfileInfo_GivenName p else ProfileInfo_FirstName p in
    let last := if String.eqb (ProfileInfo_LastName p) "" then ProfileInfo_FamilyName p else ProfileInfo_LastName p in
    mret (Some (with_names p first last)).

Definition token_form (c : Client) (token : string) : Values :=
  values_of [("token", token); ("client_id", clientID c); ("client_secret", clientSecret c)].

(** [socrate/client.go: Client.RevokeToken] *)
Definition RevokeToken (ctx : ctxutil.context) (token : string) : M unit :=
  c ← self;
  if String.eqb (clientSecret c) "" then fail (EMsg "socrate: client_secret required for token revocation")
  else
    u ← oauthURL "/oauth/revoke";
    req ← wrap "build revoke request" (NewRequest "POST" u (values_Encode (token_form c token)));
    let h := header_Set (hr_Header req) "Content-Type" "application/x-www-form-urlencoded" in
    let h := service.ApplyClientAttribution ctx h in
    resp ← wrap "revoke" (Do (with_headers (service.setCorrelationID ctx h) req));
    b ← read_body resp;
    if negb (status_of resp =? 200) && negb (status_of resp =? 204) then http_fail "revoke" resp b
    else mret tt.

(** [socrate/client.go: Client.IntrospectToken] *)
Definition IntrospectToken (ctx : ctxutil.context) (token : string) : M IntrospectResponse :=
  c ← self;
  if String.eqb (clientSecret c) "" then fail (EMsg "socrate: client_secret required for token introspection")
  else
    u ← oauthURL "/oauth/introspect";
    req ← wrap "build introspect request" (NewRequest "POST" u (values_Encode (token_form c token)));
    let h := header_Set (hr_Header req) "Content-Type" "application/x-www-form-urlencoded" in
    resp ← wrap "introspect" (Do (with_headers (service.setCorrelationID ctx h) req));
    b ← read_body resp;
    if negb (status_of resp =? 200) then http_fail "introspect" resp b
    else unmarshal_as "decode introspect" (decode_object decode_IntrospectResponse) zero_IntrospectResponse b.

(** [socrate/client.go: Client.SendMagicLink] *)
Definition SendMagicLink (ctx : ctxutil.context) (email : string) : M MagicLinkResponse :=
  appID ← wrap "resolve app ID" (getAppIDAsService ctx);
  u ← adminURL ("/api/apps/" +:+ appID +:+ "/service/magic-link");
  resp ← doWithServiceToken ctx "POST" u (Json (Some (enc_string_map {["email" := email]})));
  b ← read_body resp;
  if status_of resp =? 429 then fail (ESentinel ErrMagicLinkRateLimited)
  else if negb (status_of resp =? 202) && negb (status_of resp =? 200) then http_fail "send magic link" resp b
  else unmarshal_as "decode magic link response" (decode_object decode_MagicLinkResponse) zero_MagicLinkResponse b.

(** [socrate/client.go: Client.GetActivityLogs] *)
Definition GetActivityLogs (ctx : ctxutil.context) (page pageSize : Z) : M ActivityLogResponse :=
  appID ← wrap "resolve app ID" (getAppID ctx);
  u ← adminURL ("/api/admin/security/events?app_id=" +:+ appID +:+ "&page=" +:+ itoa page +:+
                "&page_size=" +:+ itoa pageSize);
  resp ← doWithJWT ctx "GET" u NoBody;
  b ← read_body resp;
  if negb (status_of resp =? 200) then http_fail "get security events" resp b
  else unmarshal_as "decode" (decode_object decode_ActivityLogResponse) zero_ActivityLogResponse b.

(** * Logins of a backend for frontends (bff.go) *)

(** [socrate/bff.go: decodeTokenSet] *)
Definition decode_token_set (resp : http_answer) : M TokenSet := act (λ st, (decodeTokenSet resp, closed st)).

Definition with_secret (c : Client) (data : Values) : Values :=
  if negb (String.eqb (clientSecret c) "") then values_Set data "client_secret" (clientSecret c) else data.

Definition code_form (c : Client) (code redirectURI codeVerifier : string) : Values :=
  let data := with_secret c (values_of [("grant_type", "authorization_code"); ("code", code);
                                        ("redirect_uri", redirectURI); ("client_id", clientID c)]) in
  if negb (String.eqb codeVerifier "") then values_Set data "code_verifier" codeVerifier else data.

(** [socrate/bff.go: Client.ExchangeCode] *)
Definition ExchangeCode (ctx : ctxutil.context) (code redirectURI codeVerifier : string) : M TokenSet :=
  c ← self;
  u ← oauthURL "/oauth/token";
  resp ← wrap "exchange code" (postForm ctx u (code_form c code redirectURI codeVerifier));
  decode_token_set resp.

Definition refresh_form (c : Client) (refreshToken : string) : Values :=
  with_secret c (values_of [("grant_type", "refresh_token"); ("refresh_token", refreshToken);
                            ("client_id", clientID c)]).

(** [socrate/bff.go: Client.RefreshToken] *)
Definition RefreshToken_ (ctx : ctxutil.context) (refreshToken : string) : M TokenSet :=
  c ← self;
  u ← oauthURL "/oauth/token";
  resp ← wrap "refresh token" (postForm ctx u (refresh_form c refreshToken));
  decode_token_set resp.

(** The body is read and discarded. *)
Definition discard_body : M unit := act (λ st, (Ok tt, closed st)).

(** [socrate/bff.go: Client.VerifyMagicLink] *)
Definition VerifyMagicLink (ctx : ctxutil.context) (token : string) : M LoginResult :=
  c ← self;
  u ← oauthURL "/api/auth/magic-link/verify";
  resp ← wrap "verify magic link" (doHTTPNoAuth ctx "POST" u
           (Json (Some (enc_string_map {["token" := token; "client_id" := clientID c]}))));
  if status_of resp =? 422 then _ ← discard_body; fail (ESentinel ErrMagicLinkAlreadyUsed)
  else if status_of resp =? 401 then _ ← discard_body; fail (ESentinel ErrMagicLinkInvalid)
  else decode_json resp "verify magic link" (decode_object decode_LoginResult) zero_LoginResult [].

(** [socrate/bff.go: Client.AdminLogin] *)
Definition AdminLogin (ctx : ctxutil.context) (email password : string) : M LoginResult :=
  u ← adminURL "/api/admin/login";
  resp ← wrap "admin login" (doHTTPNoAuth ctx "POST" u
           (Json (Some (enc_string_map {["email" := email; "password" := password]}))));
  if status_of resp =? 401 then _ ← discard_body; fail (ESentinel ErrInvalidCredentials)
  else decode_json resp "admin login" (decode_object decode_LoginResult) zero_LoginResult [].

(** [socrate/bff.go: Client.Logout] *)
Definition Logout (ctx : ctxutil.context) : M unit :=
  let jwt := ctxutil.GetRawJWT ctx in
  if String.eqb jwt "" then fail no_jwt
  else
    u ← oauthURL "/api/auth/logout";
    req ← wrap "create request" (NewRequest "POST" u "");
    let h := header_Set (hr_Header req) "Authorization" ("Bearer " +:+ jwt) in
    let h := header_Set h "Content-Type" "application/json" in
    let h := service.setCorrelationID ctx h in
    resp ← Do (with_headers (service.ApplyClientAttribution ctx h) req);
    decode_nothing resp "logout" [200; 204].

(** * Policy decisions (policy.go) *)

Definition encode_subject (s : policy.PolicySubject) : json :=
  JObj (omit_empty "token" (policy.ps_Token s) ++
        (if policy.ps_UserID s =? 0 then [] else [("user_id", JNum (itoa (policy.ps_UserID s)))])).

(** [None] when an attribute cannot be marshalled. *)
Definition encode_DecideRequest (r : policy.DecideRequest) : option json :=
  let resource := policy.Resource r in
  let context := policy.Context_ r in
  rattrs ← omit_any_map "attributes" (policy.pr_Attributes resource);
  cattrs ← omit_any_map "attributes" (policy.pc_Attributes context);
  Some (JObj (omit_nil "subject" (policy.Subject r) encode_subject ++ [("action", JStr (policy.Action r))] ++
              [("resource", JObj (omit_empty "type" (policy.pr_Type resource) ++
                                  omit_empty "id" (policy.pr_ID resource) ++ rattrs))] ++
              [("context", JObj (omit_empty "ip" (policy.pc_IP context) ++ cattrs))] ++
              omit_empty "pep_mode" (policy.PEPMode r))).

(** [socrate/policy.go: Client.Decide]
    A decision and an error may come together. *)
Definition Decide (ctx : ctxutil.context) (r : policy.DecideRequest) : M (option policy.Decision * option goerr) :=
  appID ← wrap "resolve app ID" (getAppIDAsService ctx);
  tok ← wrap "get service token" (getServiceToken ctx);
  text ← wrap "marshal decide request" (marshal (Json (encode_DecideRequest r)));
  u ← adminURL ("/api/apps/" +:+ PathEscape appID +:+ "/service/policy/decide");
  req ← wrap "create request" (NewRequest "POST" u text);
  let h := header_Set (hr_Header req) "Authorization" ("Bearer " +:+ tok) in
  let h := header_Set h "Content-Type" "application/json" in
  resp ← wrap "decide" (Do (with_headers (service.setCorrelationID ctx h) req));
  act (λ st, (Ok (service.read_decision resp), closed st)).

(** * Sign-up (signup.go) and profile (profile.go) *)

(** [socrate/signup.go: Client.Signup] *)
Definition Signup (ctx : ctxutil.context) (req : SignupRequest) : M SignupResult :=
  c ← self;
  u ← oauthURL "/api/auth/signup";
  resp ← wrap "signup" (doHTTPNoAuth ctx "POST" u (Json (Some (enc_string_map
           {["name" := SignupRequest_Name req; "email" := SignupRequest_Email req;
             "password" := SignupRequest_Password req; "client_id" := clientID c]}))));
  b ← read_body resp;
  let st := status_of resp in
  if (st =? 201) || (st =? 200) then
    unmarshal_as "decode signup response" (decode_object decode_SignupResult) zero_SignupResult b
  else
    match (if st =? 400 then error_text b else None) with
    | Some e => if bool_decide (fold_name e = fold_name "email already exists")
                then fail (ESentinel ErrUserAlreadyExists) else fail (ESignup e)
    | None => http_fail "signup" resp b
    end.

(** [socrate/profile.go: Client.GetProfile] *)
Definition GetProfile (ctx : ctxutil.context) : M (option FullProfile) :=
  u ← oauthURL "/api/profile";
  resp ← doWithJWT ctx "GET" u NoBody;
  if status_of resp =? 404 then _ ← discard_body; mret None
  else p ← decode_json resp "get profile" (decode_object decode_FullProfile) zero_FullProfile []; mret (Some p).

(** [socrate/profile.go: Client.UpdateProfile] *)
Definition UpdateProfile (ctx : ctxutil.context) (req : UpdateProfileRequest) : M FullProfile :=
  u ← oauthURL "/api/profile";
  resp ← doWithJWT ctx "PUT" u (Json (Some (encode_UpdateProfileRequest req)));
  decode_json resp "update profile" (decode_object decode_FullProfile) zero_FullProfile [].

(** * Properties *)

(** C34: a missing route is never mistaken for a missing user. Looking a member up
    as the application returns no user and no error only when Socrate answered
    404 with its own error body, and returns a user only when Socrate answered
    200 with that user; a plain 404, as a router without the route answers, and
    anything else are errors. *)
Theorem missing_user_is_not_missing_route (ctx : ctxutil.context) (userID : string) (st st' : St) (o : option User) :
  GetUserAsService ctx userID st = (Ok o, st') →
  ∃ status b, last_answer st' (Answer status b) ∧ slen b ≤ maxResponseBytes ∧
    ((o = None ∧ status = 404 ∧ isSocrateErrorBody b = true) ∨
     (status = 200 ∧ ∃ u, o = Some u ∧ unmarshal (decode_object decode_User) zero_User b = Some u)).
Proof.
  intros (app & st1 & _ & Hu)%bind_Ok. apply bind_Ok in Hu as (u & st2 & _ & Hdo).
  apply bind_Ok in Hdo as (resp & st3 & Hdo & Hb). apply doWithServiceToken_Ok in Hdo as [Hlast _].
  apply bind_Ok in Hb as (b & st4 & Hb & Hr). apply read_body_Ok in Hb as (Hresp & Hlen & Hsent & _).
  rewrite Hresp in Hlast. exists (status_of resp), b.
  assert (∀ s, sent s = sent st4 → last_answer s (Answer (status_of resp) b)) as Hl.
  { intros s Hs. destruct Hlast as (pre & r & Hp & Ha). exists pre, r. by rewrite Hs, Hsent. }
  destruct (Z.eqb_spec (status_of resp) 404) as [H404|].
  - destruct (isSocrateErrorBody b) eqn:Hbody; [|done]. injection Hr as <- <-. split_and!; [by apply Hl|done|by left].
  - destruct (Z.eqb_spec (status_of resp) 200) as [H200|]; [|done]. simpl in Hr.
    apply bind_Ok in Hr as (x & st5 & Hx & Hr). injection Hr as <- <-. unfold unmarshal_as in Hx.
    destruct (unmarshal _ _ b) as [x'|] eqn:Hun; [|done]. injection Hx as <- <-.
    split_and!; [by apply Hl|done|]. right. split; [done|]. by exists x'.
Qed.

End methods.

(** A member that does not exist, and a route that does not exist. *)
Module sample.

#[local] Instance time_json : TimeJson := {| time_parse _ := Some 0; time_format _ := Some "" |}.
#[local] Instance url_lib : UrlLib :=
  {| url_Parse s := Some {| u_Scheme := "https"; u_Host := "auth.example.com"; u_Tail := s |};
     url_String u := u_Scheme u +:+ "://" +:+ u_Host u |}.
#[local] Instance ip_lib : service.IPLib := {| service.canonical_ip _ := None |}.

Definition answer (_ : list HttpRequest) (r : HttpRequest) : http_answer :=
  if has_prefix (hr_URL r) "https://auth.example.com/oauth/token"
  then Answer 200 (dq "{'access_token':'svc','expires_in':3600}")
  else if has_prefix (hr_URL r) "http://127.0.0.1:8081/api/apps/5/service/users/9"
       then Answer 404 (dq "{'error':'user not found'}") else Answer 404 "404 page not found".
#[local] Instance net : Network := {| serve := answer; clock _ := 0 |}.

Definition cfg : ClientConfig :=
  {| cfg_BaseURL := "https://auth.example.com"; cfg_AdminBaseURL := "http://127.0.0.1:8081"; cfg_ClientID := "cid";
     cfg_ClientSecret := "s3cret"; cfg_AppID := "5"; cfg_Timeout := 0 |}.

Definition fresh : St :=
  {| cl := match NewClient cfg with Ok c => c | Err _ =>
             {| baseURL := ""; adminBaseURL := ""; clientID := ""; resolvedAppID := ""; httpTimeout := 0;
                tokens := service.new_client "" |} end;
     sent := []; opened := 0; ticks := 0 |}.

Lemma missing_user_is_not_missing_route_witness :
  (∃ status b, last_answer (GetUserAsService ctxutil.Background "9" fresh).2 (Answer status b) ∧ status = 404 ∧
     isSocrateErrorBody b = true) ∧
  (∃ e, (GetUserAsService ctxutil.Background "10" fresh).1 = Err e).
Proof.
  assert (GetUserAsService ctxutil.Background "9" fresh = (Ok None, (GetUserAsService ctxutil.Background "9" fresh).2)) as H
    by (vm_compute; reflexivity).
  destruct (missing_user_is_not_missing_route ctxutil.Background "9" fresh _ None H) as (status & b & Hl & _ & [Hn|Hs]).
  - split; [exists status, b; destruct Hn as (_ & H404 & Hb); auto|]. eexists. vm_compute. reflexivity.
  - destruct Hs as (_ & u & Hu & _). discriminate Hu.
Defined.

End sample.

End users.
