(* ===== verification/SocrateAdmin.v ===== *)
(** Administration and monitoring through the Socrate client: applications,
    accounts, superadmins, security and audit logs (src/socrate/admin.go),
    sessions and analytics (monitoring.go), the dashboard (dashboard.go), alert
    rules (alerts.go), reports (reports.go) and server settings (settings.go).
    Every call forwards the caller's JWT to the admin port. *)

From S2P Require Import Prelude GoText GoUrl GoJson CtxUtil Http BffMisc SocrateToken Pep SocrateService SocrateHttp SocrateUsers.

Module admin.
Import socrate client users.

Section data.
Context `{TimeJson}.

(** * Data: admin.go *)

(** [socrate/admin.go: App] *)
Record App := {
  App_ID : Z; App_Name : string; App_ClientID : string; App_Active : bool; App_IsPublic : bool;
  App_RequirePKCE : bool; App_URL : option string; App_RedirectURIs : option (list string);
  App_OwnerID : option Z; App_CreatedAt : Time;
}.
Definition zero_App : App :=
  {| App_ID := 0; App_Name := ""; App_ClientID := ""; App_Active := false; App_IsPublic := false;
  App_RequirePKCE := false; App_URL := None; App_RedirectURIs := None; App_OwnerID := None; App_CreatedAt := 0 |}.
Definition decode_App (cur : App) (l : list (string * json)) : option App :=
  x0 ← decode_field decode_uint (App_ID cur) "id" l;
  x1 ← decode_field decode_string (App_Name cur) "name" l;
  x2 ← decode_field decode_string (App_ClientID cur) "client_id" l;
  x3 ← decode_field decode_bool (App_Active cur) "active" l;
  x4 ← decode_field decode_bool (App_IsPublic cur) "is_public" l;
  x5 ← decode_field decode_bool (App_RequirePKCE cur) "require_pkce" l;
  x6 ← decode_field (decode_ptr "" decode_string) (App_URL cur) "url" l;
  x7 ← decode_field (decode_list decode_string "") (App_RedirectURIs cur) "redirect_uris" l;
  x8 ← decode_field (decode_ptr 0 decode_uint) (App_OwnerID cur) "owner_id" l;
  x9 ← decode_field decode_time (App_CreatedAt cur) "created_at" l;
  Some {| App_ID := x0; App_Name := x1; App_ClientID := x2; App_Active := x3; App_IsPublic := x4;
       App_RequirePKCE := x5; App_URL := x6; App_RedirectURIs := x7; App_OwnerID := x8; App_CreatedAt := x9 |}.

(** [socrate/admin.go: AppWithSecret] *)
Record AppWithSecret := {
  AppWithSecret_App : App; AppWithSecret_ClientSecret : string;
}.
Definition zero_AppWithSecret : AppWithSecret :=
  {| AppWithSecret_App := zero_App; AppWithSecret_ClientSecret := "" |}.
Definition decode_AppWithSecret (cur : AppWithSecret) (l : list (string * json)) : option AppWithSecret :=
  x0 ← decode_App (AppWithSecret_App cur) l;
  x1 ← decode_field decode_string (AppWithSecret_ClientSecret cur) "client_secret" l;
  Some {| AppWithSecret_App := x0; AppWithSecret_ClientSecret := x1 |}.

(** [socrate/admin.go: CreateAppRequest] *)
Record CreateAppRequest := {
  CreateAppRequest_Name : string; CreateAppRequest_URL : option string;
  CreateAppRequest_RedirectURIs : option (list string); CreateAppRequest_IsPublic : bool;
  CreateAppRequest_RequirePKCE : bool;
}.
Definition encode_CreateAppRequest (r : CreateAppRequest) : json :=
  JObj ([("name", JStr (CreateAppRequest_Name r))] ++ omit_nil "url" (CreateAppRequest_URL r) (λ v, JStr v) ++
        [("redirect_uris", enc_strings (CreateAppRequest_RedirectURIs r))] ++
        [("is_public", JBool (CreateAppRequest_IsPublic r))] ++
        [("require_pkce", JBool (CreateAppRequest_RequirePKCE r))]).

(** [socrate/admin.go: UpdateAppRequest] *)
Record UpdateAppRequest := {
  UpdateAppRequest_Name : option string; UpdateAppRequest_URL : option string;
  UpdateAppRequest_RedirectURIs : option (list string); UpdateAppRequest_Active : option bool;
}.
Definition encode_UpdateAppRequest (r : UpdateAppRequest) : json :=
  JObj (omit_nil "name" (UpdateAppRequest_Name r) (λ v, JStr v) ++
        omit_nil "url" (UpdateAppRequest_URL r) (λ v, JStr v) ++
        omit_strings "redirect_uris" (UpdateAppRequest_RedirectURIs r) ++
        omit_nil "active" (UpdateAppRequest_Active r) (λ v, JBool v)).

(** [socrate/admin.go: AppListResponse] *)
Record AppListResponse := {
  AppListResponse_Apps : option (list App); AppListResponse_TotalCount : Z;
}.
Definition zero_AppListResponse : AppListResponse :=
  {| AppListResponse_Apps := None; AppListResponse_TotalCount := 0 |}.
Definition decode_AppListResponse (cur : AppListResponse) (l : list (string * json)) : option AppListResponse :=
  x0 ← decode_field (decode_list (decode_object decode_App) zero_App) (AppListResponse_Apps cur) "apps" l;
  x1 ← decode_field decode_int (AppListResponse_TotalCount cur) "total_count" l;
  Some {| AppListResponse_Apps := x0; AppListResponse_TotalCount := x1 |}.

(** [socrate/admin.go: GlobalUser] *)
Record GlobalUser := {
  GlobalUser_ID : Z; GlobalUser_Email : string; GlobalUser_Name : string; GlobalUser_Role : string;
  GlobalUser_IsVerified : bool; GlobalUser_Title : option string; GlobalUser_Division : option string;
  GlobalUser_Company : option string; GlobalUser_Country : option string; GlobalUser_Phone : option string;
  GlobalUser_JobTitle : option string; GlobalUser_Department : option string;
  GlobalUser_Language : option string; GlobalUser_Timezone : option string; GlobalUser_LastLogin : option Time;
  GlobalUser_CreatedAt : Time;
}.
Definition zero_GlobalUser : GlobalUser :=
  {| GlobalUser_ID := 0; GlobalUser_Email := ""; GlobalUser_Name := ""; GlobalUser_Role := "";
  GlobalUser_IsVerified := false; GlobalUser_Title := None; GlobalUser_Division := None;
  GlobalUser_Company := None; GlobalUser_Country := None; GlobalUser_Phone := None; GlobalUser_JobTitle := None;
  GlobalUser_Department := None; GlobalUser_Language := None; GlobalUser_Timezone := None;
  GlobalUser_LastLogin := None; GlobalUser_CreatedAt := 0 |}.
Definition decode_GlobalUser (cur : GlobalUser) (l : list (string * json)) : option GlobalUser :=
  x0 ← decode_field decode_uint (GlobalUser_ID cur) "id" l;
  x1 ← decode_field decode_string (GlobalUser_Email cur) "email" l;
  x2 ← decode_field decode_string (GlobalUser_Name cur) "name" l;
  x3 ← decode_field decode_string (GlobalUser_Role cur) "role" l;
  x4 ← decode_field decode_bool (GlobalUser_IsVerified cur) "is_verified" l;
  x5 ← decode_field (decode_ptr "" decode_string) (GlobalUser_Title cur) "title" l;
  x6 ← decode_field (decode_ptr "" decode_string) (GlobalUser_Division cur) "division" l;
  x7 ← decode_field (decode_ptr "" decode_string) (GlobalUser_Company cur) "company" l;
  x8 ← decode_field (decode_ptr "" decode_string) (GlobalUser_Country cur) "country" l;
  x9 ← decode_field (decode_ptr "" decode_string) (GlobalUser_Phone cur) "phone" l;
  x10 ← decode_field (decode_ptr "" decode_string) (GlobalUser_JobTitle cur) "job_title" l;
  x11 ← decode_field (decode_ptr "" decode_string) (GlobalUser_Department cur) "department" l;
  x12 ← decode_field (decode_ptr "" decode_string) (GlobalUser_Language cur) "language" l;
  x13 ← decode_field (decode_ptr "" decode_string) (GlobalUser_Timezone cur) "timezone" l;
  x14 ← decode_field (decode_ptr 0 decode_time) (GlobalUser_LastLogin cur) "last_login" l;
  x15 ← decode_field decode_time (GlobalUser_CreatedAt cur) "created_at" l;
  Some {| GlobalUser_ID := x0; GlobalUser_Email := x1; GlobalUser_Name := x2; GlobalUser_Role := x3;
       GlobalUser_IsVerified := x4; GlobalUser_Title := x5; GlobalUser_Division := x6; GlobalUser_Company := x7;
       GlobalUser_Country := x8; GlobalUser_Phone := x9; GlobalUser_JobTitle := x10;
       GlobalUser_Department := x11; GlobalUser_Language := x12; GlobalUser_Timezone := x13;
       GlobalUser_LastLogin := x14; GlobalUser_CreatedAt := x15 |}.

(** [socrate/admin.go: GlobalUserListResponse] *)
Record GlobalUserListResponse := {
  GlobalUserListResponse_Users : option (list GlobalUser); GlobalUserListResponse_TotalCount : Z;
  GlobalUserListResponse_Page : Z; GlobalUserListResponse_PageSize : Z;
}.
Definition zero_GlobalUserListResponse : GlobalUserListResponse :=
  {| GlobalUserListResponse_Users := None; GlobalUserListResponse_TotalCount := 0;
  GlobalUserListResponse_Page := 0; GlobalUserListResponse_PageSize := 0 |}.
Definition decode_GlobalUserListResponse (cur : GlobalUserListResponse) (l : list (string * json)) : option GlobalUserListResponse :=
  x0 ← decode_field (decode_list (decode_object decode_GlobalUser) zero_GlobalUser) (GlobalUserListResponse_Users cur) "users" l;
  x1 ← decode_field decode_int (GlobalUserListResponse_TotalCount cur) "total_count" l;
  x2 ← decode_field decode_int (GlobalUserListResponse_Page cur) "page" l;
  x3 ← decode_field decode_int (GlobalUserListResponse_PageSize cur) "page_size" l;
  Some {| GlobalUserListResponse_Users := x0; GlobalUserListResponse_TotalCount := x1;
       GlobalUserListResponse_Page := x2; GlobalUserListResponse_PageSize := x3 |}.

(** [socrate/admin.go: Superadmin] *)
Record Superadmin := {
  Superadmin_ID : Z; Superadmin_Email : string; Superadmin_Name : string; Superadmin_CreatedAt : Time;
}.
Definition zero_Superadmin : Superadmin :=
  {| Superadmin_ID := 0; Superadmin_Email := ""; Superadmin_Name := ""; Superadmin_CreatedAt := 0 |}.
Definition decode_Superadmin (cur : Superadmin) (l : list (string * json)) : option Superadmin :=
  x0 ← decode_field decode_uint (Superadmin_ID cur) "id" l;
  x1 ← decode_field decode_string (Superadmin_Email cur) "email" l;
  x2 ← decode_field decode_string (Superadmin_Name cur) "name" l;
  x3 ← decode_field decode_time (Superadmin_CreatedAt cur) "created_at" l;
  Some {| Superadmin_ID := x0; Superadmin_Email := x1; Superadmin_Name := x2; Superadmin_CreatedAt := x3 |}.

(** [socrate/admin.go: CreateSuperadminRequest] *)
Record CreateSuperadminRequest := {
  CreateSuperadminRequest_Email : string; CreateSuperadminRequest_Name : string;
  CreateSuperadminRequest_Password : string;
}.
Definition encode_CreateSuperadminRequest (r : CreateSuperadminRequest) : json :=
  JObj ([("email", JStr (CreateSuperadminRequest_Email r))] ++
        [("name", JStr (CreateSuperadminRequest_Name r))] ++
        [("password", JStr (CreateSuperadminRequest_Password r))]).

(** [socrate/admin.go: UpdateSuperadminRequest] *)
Record UpdateSuperadminRequest := {
  UpdateSuperadminRequest_Name : option string; UpdateSuperadminRequest_Email : option string;
}.
Definition encode_UpdateSuperadminRequest (r : UpdateSuperadminRequest) : json :=
  JObj (omit_nil "name" (UpdateSuperadminRequest_Name r) (λ v, JStr v) ++
        omit_nil "email" (UpdateSuperadminRequest_Email r) (λ v, JStr v)).

(** [socrate/admin.go: ThreatMetrics] *)
Record ThreatMetrics := {
  ThreatMetrics_FailedLogins : Z; ThreatMetrics_BlockedIPs : Z; ThreatMetrics_SuspiciousEvents : Z;
  ThreatMetrics_RiskScore : string;
}.
Definition zero_ThreatMetrics : ThreatMetrics :=
  {| ThreatMetrics_FailedLogins := 0; ThreatMetrics_BlockedIPs := 0; ThreatMetrics_SuspiciousEvents := 0;
  ThreatMetrics_RiskScore := float_zero |}.
Definition decode_ThreatMetrics (cur : ThreatMetrics) (l : list (string * json)) : option ThreatMetrics :=
  x0 ← decode_field decode_int (ThreatMetrics_FailedLogins cur) "failed_logins" l;
  x1 ← decode_field decode_int (ThreatMetrics_BlockedIPs cur) "blocked_ips" l;
  x2 ← decode_field decode_int (ThreatMetrics_SuspiciousEvents cur) "suspicious_events" l;
  x3 ← decode_field decode_float (ThreatMetrics_RiskScore cur) "risk_score" l;
  Some {| ThreatMetrics_FailedLogins := x0; ThreatMetrics_BlockedIPs := x1;
       ThreatMetrics_SuspiciousEvents := x2; ThreatMetrics_RiskScore := x3 |}.

(** [socrate/admin.go: BlockedIP] *)
Record BlockedIP := {
  BlockedIP_ID : Z; BlockedIP_IPAddress : string; BlockedIP_Reason : string; BlockedIP_BlockedAt : Time;
}.
Definition zero_BlockedIP : BlockedIP :=
  {| BlockedIP_ID := 0; BlockedIP_IPAddress := ""; BlockedIP_Reason := ""; BlockedIP_BlockedAt := 0 |}.
Definition decode_BlockedIP (cur : BlockedIP) (l : list (string * json)) : option BlockedIP :=
  x0 ← decode_field decode_uint (BlockedIP_ID cur) "id" l;
  x1 ← decode_field decode_string (BlockedIP_IPAddress cur) "ip_address" l;
  x2 ← decode_field decode_string (BlockedIP_Reason cur) "reason" l;
  x3 ← decode_field decode_time (BlockedIP_BlockedAt cur) "blocked_at" l;
  Some {| BlockedIP_ID := x0; BlockedIP_IPAddress := x1; BlockedIP_Reason := x2; BlockedIP_BlockedAt := x3 |}.

(** [socrate/admin.go: BlockIPRequest] *)
Record BlockIPRequest := {
  BlockIPRequest_IPAddress : string; BlockIPRequest_Reason : string;
}.
Definition encode_BlockIPRequest (r : BlockIPRequest) : json :=
  JObj ([("ip_address", JStr (BlockIPRequest_IPAddress r))] ++ omit_empty "reason" (BlockIPRequest_Reason r)).

(** [socrate/admin.go: IPReputation] *)
Record IPReputation := {
  IPReputation_IPAddress : string; IPReputation_Score : string; IPReputation_IsBlocked : bool;
  IPReputation_FailedAuth : Z; IPReputation_LastSeen : option Time;
}.
Definition zero_IPReputation : IPReputation :=
  {| IPReputation_IPAddress := ""; IPReputation_Score := float_zero; IPReputation_IsBlocked := false;
  IPReputation_FailedAuth := 0; IPReputation_LastSeen := None |}.
Definition decode_IPReputation (cur : IPReputation) (l : list (string * json)) : option IPReputation :=
  x0 ← decode_field decode_string (IPReputation_IPAddress cur) "ip_address" l;
  x1 ← decode_field decode_float (IPReputation_Score cur) "score" l;
  x2 ← decode_field decode_bool (IPReputation_IsBlocked cur) "is_blocked" l;
  x3 ← decode_field decode_int (IPReputation_FailedAuth cur) "failed_auth" l;
  x4 ← decode_field (decode_ptr 0 decode_time) (IPReputation_LastSeen cur) "last_seen" l;
  Some {| IPReputation_IPAddress := x0; IPReputation_Score := x1; IPReputation_IsBlocked := x2;
       IPReputation_FailedAuth := x3; IPReputation_LastSeen := x4 |}.

(** [socrate/admin.go: DashboardStats] *)
Record DashboardStats := {
  DashboardStats_TotalUsers : Z; DashboardStats_TotalApps : Z; DashboardStats_ActiveSessions : Z;
  DashboardStats_FailedLogins : Z; DashboardStats_BlockedIPs : Z; DashboardStats_RiskScore : string;
}.
Definition zero_DashboardStats : DashboardStats :=
  {| DashboardStats_TotalUsers := 0; DashboardStats_TotalApps := 0; DashboardStats_ActiveSessions := 0;
  DashboardStats_FailedLogins := 0; DashboardStats_BlockedIPs := 0; DashboardStats_RiskScore := float_zero |}.
Definition decode_DashboardStats (cur : DashboardStats) (l : list (string * json)) : option DashboardStats :=
  x0 ← decode_field decode_int (DashboardStats_TotalUsers cur) "total_users" l;
  x1 ← decode_field decode_int (DashboardStats_TotalApps cur) "total_apps" l;
  x2 ← decode_field decode_int (DashboardStats_ActiveSessions cur) "active_sessions" l;
  x3 ← decode_field decode_int (DashboardStats_FailedLogins cur) "failed_logins" l;
  x4 ← decode_field decode_int (DashboardStats_BlockedIPs cur) "blocked_ips" l;
  x5 ← decode_field decode_float (DashboardStats_RiskScore cur) "risk_score" l;
  Some {| DashboardStats_TotalUsers := x0; DashboardStats_TotalApps := x1; DashboardStats_ActiveSessions := x2;
       DashboardStats_FailedLogins := x3; DashboardStats_BlockedIPs := x4; DashboardStats_RiskScore := x5 |}.

(** [socrate/admin.go: AdminLog] *)
Record AdminLog := {
  AdminLog_ID : Z; AdminLog_AdminID : Z; AdminLog_AppID : option Z; AdminLog_TargetUserID : option Z;
  AdminLog_Action : string; AdminLog_Details : option (gmap string json); AdminLog_CreatedAt : Time;
}.
Definition zero_AdminLog : AdminLog :=
  {| AdminLog_ID := 0; AdminLog_AdminID := 0; AdminLog_AppID := None; AdminLog_TargetUserID := None;
  AdminLog_Action := ""; AdminLog_Details := None; AdminLog_CreatedAt := 0 |}.
Definition decode_AdminLog (cur : AdminLog) (l : list (string * json)) : option AdminLog :=
  x0 ← decode_field decode_uint (AdminLog_ID cur) "id" l;
  x1 ← decode_field decode_uint (AdminLog_AdminID cur) "admin_id" l;
  x2 ← decode_field (decode_ptr 0 decode_uint) (AdminLog_AppID cur) "app_id" l;
  x3 ← decode_field (decode_ptr 0 decode_uint) (AdminLog_TargetUserID cur) "target_user_id" l;
  x4 ← decode_field decode_string (AdminLog_Action cur) "action" l;
  x5 ← decode_field decode_any_map (AdminLog_Details cur) "details" l;
  x6 ← decode_field decode_time (AdminLog_CreatedAt cur) "created_at" l;
  Some {| AdminLog_ID := x0; AdminLog_AdminID := x1; AdminLog_AppID := x2; AdminLog_TargetUserID := x3;
       AdminLog_Action := x4; AdminLog_Details := x5; AdminLog_CreatedAt := x6 |}.

(** [socrate/admin.go: AdminLogListResponse] *)
Record AdminLogListResponse := {
  AdminLogListResponse_Logs : option (list AdminLog); AdminLogListResponse_TotalCount : Z;
  AdminLogListResponse_Page : Z; AdminLogListResponse_PageSize : Z;
}.
Definition zero_AdminLogListResponse : AdminLogListResponse :=
  {| AdminLogListResponse_Logs := None; AdminLogListResponse_TotalCount := 0; AdminLogListResponse_Page := 0;
  AdminLogListResponse_PageSize := 0 |}.
Definition decode_AdminLogListResponse (cur : AdminLogListResponse) (l : list (string * json)) : option AdminLogListResponse :=
  x0 ← decode_field (decode_list (decode_object decode_AdminLog) zero_AdminLog) (AdminLogListResponse_Logs cur) "logs" l;
  x1 ← decode_field decode_int (AdminLogListResponse_TotalCount cur) "total_count" l;
  x2 ← decode_field decode_int (AdminLogListResponse_Page cur) "page" l;
  x3 ← decode_field decode_int (AdminLogListResponse_PageSize cur) "page_size" l;
  Some {| AdminLogListResponse_Logs := x0; AdminLogListResponse_TotalCount := x1;
       AdminLogListResponse_Page := x2; AdminLogListResponse_PageSize := x3 |}.

(** * Data: monitoring.go *)

(** [socrate/monitoring.go: AppActivityLog] *)
Record AppActivityLog := {
  AppActivityLog_ID : Z; AppActivityLog_AppID : Z; AppActivityLog_UserID : option Z;
  AppActivityLog_EventType : string; AppActivityLog_EventCategory : string;
  AppActivityLog_Metadata : option (gmap string json); AppActivityLog_IPAddress : option string;
  AppActivityLog_UserAgent : option string; AppActivityLog_Success : bool; AppActivityLog_CreatedAt : Time;
}.
Definition zero_AppActivityLog : AppActivityLog :=
  {| AppActivityLog_ID := 0; AppActivityLog_AppID := 0; AppActivityLog_UserID := None;
  AppActivityLog_EventType := ""; AppActivityLog_EventCategory := ""; AppActivityLog_Metadata := None;
  AppActivityLog_IPAddress := None; AppActivityLog_UserAgent := None; AppActivityLog_Success := false;
  AppActivityLog_CreatedAt := 0 |}.
Definition decode_AppActivityLog (cur : AppActivityLog) (l : list (string * json)) : option AppActivityLog :=
  x0 ← decode_field decode_uint (AppActivityLog_ID cur) "id" l;
  x1 ← decode_field decode_uint (AppActivityLog_AppID cur) "app_id" l;
  x2 ← decode_field (decode_ptr 0 decode_uint) (AppActivityLog_UserID cur) "user_id" l;
  x3 ← decode_field decode_string (AppActivityLog_EventType cur) "event_type" l;
  x4 ← decode_field decode_string (AppActivityLog_EventCategory cur) "event_category" l;
  x5 ← decode_field decode_any_map (AppActivityLog_Metadata cur) "metadata" l;
  x6 ← decode_field (decode_ptr "" decode_string) (AppActivityLog_IPAddress cur) "ip_address" l;
  x7 ← decode_field (decode_ptr "" decode_string) (AppActivityLog_UserAgent cur) "user_agent" l;
  x8 ← decode_field decode_bool (AppActivityLog_Success cur) "success" l;
  x9 ← decode_field decode_time (AppActivityLog_CreatedAt cur) "created_at" l;
  Some {| AppActivityLog_ID := x0; AppActivityLog_AppID := x1; AppActivityLog_UserID := x2;
       AppActivityLog_EventType := x3; AppActivityLog_EventCategory := x4; AppActivityLog_Metadata := x5;
       AppActivityLog_IPAddress := x6; AppActivityLog_UserAgent := x7; AppActivityLog_Success := x8;
       AppActivityLog_CreatedAt := x9 |}.

(** [socrate/monitoring.go: AppActivityLogListResponse] *)
Record AppActivityLogListResponse := {
  AppActivityLogListResponse_Logs : option (list AppActivityLog); AppActivityLogListResponse_TotalCount : Z;
  AppActivityLogListResponse_Page : Z; AppActivityLogListResponse_PageSize : Z;
}.
Definition zero_AppActivityLogListResponse : AppActivityLogListResponse :=
  {| AppActivityLogListResponse_Logs := None; AppActivityLogListResponse_TotalCount := 0;
  AppActivityLogListResponse_Page := 0; AppActivityLogListResponse_PageSize := 0 |}.
Definition decode_AppActivityLogListResponse (cur : AppActivityLogListResponse) (l : list (string * json)) : option AppActivityLogListResponse :=
  x0 ← decode_field (decode_list (decode_object decode_AppActivityLog) zero_AppActivityLog) (AppActivityLogListResponse_Logs cur) "logs" l;
  x1 ← decode_field decode_int (AppActivityLogListResponse_TotalCount cur) "total_count" l;
  x2 ← decode_field decode_int (AppActivityLogListResponse_Page cur) "page" l;
  x3 ← decode_field decode_int (AppActivityLogListResponse_PageSize cur) "page_size" l;
  Some {| AppActivityLogListResponse_Logs := x0; AppActivityLogListResponse_TotalCount := x1;
       AppActivityLogListResponse_Page := x2; AppActivityLogListResponse_PageSize := x3 |}.

(** [socrate/monitoring.go: Session] *)
Record Session := {
  Session_ID : string; Session_UserID : Z; Session_UserEmail : string; Session_AppID : Z;
  Session_AppName : string; Session_IPAddress : string; Session_UserAgent : string; Session_CreatedAt : Time;
  Session_LastActivity : Time; Session_ExpiresAt : Time;
}.
Definition zero_Session : Session :=
  {| Session_ID := ""; Session_UserID := 0; Session_UserEmail := ""; Session_AppID := 0; Session_AppName := "";
  Session_IPAddress := ""; Session_UserAgent := ""; Session_CreatedAt := 0; Session_LastActivity := 0;
  Session_ExpiresAt := 0 |}.
Definition decode_Session (cur : Session) (l : list (string * json)) : option Session :=
  x0 ← decode_field decode_string (Session_ID cur) "id" l;
  x1 ← decode_field decode_uint (Session_UserID cur) "user_id" l;
  x2 ← decode_field decode_string (Session_UserEmail cur) "user_email" l;
  x3 ← decode_field decode_uint (Session_AppID cur) "app_id" l;
  x4 ← decode_field decode_string (Session_AppName cur) "app_name" l;
  x5 ← decode_field decode_string (Session_IPAddress cur) "ip_address" l;
  x6 ← decode_field decode_string (Session_UserAgent cur) "user_agent" l;
  x7 ← decode_field decode_time (Session_CreatedAt cur) "created_at" l;
  x8 ← decode_field decode_time (Session_LastActivity cur) "last_activity" l;
  x9 ← decode_field decode_time (Session_ExpiresAt cur) "expires_at" l;
  Some {| Session_ID := x0; Session_UserID := x1; Session_UserEmail := x2; Session_AppID := x3;
       Session_AppName := x4; Session_IPAddress := x5; Session_UserAgent := x6; Session_CreatedAt := x7;
       Session_LastActivity := x8; Session_ExpiresAt := x9 |}.

(** [socrate/monitoring.go: SessionListResponse] *)
Record SessionListResponse := {
  SessionListResponse_Sessions : option (list Session); SessionListResponse_Total : Z;
  SessionListResponse_Page : Z; SessionListResponse_PageSize : Z;
}.
Definition zero_SessionListResponse : SessionListResponse :=
  {| SessionListResponse_Sessions := None; SessionListResponse_Total := 0; SessionListResponse_Page := 0;
  SessionListResponse_PageSize := 0 |}.
Definition decode_SessionListResponse (cur : SessionListResponse) (l : list (string * json)) : option SessionListResponse :=
  x0 ← decode_field (decode_list (decode_object decode_Session) zero_Session) (SessionListResponse_Sessions cur) "sessions" l;
  x1 ← decode_field decode_int (SessionListResponse_Total cur) "total" l;
  x2 ← decode_field decode_int (SessionListResponse_Page cur) "page" l;
  x3 ← decode_field decode_int (SessionListResponse_PageSize cur) "page_size" l;
  Some {| SessionListResponse_Sessions := x0; SessionListResponse_Total := x1; SessionListResponse_Page := x2;
       SessionListResponse_PageSize := x3 |}.

(** [socrate/monitoring.go: GeoCountryStats] *)
Record GeoCountryStats := {
  GeoCountryStats_CountryCode : string; GeoCountryStats_CountryName : string; GeoCountryStats_LoginCount : Z;
  GeoCountryStats_UniqueUsers : Z; GeoCountryStats_FailedCount : Z;
}.
Definition zero_GeoCountryStats : GeoCountryStats :=
  {| GeoCountryStats_CountryCode := ""; GeoCountryStats_CountryName := ""; GeoCountryStats_LoginCount := 0;
  GeoCountryStats_UniqueUsers := 0; GeoCountryStats_FailedCount := 0 |}.
Definition decode_GeoCountryStats (cur : GeoCountryStats) (l : list (string * json)) : option GeoCountryStats :=
  x0 ← decode_field decode_string (GeoCountryStats_CountryCode cur) "country_code" l;
  x1 ← decode_field decode_string (GeoCountryStats_CountryName cur) "country_name" l;
  x2 ← decode_field decode_int (GeoCountryStats_LoginCount cur) "login_count" l;
  x3 ← decode_field decode_int (GeoCountryStats_UniqueUsers cur) "unique_users" l;
  x4 ← decode_field decode_int (GeoCountryStats_FailedCount cur) "failed_count" l;
  Some {| GeoCountryStats_CountryCode := x0; GeoCountryStats_CountryName := x1;
       GeoCountryStats_LoginCount := x2; GeoCountryStats_UniqueUsers := x3; GeoCountryStats_FailedCount := x4 |}.

(** [socrate/monitoring.go: GeoCityStats] *)
Record GeoCityStats := {
  GeoCityStats_City : string; GeoCityStats_CountryCode : string; GeoCityStats_Latitude : string;
  GeoCityStats_Longitude : string; GeoCityStats_LoginCount : Z; GeoCityStats_FailedCount : Z;
}.
Definition zero_GeoCityStats : GeoCityStats :=
  {| GeoCityStats_City := ""; GeoCityStats_CountryCode := ""; GeoCityStats_Latitude := float_zero;
  GeoCityStats_Longitude := float_zero; GeoCityStats_LoginCount := 0; GeoCityStats_FailedCount := 0 |}.
Definition decode_GeoCityStats (cur : GeoCityStats) (l : list (string * json)) : option GeoCityStats :=
  x0 ← decode_field decode_string (GeoCityStats_City cur) "city" l;
  x1 ← decode_field decode_string (GeoCityStats_CountryCode cur) "country_code" l;
  x2 ← decode_field decode_float (GeoCityStats_Latitude cur) "latitude" l;
  x3 ← decode_field decode_float (GeoCityStats_Longitude cur) "longitude" l;
  x4 ← decode_field decode_int (GeoCityStats_LoginCount cur) "login_count" l;
  x5 ← decode_field decode_int (GeoCityStats_FailedCount cur) "failed_count" l;
  Some {| GeoCityStats_City := x0; GeoCityStats_CountryCode := x1; GeoCityStats_Latitude := x2;
       GeoCityStats_Longitude := x3; GeoCityStats_LoginCount := x4; GeoCityStats_FailedCount := x5 |}.

(** [socrate/monitoring.go: GeoAnomaly] *)
Record GeoAnomaly := {
  GeoAnomaly_UserID : Z; GeoAnomaly_UserEmail : string; GeoAnomaly_Description : string;
  GeoAnomaly_UsualCountry : string; GeoAnomaly_LoginCountry : string; GeoAnomaly_CreatedAt : Time;
}.
Definition zero_GeoAnomaly : GeoAnomaly :=
  {| GeoAnomaly_UserID := 0; GeoAnomaly_UserEmail := ""; GeoAnomaly_Description := "";
  GeoAnomaly_UsualCountry := ""; GeoAnomaly_LoginCountry := ""; GeoAnomaly_CreatedAt := 0 |}.
Definition decode_GeoAnomaly (cur : GeoAnomaly) (l : list (string * json)) : option GeoAnomaly :=
  x0 ← decode_field decode_uint (GeoAnomaly_UserID cur) "user_id" l;
  x1 ← decode_field decode_string (GeoAnomaly_UserEmail cur) "user_email" l;
  x2 ← decode_field decode_string (GeoAnomaly_Description cur) "description" l;
  x3 ← decode_field decode_string (GeoAnomaly_UsualCountry cur) "usual_country" l;
  x4 ← decode_field decode_string (GeoAnomaly_LoginCountry cur) "login_country" l;
  x5 ← decode_field decode_time (GeoAnomaly_CreatedAt cur) "created_at" l;
  Some {| GeoAnomaly_UserID := x0; GeoAnomaly_UserEmail := x1; GeoAnomaly_Description := x2;
       GeoAnomaly_UsualCountry := x3; GeoAnomaly_LoginCountry := x4; GeoAnomaly_CreatedAt := x5 |}.

(** [socrate/monitoring.go: GeoAnalytics] *)
Record GeoAnalytics := {
  GeoAnalytics_Period : string; GeoAnalytics_GeoConfigured : bool;
  GeoAnalytics_ByCountry : option (list GeoCountryStats); GeoAnalytics_ByCity : option (list GeoCityStats);
  GeoAnalytics_Anomalies : option (list GeoAnomaly);
}.
Definition zero_GeoAnalytics : GeoAnalytics :=
  {| GeoAnalytics_Period := ""; GeoAnalytics_GeoConfigured := false; GeoAnalytics_ByCountry := None;
  GeoAnalytics_ByCity := None; GeoAnalytics_Anomalies := None |}.
Definition decode_GeoAnalytics (cur : GeoAnalytics) (l : list (string * json)) : option GeoAnalytics :=
  x0 ← decode_field decode_string (GeoAnalytics_Period cur) "period" l;
  x1 ← decode_field decode_bool (GeoAnalytics_GeoConfigured cur) "geo_configured" l;
  x2 ← decode_field (decode_list (decode_object decode_GeoCountryStats) zero_GeoCountryStats) (GeoAnalytics_ByCountry cur) "by_country" l;
  x3 ← decode_field (decode_list (decode_object decode_GeoCityStats) zero_GeoCityStats) (GeoAnalytics_ByCity cur) "by_city" l;
  x4 ← decode_field (decode_list (decode_object decode_GeoAnomaly) zero_GeoAnomaly) (GeoAnalytics_Anomalies cur) "anomalies" l;
  Some {| GeoAnalytics_Period := x0; GeoAnalytics_GeoConfigured := x1; GeoAnalytics_ByCountry := x2;
       GeoAnalytics_ByCity := x3; GeoAnalytics_Anomalies := x4 |}.

(** [socrate/monitoring.go: TokenCounts] *)
Record TokenCounts := {
  TokenCounts_AccessTokens : Z; TokenCounts_RefreshTokens : Z; TokenCounts_IDTokens : Z;
}.
Definition zero_TokenCounts : TokenCounts :=
  {| TokenCounts_AccessTokens := 0; TokenCounts_RefreshTokens := 0; TokenCounts_IDTokens := 0 |}.
Definition decode_TokenCounts (cur : TokenCounts) (l : list (string * json)) : option TokenCounts :=
  x0 ← decode_field decode_int (TokenCounts_AccessTokens cur) "access_tokens" l;
  x1 ← decode_field decode_int (TokenCounts_RefreshTokens cur) "refresh_tokens" l;
  x2 ← decode_field decode_int (TokenCounts_IDTokens cur) "id_tokens" l;
  Some {| TokenCounts_AccessTokens := x0; TokenCounts_RefreshTokens := x1; TokenCounts_IDTokens := x2 |}.

(** [socrate/monitoring.go: TokenAppStats] *)
Record TokenAppStats := {
  TokenAppStats_AppID : Z; TokenAppStats_AppName : string; TokenAppStats_Issued : Z;
  TokenAppStats_Refreshed : Z; TokenAppStats_Revoked : Z;
}.
Definition zero_TokenAppStats : TokenAppStats :=
  {| TokenAppStats_AppID := 0; TokenAppStats_AppName := ""; TokenAppStats_Issued := 0;
  TokenAppStats_Refreshed := 0; TokenAppStats_Revoked := 0 |}.
Definition decode_TokenAppStats (cur : TokenAppStats) (l : list (string * json)) : option TokenAppStats :=
  x0 ← decode_field decode_uint (TokenAppStats_AppID cur) "app_id" l;
  x1 ← decode_field decode_string (TokenAppStats_AppName cur) "app_name" l;
  x2 ← decode_field decode_int (TokenAppStats_Issued cur) "issued" l;
  x3 ← decode_field decode_int (TokenAppStats_Refreshed cur) "refreshed" l;
  x4 ← decode_field decode_int (TokenAppStats_Revoked cur) "revoked" l;
  Some {| TokenAppStats_AppID := x0; TokenAppStats_AppName := x1; TokenAppStats_Issued := x2;
       TokenAppStats_Refreshed := x3; TokenAppStats_Revoked := x4 |}.

(** [socrate/monitoring.go: TokenHourlyStats] *)
Record TokenHourlyStats := {
  TokenHourlyStats_Hour : Time; TokenHourlyStats_Issued : Z; TokenHourlyStats_Refreshed : Z;
  TokenHourlyStats_Revoked : Z;
}.
Definition zero_TokenHourlyStats : TokenHourlyStats :=
  {| TokenHourlyStats_Hour := 0; TokenHourlyStats_Issued := 0; TokenHourlyStats_Refreshed := 0;
  TokenHourlyStats_Revoked := 0 |}.
Definition decode_TokenHourlyStats (cur : TokenHourlyStats) (l : list (string * json)) : option TokenHourlyStats :=
  x0 ← decode_field decode_time (TokenHourlyStats_Hour cur) "hour" l;
  x1 ← decode_field decode_int (TokenHourlyStats_Issued cur) "issued" l;
  x2 ← decode_field decode_int (TokenHourlyStats_Refreshed cur) "refreshed" l;
  x3 ← decode_field decode_int (TokenHourlyStats_Revoked cur) "revoked" l;
  Some {| TokenHourlyStats_Hour := x0; TokenHourlyStats_Issued := x1; TokenHourlyStats_Refreshed := x2;
       TokenHourlyStats_Revoked := x3 |}.

(** [socrate/monitoring.go: TokenStats] *)
Record TokenStats := {
  TokenStats_Period : string; TokenStats_Issued : TokenCounts; TokenStats_Refreshed : Z; TokenStats_Revoked : Z;
  TokenStats_ExpiredUsageAttempts : Z; TokenStats_InvalidUsageAttempts : Z;
  TokenStats_ByApp : option (list TokenAppStats); TokenStats_ByHour : option (list TokenHourlyStats);
}.
Definition zero_TokenStats : TokenStats :=
  {| TokenStats_Period := ""; TokenStats_Issued := zero_TokenCounts; TokenStats_Refreshed := 0;
  TokenStats_Revoked := 0; TokenStats_ExpiredUsageAttempts := 0; TokenStats_InvalidUsageAttempts := 0;
  TokenStats_ByApp := None; TokenStats_ByHour := None |}.
Definition decode_TokenStats (cur : TokenStats) (l : list (string * json)) : option TokenStats :=
  x0 ← decode_field decode_string (TokenStats_Period cur) "period" l;
  x1 ← decode_field (decode_object decode_TokenCounts) (TokenStats_Issued cur) "issued" l;
  x2 ← decode_field decode_int (TokenStats_Refreshed cur) "refreshed" l;
  x3 ← decode_field decode_int (TokenStats_Revoked cur) "revoked" l;
  x4 ← decode_field decode_int (TokenStats_ExpiredUsageAttempts cur) "expired_usage_attempts" l;
  x5 ← decode_field decode_int (TokenStats_InvalidUsageAttempts cur) "invalid_usage_attempts" l;
  x6 ← decode_field (decode_list (decode_object decode_TokenAppStats) zero_TokenAppStats) (TokenStats_ByApp cur) "by_app" l;
  x7 ← decode_field (decode_list (decode_object decode_TokenHourlyStats) zero_TokenHourlyStats) (TokenStats_ByHour cur) "by_hour" l;
  Some {| TokenStats_Period := x0; TokenStats_Issued := x1; TokenStats_Refreshed := x2;
       TokenStats_Revoked := x3; TokenStats_ExpiredUsageAttempts := x4; TokenStats_InvalidUsageAttempts := x5;
       TokenStats_ByApp := x6; TokenStats_ByHour := x7 |}.

(** * Data: dashboard.go, alerts.go, reports.go, settings.go *)

(** [socrate/dashboard.go: DashboardActivityItem] *)
Record DashboardActivityItem := {
  DashboardActivityItem_ID : Z; DashboardActivityItem_Type : string; DashboardActivityItem_Description : string;
  DashboardActivityItem_UserID : option Z; DashboardActivityItem_UserEmail : string;
  DashboardActivityItem_AppID : option Z; DashboardActivityItem_AppName : string;
  DashboardActivityItem_IPAddress : string; DashboardActivityItem_Success : bool;
  DashboardActivityItem_Metadata : option (gmap string json); DashboardActivityItem_CreatedAt : Time;
}.
Definition zero_DashboardActivityItem : DashboardActivityItem :=
  {| DashboardActivityItem_ID := 0; DashboardActivityItem_Type := ""; DashboardActivityItem_Description := "";
  DashboardActivityItem_UserID := None; DashboardActivityItem_UserEmail := "";
  DashboardActivityItem_AppID := None; DashboardActivityItem_AppName := "";
  DashboardActivityItem_IPAddress := ""; DashboardActivityItem_Success := false;
  DashboardActivityItem_Metadata := None; DashboardActivityItem_CreatedAt := 0 |}.
Definition decode_DashboardActivityItem (cur : DashboardActivityItem) (l : list (string * json)) : option DashboardActivityItem :=
  x0 ← decode_field decode_uint (DashboardActivityItem_ID cur) "id" l;
  x1 ← decode_field decode_string (DashboardActivityItem_Type cur) "type" l;
  x2 ← decode_field decode_string (DashboardActivityItem_Description cur) "description" l;
  x3 ← decode_field (decode_ptr 0 decode_uint) (DashboardActivityItem_UserID cur) "user_id" l;
  x4 ← decode_field decode_string (DashboardActivityItem_UserEmail cur) "user_email" l;
  x5 ← decode_field (decode_ptr 0 decode_uint) (DashboardActivityItem_AppID cur) "app_id" l;
  x6 ← decode_field decode_string (DashboardActivityItem_AppName cur) "app_name" l;
  x7 ← decode_field decode_string (DashboardActivityItem_IPAddress cur) "ip_address" l;
  x8 ← decode_field decode_bool (DashboardActivityItem_Success cur) "success" l;
  x9 ← decode_field decode_any_map (DashboardActivityItem_Metadata cur) "metadata" l;
  x10 ← decode_field decode_time (DashboardActivityItem_CreatedAt cur) "created_at" l;
  Some {| DashboardActivityItem_ID := x0; DashboardActivityItem_Type := x1;
       DashboardActivityItem_Description := x2; DashboardActivityItem_UserID := x3;
       DashboardActivityItem_UserEmail := x4; DashboardActivityItem_AppID := x5;
       DashboardActivityItem_AppName := x6; DashboardActivityItem_IPAddress := x7;
       DashboardActivityItem_Success := x8; DashboardActivityItem_Metadata := x9;
       DashboardActivityItem_CreatedAt := x10 |}.

(** [socrate/dashboard.go: DashboardActivityResponse] *)
Record DashboardActivityResponse := {
  DashboardActivityResponse_Activities : option (list DashboardActivityItem);
  DashboardActivityResponse_Total : Z;
}.
Definition zero_DashboardActivityResponse : DashboardActivityResponse :=
  {| DashboardActivityResponse_Activities := None; DashboardActivityResponse_Total := 0 |}.
Definition decode_DashboardActivityResponse (cur : DashboardActivityResponse) (l : list (string * json)) : option DashboardActivityResponse :=
  x0 ← decode_field (decode_list (decode_object decode_DashboardActivityItem) zero_DashboardActivityItem) (DashboardActivityResponse_Activities cur) "activities" l;
  x1 ← decode_field decode_int (DashboardActivityResponse_Total cur) "total" l;
  Some {| DashboardActivityResponse_Activities := x0; DashboardActivityResponse_Total := x1 |}.

(** [socrate/dashboard.go: LoginTrendItem] *)
Record LoginTrendItem := {
  LoginTrendItem_Date : string; LoginTrendItem_SuccessCount : Z; LoginTrendItem_FailureCount : Z;
  LoginTrendItem_UniqueUsers : Z;
}.
Definition zero_LoginTrendItem : LoginTrendItem :=
  {| LoginTrendItem_Date := ""; LoginTrendItem_SuccessCount := 0; LoginTrendItem_FailureCount := 0;
  LoginTrendItem_UniqueUsers := 0 |}.
Definition decode_LoginTrendItem (cur : LoginTrendItem) (l : list (string * json)) : option LoginTrendItem :=
  x0 ← decode_field decode_string (LoginTrendItem_Date cur) "date" l;
  x1 ← decode_field decode_int (LoginTrendItem_SuccessCount cur) "success_count" l;
  x2 ← decode_field decode_int (LoginTrendItem_FailureCount cur) "failure_count" l;
  x3 ← decode_field decode_int (LoginTrendItem_UniqueUsers cur) "unique_users" l;
  Some {| LoginTrendItem_Date := x0; LoginTrendItem_SuccessCount := x1; LoginTrendItem_FailureCount := x2;
       LoginTrendItem_UniqueUsers := x3 |}.

(** [socrate/dashboard.go: LoginTrendsResponse] *)
Record LoginTrendsResponse := {
  LoginTrendsResponse_Trends : option (list LoginTrendItem); LoginTrendsResponse_Period : string;
}.
Definition zero_LoginTrendsResponse : LoginTrendsResponse :=
  {| LoginTrendsResponse_Trends := None; LoginTrendsResponse_Period := "" |}.
Definition decode_LoginTrendsResponse (cur : LoginTrendsResponse) (l : list (string * json)) : option LoginTrendsResponse :=
  x0 ← decode_field (decode_list (decode_object decode_LoginTrendItem) zero_LoginTrendItem) (LoginTrendsResponse_Trends cur) "trends" l;
  x1 ← decode_field decode_string (LoginTrendsResponse_Period cur) "period" l;
  Some {| LoginTrendsResponse_Trends := x0; LoginTrendsResponse_Period := x1 |}.

(** [socrate/dashboard.go: AppUsageItem] *)
Record AppUsageItem := {
  AppUsageItem_AppID : Z; AppUsageItem_AppName : string; AppUsageItem_ClientID : string;
  AppUsageItem_TotalUsers : Z; AppUsageItem_ActiveUsers : Z; AppUsageItem_TotalLogins : Z;
  AppUsageItem_LastActivity : option Time;
}.
Definition zero_AppUsageItem : AppUsageItem :=
  {| AppUsageItem_AppID := 0; AppUsageItem_AppName := ""; AppUsageItem_ClientID := "";
  AppUsageItem_TotalUsers := 0; AppUsageItem_ActiveUsers := 0; AppUsageItem_TotalLogins := 0;
  AppUsageItem_LastActivity := None |}.
Definition decode_AppUsageItem (cur : AppUsageItem) (l : list (string * json)) : option AppUsageItem :=
  x0 ← decode_field decode_uint (AppUsageItem_AppID cur) "app_id" l;
  x1 ← decode_field decode_string (AppUsageItem_AppName cur) "app_name" l;
  x2 ← decode_field decode_string (AppUsageItem_ClientID cur) "client_id" l;
  x3 ← decode_field decode_int (AppUsageItem_TotalUsers cur) "total_users" l;
  x4 ← decode_field decode_int (AppUsageItem_ActiveUsers cur) "active_users" l;
  x5 ← decode_field decode_int (AppUsageItem_TotalLogins cur) "total_logins" l;
  x6 ← decode_field (decode_ptr 0 decode_time) (AppUsageItem_LastActivity cur) "last_activity" l;
  Some {| AppUsageItem_AppID := x0; AppUsageItem_AppName := x1; AppUsageItem_ClientID := x2;
       AppUsageItem_TotalUsers := x3; AppUsageItem_ActiveUsers := x4; AppUsageItem_TotalLogins := x5;
       AppUsageItem_LastActivity := x6 |}.

(** [socrate/dashboard.go: AppUsageResponse] *)
Record AppUsageResponse := {
  AppUsageResponse_Apps : option (list AppUsageItem); AppUsageResponse_Total : Z;
}.
Definition zero_AppUsageResponse : AppUsageResponse :=
  {| AppUsageResponse_Apps := None; AppUsageResponse_Total := 0 |}.
Definition decode_AppUsageResponse (cur : AppUsageResponse) (l : list (string * json)) : option AppUsageResponse :=
  x0 ← decode_field (decode_list (decode_object decode_AppUsageItem) zero_AppUsageItem) (AppUsageResponse_Apps cur) "apps" l;
  x1 ← decode_field decode_int (AppUsageResponse_Total cur) "total" l;
  Some {| AppUsageResponse_Apps := x0; AppUsageResponse_Total := x1 |}.

(** [socrate/alerts.go: AlertRule] *)
Record AlertRule := {
  AlertRule_ID : Z; AlertRule_Name : string; AlertRule_Description : string; AlertRule_EventType : string;
  AlertRule_Condition : option (gmap string json); AlertRule_Severity : string; AlertRule_Enabled : bool;
  AlertRule_Actions : option (list string); AlertRule_Recipients : option (list string);
  AlertRule_WebhookURL : string; AlertRule_CreatedAt : Time; AlertRule_UpdatedAt : Time;
}.
Definition zero_AlertRule : AlertRule :=
  {| AlertRule_ID := 0; AlertRule_Name := ""; AlertRule_Description := ""; AlertRule_EventType := "";
  AlertRule_Condition := None; AlertRule_Severity := ""; AlertRule_Enabled := false; AlertRule_Actions := None;
  AlertRule_Recipients := None; AlertRule_WebhookURL := ""; AlertRule_CreatedAt := 0; AlertRule_UpdatedAt := 0 |}.
Definition decode_AlertRule (cur : AlertRule) (l : list (string * json)) : option AlertRule :=
  x0 ← decode_field decode_uint (AlertRule_ID cur) "id" l;
  x1 ← decode_field decode_string (AlertRule_Name cur) "name" l;
  x2 ← decode_field decode_string (AlertRule_Description cur) "description" l;
  x3 ← decode_field decode_string (AlertRule_EventType cur) "event_type" l;
  x4 ← decode_field decode_any_map (AlertRule_Condition cur) "condition" l;
  x5 ← decode_field decode_string (AlertRule_Severity cur) "severity" l;
  x6 ← decode_field decode_bool (AlertRule_Enabled cur) "enabled" l;
  x7 ← decode_field (decode_list decode_string "") (AlertRule_Actions cur) "actions" l;
  x8 ← decode_field (decode_list decode_string "") (AlertRule_Recipients cur) "recipients" l;
  x9 ← decode_field decode_string (AlertRule_WebhookURL cur) "webhook_url" l;
  x10 ← decode_field decode_time (AlertRule_CreatedAt cur) "created_at" l;
  x11 ← decode_field decode_time (AlertRule_UpdatedAt cur) "updated_at" l;
  Some {| AlertRule_ID := x0; AlertRule_Name := x1; AlertRule_Description := x2; AlertRule_EventType := x3;
       AlertRule_Condition := x4; AlertRule_Severity := x5; AlertRule_Enabled := x6; AlertRule_Actions := x7;
       AlertRule_Recipients := x8; AlertRule_WebhookURL := x9; AlertRule_CreatedAt := x10;
       AlertRule_UpdatedAt := x11 |}.

(** [socrate/alerts.go: AlertRuleRequest] *)
Record AlertRuleRequest := {
  AlertRuleRequest_Name : string; AlertRuleRequest_Description : string; AlertRuleRequest_EventType : string;
  AlertRuleRequest_Condition : any_map; AlertRuleRequest_Severity : string;
  AlertRuleRequest_Enabled : option bool; AlertRuleRequest_Actions : option (list string);
  AlertRuleRequest_Recipients : option (list string); AlertRuleRequest_WebhookURL : string;
}.

(** [socrate/alerts.go: AlertRulesListResponse] *)
Record AlertRulesListResponse := {
  AlertRulesListResponse_Rules : option (list AlertRule); AlertRulesListResponse_Total : Z;
}.
Definition zero_AlertRulesListResponse : AlertRulesListResponse :=
  {| AlertRulesListResponse_Rules := None; AlertRulesListResponse_Total := 0 |}.
Definition decode_AlertRulesListResponse (cur : AlertRulesListResponse) (l : list (string * json)) : option AlertRulesListResponse :=
  x0 ← decode_field (decode_list (decode_object decode_AlertRule) zero_AlertRule) (AlertRulesListResponse_Rules cur) "rules" l;
  x1 ← decode_field decode_int (AlertRulesListResponse_Total cur) "total" l;
  Some {| AlertRulesListResponse_Rules := x0; AlertRulesListResponse_Total := x1 |}.

(** [socrate/alerts.go: TriggeredAlert] *)
Record TriggeredAlert := {
  TriggeredAlert_ID : Z; TriggeredAlert_RuleID : Z; TriggeredAlert_RuleName : string;
  TriggeredAlert_Severity : string; TriggeredAlert_Message : string;
  TriggeredAlert_Details : option (gmap string json); TriggeredAlert_Acknowledged : bool;
  TriggeredAlert_AcknowledgedBy : option Z; TriggeredAlert_AcknowledgedAt : option Time;
  TriggeredAlert_AcknowledgeNote : string; TriggeredAlert_TriggeredAt : Time;
}.
Definition zero_TriggeredAlert : TriggeredAlert :=
  {| TriggeredAlert_ID := 0; TriggeredAlert_RuleID := 0; TriggeredAlert_RuleName := "";
  TriggeredAlert_Severity := ""; TriggeredAlert_Message := ""; TriggeredAlert_Details := None;
  TriggeredAlert_Acknowledged := false; TriggeredAlert_AcknowledgedBy := None;
  TriggeredAlert_AcknowledgedAt := None; TriggeredAlert_AcknowledgeNote := ""; TriggeredAlert_TriggeredAt := 0 |}.
Definition decode_TriggeredAlert (cur : TriggeredAlert) (l : list (string * json)) : option TriggeredAlert :=
  x0 ← decode_field decode_uint (TriggeredAlert_ID cur) "id" l;
  x1 ← decode_field decode_uint (TriggeredAlert_RuleID cur) "rule_id" l;
  x2 ← decode_field decode_string (TriggeredAlert_RuleName cur) "rule_name" l;
  x3 ← decode_field decode_string (TriggeredAlert_Severity cur) "severity" l;
  x4 ← decode_field decode_string (TriggeredAlert_Message cur) "message" l;
  x5 ← decode_field decode_any_map (TriggeredAlert_Details cur) "details" l;
  x6 ← decode_field decode_bool (TriggeredAlert_Acknowledged cur) "acknowledged" l;
  x7 ← decode_field (decode_ptr 0 decode_uint) (TriggeredAlert_AcknowledgedBy cur) "acknowledged_by" l;
  x8 ← decode_field (decode_ptr 0 decode_time) (TriggeredAlert_AcknowledgedAt cur) "acknowledged_at" l;
  x9 ← decode_field decode_string (TriggeredAlert_AcknowledgeNote cur) "acknowledge_note" l;
  x10 ← decode_field decode_time (TriggeredAlert_TriggeredAt cur) "triggered_at" l;
  Some {| TriggeredAlert_ID := x0; TriggeredAlert_RuleID := x1; TriggeredAlert_RuleName := x2;
       TriggeredAlert_Severity := x3; TriggeredAlert_Message := x4; TriggeredAlert_Details := x5;
       TriggeredAlert_Acknowledged := x6; TriggeredAlert_AcknowledgedBy := x7;
       TriggeredAlert_AcknowledgedAt := x8; TriggeredAlert_AcknowledgeNote := x9;
       TriggeredAlert_TriggeredAt := x10 |}.

(** [socrate/alerts.go: AlertsHistoryResponse] *)
Record AlertsHistoryResponse := {
  AlertsHistoryResponse_Alerts : option (list TriggeredAlert); AlertsHistoryResponse_Total : Z;
  AlertsHistoryResponse_Unacknowledged : Z; AlertsHistoryResponse_Page : Z; AlertsHistoryResponse_PageSize : Z;
}.
Definition zero_AlertsHistoryResponse : AlertsHistoryResponse :=
  {| AlertsHistoryResponse_Alerts := None; AlertsHistoryResponse_Total := 0;
  AlertsHistoryResponse_Unacknowledged := 0; AlertsHistoryResponse_Page := 0;
  AlertsHistoryResponse_PageSize := 0 |}.
Definition decode_AlertsHistoryResponse (cur : AlertsHistoryResponse) (l : list (string * json)) : option AlertsHistoryResponse :=
  x0 ← decode_field (decode_list (decode_object decode_TriggeredAlert) zero_TriggeredAlert) (AlertsHistoryResponse_Alerts cur) "alerts" l;
  x1 ← decode_field decode_int (AlertsHistoryResponse_Total cur) "total" l;
  x2 ← decode_field decode_int (AlertsHistoryResponse_Unacknowledged cur) "unacknowledged" l;
  x3 ← decode_field decode_int (AlertsHistoryResponse_Page cur) "page" l;
  x4 ← decode_field decode_int (AlertsHistoryResponse_PageSize cur) "page_size" l;
  Some {| AlertsHistoryResponse_Alerts := x0; AlertsHistoryResponse_Total := x1;
       AlertsHistoryResponse_Unacknowledged := x2; AlertsHistoryResponse_Page := x3;
       AlertsHistoryResponse_PageSize := x4 |}.

(** [socrate/reports.go: ReportPeriod] *)
Record ReportPeriod := {
  ReportPeriod_From : Time; ReportPeriod_To : Time;
}.

(** [socrate/reports.go: ReportRequest] *)
Record ReportRequest := {
  ReportRequest_Type : string; ReportRequest_Period : ReportPeriod; ReportRequest_Format : string;
  ReportRequest_Sections : option (list string);
}.

(** [socrate/reports.go: Report] *)
Record Report := {
  Report_ReportID : string; Report_Status : string; Report_Type : string; Report_Format : string;
  Report_DownloadURL : string; Report_EstimatedCompletion : option Time; Report_CreatedAt : Time;
  Report_CompletedAt : option Time; Report_ExpiresAt : option Time;
}.
Definition zero_Report : Report :=
  {| Report_ReportID := ""; Report_Status := ""; Report_Type := ""; Report_Format := "";
  Report_DownloadURL := ""; Report_EstimatedCompletion := None; Report_CreatedAt := 0;
  Report_CompletedAt := None; Report_ExpiresAt := None |}.
Definition decode_Report (cur : Report) (l : list (string * json)) : option Report :=
  x0 ← decode_field decode_string (Report_ReportID cur) "report_id" l;
  x1 ← decode_field decode_string (Report_Status cur) "status" l;
  x2 ← decode_field decode_string (Report_Type cur) "type" l;
  x3 ← decode_field decode_string (Report_Format cur) "format" l;
  x4 ← decode_field decode_string (Report_DownloadURL cur) "download_url" l;
  x5 ← decode_field (decode_ptr 0 decode_time) (Report_EstimatedCompletion cur) "estimated_completion" l;
  x6 ← decode_field decode_time (Report_CreatedAt cur) "created_at" l;
  x7 ← decode_field (decode_ptr 0 decode_time) (Report_CompletedAt cur) "completed_at" l;
  x8 ← decode_field (decode_ptr 0 decode_time) (Report_ExpiresAt cur) "expires_at" l;
  Some {| Report_ReportID := x0; Report_Status := x1; Report_Type := x2; Report_Format := x3;
       Report_DownloadURL := x4; Report_EstimatedCompletion := x5; Report_CreatedAt := x6;
       Report_CompletedAt := x7; Report_ExpiresAt := x8 |}.

(** [socrate/settings.go: ServerConfigFeatures] *)
Record ServerConfigFeatures := {
  ServerConfigFeatures_MFAEnabled : bool; ServerConfigFeatures_PasswordPolicyEnabled : bool;
  ServerConfigFeatures_AuditLoggingEnabled : bool;
}.
Definition zero_ServerConfigFeatures : ServerConfigFeatures :=
  {| ServerConfigFeatures_MFAEnabled := false; ServerConfigFeatures_PasswordPolicyEnabled := false;
  ServerConfigFeatures_AuditLoggingEnabled := false |}.
Definition decode_ServerConfigFeatures (cur : ServerConfigFeatures) (l : list (string * json)) : option ServerConfigFeatures :=
  x0 ← decode_field decode_bool (ServerConfigFeatures_MFAEnabled cur) "mfa_enabled" l;
  x1 ← decode_field decode_bool (ServerConfigFeatures_PasswordPolicyEnabled cur) "password_policy_enabled" l;
  x2 ← decode_field decode_bool (ServerConfigFeatures_AuditLoggingEnabled cur) "audit_logging_enabled" l;
  Some {| ServerConfigFeatures_MFAEnabled := x0; ServerConfigFeatures_PasswordPolicyEnabled := x1;
       ServerConfigFeatures_AuditLoggingEnabled := x2 |}.

(** [socrate/settings.go: ServerConfig] *)
Record ServerConfig := {
  ServerConfig_IssuerURL : string; ServerConfig_AccessTokenTTL : Z; ServerConfig_RefreshTokenTTL : Z;
  ServerConfig_RateLimitRequests : Z; ServerConfig_RateLimitWindow : Z; ServerConfig_Environment : string;
  ServerConfig_Version : string; ServerConfig_Features : ServerConfigFeatures;
}.
Definition zero_ServerConfig : ServerConfig :=
  {| ServerConfig_IssuerURL := ""; ServerConfig_AccessTokenTTL := 0; ServerConfig_RefreshTokenTTL := 0;
  ServerConfig_RateLimitRequests := 0; ServerConfig_RateLimitWindow := 0; ServerConfig_Environment := "";
  ServerConfig_Version := ""; ServerConfig_Features := zero_ServerConfigFeatures |}.
Definition decode_ServerConfig (cur : ServerConfig) (l : list (string * json)) : option ServerConfig :=
  x0 ← decode_field decode_string (ServerConfig_IssuerURL cur) "issuer_url" l;
  x1 ← decode_field decode_int (ServerConfig_AccessTokenTTL cur) "access_token_ttl" l;
  x2 ← decode_field decode_int (ServerConfig_RefreshTokenTTL cur) "refresh_token_ttl" l;
  x3 ← decode_field decode_int (ServerConfig_RateLimitRequests cur) "rate_limit_requests" l;
  x4 ← decode_field decode_int (ServerConfig_RateLimitWindow cur) "rate_limit_window" l;
  x5 ← decode_field decode_string (ServerConfig_Environment cur) "environment" l;
  x6 ← decode_field decode_string (ServerConfig_Version cur) "version" l;
  x7 ← decode_field (decode_object decode_ServerConfigFeatures) (ServerConfig_Features cur) "features" l;
  Some {| ServerConfig_IssuerURL := x0; ServerConfig_AccessTokenTTL := x1; ServerConfig_RefreshTokenTTL := x2;
       ServerConfig_RateLimitRequests := x3; ServerConfig_RateLimitWindow := x4; ServerConfig_Environment := x5;
       ServerConfig_Version := x6; ServerConfig_Features := x7 |}.

(** [socrate/settings.go: ConnectionTest] *)
Record ConnectionTest := {
  ConnectionTest_Status : string; ConnectionTest_LatencyMs : Z; ConnectionTest_Error : string;
}.
Definition zero_ConnectionTest : ConnectionTest :=
  {| ConnectionTest_Status := ""; ConnectionTest_LatencyMs := 0; ConnectionTest_Error := "" |}.
Definition decode_ConnectionTest (cur : ConnectionTest) (l : list (string * json)) : option ConnectionTest :=
  x0 ← decode_field decode_string (ConnectionTest_Status cur) "status" l;
  x1 ← decode_field decode_int (ConnectionTest_LatencyMs cur) "latency_ms" l;
  x2 ← decode_field decode_string (ConnectionTest_Error cur) "error" l;
  Some {| ConnectionTest_Status := x0; ConnectionTest_LatencyMs := x1; ConnectionTest_Error := x2 |}.

(** The condition of a rule may hold what cannot be marshalled. *)
Definition encode_AlertRuleRequest (r : AlertRuleRequest) : option json :=
  condition ← enc_any_map (AlertRuleRequest_Condition r);
  Some (JObj ([("name", JStr (AlertRuleRequest_Name r))] ++
              omit_empty "description" (AlertRuleRequest_Description r) ++
              [("event_type", JStr (AlertRuleRequest_EventType r)); ("condition", condition);
               ("severity", JStr (AlertRuleRequest_Severity r))] ++
              omit_nil "enabled" (AlertRuleRequest_Enabled r) JBool ++
              [("actions", enc_strings (AlertRuleRequest_Actions r))] ++
              omit_strings "recipients" (AlertRuleRequest_Recipients r) ++
              omit_empty "webhook_url" (AlertRuleRequest_WebhookURL r))).

(** A year beyond 9999 cannot be marshalled. *)
Definition encode_ReportRequest (r : ReportRequest) : option json :=
  from ← time_format (ReportPeriod_From (ReportRequest_Period r));
  to ← time_format (ReportPeriod_To (ReportRequest_Period r));
  Some (JObj (omit_empty "type" (ReportRequest_Type r) ++
              [("period", JObj [("from", JStr from); ("to", JStr to)])] ++
              omit_empty "format" (ReportRequest_Format r) ++
              omit_strings "sections" (ReportRequest_Sections r))).

End data.

Section methods.
Context `{TimeJson, UrlLib, Network, service.IPLib}.

(** * Applications (admin.go) *)

(** [socrate/admin.go: Client.ListApps] *)
Definition ListApps (ctx : ctxutil.context) : M AppListResponse :=
  u ← adminURL "/api/admin/apps";
  resp ← doWithJWT ctx "GET" u NoBody;
  b ← read_body resp;
  if negb (status_of resp =? 200) then http_fail "list apps" resp b
  else unmarshal_as "decode apps" (decode_object decode_AppListResponse) zero_AppListResponse b.

(** [socrate/admin.go: Client.GetApp] *)
Definition GetApp (ctx : ctxutil.context) (appID : string) : M (option App) :=
  u ← adminURL ("/api/admin/apps/" +:+ PathEscape appID);
  resp ← doWithJWT ctx "GET" u NoBody;
  b ← read_body resp;
  if status_of resp =? 404 then mret None
  else if negb (status_of resp =? 200) then http_fail "get app" resp b
  else x ← unmarshal_as "decode app" (decode_object decode_App) zero_App b; mret (Some x).

(** [socrate/admin.go: Client.CreateApp] *)
Definition CreateApp (ctx : ctxutil.context) (req : CreateAppRequest) : M AppWithSecret :=
  u ← adminURL "/api/admin/apps";
  resp ← doWithJWT ctx "POST" u (Json (Some (encode_CreateAppRequest req)));
  b ← read_body resp;
  if negb (status_of resp =? 201) && negb (status_of resp =? 200) then http_fail "create app" resp b
  else unmarshal_as "decode create app response" (decode_object decode_AppWithSecret) zero_AppWithSecret b.

(** [socrate/admin.go: Client.UpdateApp] *)
Definition UpdateApp (ctx : ctxutil.context) (appID : string) (req : UpdateAppRequest) : M App :=
  u ← adminURL ("/api/admin/apps/" +:+ PathEscape appID);
  resp ← doWithJWT ctx "PUT" u (Json (Some (encode_UpdateAppRequest req)));
  b ← read_body resp;
  if negb (status_of resp =? 200) then http_fail "update app" resp b
  else unmarshal_as "decode updated app" (decode_object decode_App) zero_App b.

(** [socrate/admin.go: Client.DeleteApp] *)
Definition DeleteApp (ctx : ctxutil.context) (appID : string) : M unit :=
  u ← adminURL ("/api/admin/apps/" +:+ PathEscape appID);
  resp ← doWithJWT ctx "DELETE" u NoBody;
  b ← read_body resp;
  if negb (status_of resp =? 200) && negb (status_of resp =? 204) then http_fail "delete app" resp b
  else mret tt.

(** [socrate/admin.go: Client.RotateSecret] *)
Definition RotateSecret (ctx : ctxutil.context) (appID : string) : M AppWithSecret :=
  u ← adminURL ("/api/admin/apps/" +:+ PathEscape appID +:+ "/rotate-secret");
  resp ← doWithJWT ctx "POST" u NoBody;
  b ← read_body resp;
  if negb (status_of resp =? 200) then http_fail "rotate secret" resp b
  else unmarshal_as "decode rotate secret response" (decode_object decode_AppWithSecret) zero_AppWithSecret b.

(** * Accounts (admin.go) *)

(** [socrate/admin.go: Client.AdminListUsers] *)
Definition AdminListUsers (ctx : ctxutil.context) (page pageSize : Z) : M GlobalUserListResponse :=
  u ← adminURL ("/api/admin/users?page=" +:+ itoa page +:+ "&page_size=" +:+ itoa pageSize);
  resp ← doWithJWT ctx "GET" u NoBody;
  b ← read_body resp;
  if negb (status_of resp =? 200) then http_fail "admin list users" resp b
  else unmarshal_as "decode users" (decode_object decode_GlobalUserListResponse) zero_GlobalUserListResponse b.

(** [socrate/admin.go: Client.AdminGetUser] *)
Definition AdminGetUser (ctx : ctxutil.context) (userID : string) : M (option GlobalUser) :=
  u ← adminURL ("/api/admin/users/" +:+ PathEscape userID);
  resp ← doWithJWT ctx "GET" u NoBody;
  b ← read_body resp;
  if status_of resp =? 404 then mret None
  else if negb (status_of resp =? 200) then http_fail "admin get user" resp b
  else x ← unmarshal_as "decode user" (decode_object decode_GlobalUser) zero_GlobalUser b; mret (Some x).

(** [socrate/admin.go: Client.AdminDeleteUser] *)
Definition AdminDeleteUser (ctx : ctxutil.context) (userID : string) : M unit :=
  u ← adminURL ("/api/admin/users/" +:+ PathEscape userID);
  resp ← doWithJWT ctx "DELETE" u NoBody;
  b ← read_body resp;
  if negb (status_of resp =? 200) && negb (status_of resp =? 204) then http_fail "admin delete user" resp b
  else mret tt.

(** [socrate/admin.go: Client.GetUserApps] *)
Definition GetUserApps (ctx : ctxutil.context) (userID : string) : M (option (list App)) :=
  u ← adminURL ("/api/admin/users/" +:+ PathEscape userID +:+ "/apps");
  resp ← doWithJWT ctx "GET" u NoBody;
  b ← read_body resp;
  if negb (status_of resp =? 200) then http_fail "get user apps" resp b
  else unmarshal_as "decode user apps" (decode_list (decode_object decode_App) zero_App) None b.

(** [socrate/admin.go: Client.BlockUser] *)
Definition BlockUser (ctx : ctxutil.context) (userID : string) : M unit :=
  u ← adminURL ("/api/admin/users/" +:+ PathEscape userID +:+ "/block");
  resp ← doWithJWT ctx "POST" u NoBody;
  b ← read_body resp;
  if negb (status_of resp =? 200) && negb (status_of resp =? 204) then http_fail "block user" resp b
  else mret tt.

(** [socrate/admin.go: Client.UnlockUser] *)
Definition UnlockUser (ctx : ctxutil.context) (userID : string) : M unit :=
  u ← adminURL ("/api/admin/users/" +:+ PathEscape userID +:+ "/unlock");
  resp ← doWithJWT ctx "POST" u NoBody;
  b ← read_body resp;
  if negb (status_of resp =? 200) && negb (status_of resp =? 204) then http_fail "unlock user" resp b
  else mret tt.

(** [socrate/admin.go: Client.RevokeUserTokens] *)
Definition RevokeUserTokens (ctx : ctxutil.context) (userID : string) : M unit :=
  u ← adminURL ("/api/admin/users/" +:+ PathEscape userID +:+ "/revoke-tokens");
  resp ← doWithJWT ctx "POST" u NoBody;
  b ← read_body resp;
  if negb (status_of resp =? 200) && negb (status_of resp =? 204) then http_fail "revoke user tokens" resp b
  else mret tt.

(** * Superadmins (admin.go) *)

(** An array, or an object that holds it under [name]. *)
Definition unmarshal_wrapped {A} (label name : string) (dec : A → json → option A) (zero : A) (b : string)
  : M (option (list A)) :=
  match unmarshal (decode_list dec zero) None b with
  | Some l => mret l
  | None =>
      match unmarshal_struct (λ l, decode_field (decode_list dec zero) None name l) None b with
      | Some l => mret l
      | None => fail (EWrap label (EMsg "json"))
      end
  end.

(** [socrate/admin.go: Client.ListSuperadmins] *)
Definition ListSuperadmins (ctx : ctxutil.context) : M (option (list Superadmin)) :=
  u ← adminURL "/api/admin/superadmins";
  resp ← doWithJWT ctx "GET" u NoBody;
  b ← read_body resp;
  if negb (status_of resp =? 200) then http_fail "list superadmins" resp b
  else unmarshal_wrapped "decode superadmins" "superadmins" (decode_object decode_Superadmin) zero_Superadmin b.

(** [socrate/admin.go: Client.GetSuperadmin] *)
Definition GetSuperadmin (ctx : ctxutil.context) (id : string) : M (option Superadmin) :=
  u ← adminURL ("/api/admin/superadmins/" +:+ PathEscape id);
  resp ← doWithJWT ctx "GET" u NoBody;
  b ← read_body resp;
  if status_of resp =? 404 then mret None
  else if negb (status_of resp =? 200) then http_fail "get superadmin" resp b
  else x ← unmarshal_as "decode superadmin" (decode_object decode_Superadmin) zero_Superadmin b; mret (Some x).

(** [socrate/admin.go: Client.CreateSuperadmin] *)
Definition CreateSuperadmin (ctx : ctxutil.context) (req : CreateSuperadminRequest) : M Superadmin :=
  u ← adminURL "/api/admin/superadmins";
  resp ← doWithJWT ctx "POST" u (Json (Some (encode_CreateSuperadminRequest req)));
  b ← read_body resp;
  if negb (status_of resp =? 201) && negb (status_of resp =? 200) then http_fail "create superadmin" resp b
  else unmarshal_as "decode superadmin" (decode_object decode_Superadmin) zero_Superadmin b.

(** [socrate/admin.go: Client.UpdateSuperadmin] *)
Definition UpdateSuperadmin (ctx : ctxutil.context) (id : string) (req : UpdateSuperadminRequest) : M Superadmin :=
  u ← adminURL ("/api/admin/superadmins/" +:+ PathEscape id);
  resp ← doWithJWT ctx "PUT" u (Json (Some (encode_UpdateSuperadminRequest req)));
  b ← read_body resp;
  if negb (status_of resp =? 200) then http_fail "update superadmin" resp b
  else unmarshal_as "decode superadmin" (decode_object decode_Superadmin) zero_Superadmin b.

(** [socrate/admin.go: Client.DeleteSuperadmin] *)
Definition DeleteSuperadmin (ctx : ctxutil.context) (id : string) : M unit :=
  u ← adminURL ("/api/admin/superadmins/" +:+ PathEscape id);
  resp ← doWithJWT ctx "DELETE" u NoBody;
  b ← read_body resp;
  if negb (status_of resp =? 200) && negb (status_of resp =? 204) then http_fail "delete superadmin" resp b
  else mret tt.

(** * Security (admin.go) *)

(** [socrate/admin.go: Client.GetThreatMetrics] *)
Definition GetThreatMetrics (ctx : ctxutil.context) : M ThreatMetrics :=
  u ← adminURL "/api/admin/security/threats";
  resp ← doWithJWT ctx "GET" u NoBody;
  b ← read_body resp;
  if negb (status_of resp =? 200) then http_fail "get threat metrics" resp b
  else unmarshal_as "decode threat metrics" (decode_object decode_ThreatMetrics) zero_ThreatMetrics b.

(** [socrate/admin.go: Client.ListBlockedIPs] *)
Definition ListBlockedIPs (ctx : ctxutil.context) : M (option (list BlockedIP)) :=
  u ← adminURL "/api/admin/security/blocked-ips";
  resp ← doWithJWT ctx "GET" u NoBody;
  b ← read_body resp;
  if negb (status_of resp =? 200) then http_fail "list blocked IPs" resp b
  else unmarshal_wrapped "decode blocked IPs" "blocked_ips" (decode_object decode_BlockedIP) zero_BlockedIP b.

(** [socrate/admin.go: Client.BlockIP] *)
Definition BlockIP (ctx : ctxutil.context) (req : BlockIPRequest) : M BlockedIP :=
  u ← adminURL "/api/admin/security/blocked-ips";
  resp ← doWithJWT ctx "POST" u (Json (Some (encode_BlockIPRequest req)));
  b ← read_body resp;
  if negb (status_of resp =? 201) && negb (status_of resp =? 200) then http_fail "block IP" resp b
  else unmarshal_as "decode blocked IP" (decode_object decode_BlockedIP) zero_BlockedIP b.

(** [socrate/admin.go: Client.UnblockIP] *)
Definition UnblockIP (ctx : ctxutil.context) (id : string) : M unit :=
  u ← adminURL ("/api/admin/security/blocked-ips/" +:+ PathEscape id);
  resp ← doWithJWT ctx "DELETE" u NoBody;
  b ← read_body resp;
  if negb (status_of resp =? 200) && negb (status_of resp =? 204) then http_fail "unblock IP" resp b
  else mret tt.

(** [socrate/admin.go: Client.GetIPReputation] *)
Definition GetIPReputation (ctx : ctxutil.context) (ip : string) : M (option IPReputation) :=
  u ← adminURL ("/api/admin/security/ip-reputation/" +:+ PathEscape ip);
  resp ← doWithJWT ctx "GET" u NoBody;
  b ← read_body resp;
  if status_of resp =? 404 then mret None
  else if negb (status_of resp =? 200) then http_fail "get IP reputation" resp b
  else x ← unmarshal_as "decode IP reputation" (decode_object decode_IPReputation) zero_IPReputation b; mret (Some x).

(** * Dashboard figures and audit logs (admin.go) *)

(** [socrate/admin.go: Client.GetDashboardStats] *)
Definition GetDashboardStats (ctx : ctxutil.context) : M DashboardStats :=
  u ← adminURL "/api/admin/dashboard/stats";
  resp ← doWithJWT ctx "GET" u NoBody;
  b ← read_body resp;
  if negb (status_of resp =? 200) then http_fail "get dashboard stats" resp b
  else unmarshal_as "decode dashboard stats" (decode_object decode_DashboardStats) zero_DashboardStats b.

(** [socrate/admin.go: Client.GetDashboardHealth] *)
Definition GetDashboardHealth (ctx : ctxutil.context) : M (option (gmap string json)) :=
  u ← adminURL "/api/admin/dashboard/health";
  resp ← doWithJWT ctx "GET" u NoBody;
  b ← read_body resp;
  if negb (status_of resp =? 200) then http_fail "get dashboard health" resp b
  else unmarshal_as "decode health" decode_any_map None b.

(** [socrate/admin.go: Client.ListAdminLogs] *)
Definition ListAdminLogs (ctx : ctxutil.context) (page pageSize : Z) : M AdminLogListResponse :=
  u ← adminURL ("/api/admin/logs?page=" +:+ itoa page +:+ "&page_size=" +:+ itoa pageSize);
  resp ← doWithJWT ctx "GET" u NoBody;
  b ← read_body resp;
  if negb (status_of resp =? 200) then http_fail "list admin logs" resp b
  else unmarshal_as "decode admin logs" (decode_object decode_AdminLogListResponse) zero_AdminLogListResponse b.

(** [socrate/admin.go: Client.GetAdminLog] *)
Definition GetAdminLog (ctx : ctxutil.context) (id : string) : M (option AdminLog) :=
  u ← adminURL ("/api/admin/logs/" +:+ PathEscape id);
  resp ← doWithJWT ctx "GET" u NoBody;
  b ← read_body resp;
  if status_of resp =? 404 then mret None
  else if negb (status_of resp =? 200) then http_fail "get admin log" resp b
  else x ← unmarshal_as "decode admin log" (decode_object decode_AdminLog) zero_AdminLog b; mret (Some x).

(** * Monitoring (monitoring.go) *)

(** [socrate/monitoring.go: Client.GetAppLogs] *)
Definition GetAppLogs (ctx : ctxutil.context) (page pageSize : Z) : M AppActivityLogListResponse :=
  appID ← wrap "resolve app ID" (getAppID ctx);
  u ← adminURL ("/api/apps/" +:+ appID +:+ "/logs?page=" +:+ itoa page +:+ "&page_size=" +:+ itoa pageSize);
  resp ← doWithJWT ctx "GET" u NoBody;
  decode_json resp "get app logs" (decode_object decode_AppActivityLogListResponse) zero_AppActivityLogListResponse [].

(** [socrate/monitoring.go: Client.ListSessions] *)
Definition ListSessions (ctx : ctxutil.context) (page pageSize : Z) : M SessionListResponse :=
  u ← adminURL ("/api/admin/sessions?page=" +:+ itoa page +:+ "&page_size=" +:+ itoa pageSize);
  resp ← doWithJWT ctx "GET" u NoBody;
  decode_json resp "list sessions" (decode_object decode_SessionListResponse) zero_SessionListResponse [].

(** [socrate/monitoring.go: Client.GetUserSessions] *)
Definition GetUserSessions (ctx : ctxutil.context) (userID : string) : M SessionListResponse :=
  u ← adminURL ("/api/admin/users/" +:+ PathEscape userID +:+ "/sessions");
  resp ← doWithJWT ctx "GET" u NoBody;
  decode_json resp "get user sessions" (decode_object decode_SessionListResponse) zero_SessionListResponse [].

Definition period_query (path period : string) : string :=
  if negb (String.eqb period "") then path +:+ "?" +:+ values_Encode (values_of [("period", period)]) else path.

(** [socrate/monitoring.go: Client.GetGeoAnalytics] *)
Definition GetGeoAnalytics (ctx : ctxutil.context) (period : string) : M GeoAnalytics :=
  u ← adminURL (period_query "/api/admin/security/geo" period);
  resp ← doWithJWT ctx "GET" u NoBody;
  decode_json resp "get geo analytics" (decode_object decode_GeoAnalytics) zero_GeoAnalytics [].

(** [socrate/monitoring.go: Client.GetTokenStats] *)
Definition GetTokenStats (ctx : ctxutil.context) (period : string) : M TokenStats :=
  u ← adminURL (period_query "/api/admin/tokens/stats" period);
  resp ← doWithJWT ctx "GET" u NoBody;
  decode_json resp "get token stats" (decode_object decode_TokenStats) zero_TokenStats [].

(** * Dashboard (dashboard.go) *)

Definition positive_query (path name : string) (n : Z) : string :=
  if 0 <? n then path +:+ "?" +:+ name +:+ "=" +:+ itoa n else path.

(** [socrate/dashboard.go: Client.GetDashboardActivity] *)
Definition GetDashboardActivity (ctx : ctxutil.context) (limit : Z) : M DashboardActivityResponse :=
  u ← adminURL (positive_query "/api/admin/dashboard/activity" "limit" limit);
  resp ← doWithJWT ctx "GET" u NoBody;
  decode_json resp "get dashboard activity" (decode_object decode_DashboardActivityResponse) zero_DashboardActivityResponse [].

(** [socrate/dashboard.go: Client.GetLoginTrends] *)
Definition GetLoginTrends (ctx : ctxutil.context) (days : Z) : M LoginTrendsResponse :=
  u ← adminURL (positive_query "/api/admin/dashboard/login-trends" "days" days);
  resp ← doWithJWT ctx "GET" u NoBody;
  decode_json resp "get login trends" (decode_object decode_LoginTrendsResponse) zero_LoginTrendsResponse [].

(** [socrate/dashboard.go: Client.GetAppUsage] *)
Definition GetAppUsage (ctx : ctxutil.context) : M AppUsageResponse :=
  u ← adminURL "/api/admin/dashboard/app-usage";
  resp ← doWithJWT ctx "GET" u NoBody;
  decode_json resp "get app usage" (decode_object decode_AppUsageResponse) zero_AppUsageResponse [].

(** [socrate/dashboard.go: Client.GetAdminProfile] *)
Definition GetAdminProfile (ctx : ctxutil.context) : M FullProfile :=
  u ← adminURL "/api/admin/profile";
  resp ← doWithJWT ctx "GET" u NoBody;
  decode_json resp "get admin profile" (decode_object decode_FullProfile) zero_FullProfile [].

(** [socrate/dashboard.go: Client.GetAdminStats] *)
Definition GetAdminStats (ctx : ctxutil.context) : M (option (gmap string json)) :=
  u ← adminURL "/api/admin/stats";
  resp ← doWithJWT ctx "GET" u NoBody;
  decode_json resp "get admin stats" decode_any_map None [].

(** [socrate/dashboard.go: Client.GetAdminActivity] *)
Definition GetAdminActivity (ctx : ctxutil.context) (page pageSize : Z) : M AdminLogListResponse :=
  u ← adminURL ("/api/admin/activity?page=" +:+ itoa page +:+ "&page_size=" +:+ itoa pageSize);
  resp ← doWithJWT ctx "GET" u NoBody;
  decode_json resp "get admin activity" (decode_object decode_AdminLogListResponse) zero_AdminLogListResponse [].

(** [socrate/dashboard.go: Client.ExportAdminLogs] *)
Definition ExportAdminLogs (ctx : ctxutil.context) : M string :=
  u ← adminURL "/api/admin/logs/export";
  resp ← doWithJWT ctx "GET" u NoBody;
  b ← wrap "read export response" (read_body resp);
  if negb (status_of resp =? 200) then http_fail "export admin logs" resp b else mret b.

(** * Alerts (alerts.go) *)

(** [socrate/alerts.go: Client.ListAlertRules] *)
Definition ListAlertRules (ctx : ctxutil.context) : M AlertRulesListResponse :=
  u ← adminURL "/api/admin/alerts/rules";
  resp ← doWithJWT ctx "GET" u NoBody;
  decode_json resp "list alert rules" (decode_object decode_AlertRulesListResponse) zero_AlertRulesListResponse [].

(** [socrate/alerts.go: Client.CreateAlertRule] *)
Definition CreateAlertRule (ctx : ctxutil.context) (req : AlertRuleRequest) : M AlertRule :=
  u ← adminURL "/api/admin/alerts/rules";
  resp ← doWithJWT ctx "POST" u (Json (encode_AlertRuleRequest req));
  decode_json resp "create alert rule" (decode_object decode_AlertRule) zero_AlertRule [201; 200].

(** [socrate/alerts.go: Client.UpdateAlertRule] *)
Definition UpdateAlertRule (ctx : ctxutil.context) (id : string) (req : AlertRuleRequest) : M AlertRule :=
  u ← adminURL ("/api/admin/alerts/rules/" +:+ PathEscape id);
  resp ← doWithJWT ctx "PUT" u (Json (encode_AlertRuleRequest req));
  decode_json resp "update alert rule" (decode_object decode_AlertRule) zero_AlertRule [].

(** [socrate/alerts.go: Client.DeleteAlertRule] *)
Definition DeleteAlertRule (ctx : ctxutil.context) (id : string) : M unit :=
  u ← adminURL ("/api/admin/alerts/rules/" +:+ PathEscape id);
  resp ← doWithJWT ctx "DELETE" u NoBody;
  decode_nothing resp "delete alert rule" [200; 204].

(** [socrate/alerts.go: Client.GetAlertHistory] *)
Definition GetAlertHistory (ctx : ctxutil.context) (page pageSize : Z) : M AlertsHistoryResponse :=
  u ← adminURL ("/api/admin/alerts/history?page=" +:+ itoa page +:+ "&page_size=" +:+ itoa pageSize);
  resp ← doWithJWT ctx "GET" u NoBody;
  decode_json resp "get alert history" (decode_object decode_AlertsHistoryResponse) zero_AlertsHistoryResponse [].

(** [socrate/alerts.go: Client.AcknowledgeAlert] *)
Definition AcknowledgeAlert (ctx : ctxutil.context) (id note : string) : M unit :=
  u ← adminURL ("/api/admin/alerts/" +:+ PathEscape id +:+ "/acknowledge");
  resp ← doWithJWT ctx "POST" u (Json (Some (enc_string_map {["note" := note]})));
  decode_nothing resp "acknowledge alert" [200; 204].

(** * Reports (reports.go) *)

(** [socrate/reports.go: Client.GenerateSecurityReport] *)
Definition GenerateSecurityReport (ctx : ctxutil.context) (req : ReportRequest) : M Report :=
  u ← adminURL "/api/admin/reports/security";
  resp ← doWithJWT ctx "POST" u (Json (encode_ReportRequest req));
  decode_json resp "generate security report" (decode_object decode_Report) zero_Report [201; 200].

(** [socrate/reports.go: Client.GetReportStatus] *)
Definition GetReportStatus (ctx : ctxutil.context) (reportID : string) : M (option Report) :=
  u ← adminURL ("/api/admin/reports/" +:+ PathEscape reportID);
  resp ← doWithJWT ctx "GET" u NoBody;
  if status_of resp =? 404 then _ ← discard_body; mret None
  else x ← decode_json resp "get report status" (decode_object decode_Report) zero_Report []; mret (Some x).

(** [socrate/reports.go: Client.DownloadReport] *)
Definition DownloadReport (ctx : ctxutil.context) (reportID : string) : M string :=
  u ← adminURL ("/api/admin/reports/" +:+ PathEscape reportID +:+ "/download");
  resp ← doWithJWT ctx "GET" u NoBody;
  b ← wrap "read report download" (read_body resp);
  if negb (status_of resp =? 200) then http_fail "download report" resp b else mret b.

(** * Settings (settings.go) *)

(** [socrate/settings.go: Client.GetServerConfig] *)
Definition GetServerConfig (ctx : ctxutil.context) : M ServerConfig :=
  u ← adminURL "/api/admin/settings/config";
  resp ← doWithJWT ctx "GET" u NoBody;
  decode_json resp "get server config" (decode_object decode_ServerConfig) zero_ServerConfig [].

(** [socrate/settings.go: Client.TestDB] *)
Definition TestDB (ctx : ctxutil.context) : M ConnectionTest :=
  u ← adminURL "/api/admin/settings/test-db";
  resp ← doWithJWT ctx "GET" u NoBody;
  decode_json resp "test db" (decode_object decode_ConnectionTest) zero_ConnectionTest [].

(** [socrate/settings.go: Client.TestCache] *)
Definition TestCache (ctx : ctxutil.context) : M ConnectionTest :=
  u ← adminURL "/api/admin/settings/test-cache";
  resp ← doWithJWT ctx "GET" u NoBody;
  decode_json resp "test cache" (decode_object decode_ConnectionTest) zero_ConnectionTest [].

End methods.

End admin.
