(* ===== verification/EventStream.v ===== *)
(** The stream of security events (src/socrate/monitoring.go): a client of
    server-sent events that reads lines, assembles frames and calls a handler,
    proved to deliver the events of a reference reading of the stream. *)

From S2P Require Import Prelude GoText GoUrl GoJson CtxUtil Http BffMisc SocrateToken Pep SocrateService SocrateHttp.

Module events.
Import socrate client.

(** [socrate/monitoring.go: StreamEvent]
    The payload is the raw text. *)
Record StreamEvent := { ev_Name : string; ev_Data : string }.

(** [socrate/monitoring.go: StreamEventOptions] *)
Record StreamEventOptions := { so_Severity : string; so_EventType : string; so_LastEventID : string }.

(** * [bufio.Scanner] over lines *)

(** [socrate/monitoring.go:289-289] the largest line *)
Definition maxLine : Z := 1048576.

(** A trailing carriage return is not part of a line. *)
Fixpoint drop_cr (s : string) : string :=
  match s with
  | EmptyString => EmptyString
  | String c EmptyString => if byte_of c =? 13 then EmptyString else s
  | String c s' => String c (drop_cr s')
  end.

(** The lines of a text; a last line without a newline counts when it is not
    empty. *)
Definition raw_lines (text : string) : list string :=
  match reverse (str_split "010" text) with
  | EmptyString :: l => reverse l
  | l => reverse l
  end.

(** Lines up to the first that is too long, and whether there is one. *)
Fixpoint scan_lines (l : list string) : list string * bool :=
  match l with
  | [] => ([], false)
  | s :: l' =>
      if maxLine <=? slen s then ([], true)
      else let '(ls, long) := scan_lines l' in (drop_cr s :: ls, long)
  end.

(** * The loop *)

Definition trim_prefix (s p : string) : string :=
  if has_prefix s p then String.substring (String.length p) (String.length s - String.length p) s else s.

Section loop.
Context {S : Type} (handler : S → StreamEvent → option goerr * S) (ctx_done : nat → bool).

(** How the loop over the lines ends. *)
Inductive loop_end := LDone | LCancelled | LHandler (e : goerr).

(** [socrate/monitoring.go:293-301] dispatch *)
Definition dispatch (s : S) (name data : string) : option goerr * S :=
  if String.eqb data "" then (None, s) else handler s {| ev_Name := name; ev_Data := data |}.

(** [socrate/monitoring.go:303-322] the loop: the [i]-th line comes next *)
Fixpoint loop (i : nat) (s : S) (name data : string) (lines : list string) : loop_end * S :=
  match lines with
  | [] => (LDone, s)
  | line :: rest =>
      if ctx_done i then (LCancelled, s)
      else if String.eqb line "" then
        match dispatch s name data with
        | (Some err, s) => (LHandler err, s)
        | (None, s) => loop (i + 1) s "" "" rest
        end
      else if has_prefix line "event:" then
        loop (i + 1) s (trim_space (trim_prefix line "event:")) data rest
      else if has_prefix line "data:" then
        loop (i + 1) s name (data +:+ trim_space (trim_prefix line "data:")) rest
      else loop (i + 1) s name data rest
  end.

End loop.

Definition ctx_err : goerr := EMsg "context canceled".

(** The query of the stream. *)
Definition stream_query (o : StreamEventOptions) : Values :=
  let set k v q := if negb (String.eqb v "") then values_Set q k v else q in
  set "last_event_id" (so_LastEventID o) (set "event_type" (so_EventType o) (set "severity" (so_Severity o) ∅)).

Definition stream_path (o : StreamEventOptions) : string :=
  let q := stream_query o in
  "/api/admin/events/stream" +:+ (if decide (q = ∅) then "" else "?" +:+ values_Encode q).

Section stream.
Context `{UrlLib, Network, service.IPLib} {S : Type}.
Variable handler : S → StreamEvent → option goerr * S.

(** [socrate/monitoring.go: Client.StreamSecurityEvents]
    [received] are the bytes that arrive of the body and [broken] says that
    reading then fails; [ctx_done i] that the context is done at line [i], and
    [done_at_end] that it is at the end. *)
Definition StreamSecurityEvents (ctx : ctxutil.context) (opts : StreamEventOptions) (received : string)
    (broken : bool) (ctx_done : nat → bool) (done_at_end : bool) (s : S) : M (option goerr * S) :=
  u ← adminURL (stream_path opts);
  resp ← wrap "open event stream" (doWithJWT ctx "GET" u NoBody);
  if negb (status_of resp =? 200) then
    act (λ st, (Err (EMsg ("open event stream HTTP " +:+ itoa (status_of resp) +:+ ": " +:+
                           default "" (readBody resp))), closed st))
  else
    act (λ st,
      let '(lines, long) := scan_lines (raw_lines received) in
      let '(e, s') := loop handler ctx_done 0 s "" "" lines in
      (Ok (match e with
           | LCancelled => Some ctx_err
           | LHandler err => Some err
           | LDone => if done_at_end then Some ctx_err
                      else if long || broken then Some (EWrap "read event stream" (EMsg "read")) else None
           end, s'), closed st)).

End stream.

Definition text_lines (l : list string) : string := str_join (String "010" EmptyString) l.

Example stream_ex :
  loop (λ s ev, (None, s ++ [ev])) (λ _, false) 0 [] "" ""
    (scan_lines (raw_lines (text_lines [": hello"; "event: a "; "data: {1"; "data:2}"; "id: 7"; ""; ""; "event: x"; "";
                                        "data: 3"; ""; "data: lost"]))).1 =
  (LDone, [{| ev_Name := "a"; ev_Data := "{12}" |}; {| ev_Name := ""; ev_Data := "3" |}]).
Proof. vm_compute. reflexivity. Qed.

(** * The reference reading *)

(** The frames of a stream: the lines before each empty line. What follows the
    last empty line is not a frame. *)
Fixpoint frames (cur : list string) (lines : list string) : list (list string) :=
  match lines with
  | [] => []
  | line :: rest => if String.eqb line "" then cur :: frames [] rest else frames (cur ++ [line]) rest
  end.

(** The value of a field line. *)
Definition field (name line : string) : option string :=
  if has_prefix line name then Some (trim_space (trim_prefix line name)) else None.

(** The event of a frame: the value of its last event line, and its data lines
    together; none when there is no data. *)
Definition frame_name (frame : list string) : string := default "" (last (omap (field "event:") frame)).
Definition frame_data (frame : list string) : string := str_join "" (omap (field "data:") frame).
Definition frame_event (frame : list string) : option StreamEvent :=
  if String.eqb (frame_data frame) "" then None
  else Some {| ev_Name := frame_name frame; ev_Data := frame_data frame |}.

(** Handing events over in order until the handler fails. *)
Fixpoint deliver {T} (handler : T → StreamEvent → option goerr * T) (s : T) (l : list StreamEvent)
  : loop_end * T :=
  match l with
  | [] => (LDone, s)
  | ev :: l' => match handler s ev with
                | (Some err, s') => (LHandler err, s')
                | (None, s') => deliver handler s' l'
                end
  end.

Lemma join_empty_app (l l' : list string) : str_join "" (l ++ l') = str_join "" l +:+ str_join "" l'.
Proof.
  assert (∀ x (k : list string), str_join "" (x :: k) = x +:+ str_join "" k) as Hcons.
  { intros x [|y k]; [by rewrite append_nil_r|]. reflexivity. }
  induction l as [|x l IH]; [done|]. by rewrite <- app_comm_cons, !Hcons, IH, append_assoc.
Qed.

Lemma frame_data_snoc cur line :
  frame_data (cur ++ [line]) = frame_data cur +:+ default "" (field "data:" line).
Proof.
  unfold frame_data. rewrite omap_app, join_empty_app. f_equal. simpl. by destruct (field "data:" line).
Qed.

Lemma frame_name_snoc cur line :
  frame_name (cur ++ [line]) = default (frame_name cur) (field "event:" line).
Proof.
  unfold frame_name. rewrite omap_app. simpl.
  destruct (field "event:" line) as [v|]; simpl; [by rewrite last_snoc|by rewrite app_nil_r].
Qed.

(** A line is not both an event and a data line. *)
Lemma prefixes_exclude line : has_prefix line "event:" = true → has_prefix line "data:" = false.
Proof.
  unfold has_prefix. destruct line as [|c line]; [done|]. cbn [String.prefix].
  destruct (ascii_dec "e" c) as [<-|]; [|done]. by destruct (ascii_dec "d" "e").
Qed.

(** While the context is not done, the loop hands over the events of the
    frames. *)
Lemma loop_frames {T} (handler : T → StreamEvent → option goerr * T) i s cur lines :
  loop handler (λ _, false) i s (frame_name cur) (frame_data cur) lines =
  deliver handler s (omap frame_event (frames cur lines)).
Proof.
  revert i s cur. induction lines as [|line rest IH]; intros i s cur; [done|]. cbn [loop frames].
  destruct (String.eqb_spec line "") as [->|Hline].
  - cbn [omap list_omap]. unfold dispatch, frame_event at 1.
    destruct (String.eqb (frame_data cur) "") eqn:Hd.
    + apply (IH _ _ []).
    + cbn [deliver]. destruct (handler s _) as [[err|] s']; [done|]. apply (IH _ _ []).
  - rewrite <- (IH (i + 1)%nat), frame_data_snoc, frame_name_snoc. unfold field.
    destruct (has_prefix line "event:") eqn:He.
    + rewrite (prefixes_exclude _ He). simpl. by rewrite append_nil_r.
    + destruct (has_prefix line "data:"); simpl; [done|]. by rewrite append_nil_r.
Qed.

(** The lines read before the context is found done: it is looked at after each
    line is scanned and before it is used. *)
Fixpoint before_cancel (done : nat → bool) (i : nat) (lines : list string) : list string :=
  match lines with
  | [] => []
  | line :: rest => if done i then [] else line :: before_cancel done (i + 1) rest
  end.

(** A cancellation stops the loop before the line it strikes at: what was handed
    over are the events of the frames complete by then. *)
Lemma loop_before_cancel {T} (handler : T → StreamEvent → option goerr * T) done i s name data lines :
  loop handler done i s name data lines =
  match loop handler (λ _, false) i s name data (before_cancel done i lines) with
  | (LDone, s') => (if (length (before_cancel done i lines) <? length lines)%nat then LCancelled else LDone, s')
  | r => r
  end.
Proof.
  revert i s name data. induction lines as [|line rest IH]; intros i s name data; [done|]. cbn [loop before_cancel].
  destruct (done i); [done|]. cbn [loop length]. change (S ?a <? S ?b)%nat with (a <? b)%nat.
  destruct (String.eqb line ""); [|destruct (has_prefix line "event:"), (has_prefix line "data:"); apply IH].
  destruct (dispatch handler s name data) as [[err|] s1]; [done|apply IH].
Qed.

Section theorem.
Context `{UrlLib, Network, service.IPLib} {T : Type}.

(** The events of the frames that are complete in some lines. *)
Definition events_of (lines : list string) : list StreamEvent := omap frame_event (frames [] lines).

Lemma loop_events (handler : T → StreamEvent → option goerr * T) i s lines :
  loop handler (λ _, false) i s "" "" lines = deliver handler s (events_of lines).
Proof. apply (loop_frames handler i s []). Qed.

(** C32: the line-by-line reader of the event stream delivers what a reading of the
    whole stream finds. Once the stream is open, let [seen] be the lines up to
    the first one after whose reading the context was found done, or all lines
    when it never was. The handler gets, in order, the events of the frames
    complete in [seen] (the last event name, all data together, frames without
    data skipped), up to and with the first it refuses. The call returns the
    handler's error when it refused one; else the context's error when the
    context was found done after some line, or is done at the end of the
    stream; else a read error when reading failed or a line was too long; else
    no error. *)
Theorem stream_delivers_frames (handler : T → StreamEvent → option goerr * T) (ctx : ctxutil.context)
    (opts : StreamEventOptions) (received : string) (broken : bool) (ctx_done : nat → bool) (done_at_end : bool)
    (s s' : T) (err : option goerr) (st st' : St) :
  StreamSecurityEvents handler ctx opts received broken ctx_done done_at_end s st = (Ok (err, s'), st') →
  let '(lines, long) := scan_lines (raw_lines received) in
  let seen := before_cancel ctx_done 0 lines in
  ∃ e, deliver handler s (events_of seen) = (e, s') ∧
    err = match e with
          | LHandler refusal => Some refusal
          | _ => if (length seen <? length lines)%nat || done_at_end then Some ctx_err
                 else if long || broken then Some (EWrap "read event stream" (EMsg "read")) else None
          end.
Proof.
  intros (u & st1 & _ & Hdo)%bind_Ok. apply bind_Ok in Hdo as (resp & st2 & _ & Hr).
  destruct (negb (status_of resp =? 200)); [done|]. unfold act in Hr.
  destruct (scan_lines (raw_lines received)) as [lines long]. cbv zeta.
  rewrite loop_before_cancel, loop_events in Hr.
  assert (∀ l s, (deliver handler s l).1 ≠ LCancelled) as Hnc.
  { induction l as [|ev l IH]; intros s0; [done|]. cbn [deliver]. destruct (handler s0 ev) as [[]]; [done|apply IH]. }
  specialize (Hnc (events_of (before_cancel ctx_done 0 lines)) s).
  destruct (deliver handler s _) as [e s1]. simpl in Hnc. exists e.
  destruct e as [| |e]; [|done|by injection Hr as <- <- _].
  destruct (_ <? _)%nat; injection Hr as <- <- _; done.
Qed.

End theorem.

(** ** A witness *)

#[local] Instance sample_url : UrlLib :=
  {| url_Parse s := Some {| u_Scheme := ""; u_Host := ""; u_Tail := s |}; url_String u := u_Tail u |}.
#[local] Instance sample_ip : service.IPLib := {| service.canonical_ip _ := None |}.
#[local] Instance sample_net : Network := {| serve _ _ := Answer 200 ""; clock _ := 0 |}.

Definition sample_st : St :=
  {| cl := {| baseURL := "https://auth"; adminBaseURL := "http://admin"; clientID := "c"; resolvedAppID := "5";
              httpTimeout := 0; tokens := service.new_client "" |}; sent := []; opened := 0; ticks := 0 |}.
Definition sample_stream : string := text_lines ["event: a"; "data: 1"; ""; "data: 2"; ""; "data: lost"].

(** The handler refuses the second event. *)
Definition sample_handler (seen : list StreamEvent) (ev : StreamEvent) : option goerr * list StreamEvent :=
  (if String.eqb (ev_Data ev) "2" then Some (EMsg "stop") else None, seen ++ [ev]).

Definition sample_opts : StreamEventOptions := {| so_Severity := "high"; so_EventType := ""; so_LastEventID := "" |}.
Definition sample_run : result goerr (option goerr * list StreamEvent) * St :=
  StreamSecurityEvents sample_handler (WithJWT ctxutil.Background "jwt") sample_opts sample_stream false
    (λ _, false) false [] sample_st.
Definition sample_seen : list StreamEvent :=
  [{| ev_Name := "a"; ev_Data := "1" |}; {| ev_Name := ""; ev_Data := "2" |}].

Lemma stream_delivers_frames_witness :
  sample_run.1 = Ok (Some (EMsg "stop"), sample_seen) ∧
  deliver sample_handler [] (events_of (scan_lines (raw_lines sample_stream)).1) = (LHandler (EMsg "stop"), sample_seen).
Proof.
  assert (sample_run = (Ok (Some (EMsg "stop"), sample_seen), sample_run.2)) as Hrun by (vm_compute; reflexivity).
  split; [by rewrite Hrun|].
  pose proof (stream_delivers_frames sample_handler (WithJWT ctxutil.Background "jwt") sample_opts sample_stream false
    (λ _, false) false [] sample_seen (Some (EMsg "stop")) sample_st sample_run.2 Hrun) as Hs. clear Hrun.
  destruct (scan_lines (raw_lines sample_stream)) as [lines long] eqn:Hl. simpl.
  vm_compute in Hl. injection Hl as <- <-. destruct Hs as (e & He & Herr).
  change (before_cancel (λ _, false) 0 ?l) with l in He. rewrite He.
  destruct e; [discriminate Herr..|by injection Herr as <-].
Defined.

End events.
