(* ===== verification/SocrateCalls.v ===== *)
(** Everything a Socrate client sends (package [socrate]): the methods of
    [SocrateHttp], [SocrateUsers], [SocrateAdmin] and [EventStream] as one type
    of calls, an abstract description of the endpoint each of them is for, and
    the proof that in every run every request is the one described, carries the
    credential of its own call and nobody else's, and leaves no response open. *)

From S2P Require Import Prelude GoText GoUrl Utf8 GoJson CtxUtil Http BffMisc SocrateToken Pep SocrateService SocrateHttp SocrateUsers SocrateAdmin EventStream.

Module calls.
Import socrate client users admin events.

(** * Calls *)

(** One constructor per method. Of a stream, the bytes that arrive and whether
    reading fails after them are part of the call. *)
Inductive call :=
| CListUsers (search : string) (page pageSize : Z)
| CGetUser (id : string)
| CCreateUser (req : CreateUserRequest)
| CUpdateUserRole (id role : string)
| CDeleteUser (id : string)
| CResendVerification (id : string)
| CForcePasswordReset (id : string)
| CGetUserAsService (id : string)
| CUpdateUserAsService (id : string) (req : UpdateProfileRequest)
| CRegisterUser (req : CreateUserRequest)
| CInviteUserAsService (req : ServiceInviteRequest)
| CGetCurrentUserProfile
| CRevokeToken (token : string)
| CIntrospectToken (token : string)
| CSendMagicLink (email : string)
| CGetActivityLogs (page pageSize : Z)
| CExchangeCode (code redirectURI codeVerifier : string)
| CRefreshToken (refreshToken : string)
| CVerifyMagicLink (token : string)
| CAdminLogin (email password : string)
| CLogout
| CDecide (req : policy.DecideRequest)
| CSignup (req : SignupRequest)
| CGetProfile
| CUpdateProfile (req : UpdateProfileRequest)
| CListApps
| CGetApp (id : string)
| CCreateApp (req : CreateAppRequest)
| CUpdateApp (id : string) (req : UpdateAppRequest)
| CDeleteApp (id : string)
| CRotateSecret (id : string)
| CAdminListUsers (page pageSize : Z)
| CAdminGetUser (id : string)
| CAdminDeleteUser (id : string)
| CGetUserApps (id : string)
| CBlockUser (id : string)
| CUnlockUser (id : string)
| CRevokeUserTokens (id : string)
| CListSuperadmins
| CGetSuperadmin (id : string)
| CCreateSuperadmin (req : CreateSuperadminRequest)
| CUpdateSuperadmin (id : string) (req : UpdateSuperadminRequest)
| CDeleteSuperadmin (id : string)
| CGetThreatMetrics
| CListBlockedIPs
| CBlockIP (req : BlockIPRequest)
| CUnblockIP (id : string)
| CGetIPReputation (id : string)
| CGetDashboardStats
| CGetDashboardHealth
| CListAdminLogs (page pageSize : Z)
| CGetAdminLog (id : string)
| CGetAppLogs (page pageSize : Z)
| CListSessions (page pageSize : Z)
| CGetUserSessions (id : string)
| CGetGeoAnalytics (period : string)
| CGetTokenStats (period : string)
| CGetDashboardActivity (limit : Z)
| CGetLoginTrends (days : Z)
| CGetAppUsage
| CGetAdminProfile
| CGetAdminStats
| CGetAdminActivity (page pageSize : Z)
| CExportAdminLogs
| CListAlertRules
| CCreateAlertRule (req : AlertRuleRequest)
| CUpdateAlertRule (id : string) (req : AlertRuleRequest)
| CDeleteAlertRule (id : string)
| CGetAlertHistory (page pageSize : Z)
| CAcknowledgeAlert (id note : string)
| CGenerateSecurityReport (req : ReportRequest)
| CGetReportStatus (id : string)
| CDownloadReport (id : string)
| CGetServerConfig
| CTestDB
| CTestCache
| CStreamSecurityEvents (opts : StreamEventOptions) (received : string) (broken : bool)
| CServiceToken
| CServiceTokenWithScopes (scopes : list string)
| CInvalidateServiceToken.

Definition ignore {A} (m : M A) : M unit := _ ← m; mret tt.

Section run.
Context `{TimeJson, UrlLib, Network, service.IPLib}.

Definition run_call (call : call) (ctx : ctxutil.context) : M unit :=
  match call with
  | CListUsers search page pageSize => ignore (ListUsers ctx search page pageSize)
  | CGetUser id => ignore (GetUser ctx id)
  | CCreateUser req => ignore (CreateUser ctx req)
  | CUpdateUserRole id role => ignore (UpdateUserRole ctx id role)
  | CDeleteUser id => ignore (DeleteUser ctx id)
  | CResendVerification id => ignore (ResendVerification ctx id)
  | CForcePasswordReset id => ignore (ForcePasswordReset ctx id)
  | CGetUserAsService id => ignore (GetUserAsService ctx id)
  | CUpdateUserAsService id req => ignore (UpdateUserAsService ctx id req)
  | CRegisterUser req => ignore (RegisterUser ctx req)
  | CInviteUserAsService req => ignore (InviteUserAsService ctx req)
  | CGetCurrentUserProfile => ignore (GetCurrentUserProfile ctx)
  | CRevokeToken token => ignore (RevokeToken ctx token)
  | CIntrospectToken token => ignore (IntrospectToken ctx token)
  | CSendMagicLink email => ignore (SendMagicLink ctx email)
  | CGetActivityLogs page pageSize => ignore (GetActivityLogs ctx page pageSize)
  | CExchangeCode code redirectURI codeVerifier => ignore (ExchangeCode ctx code redirectURI codeVerifier)
  | CRefreshToken refreshToken => ignore (RefreshToken_ ctx refreshToken)
  | CVerifyMagicLink token => ignore (VerifyMagicLink ctx token)
  | CAdminLogin email password => ignore (AdminLogin ctx email password)
  | CLogout => ignore (Logout ctx)
  | CDecide req => ignore (Decide ctx req)
  | CSignup req => ignore (Signup ctx req)
  | CGetProfile => ignore (GetProfile ctx)
  | CUpdateProfile req => ignore (UpdateProfile ctx req)
  | CListApps => ignore (ListApps ctx)
  | CGetApp id => ignore (GetApp ctx id)
  | CCreateApp req => ignore (CreateApp ctx req)
  | CUpdateApp id req => ignore (UpdateApp ctx id req)
  | CDeleteApp id => ignore (DeleteApp ctx id)
  | CRotateSecret id => ignore (RotateSecret ctx id)
  | CAdminListUsers page pageSize => ignore (AdminListUsers ctx page pageSize)
  | CAdminGetUser id => ignore (AdminGetUser ctx id)
  | CAdminDeleteUser id => ignore (AdminDeleteUser ctx id)
  | CGetUserApps id => ignore (GetUserApps ctx id)
  | CBlockUser id => ignore (BlockUser ctx id)
  | CUnlockUser id => ignore (UnlockUser ctx id)
  | CRevokeUserTokens id => ignore (RevokeUserTokens ctx id)
  | CListSuperadmins => ignore (ListSuperadmins ctx)
  | CGetSuperadmin id => ignore (GetSuperadmin ctx id)
  | CCreateSuperadmin req => ignore (CreateSuperadmin ctx req)
  | CUpdateSuperadmin id req => ignore (UpdateSuperadmin ctx id req)
  | CDeleteSuperadmin id => ignore (DeleteSuperadmin ctx id)
  | CGetThreatMetrics => ignore (GetThreatMetrics ctx)
  | CListBlockedIPs => ignore (ListBlockedIPs ctx)
  | CBlockIP req => ignore (BlockIP ctx req)
  | CUnblockIP id => ignore (UnblockIP ctx id)
  | CGetIPReputation id => ignore (GetIPReputation ctx id)
  | CGetDashboardStats => ignore (GetDashboardStats ctx)
  | CGetDashboardHealth => ignore (GetDashboardHealth ctx)
  | CListAdminLogs page pageSize => ignore (ListAdminLogs ctx page pageSize)
  | CGetAdminLog id => ignore (GetAdminLog ctx id)
  | CGetAppLogs page pageSize => ignore (GetAppLogs ctx page pageSize)
  | CListSessions page pageSize => ignore (ListSessions ctx page pageSize)
  | CGetUserSessions id => ignore (GetUserSessions ctx id)
  | CGetGeoAnalytics period => ignore (GetGeoAnalytics ctx period)
  | CGetTokenStats period => ignore (GetTokenStats ctx period)
  | CGetDashboardActivity limit => ignore (GetDashboardActivity ctx limit)
  | CGetLoginTrends days => ignore (GetLoginTrends ctx days)
  | CGetAppUsage => ignore (GetAppUsage ctx)
  | CGetAdminProfile => ignore (GetAdminProfile ctx)
  | CGetAdminStats => ignore (GetAdminStats ctx)
  | CGetAdminActivity page pageSize => ignore (GetAdminActivity ctx page pageSize)
  | CExportAdminLogs => ignore (ExportAdminLogs ctx)
  | CListAlertRules => ignore (ListAlertRules ctx)
  | CCreateAlertRule req => ignore (CreateAlertRule ctx req)
  | CUpdateAlertRule id req => ignore (UpdateAlertRule ctx id req)
  | CDeleteAlertRule id => ignore (DeleteAlertRule ctx id)
  | CGetAlertHistory page pageSize => ignore (GetAlertHistory ctx page pageSize)
  | CAcknowledgeAlert id note => ignore (AcknowledgeAlert ctx id note)
  | CGenerateSecurityReport req => ignore (GenerateSecurityReport ctx req)
  | CGetReportStatus id => ignore (GetReportStatus ctx id)
  | CDownloadReport id => ignore (DownloadReport ctx id)
  | CGetServerConfig => ignore (GetServerConfig ctx)
  | CTestDB => ignore (TestDB ctx)
  | CTestCache => ignore (TestCache ctx)
  | CStreamSecurityEvents opts received broken =>
      ignore (StreamSecurityEvents (λ s _, (None, s)) ctx opts received broken (λ _, false) false tt)
  | CServiceToken => ignore (ServiceToken ctx)
  | CServiceTokenWithScopes scopes => ignore (ServiceTokenWithScopes ctx scopes)
  | CInvalidateServiceToken => InvalidateServiceToken
  end.

(** Calls one after the other, each with its own context. *)
Definition run_calls (cs : list (ctxutil.context * call)) (st : St) : St :=
  fold_left (λ st c, (run_call c.2 c.1 st).2) cs st.

End run.

(** A client that has just been made. *)
Definition start (c : Client) : St := {| cl := c; sent := []; opened := 0; ticks := 0 |}.

(** * Endpoints *)

(** What authenticates a request: the caller's JWT, the application's service
    token, the client credentials in the form, or the login data in the body. *)
Inductive credential := CredJWT | CredService | CredForm | CredPublic.

Inductive port := OAuthPort | AdminPort.

(** An endpoint: path segments and query parameters as they are meant, before
    any escaping; the body, [None] when it cannot be marshalled. *)
Record endpoint := {
  ep_cred : credential; ep_method : string; ep_port : port;
  ep_path : list string; ep_query : list (string * string); ep_body : option string;
}.

Definition ep cred method port path query body : option endpoint :=
  Some {| ep_cred := cred; ep_method := method; ep_port := port; ep_path := path; ep_query := query;
          ep_body := body |}.

Definition paged (page pageSize : Z) : list (string * string) :=
  [("page", itoa page); ("page_size", itoa pageSize)].
Definition optional (name value : string) : list (string * string) :=
  if String.eqb value "" then [] else [(name, value)].

(** The endpoint of a call on a client, whose application id is [app]. *)
Definition endpoint_of `{TimeJson} (c : Client) (call : call) : option endpoint :=
  let app := resolvedAppID c in
  match call with
  | CListUsers search page pageSize =>
      ep CredJWT "GET" AdminPort ["api"; "apps"; app; "users"] (paged page pageSize ++ (if String.eqb search ""
         then [] else [("search", search)])) (Some "")
  | CGetUser id =>
      ep CredJWT "GET" AdminPort ["api"; "apps"; app; "users"; id] [] (Some "")
  | CCreateUser req =>
      ep CredJWT "POST" AdminPort ["api"; "apps"; app; "users"] [] (Some (json_encode (encode_CreateUserRequest req)))
  | CUpdateUserRole id role =>
      ep CredJWT "PUT" AdminPort ["api"; "apps"; app; "users"; id] [] (Some (json_encode (JObj [("role", JStr
         role)])))
  | CDeleteUser id =>
      ep CredJWT "DELETE" AdminPort ["api"; "apps"; app; "users"; id] [] (Some "")
  | CResendVerification id =>
      ep CredJWT "POST" AdminPort ["api"; "apps"; app; "users"; id; "resend-verification"] [] (Some "")
  | CForcePasswordReset id =>
      ep CredJWT "POST" AdminPort ["api"; "apps"; app; "users"; id; "reset-password"] [] (Some "")
  | CGetUserAsService id =>
      ep CredService "GET" AdminPort ["api"; "apps"; app; "service"; "users"; id] [] (Some "")
  | CUpdateUserAsService id req =>
      ep CredService "PATCH" AdminPort ["api"; "apps"; app; "service"; "users"; id] [] (Some (json_encode
         (encode_UpdateProfileRequest req)))
  | CRegisterUser req =>
      ep CredService "POST" AdminPort ["api"; "apps"; app; "service"; "users"] [] (Some (json_encode
         (encode_CreateUserRequest req)))
  | CInviteUserAsService req =>
      ep CredService "POST" AdminPort ["api"; "apps"; app; "service"; "users"] [] (Some (json_encode
         (encode_ServiceInviteRequest req)))
  | CGetCurrentUserProfile =>
      ep CredJWT "GET" OAuthPort ["oauth"; "userinfo"] [] (Some "")
  | CRevokeToken token =>
      ep CredForm "POST" OAuthPort ["oauth"; "revoke"] [] (Some (values_Encode (token_form c token)))
  | CIntrospectToken token =>
      ep CredForm "POST" OAuthPort ["oauth"; "introspect"] [] (Some (values_Encode (token_form c token)))
  | CSendMagicLink email =>
      ep CredService "POST" AdminPort ["api"; "apps"; app; "service"; "magic-link"] [] (Some (json_encode (JObj
         [("email", JStr email)])))
  | CGetActivityLogs page pageSize =>
      ep CredJWT "GET" AdminPort ["api"; "admin"; "security"; "events"] (("app_id", app) :: paged page pageSize)
         (Some "")
  | CExchangeCode code redirectURI codeVerifier =>
      ep CredForm "POST" OAuthPort ["oauth"; "token"] [] (Some (values_Encode (code_form c code redirectURI
         codeVerifier)))
  | CRefreshToken refreshToken =>
      ep CredForm "POST" OAuthPort ["oauth"; "token"] [] (Some (values_Encode (refresh_form c refreshToken)))
  | CVerifyMagicLink token =>
      ep CredPublic "POST" OAuthPort ["api"; "auth"; "magic-link"; "verify"] [] (Some (json_encode (JObj
         [("client_id", JStr (clientID c)); ("token", JStr token)])))
  | CAdminLogin email password =>
      ep CredPublic "POST" AdminPort ["api"; "admin"; "login"] [] (Some (json_encode (JObj [("email", JStr email);
         ("password", JStr password)])))
  | CLogout =>
      ep CredJWT "POST" OAuthPort ["api"; "auth"; "logout"] [] (Some "")
  | CDecide req =>
      ep CredService "POST" AdminPort ["api"; "apps"; app; "service"; "policy"; "decide"] [] (json_encode <$>
         encode_DecideRequest req)
  | CSignup req =>
      ep CredPublic "POST" OAuthPort ["api"; "auth"; "signup"] [] (Some (json_encode (JObj [("client_id", JStr
         (clientID c)); ("email", JStr (SignupRequest_Email req)); ("name", JStr (SignupRequest_Name req));
         ("password", JStr (SignupRequest_Password req))])))
  | CGetProfile =>
      ep CredJWT "GET" OAuthPort ["api"; "profile"] [] (Some "")
  | CUpdateProfile req =>
      ep CredJWT "PUT" OAuthPort ["api"; "profile"] [] (Some (json_encode (encode_UpdateProfileRequest req)))
  | CListApps =>
      ep CredJWT "GET" AdminPort ["api"; "admin"; "apps"] [] (Some "")
  | CGetApp id =>
      ep CredJWT "GET" AdminPort ["api"; "admin"; "apps"; id] [] (Some "")
  | CCreateApp req =>
      ep CredJWT "POST" AdminPort ["api"; "admin"; "apps"] [] (Some (json_encode (encode_CreateAppRequest req)))
  | CUpdateApp id req =>
      ep CredJWT "PUT" AdminPort ["api"; "admin"; "apps"; id] [] (Some (json_encode (encode_UpdateAppRequest req)))
  | CDeleteApp id =>
      ep CredJWT "DELETE" AdminPort ["api"; "admin"; "apps"; id] [] (Some "")
  | CRotateSecret id =>
      ep CredJWT "POST" AdminPort ["api"; "admin"; "apps"; id; "rotate-secret"] [] (Some "")
  | CAdminListUsers page pageSize =>
      ep CredJWT "GET" AdminPort ["api"; "admin"; "users"] (paged page pageSize) (Some "")
  | CAdminGetUser id =>
      ep CredJWT "GET" AdminPort ["api"; "admin"; "users"; id] [] (Some "")
  | CAdminDeleteUser id =>
      ep CredJWT "DELETE" AdminPort ["api"; "admin"; "users"; id] [] (Some "")
  | CGetUserApps id =>
      ep CredJWT "GET" AdminPort ["api"; "admin"; "users"; id; "apps"] [] (Some "")
  | CBlockUser id =>
      ep CredJWT "POST" AdminPort ["api"; "admin"; "users"; id; "block"] [] (Some "")
  | CUnlockUser id =>
      ep CredJWT "POST" AdminPort ["api"; "admin"; "users"; id; "unlock"] [] (Some "")
  | CRevokeUserTokens id =>
      ep CredJWT "POST" AdminPort ["api"; "admin"; "users"; id; "revoke-tokens"] [] (Some "")
  | CListSuperadmins =>
      ep CredJWT "GET" AdminPort ["api"; "admin"; "superadmins"] [] (Some "")
  | CGetSuperadmin id =>
      ep CredJWT "GET" AdminPort ["api"; "admin"; "superadmins"; id] [] (Some "")
  | CCreateSuperadmin req =>
      ep CredJWT "POST" AdminPort ["api"; "admin"; "superadmins"] [] (Some (json_encode
         (encode_CreateSuperadminRequest req)))
  | CUpdateSuperadmin id req =>
      ep CredJWT "PUT" AdminPort ["api"; "admin"; "superadmins"; id] [] (Some (json_encode
         (encode_UpdateSuperadminRequest req)))
  | CDeleteSuperadmin id =>
      ep CredJWT "DELETE" AdminPort ["api"; "admin"; "superadmins"; id] [] (Some "")
  | CGetThreatMetrics =>
      ep CredJWT "GET" AdminPort ["api"; "admin"; "security"; "threats"] [] (Some "")
  | CListBlockedIPs =>
      ep CredJWT "GET" AdminPort ["api"; "admin"; "security"; "blocked-ips"] [] (Some "")
  | CBlockIP req =>
      ep CredJWT "POST" AdminPort ["api"; "admin"; "security"; "blocked-ips"] [] (Some (json_encode
         (encode_BlockIPRequest req)))
  | CUnblockIP id =>
      ep CredJWT "DELETE" AdminPort ["api"; "admin"; "security"; "blocked-ips"; id] [] (Some "")
  | CGetIPReputation id =>
      ep CredJWT "GET" AdminPort ["api"; "admin"; "security"; "ip-reputation"; id] [] (Some "")
  | CGetDashboardStats =>
      ep CredJWT "GET" AdminPort ["api"; "admin"; "dashboard"; "stats"] [] (Some "")
  | CGetDashboardHealth =>
      ep CredJWT "GET" AdminPort ["api"; "admin"; "dashboard"; "health"] [] (Some "")
  | CListAdminLogs page pageSize =>
      ep CredJWT "GET" AdminPort ["api"; "admin"; "logs"] (paged page pageSize) (Some "")
  | CGetAdminLog id =>
      ep CredJWT "GET" AdminPort ["api"; "admin"; "logs"; id] [] (Some "")
  | CGetAppLogs page pageSize =>
      ep CredJWT "GET" AdminPort ["api"; "apps"; app; "logs"] (paged page pageSize) (Some "")
  | CListSessions page pageSize =>
      ep CredJWT "GET" AdminPort ["api"; "admin"; "sessions"] (paged page pageSize) (Some "")
  | CGetUserSessions id =>
      ep CredJWT "GET" AdminPort ["api"; "admin"; "users"; id; "sessions"] [] (Some "")
  | CGetGeoAnalytics period =>
      ep CredJWT "GET" AdminPort ["api"; "admin"; "security"; "geo"] (optional "period" period) (Some "")
  | CGetTokenStats period =>
      ep CredJWT "GET" AdminPort ["api"; "admin"; "tokens"; "stats"] (optional "period" period) (Some "")
  | CGetDashboardActivity limit =>
      ep CredJWT "GET" AdminPort ["api"; "admin"; "dashboard"; "activity"] (if 0 <? limit then [("limit", itoa
         limit)] else []) (Some "")
  | CGetLoginTrends days =>
      ep CredJWT "GET" AdminPort ["api"; "admin"; "dashboard"; "login-trends"] (if 0 <? days then [("days", itoa
         days)] else []) (Some "")
  | CGetAppUsage =>
      ep CredJWT "GET" AdminPort ["api"; "admin"; "dashboard"; "app-usage"] [] (Some "")
  | CGetAdminProfile =>
      ep CredJWT "GET" AdminPort ["api"; "admin"; "profile"] [] (Some "")
  | CGetAdminStats =>
      ep CredJWT "GET" AdminPort ["api"; "admin"; "stats"] [] (Some "")
  | CGetAdminActivity page pageSize =>
      ep CredJWT "GET" AdminPort ["api"; "admin"; "activity"] (paged page pageSize) (Some "")
  | CExportAdminLogs =>
      ep CredJWT "GET" AdminPort ["api"; "admin"; "logs"; "export"] [] (Some "")
  | CListAlertRules =>
      ep CredJWT "GET" AdminPort ["api"; "admin"; "alerts"; "rules"] [] (Some "")
  | CCreateAlertRule req =>
      ep CredJWT "POST" AdminPort ["api"; "admin"; "alerts"; "rules"] [] (json_encode <$> encode_AlertRuleRequest req)
  | CUpdateAlertRule id req =>
      ep CredJWT "PUT" AdminPort ["api"; "admin"; "alerts"; "rules"; id] [] (json_encode <$>
         encode_AlertRuleRequest req)
  | CDeleteAlertRule id =>
      ep CredJWT "DELETE" AdminPort ["api"; "admin"; "alerts"; "rules"; id] [] (Some "")
  | CGetAlertHistory page pageSize =>
      ep CredJWT "GET" AdminPort ["api"; "admin"; "alerts"; "history"] (paged page pageSize) (Some "")
  | CAcknowledgeAlert id note =>
      ep CredJWT "POST" AdminPort ["api"; "admin"; "alerts"; id; "acknowledge"] [] (Some (json_encode (JObj
         [("note", JStr note)])))
  | CGenerateSecurityReport req =>
      ep CredJWT "POST" AdminPort ["api"; "admin"; "reports"; "security"] [] (json_encode <$> encode_ReportRequest
         req)
  | CGetReportStatus id =>
      ep CredJWT "GET" AdminPort ["api"; "admin"; "reports"; id] [] (Some "")
  | CDownloadReport id =>
      ep CredJWT "GET" AdminPort ["api"; "admin"; "reports"; id; "download"] [] (Some "")
  | CGetServerConfig =>
      ep CredJWT "GET" AdminPort ["api"; "admin"; "settings"; "config"] [] (Some "")
  | CTestDB =>
      ep CredJWT "GET" AdminPort ["api"; "admin"; "settings"; "test-db"] [] (Some "")
  | CTestCache =>
      ep CredJWT "GET" AdminPort ["api"; "admin"; "settings"; "test-cache"] [] (Some "")
  | CStreamSecurityEvents opts _ _ =>
      ep CredJWT "GET" AdminPort ["api"; "admin"; "events"; "stream"] (optional "event_type" (so_EventType opts) ++
         optional "last_event_id" (so_LastEventID opts) ++ optional "severity" (so_Severity opts)) (Some "")
  | CServiceToken | CServiceTokenWithScopes _ | CInvalidateServiceToken => None
  end.

(** The text of an endpoint's path and query. *)
Definition path_text (segments : list string) : string :=
  fold_right (λ s acc, "/" +:+ PathEscape s +:+ acc) "" segments.
Definition query_text (l : list (string * string)) : string :=
  match l with [] => "" | _ => "?" +:+ str_join "&" (pair_text <$> l) end.
Definition target (e : endpoint) : string := path_text (ep_path e) +:+ query_text (ep_query e).

(** How a server reads a target: the path is split at its slashes and each
    segment unescaped; the query is parsed. *)
Definition parse_target (t : string) : option (list string) * Values :=
  let '(path, query) := match str_cut "?" t with Some x => x | None => (t, "") end in
  (mapM PathUnescape (tail (str_split "/" path)), ParseQuery query).

Definition base (c : Client) (p : port) : string :=
  match p with OAuthPort => baseURL c | AdminPort => adminBaseURL c end.

(** The Authorization header of a request. *)
Definition authorization (r : HttpRequest) : option (list string) := hr_Header r !! "Authorization".
Definition bearer (tok : string) : option (list string) := Some ["Bearer " +:+ tok].

(** ** Texts that need no escaping *)

(** An application id that needs no escaping. *)
Definition plain (s : string) : Prop := s ≠ "" ∧ all_bytes url_unreserved s = true.

Lemma PathEscape_plain s : all_bytes url_unreserved s = true → PathEscape s = s.
Proof.
  induction s as [|c s IH]; [done|]. cbn [all_bytes PathEscape]. intros [Hc Hs]%andb_true_iff.
  unfold segment_keeps. rewrite Hc. simpl. by rewrite IH.
Qed.

Lemma QueryEscape_plain s : all_bytes url_unreserved s = true → QueryEscape s = s.
Proof.
  induction s as [|c s IH]; [done|]. cbn [all_bytes QueryEscape]. intros [Hc Hs]%andb_true_iff.
  rewrite Hc. by rewrite IH.
Qed.

Lemma digits_of_plain fuel n acc :
  all_bytes url_unreserved acc = true → all_bytes url_unreserved (digits_of fuel n acc) = true.
Proof.
  revert n acc. induction fuel as [|fuel IH]; intros n acc Hacc; [done|]. cbn [digits_of].
  assert (all_bytes url_unreserved (String (of_byte (48 + n mod 10)) acc) = true) as Hc.
  { cbn [all_bytes]. rewrite Hacc, andb_true_r. pose proof (Z.mod_pos_bound n 10 ltac:(lia)).
    rewrite byte_of_of_byte by lia. unfold url_unreserved, url_alnum.
    by rewrite (proj2 (Z.leb_le 48 _)), (proj2 (Z.leb_le _ 57)) by lia. }
  destruct (n / 10 =? 0); [done|by apply IH].
Qed.

Lemma digits_of_nonempty fuel n c acc : digits_of fuel n (String c acc) ≠ "".
Proof.
  revert n c acc. induction fuel as [|fuel IH]; intros n c acc; [done|]. cbn [digits_of].
  destruct (n / 10 =? 0); [done|apply IH].
Qed.

Lemma digits_of_S fuel n acc : digits_of (S fuel) n acc ≠ "".
Proof. cbn [digits_of]. destruct (n / 10 =? 0); [done|apply digits_of_nonempty]. Qed.

Lemma itoa_plain z : plain (itoa z).
Proof.
  assert (∀ n, plain (digits_of 20 n "")) as Hd.
  { intros n. split; [apply digits_of_S|by apply digits_of_plain]. }
  unfold itoa. destruct (z <? 0); [|apply Hd]. split; [done|].
  destruct (Hd (- z)) as [_ Hz]. revert Hz. generalize (digits_of 20 (- z) ""). intros d Hz.
  cbn [all_bytes]. by rewrite Hz.
Qed.

Lemma PathEscape_itoa z : PathEscape (itoa z) = itoa z.
Proof. apply PathEscape_plain, itoa_plain. Qed.
Lemma QueryEscape_itoa z : QueryEscape (itoa z) = itoa z.
Proof. apply QueryEscape_plain, itoa_plain. Qed.

(** ** What a call may send *)

Section allowed.
Context `{TimeJson, UrlLib, Network, service.IPLib}.

(** The credential a client may attach on behalf of [ctx]. *)
Definition credential_ok (ctx : ctxutil.context) (c : Client) (cred : credential) (r : HttpRequest) : Prop :=
  match cred with
  | CredJWT => ctxutil.GetRawJWT ctx ≠ "" ∧ authorization r = bearer (ctxutil.GetRawJWT ctx)
  | CredService => service.svcToken (tokens c) ≠ "" ∧ authorization r = bearer (service.svcToken (tokens c))
  | CredForm | CredPublic => authorization r = None
  end.

Definition sends (ctx : ctxutil.context) (c : Client) (e : endpoint) (r : HttpRequest) : Prop :=
  hr_Method r = ep_method e ∧ hr_URL r = base c (ep_port e) +:+ target e ∧ Some (hr_Body r) = ep_body e ∧
  credential_ok ctx c (ep_cred e) r.

(** The look-up of the application id, while it is not known. *)
Definition lookup (cred : credential) : endpoint :=
  {| ep_cred := cred; ep_method := "GET"; ep_port := AdminPort; ep_path := ["api"; "admin"; "apps"];
     ep_query := []; ep_body := Some "" |}.

(** The exchange of the client credentials for a token. *)
Definition exchange (c : Client) (scope : string) : endpoint :=
  {| ep_cred := CredForm; ep_method := "POST"; ep_port := OAuthPort; ep_path := ["oauth"; "token"];
     ep_query := []; ep_body := Some (values_Encode (credentials_form c scope)) |}.

(** The kind of token a call works with. *)
Definition call_credential (call : call) : credential :=
  match endpoint_of {| baseURL := ""; adminBaseURL := ""; clientID := ""; resolvedAppID := ""; httpTimeout := 0;
                       tokens := {| service.clientSecret := ""; service.svcToken := ""; service.svcTokenExpiry := 0;
                                    service.scoped := None; service.entries := ∅; service.scopedTick := 0 |} |} call with
  | Some e => ep_cred e
  | None => CredService
  end.

(** The scope a call asks a token for. *)
Definition call_scope (call : call) (scope : string) : Prop :=
  match call with
  | CServiceTokenWithScopes scopes =>
      ∃ set, service.normaliseScopes scopes = Ok set ∧ scope = str_join " " set
  | _ => scope = ""
  end.

(** The client with another application id. *)
Definition with_app (c : Client) (app : string) : Client :=
  {| baseURL := baseURL c; adminBaseURL := adminBaseURL c; clientID := clientID c; resolvedAppID := app;
     httpTimeout := httpTimeout c; tokens := tokens c |}.

(** The endpoint does not name the application. *)
Definition app_free (c : Client) (call : call) (e : endpoint) : Prop :=
  ∀ app, endpoint_of (with_app c app) call = Some e.

(** The endpoint names the application. *)
Definition names_app (c : Client) (call : call) : Prop :=
  endpoint_of (with_app c "0") call ≠ endpoint_of (with_app c "1") call.

(** A request a call may send when the client is [c]. *)
Inductive may_send (ctx : ctxutil.context) (call : call) (c : Client) (r : HttpRequest) : Prop :=
| may_endpoint e :
    endpoint_of c call = Some e → resolvedAppID c ≠ "" ∨ app_free c call e → sends ctx c e r → may_send ctx call c r
| may_lookup :
    resolvedAppID c = "" → names_app c call → sends ctx c (lookup (call_credential call)) r → may_send ctx call c r
| may_exchange scope :
    call_credential call = CredService → call_scope call scope → clientSecret c ≠ "" →
    sends ctx c (exchange c scope) r → may_send ctx call c r.

(** A token was granted to this client: some exchange was answered with it. *)
Definition granted (st : St) (tok : string) : Prop :=
  ∃ pre r post ctx scope sent_at err tr exp,
    sent st = pre ++ r :: post ∧ sends ctx (cl st) (exchange (cl st) scope) r ∧
    service.exchangeClientCredentials (serve pre r) sent_at err = Ok (tr, exp) ∧
    service.tr_AccessToken tr = tok.

(** The first application of the list in an answer that has the client's id. *)
Definition lists_app (c : Client) (a : http_answer) (id : string) : Prop :=
  ∃ b apps i app, readBody a = Some b ∧ status_of a = 200 ∧ unmarshal (decode_object decode_apps) None b = Some apps ∧
    default [] apps !! i = Some app ∧ app.2 = clientID c ∧
    (∀ j app', default [] apps !! j = Some app' → (j < i)%nat → app'.2 ≠ clientID c) ∧ id = itoa app.1.

(** The id of the application was found: a request for the list was answered with it. *)
Definition found (c : Client) (log : list HttpRequest) (id : string) : Prop :=
  ∃ pre r post, log = pre ++ r :: post ∧ hr_Method r = "GET" ∧ hr_URL r = adminBaseURL c +:+ "/api/admin/apps" ∧
    lists_app c (serve pre r) id.

(** Clients that differ only in tokens and application id. *)
Definition same_config (c c' : Client) : Prop :=
  baseURL c = baseURL c' ∧ adminBaseURL c = adminBaseURL c' ∧ clientID c = clientID c' ∧
  clientSecret c = clientSecret c' ∧ httpTimeout c = httpTimeout c'.

(** The steps of a call. *)
Inductive step (ctx : ctxutil.context) (call : call) : St → St → Prop :=
| step_tick st : step ctx call st (time_Now st).2
| step_close st : step ctx call st (closed st)
| step_send st r : may_send ctx call (cl st) r → step ctx call st (Do r st).2
| step_app st id :
    resolvedAppID (cl st) = "" → plain id → found (cl st) (sent st) id → step ctx call st (set_app_id id st).2
| step_tokens st t :
    service.clientSecret t = clientSecret (cl st) →
    (service.svcToken t = "" ∨ service.svcToken t = service.svcToken (tokens (cl st)) ∨
     granted st (service.svcToken t)) →
    step ctx call st (store_tokens t st).2.

Definition steps (ctx : ctxutil.context) (call : call) : St → St → Prop := rtc (step ctx call).

(** [m] goes by steps of the call, and a value it returns satisfies [Q]. *)
Definition runs (ctx : ctxutil.context) (call : call) {A} (st : St) (m : M A) (Q : A → St → Prop) : Prop :=
  steps ctx call st (m st).2 ∧ match (m st).1 with Ok x => Q x (m st).2 | Err _ => True end.

(** ** Rules *)

Section rules.
Context (ctx : ctxutil.context) (call : call).

Lemma runs_ret {A} st (x : A) (Q : A → St → Prop) : Q x st → runs ctx call st (mret x) Q.
Proof. intros HQ. split; [apply rtc_refl|exact HQ]. Qed.

Lemma runs_fail {A} st e (Q : A → St → Prop) : runs ctx call st (fail e) Q.
Proof. split; [apply rtc_refl|exact I]. Qed.

Lemma runs_bind {A B} st (m : M A) (f : A → M B) Q' Q :
  runs ctx call st m Q' → (∀ x st', Q' x st' → runs ctx call st' (f x) Q) → runs ctx call st (m ≫= f) Q.
Proof.
  intros [Hs Hr] Hf. unfold runs, mbind, M_bind. destruct (m st) as [[x|e] st']; simpl in *; [|done].
  destruct (Hf x st' Hr) as [Hs' Hr']. split; [by etrans|done].
Qed.

Lemma runs_wrap {A} st label (m : M A) Q : runs ctx call st m Q → runs ctx call st (wrap label m) Q.
Proof. unfold runs, wrap. by destruct (m st) as [[x|e] st']. Qed.

Lemma runs_weaken {A} st (m : M A) (Q Q' : A → St → Prop) :
  runs ctx call st m Q → (∀ x st', Q x st' → Q' x st') → runs ctx call st m Q'.
Proof. intros [Hs Hr] HQ. split; [done|]. destruct (m st) as [[x|e] st']; simpl in *; auto. Qed.

Lemma runs_self st : runs ctx call st self (λ c st', c = cl st ∧ st' = st).
Proof. split; [apply rtc_refl|done]. Qed.

Lemma runs_adminURL st path : runs ctx call st (adminURL path) (λ u st', u = adminBaseURL (cl st) +:+ path ∧ st' = st).
Proof. split; [apply rtc_refl|done]. Qed.

Lemma runs_oauthURL st path : runs ctx call st (oauthURL path) (λ u st', u = baseURL (cl st) +:+ path ∧ st' = st).
Proof. split; [apply rtc_refl|done]. Qed.

Lemma runs_act_close {A} st (f : St → result goerr A) : runs ctx call st (act (λ st, (f st, closed st))) (λ _ _, True).
Proof. split; [apply rtc_once, step_close|]. unfold act. simpl. by destruct (f st). Qed.

Lemma runs_read_body st resp : runs ctx call st (read_body resp) (λ _ _, True).
Proof. apply (runs_act_close st (λ _, _)). Qed.

Lemma runs_time_Now st : runs ctx call st time_Now (λ _ st', cl st' = cl st ∧ sent st' = sent st).
Proof. split; [apply rtc_once, step_tick|done]. Qed.

Lemma runs_NewRequest st method u body :
  runs ctx call st (NewRequest method u body)
    (λ r st', r = {| hr_Method := method; hr_URL := u; hr_Header := ∅; hr_Body := body |} ∧ st' = st).
Proof. unfold NewRequest. destruct (url_Parse u); [by apply runs_ret|apply runs_fail]. Qed.

Lemma runs_marshal st b :
  runs ctx call st (marshal b)
    (λ text st', st' = st ∧ match b with NoBody => text = "" | Json v => json_encode <$> v = Some text end).
Proof. destruct b as [|[v|]]; [by apply runs_ret|by apply runs_ret|apply runs_fail]. Qed.

Lemma runs_Do st r : may_send ctx call (cl st) r →
  runs ctx call st (Do r)
    (λ a st', cl st' = cl st ∧ sent st' = sent st ++ [r] ∧ a = serve (sent st) r ∧ a ≠ TransportError).
Proof.
  intros Hr. split; [by apply rtc_once, step_send|]. unfold Do. by destruct (serve (sent st) r).
Qed.

(** The last request sent, and its answer. *)
Definition answered (method u : string) (a : http_answer) (st : St) : Prop :=
  ∃ pre r, sent st = pre ++ [r] ∧ hr_Method r = method ∧ hr_URL r = u ∧ a = serve pre r.

Lemma runs_Do_cl st r :
  may_send ctx call (cl st) r →
  runs ctx call st (Do r) (λ a st', cl st' = cl st ∧ answered (hr_Method r) (hr_URL r) a st').
Proof.
  intros Hr. eapply runs_weaken; [by apply runs_Do|]. intros a st' (? & Hs & Ha & _). split; [done|].
  by exists (sent st), r.
Qed.

(** Computations that send nothing after a response arrived. *)
Definition quiet {A} (m : M A) : Prop := ∀ st, runs ctx call st m (λ _ _, True).

Lemma quiet_ret {A} (x : A) : quiet (mret x).
Proof. intros st. by apply runs_ret. Qed.
Lemma quiet_fail {A} e : quiet (fail (A := A) e).
Proof. intros st. apply runs_fail. Qed.
Lemma quiet_bind {A B} (m : M A) (f : A → M B) : quiet m → (∀ x, quiet (f x)) → quiet (m ≫= f).
Proof. intros Hm Hf st. eapply runs_bind; [apply Hm|]. intros x st' _. apply Hf. Qed.
Lemma quiet_wrap {A} label (m : M A) : quiet m → quiet (wrap label m).
Proof. intros Hm st. apply runs_wrap, Hm. Qed.
Lemma quiet_if {A} (b : bool) (m m' : M A) : quiet m → quiet m' → quiet (if b then m else m').
Proof. by destruct b. Qed.
Lemma quiet_close {A} (f : St → result goerr A) : quiet (act (λ st, (f st, closed st))).
Proof. intros st. apply runs_act_close. Qed.
Lemma quiet_read_body resp : quiet (read_body resp).
Proof. intros st. apply runs_read_body. Qed.
Lemma quiet_decode_json {A} resp label (dec : A → json → option A) zero codes :
  quiet (decode_json resp label dec zero codes).
Proof. apply (quiet_close (λ _, _)). Qed.
Lemma quiet_decode_nothing resp label codes : quiet (decode_nothing resp label codes).
Proof. apply (quiet_close (λ _, _)). Qed.
Lemma quiet_unmarshal {A} label (dec : A → json → option A) zero b : quiet (unmarshal_as label dec zero b).
Proof. unfold unmarshal_as. destruct (unmarshal dec zero b); [apply quiet_ret|apply quiet_fail]. Qed.
Lemma quiet_http_fail {A} label resp b : quiet (http_fail (A := A) label resp b).
Proof. apply quiet_fail. Qed.

Lemma quiet_discard : quiet discard_body.
Proof. apply (quiet_close (λ _, _)). Qed.
Lemma quiet_token_set resp : quiet (decode_token_set resp).
Proof. apply (quiet_close (λ _, _)). Qed.
Lemma quiet_wrapped {A} label name (dec : A → json → option A) zero b : quiet (unmarshal_wrapped label name dec zero b).
Proof.
  unfold unmarshal_wrapped. destruct (unmarshal _ _ b); [apply quiet_ret|].
  destruct (unmarshal_struct _ _ b); [apply quiet_ret|apply quiet_fail].
Qed.

(** ** Headers *)

Lemma setCorrelationID_lookup h k : k ≠ "X-Correlation-Id" → service.setCorrelationID ctx h !! k = h !! k.
Proof.
  intros Hk. unfold service.setCorrelationID. destruct (_ || _); [done|]. destruct (all_bytes _ _); [|done].
  unfold header_Set. by rewrite lookup_insert_ne.
Qed.

Lemma attribution_lookup h k :
  k ≠ "X-Forwarded-For" → k ≠ "X-Real-Ip" → k ≠ "User-Agent" → service.ApplyClientAttribution ctx h !! k = h !! k.
Proof.
  intros Hxf Hxr Hag. unfold service.ApplyClientAttribution. destruct (service.ClientAttributionFrom ctx) as [a|]; [|done].
  assert (∀ h', (if negb (String.eqb (service.sanitizeUserAgent (ca_UserAgent a)) "")
                 then header_Set h' "User-Agent" (service.sanitizeUserAgent (ca_UserAgent a)) else h') !! k = h' !! k) as Hua.
  { intros h'. destruct (negb _); [|done]. unfold header_Set. by rewrite lookup_insert_ne. }
  rewrite Hua. destruct (service.canonical_ip _); [|done]. unfold header_Set, header_Del.
  by rewrite lookup_delete_ne, lookup_insert_ne.
Qed.

(** The text of a body. *)
Definition body_text (b : body) : option string :=
  match b with NoBody => Some "" | Json v => json_encode <$> v end.

(** ** Senders *)

(** What a sender hands over when it is called with a method, a URL, a body and
    an Authorization header. *)
Definition hands_over (c : Client) (auth : option (list string)) (method u : string) (text : option string) : Prop :=
  ∀ r, hr_Method r = method → hr_URL r = u → Some (hr_Body r) = text → authorization r = auth →
       may_send ctx call c r.

Lemma runs_send_json st (h0 : Header → Header) auth method u b :
  (∀ h, authorization {| hr_Method := ""; hr_URL := ""; hr_Header := h0 h; hr_Body := "" |} = auth) →
  hands_over (cl st) auth method u (body_text b) →
  runs ctx call st
    (text ← wrap "marshal request body" (marshal b);
     req ← wrap "create request" (NewRequest method u text);
     Do (with_headers (h0 (hr_Header req)) req)) (λ a st', cl st' = cl st ∧ answered method u a st').
Proof.
  intros Hauth Hsend. eapply runs_bind; [apply runs_wrap, runs_marshal|]. intros text st' [-> Htext].
  eapply runs_bind; [apply runs_wrap, runs_NewRequest|]. intros req st' [-> ->].
  eapply runs_Do_cl, Hsend; [done|done| |apply Hauth].
  destruct b as [|v]; simpl in *; [by subst|done].
Qed.

Lemma runs_doHTTP st tok method u b :
  hands_over (cl st) (bearer tok) method u (body_text b) →
  runs ctx call st (doHTTP ctx tok method u b) (λ a st', cl st' = cl st ∧ answered method u a st').
Proof.
  apply (runs_send_json st (λ h, service.setCorrelationID ctx (header_Set (header_Set h "Authorization"
           ("Bearer " +:+ tok)) "Content-Type" "application/json"))).
  intros h. unfold authorization. simpl. rewrite setCorrelationID_lookup by done.
  unfold header_Set. rewrite lookup_insert_ne by done. apply lookup_insert_eq.
Qed.

Lemma runs_doWithJWT st method u b :
  (ctxutil.GetRawJWT ctx ≠ "" → hands_over (cl st) (bearer (ctxutil.GetRawJWT ctx)) method u (body_text b)) →
  runs ctx call st (doWithJWT ctx method u b) (λ a st', cl st' = cl st ∧ answered method u a st').
Proof.
  intros Hsend. unfold doWithJWT. destruct (String.eqb_spec (ctxutil.GetRawJWT ctx) ""); [apply runs_fail|].
  by apply runs_doHTTP, Hsend.
Qed.

Lemma runs_doHTTPNoAuth st method u b :
  hands_over (cl st) None method u (body_text b) → runs ctx call st (doHTTPNoAuth ctx method u b) (λ _ _, True).
Proof.
  intros Hsend. eapply runs_bind; [apply runs_wrap, runs_marshal|]. intros text st' [-> Htext].
  eapply runs_bind; [apply runs_wrap, runs_NewRequest|]. intros req st' [-> ->].
  eapply runs_weaken; [eapply runs_Do_cl, Hsend; [done|done| |]|done].
  - destruct b as [|v]; simpl in *; [by subst|done].
  - unfold authorization. simpl. rewrite setCorrelationID_lookup, attribution_lookup by done. done.
Qed.

Lemma runs_postForm st u data :
  hands_over (cl st) None "POST" u (Some (values_Encode data)) →
  runs ctx call st (postForm ctx u data) (λ _ _, True).
Proof.
  intros Hsend. eapply runs_bind; [apply runs_wrap, runs_NewRequest|]. intros req st' [-> ->].
  eapply runs_weaken; [eapply runs_Do_cl, Hsend; [done|done|done|]|done].
  unfold authorization. simpl. rewrite setCorrelationID_lookup, attribution_lookup by done. done.
Qed.

(** ** The service token *)

Lemma exchange_nonempty a sent_at err tr exp :
  service.exchangeClientCredentials a sent_at err = Ok (tr, exp) → service.tr_AccessToken tr ≠ "".
Proof.
  unfold service.exchangeClientCredentials. intros Hx. destruct a; [done|..];
    (destruct (readBody _); [|done]); (destruct (negb _); [done|]); (destruct unmarshal_struct; [|done]);
    destruct (String.eqb_spec (service.tr_AccessToken t) ""); by simplify_eq.
Qed.

Lemma sends_exchange st scope r :
  hr_Method r = "POST" → hr_URL r = baseURL (cl st) +:+ "/oauth/token" →
  hr_Body r = values_Encode (credentials_form (cl st) scope) → authorization r = None →
  sends ctx (cl st) (exchange (cl st) scope) r.
Proof. intros Hm Hu Hb Ha. split_and!; [done|by rewrite Hu|by rewrite Hb|done]. Qed.

Lemma runs_exchange st scope httpErr :
  call_credential call = CredService → call_scope call scope → clientSecret (cl st) ≠ "" →
  runs ctx call st (exchangeClientCredentials ctx scope httpErr)
    (λ x st', cl st' = cl st ∧ granted st' (service.tr_AccessToken x.1) ∧ service.tr_AccessToken x.1 ≠ "").
Proof.
  intros Hcred Hscope Hsec. unfold exchangeClientCredentials.
  eapply runs_bind; [apply runs_self|]. intros c st' [-> ->].
  eapply runs_bind; [apply runs_oauthURL|]. intros u st' [-> ->].
  eapply runs_bind; [apply runs_wrap, runs_NewRequest|]. intros req st' [-> ->].
  eapply runs_bind; [apply runs_time_Now|]. intros sent_at st1 [Hcl Hsent].
  match goal with |- context [Do ?q] => set (r := q) end.
  assert (sends ctx (cl st) (exchange (cl st) scope) r) as Hr.
  { apply sends_exchange; [done|done|done|]. unfold authorization. subst r. simpl.
    by rewrite setCorrelationID_lookup by done. }
  eapply runs_bind.
  { apply runs_wrap, runs_Do. rewrite Hcl. by eapply may_exchange. }
  intros a st2 (Hcl2 & Hsent2 & Ha & Hne). split; [apply rtc_once, step_close|]. simpl.
  destruct (service.exchangeClientCredentials a sent_at httpErr) as [[tr exp]|e] eqn:Hx; [|done]. simpl.
  rewrite Hcl2, Hcl. split_and!; [done| |by eapply exchange_nonempty].
  exists (sent st1), r, [], ctx, scope, sent_at, httpErr, tr, exp. simpl. rewrite Hcl2, Hcl, <- Ha. done.
Qed.

Lemma runs_store_tokens st t :
  service.clientSecret t = clientSecret (cl st) →
  (service.svcToken t = "" ∨ service.svcToken t = service.svcToken (tokens (cl st)) ∨
   granted st (service.svcToken t)) →
  runs ctx call st (store_tokens t)
    (λ _ st', same_config (cl st) (cl st') ∧ resolvedAppID (cl st') = resolvedAppID (cl st) ∧ tokens (cl st') = t).
Proof. intros Hsec Ht. split; [by apply rtc_once, step_tokens|]. by split_and!. Qed.

Lemma runs_token_cached st :
  runs ctx call st token_cached
    (λ b st', cl st' = cl st ∧ sent st' = sent st ∧ (b = true → service.svcToken (tokens (cl st)) ≠ "")).
Proof.
  unfold token_cached. eapply runs_bind; [apply runs_self|]. intros c st' [-> ->].
  destruct (String.eqb_spec (service.svcToken (tokens (cl st))) ""); [by apply runs_ret|].
  eapply runs_bind; [apply runs_time_Now|]. intros now st1 [Hcl Hsent]. by apply runs_ret.
Qed.

Definition token_post (st : St) (tok : string) (st' : St) : Prop :=
  tok = service.svcToken (tokens (cl st')) ∧ tok ≠ "" ∧ same_config (cl st) (cl st') ∧
  resolvedAppID (cl st') = resolvedAppID (cl st).

Lemma runs_ServiceToken st :
  call_credential call = CredService → call_scope call "" →
  runs ctx call st (ServiceToken ctx) (λ x st', token_post st x.1 st').
Proof.
  intros Hcred Hscope. unfold ServiceToken. eapply runs_bind; [apply runs_token_cached|].
  intros b st1 (Hcl & Hsent & Hb). eapply runs_bind; [apply runs_self|]. intros c st' [-> ->]. rewrite Hcl.
  destruct b.
  { apply runs_ret. unfold token_post. simpl. rewrite Hcl. split_and!; [done|by apply Hb|done|done]. }
  destruct (String.eqb_spec (clientSecret (cl st)) "") as [|Hsec]; [apply runs_fail|].
  eapply runs_bind; [by apply runs_exchange; rewrite ?Hcl|]. intros [tr exp] st2 (Hcl2 & Hg & Hne).
  eapply runs_bind.
  { apply runs_store_tokens; [by rewrite Hcl2, Hcl|]. right. right. exact Hg. }
  intros [] st3 (Hconf & Happ & Htok). apply runs_ret. unfold token_post. rewrite Hcl2, Hcl in *. simpl in *.
  rewrite Htok. by split_and!.
Qed.

Lemma runs_getServiceToken st :
  call_credential call = CredService → call_scope call "" →
  runs ctx call st (getServiceToken ctx) (token_post st).
Proof.
  intros Hcred Hscope. unfold getServiceToken. eapply runs_bind; [by apply runs_ServiceToken|].
  intros [tok exp] st' Hpost. by apply runs_ret.
Qed.

Lemma runs_doWithServiceToken st method u b :
  call_credential call = CredService → call_scope call "" →
  (∀ c, same_config (cl st) c → resolvedAppID c = resolvedAppID (cl st) → service.svcToken (tokens c) ≠ "" →
     hands_over c (bearer (service.svcToken (tokens c))) method u (body_text b)) →
  runs ctx call st (doWithServiceToken ctx method u b)
    (λ a st', same_config (cl st) (cl st') ∧ resolvedAppID (cl st') = resolvedAppID (cl st) ∧ answered method u a st').
Proof.
  intros Hcred Hscope Hsend. unfold doWithServiceToken.
  eapply runs_bind; [by apply runs_wrap, runs_getServiceToken|]. intros tok st' (-> & Hne & Hconf & Happ).
  eapply runs_weaken; [by apply runs_doHTTP, Hsend|]. by intros a st2 [-> Ha].
Qed.

(** ** The application id *)

Definition app_ok (c : Client) : Prop := resolvedAppID c = "" ∨ plain (resolvedAppID c).

Definition app_post (app : string) (st : St) : Prop := app = resolvedAppID (cl st) ∧ plain app.

Lemma runs_parseAppID st resp u :
  resolvedAppID (cl st) = "" → answered "GET" u resp st → u = adminBaseURL (cl st) +:+ "/api/admin/apps" →
  runs ctx call st (parseAppID resp) app_post.
Proof.
  intros Happ (pre & r & Hsent & Hmeth & Hurl & Hresp) ->. unfold parseAppID.
  assert (runs ctx call st (wrap "read apps response" (read_body resp))
            (λ b st', cl st' = cl st ∧ sent st' = sent st ∧ readBody resp = Some b)) as Hread.
  { apply runs_wrap. split; [apply rtc_once, step_close|]. unfold read_body. simpl. by destruct (readBody resp). }
  eapply runs_bind; [exact Hread|]. intros b st1 (Hcl & Hs1 & Hb).
  destruct (negb _) eqn:Hstatus; [apply runs_fail|]. bool_to_prop.
  unfold unmarshal_as. destruct (unmarshal _ _ b) as [apps|] eqn:Happs; [|split; [apply rtc_refl|done]].
  eapply runs_bind; [by apply (runs_ret st1 apps (λ x st', x = apps ∧ st' = st1))|]. intros ? ? [-> ->].
  eapply runs_bind; [apply runs_self|]. intros c st' [-> ->].
  destruct (list_find _ _) as [[i app]|] eqn:Hfind; [|apply runs_fail].
  apply list_find_Some in Hfind as (Hi & Hid & Hfirst). rewrite Hcl in Hid, Hfirst.
  eapply (runs_bind _ _ _ (λ _ st', resolvedAppID (cl st') = itoa app.1)).
  { split; [apply rtc_once, step_app; [by rewrite Hcl|apply itoa_plain|]|done].
    exists pre, r, []. rewrite Hcl, Hs1. split_and!; [done..|]. exists b, apps, i, app. by rewrite <- Hresp. }
  intros [] st2 Hid'. apply runs_ret. split; [done|apply itoa_plain].
Qed.

(** The look-up request of a user call and of a service call. *)
Lemma may_lookup_request c auth :
  resolvedAppID c = "" → names_app c call →
  (∀ r, authorization r = auth → credential_ok ctx c (call_credential call) r) →
  hands_over c auth "GET" (adminBaseURL c +:+ "/api/admin/apps") (Some "").
Proof.
  intros Happ Hn Hcred r Hm Hu Hb Ha. apply may_lookup; [done|done|]. split_and!; [done|by rewrite Hu|done|by apply Hcred].
Qed.

Lemma runs_getAppID st :
  call_credential call = CredJWT → (∀ c, names_app c call) → app_ok (cl st) → runs ctx call st (getAppID ctx) app_post.
Proof.
  intros Hcred Hn Hok. unfold getAppID. eapply runs_bind; [apply runs_self|]. intros c st' [-> ->].
  destruct (String.eqb_spec (resolvedAppID (cl st)) "") as [Happ|Happ].
  2:{ apply runs_ret. split; [done|]. by destruct Hok. }
  eapply runs_bind; [apply runs_adminURL|]. intros u st' [-> ->].
  eapply runs_bind.
  { apply runs_wrap, runs_doWithJWT. intros Hjwt. apply may_lookup_request; [done|done|]. intros r Ha. by rewrite Hcred. }
  intros resp st1 [Hcl Ha]. eapply runs_parseAppID; [by rewrite Hcl|exact Ha|by rewrite Hcl].
Qed.

Lemma runs_getAppIDAsService st :
  call_credential call = CredService → call_scope call "" → (∀ c, names_app c call) → app_ok (cl st) →
  runs ctx call st (getAppIDAsService ctx) app_post.
Proof.
  intros Hcred Hscope Hn Hok. unfold getAppIDAsService. eapply runs_bind; [apply runs_self|]. intros c st' [-> ->].
  destruct (String.eqb_spec (resolvedAppID (cl st)) "") as [Happ|Happ].
  2:{ apply runs_ret. split; [done|]. by destruct Hok. }
  eapply runs_bind; [apply runs_adminURL|]. intros u st' [-> ->].
  eapply runs_bind.
  { apply runs_wrap, runs_doWithServiceToken; [done|done|]. intros c (_ & -> & _) Happc Htok.
    apply may_lookup_request; [by rewrite Happc|done|]. intros r Ha. by rewrite Hcred. }
  intros resp st1 (Hconf & Happ1 & Ha). destruct (status_of resp =? 401); [apply runs_fail|].
  eapply runs_parseAppID; [by rewrite Happ1|exact Ha|]. by destruct Hconf as (_ & -> & _).
Qed.

(** ** The endpoint's request *)

Lemma endpoint_hands_over c e auth method u text :
  endpoint_of c call = Some e → resolvedAppID c ≠ "" ∨ app_free c call e →
  method = ep_method e → u = base c (ep_port e) +:+ target e → text = ep_body e →
  (∀ r, authorization r = auth → credential_ok ctx c (ep_cred e) r) → hands_over c auth method u text.
Proof.
  intros He Hn Hm Hu Ht Hc r Hrm Hru Hrb Ha. eapply may_endpoint; [done|done|]. split_and!; [congruence..|by apply Hc].
Qed.

Lemma runs_user st e method u b :
  endpoint_of (cl st) call = Some e → resolvedAppID (cl st) ≠ "" ∨ app_free (cl st) call e → ep_cred e = CredJWT → method = ep_method e →
  u = base (cl st) (ep_port e) +:+ target e → body_text b = ep_body e →
  runs ctx call st (doWithJWT ctx method u b) (λ _ _, True).
Proof.
  intros He Hn Hcred Hm Hu Hb. eapply runs_weaken; [|done].
  apply runs_doWithJWT. intros Hjwt. eapply endpoint_hands_over; [done..|]. intros r Ha. by rewrite Hcred.
Qed.

Lemma runs_service st e method u b :
  call_credential call = CredService → call_scope call "" →
  resolvedAppID (cl st) ≠ "" → (∀ c, resolvedAppID c = resolvedAppID (cl st) → endpoint_of c call = Some e) →
  ep_cred e = CredService → ep_port e = AdminPort → method = ep_method e →
  u = adminBaseURL (cl st) +:+ target e → body_text b = ep_body e →
  runs ctx call st (doWithServiceToken ctx method u b) (λ _ _, True).
Proof.
  intros Hc Hscope Hn He Hcred Hport Hm Hu Hb. eapply runs_weaken; [|done].
  apply runs_doWithServiceToken; [done|done|]. intros c (_ & Hadm & _) Happ Htok.
  eapply endpoint_hands_over; [by apply He|left; by rewrite Happ|done| |done|].
  - rewrite Hport. simpl. by rewrite <- Hadm.
  - intros r Ha. by rewrite Hcred.
Qed.

Lemma runs_public st e method u b :
  endpoint_of (cl st) call = Some e → resolvedAppID (cl st) ≠ "" ∨ app_free (cl st) call e → ep_cred e = CredPublic → method = ep_method e →
  u = base (cl st) (ep_port e) +:+ target e → body_text b = ep_body e →
  runs ctx call st (doHTTPNoAuth ctx method u b) (λ _ _, True).
Proof.
  intros He Hn Hcred Hm Hu Hb. eapply runs_weaken; [|done].
  apply runs_doHTTPNoAuth. eapply endpoint_hands_over; [done..|]. intros r Ha. by rewrite Hcred.
Qed.

Lemma runs_form st e u data :
  endpoint_of (cl st) call = Some e → resolvedAppID (cl st) ≠ "" ∨ app_free (cl st) call e → ep_cred e = CredForm → ep_method e = "POST" →
  u = base (cl st) (ep_port e) +:+ target e → ep_body e = Some (values_Encode data) →
  runs ctx call st (postForm ctx u data) (λ _ _, True).
Proof.
  intros He Hn Hcred Hm Hu Hb. eapply runs_weaken; [|done].
  apply runs_postForm. eapply endpoint_hands_over; [done..|]. intros r Ha. by rewrite Hcred.
Qed.

(** A request built by hand. *)
Lemma runs_request st e r :
  endpoint_of (cl st) call = Some e → resolvedAppID (cl st) ≠ "" ∨ app_free (cl st) call e → hr_Method r = ep_method e →
  hr_URL r = base (cl st) (ep_port e) +:+ target e → Some (hr_Body r) = ep_body e →
  credential_ok ctx (cl st) (ep_cred e) r → runs ctx call st (Do r) (λ _ _, True).
Proof.
  intros He Hn Hm Hu Hb Hc. eapply runs_weaken; [apply runs_Do_cl; by eapply may_endpoint|done].
Qed.

Lemma runs_then {A B} st (m : M A) (k : A → M B) :
  runs ctx call st m (λ _ _, True) → (∀ x, quiet (k x)) → runs ctx call st (m ≫= k) (λ _ _, True).
Proof. intros Hm Hk. eapply runs_bind; [done|]. intros x st' _. apply Hk. Qed.

Lemma runs_ignore {A} st (m : M A) : runs ctx call st m (λ _ _, True) → runs ctx call st (ignore m) (λ _ _, True).
Proof. intros Hm. eapply runs_bind; [done|]. intros x st' _. by apply runs_ret. Qed.

End rules.

(** ** Every call *)

(** The tail of a method: reading the response. *)
Ltac tail :=
  intros; repeat first
    [ apply quiet_ret | apply quiet_fail | apply quiet_http_fail | apply quiet_read_body | apply quiet_unmarshal
    | apply quiet_decode_json | apply quiet_decode_nothing | apply quiet_if | apply quiet_wrap
    | apply quiet_bind; [|intros ?] | apply quiet_discard | apply quiet_token_set | apply quiet_wrapped
    | apply (quiet_close (λ _, _))
    | match goal with |- quiet _ _ (match ?x with _ => _ end) => destruct x end ].

(** The URL of a method against the endpoint's. *)
Ltac same_url Hplain :=
  cbv [base target ep_port ep_path ep_query path_text query_text paged optional fold_right fmap list_fmap
       pair_text fst snd str_join String.concat app];
  repeat match goal with He : _ = true |- _ => rewrite He | He : _ = false |- _ => rewrite He end;
  rewrite ?QueryEscape_itoa, ?(PathEscape_plain _ Hplain), ?(QueryEscape_plain _ Hplain), ?append_assoc, ?append_nil_r;
  reflexivity.

Lemma True_plain : all_bytes url_unreserved "" = true.
Proof. reflexivity. Qed.

(** Unfold the method a goal is about. *)
Ltac unfold_head m := lazymatch m with ?f _ => unfold_head f | _ => unfold m end.
Ltac unfold_method := apply runs_ignore; lazymatch goal with |- runs _ _ _ ?m _ => unfold_head m end.

Ltac url := eapply runs_bind; [first [apply runs_adminURL|apply runs_oauthURL]|]; intros ? ? [-> ->].
Ltac then_tail := apply runs_then; [try apply runs_wrap|tail].

(** The application is known, or its id does not matter. *)
Ltac app_settled := first [left; assumption|right; intros ?; reflexivity].
(** The endpoint names the application. *)
Ltac app_named := intros ?; unfold names_app; cbn [endpoint_of with_app resolvedAppID]; discriminate.

Ltac user_request Hplain :=
  url; then_tail; eapply runs_user; [reflexivity|app_settled|reflexivity|reflexivity|same_url Hplain|try reflexivity].

Ltac user_call := unfold_method; user_request True_plain.

Ltac app_call Hok :=
  unfold_method; eapply runs_bind; [apply runs_wrap, runs_getAppID; [reflexivity|app_named|exact Hok]|];
  intros ? st' [-> [Hknown Hplain]]; user_request Hplain.

Ltac service_call Hok :=
  unfold_method; eapply runs_bind; [apply runs_wrap, runs_getAppIDAsService; [reflexivity|reflexivity|app_named|exact Hok]|];
  intros ? st' [-> [Hknown Hplain]]; url; then_tail;
  eapply runs_service; [reflexivity|reflexivity|exact Hknown|intros c Happ; cbn [endpoint_of]; rewrite Happ; reflexivity|reflexivity
    |reflexivity|reflexivity|same_url Hplain|reflexivity].

Ltac public_call :=
  unfold_method; try (eapply runs_bind; [apply runs_self|]; intros ? ? [-> ->]); url; then_tail;
  eapply runs_public; [reflexivity|app_settled|reflexivity|reflexivity|same_url True_plain|reflexivity].

Ltac form_call :=
  unfold_method; eapply runs_bind; [apply runs_self|]; intros ? ? [-> ->]; url; then_tail;
  eapply runs_form; [reflexivity|app_settled|reflexivity|reflexivity|same_url True_plain|reflexivity].

Lemma runs_ListUsers ctx search page pageSize st :
  app_ok (cl st) → runs ctx (CListUsers search page pageSize) st (ListUsers ctx search page pageSize) (λ _ _, True).
Proof.
  intros Hok. unfold ListUsers. eapply runs_bind; [apply runs_wrap, runs_getAppID; [done|app_named|done]|].
  intros ? st' [-> [Hknown Hplain]]. destruct (String.eqb search "") eqn:Hs; user_request Hplain.
Qed.

Lemma runs_GetGeoAnalytics ctx period st : runs ctx (CGetGeoAnalytics period) st (GetGeoAnalytics ctx period) (λ _ _, True).
Proof. unfold GetGeoAnalytics, period_query. destruct (String.eqb period "") eqn:Hp; user_request True_plain. Qed.

Lemma runs_GetTokenStats ctx period st : runs ctx (CGetTokenStats period) st (GetTokenStats ctx period) (λ _ _, True).
Proof. unfold GetTokenStats, period_query. destruct (String.eqb period "") eqn:Hp; user_request True_plain. Qed.

Lemma runs_GetDashboardActivity ctx limit st :
  runs ctx (CGetDashboardActivity limit) st (GetDashboardActivity ctx limit) (λ _ _, True).
Proof. unfold GetDashboardActivity, positive_query. destruct (0 <? limit) eqn:Hp; user_request True_plain. Qed.

Lemma runs_GetLoginTrends ctx days st : runs ctx (CGetLoginTrends days) st (GetLoginTrends ctx days) (λ _ _, True).
Proof. unfold GetLoginTrends, positive_query. destruct (0 <? days) eqn:Hp; user_request True_plain. Qed.

(** The three parameters of a stream, sorted by name. *)
Lemma stream_path_text opts :
  stream_path opts =
  path_text ["api"; "admin"; "events"; "stream"] +:+
  query_text (optional "event_type" (so_EventType opts) ++ optional "last_event_id" (so_LastEventID opts) ++
              optional "severity" (so_Severity opts)).
Proof.
  unfold stream_path, stream_query, optional. destruct opts as [sev typ lst]. simpl.
  destruct (String.eqb sev ""), (String.eqb typ ""), (String.eqb lst ""); reflexivity.
Qed.

Lemma runs_StreamSecurityEvents ctx opts received broken st :
  runs ctx (CStreamSecurityEvents opts received broken) st
    (StreamSecurityEvents (λ s _, (None, s)) ctx opts received broken (λ _, false) false tt) (λ _ _, True).
Proof.
  unfold StreamSecurityEvents. url. then_tail.
  - eapply runs_user; [reflexivity|app_settled|reflexivity|reflexivity|by rewrite stream_path_text|reflexivity].
  - destruct (scan_lines _) as [lines long]. destruct (loop _ _ _ _ _ _ _) as [e s']. apply (quiet_close _ _ (λ _, _)).
Qed.

Ltac by_hand := eapply runs_bind; [apply runs_wrap, runs_NewRequest|]; intros ? ? [-> ->].

Lemma runs_RevokeToken ctx token st : runs ctx (CRevokeToken token) st (RevokeToken ctx token) (λ _ _, True).
Proof.
  unfold RevokeToken. eapply runs_bind; [apply runs_self|]. intros ? ? [-> ->].
  destruct (String.eqb _ ""); [apply runs_fail|]. url. by_hand. then_tail.
  eapply runs_request; [reflexivity|app_settled|reflexivity|same_url True_plain|reflexivity|].
  cbn [credential_ok ep_cred]. unfold authorization. simpl.
  by rewrite setCorrelationID_lookup, attribution_lookup by done.
Qed.

Lemma runs_IntrospectToken ctx token st : runs ctx (CIntrospectToken token) st (IntrospectToken ctx token) (λ _ _, True).
Proof.
  unfold IntrospectToken. eapply runs_bind; [apply runs_self|]. intros ? ? [-> ->].
  destruct (String.eqb _ ""); [apply runs_fail|]. url. by_hand. then_tail.
  eapply runs_request; [reflexivity|app_settled|reflexivity|same_url True_plain|reflexivity|].
  cbn [credential_ok ep_cred]. unfold authorization. simpl. by rewrite setCorrelationID_lookup by done.
Qed.

Lemma runs_Logout ctx st : runs ctx CLogout st (Logout ctx) (λ _ _, True).
Proof.
  unfold Logout. destruct (String.eqb_spec (ctxutil.GetRawJWT ctx) ""); [apply runs_fail|]. url. by_hand. then_tail.
  eapply runs_request; [reflexivity|app_settled|reflexivity|same_url True_plain|reflexivity|].
  cbn [credential_ok ep_cred]. split; [done|]. unfold authorization. simpl.
  rewrite attribution_lookup, setCorrelationID_lookup by done. unfold header_Set.
  rewrite lookup_insert_ne by done. apply lookup_insert_eq.
Qed.

Lemma runs_Decide ctx req st : app_ok (cl st) → runs ctx (CDecide req) st (Decide ctx req) (λ _ _, True).
Proof.
  intros Hok. unfold Decide. eapply runs_bind; [by apply runs_wrap, runs_getAppIDAsService|].
  intros ? st1 [-> [Hknown Hplain]].
  eapply runs_bind; [by apply runs_wrap, runs_getServiceToken|]. intros ? st2 (-> & Htok & (_ & _ & _) & Happ).
  rewrite <- Happ in Hknown, Hplain |- *.
  eapply runs_bind; [apply runs_wrap, runs_marshal|]. intros text ? [-> Htext].
  url. by_hand. then_tail.
  eapply runs_request; [reflexivity|app_settled|reflexivity|same_url Hplain|by symmetry|].
  cbn [credential_ok ep_cred]. split; [done|]. unfold authorization. simpl.
  rewrite setCorrelationID_lookup by done. unfold header_Set. rewrite lookup_insert_ne by done. apply lookup_insert_eq.
Qed.

(** Making or touching an entry leaves the service token alone. *)
Lemma scopedEntry_same t key l t' :
  service.scopedEntry t key = (l, t') →
  service.clientSecret t' = service.clientSecret t ∧ service.svcToken t' = service.svcToken t.
Proof. unfold service.scopedEntry. intros Hs. by destruct (_ !! key); simplify_eq/=. Qed.

Lemma runs_entry_live ctx call st e :
  runs ctx call st (entry_live e) (λ _ st', cl st' = cl st).
Proof.
  unfold entry_live. destruct (String.eqb _ ""); [by apply runs_ret|].
  eapply runs_bind; [apply runs_time_Now|]. intros now st' [Hcl _]. by apply runs_ret.
Qed.

Lemma runs_ServiceTokenWithScopes ctx scopes st :
  runs ctx (CServiceTokenWithScopes scopes) st (ServiceTokenWithScopes ctx scopes) (λ _ _, True).
Proof.
  unfold ServiceTokenWithScopes. destruct (service.normaliseScopes scopes) as [set|err] eqn:Hn; [|apply runs_fail].
  eapply runs_bind; [apply runs_self|]. intros ? ? [-> ->].
  destruct (String.eqb_spec (clientSecret (cl st)) "") as [|Hsec]; [apply runs_fail|].
  destruct (service.scopedEntry _ _) as [l t] eqn:He. apply scopedEntry_same in He as [Hsame Htok].
  eapply runs_bind; [apply runs_store_tokens; [done|auto]|]. intros [] st1 (Hconf & _ & _).
  destruct (service.entries t !! l) as [e|]; [|apply runs_fail].
  eapply runs_bind; [apply runs_entry_live|]. intros live st2 Hcl. destruct live; [by apply runs_ret|].
  eapply runs_bind; [apply runs_exchange; [done|by exists set|]|].
  { rewrite Hcl. destruct Hconf as (_ & _ & _ & <- & _). done. }
  intros [tr exp] st3 _. destruct (service.check_granted _ _); [apply runs_fail|].
  eapply runs_bind; [|by intros; apply runs_ret].
  unfold store_entry. eapply runs_bind; [apply runs_self|]. intros ? ? [-> ->].
  apply runs_store_tokens; [done|auto].
Qed.

#[local] Hint Resolve runs_ListUsers runs_GetGeoAnalytics runs_GetTokenStats runs_GetDashboardActivity
  runs_GetLoginTrends runs_StreamSecurityEvents runs_RevokeToken runs_IntrospectToken runs_Logout runs_Decide
  runs_ServiceTokenWithScopes : backendkit.

(** Every call goes by the steps it may take. *)
Lemma runs_call ctx call st : app_ok (cl st) → runs ctx call st (run_call call ctx) (λ _ _, True).
Proof.
  intros Hok. destruct call; cbn [run_call].
  all: try (apply runs_ignore; auto with backendkit nocore; fail).
  all: try (user_call; fail).
  all: try (app_call Hok; fail).
  all: try (service_call Hok; fail).
  all: try (public_call; fail).
  all: try (form_call; fail).
  - apply runs_ignore. eapply runs_weaken; [by apply runs_ServiceToken|done].
  - unfold InvalidateServiceToken. eapply runs_bind; [apply runs_self|]. intros ? ? [-> ->].
    eapply runs_weaken; [apply runs_store_tokens; [done|by left]|done].
Qed.

End allowed.

End calls.
