(* ===== verification/SocrateRuns.v ===== *)
(** What holds of every run of a Socrate client (package [socrate]), whatever
    the server answers: invariants of the steps of [SocrateCalls] by rule
    induction, which credential each request carries, where each request goes
    and how a server reads it, and which response bodies are left open. *)

From S2P Require Import Prelude GoText GoUrl Utf8 GoJson CtxUtil Http BffMisc SocrateToken Pep SocrateService SocrateHttp SocrateUsers SocrateAdmin EventStream SocrateCalls.

Module runs.
Import socrate client users admin events calls.

Section runs.
Context `{TimeJson, UrlLib, Network, service.IPLib}.

(** * The invariant of a run *)

#[global] Instance same_config_preorder : PreOrder same_config.
Proof.
  split.
  - intros c. by split_and!.
  - intros c c' c''. unfold same_config. intros (? & ? & ? & ? & ?) (? & ? & ? & ? & ?). split_and!; congruence.
Qed.

#[global] Instance same_config_symmetric : Symmetric same_config.
Proof. intros c c' (? & ? & ? & ? & ?). by split_and!. Qed.

(** Forms depend on the configuration only. *)
Lemma exchange_same_config c c' scope : same_config c c' → exchange c scope = exchange c' scope.
Proof. unfold exchange, credentials_form. intros (_ & _ & -> & -> & _). done. Qed.

Lemma base_same_config c c' p : same_config c c' → base c p = base c' p.
Proof. intros (Hb & Ha & _). by destruct p. Qed.

Lemma sends_form_same_config ctx c c' e r :
  same_config c c' → ep_cred e = CredForm → sends ctx c e r → sends ctx c' e r.
Proof.
  unfold sends. intros Hc Hf (? & Hu & ? & Hcred). rewrite Hf in *. split_and!; [done| |done|done].
  by rewrite Hu, (base_same_config c c').
Qed.

(** A granted token stays granted. *)
Lemma granted_mono st st' l tok :
  same_config (cl st) (cl st') → sent st' = sent st ++ l → granted st tok → granted st' tok.
Proof.
  intros Hc Hl (pre & r & post & ctx & scope & t & err & tr & exp & Hs & Hsend & Hx & Ht).
  exists pre, r, (post ++ l), ctx, scope, t, err, tr, exp. split_and!; [|..|done|done].
  - by rewrite Hl, Hs, <- app_assoc.
  - rewrite (exchange_same_config _ _ scope Hc) in Hsend. by eapply sends_form_same_config.
Qed.

(** Where an application id comes from: it is the configured one or, if none
    is, one that was found in the list of applications. *)
Definition app_of (c0 : Client) (log : list HttpRequest) (app : string) : Prop :=
  app = resolvedAppID c0 ∨ resolvedAppID c0 = "" ∧ found c0 log app.

Lemma found_same_config c c' log id : same_config c c' → found c log id → found c' log id.
Proof.
  intros (_ & Ha & Hid & _) (pre & r & post & Hl & Hm & Hu & b & apps & i & app & H').
  exists pre, r, post. split_and!; [done|done|by rewrite <- Ha|]. exists b, apps, i, app. by rewrite <- Hid.
Qed.

Lemma app_of_mono c0 log log' app : app_of c0 log app → app_of c0 (log ++ log') app.
Proof.
  intros [->|(H0' & pre & r & post & -> & Hr)]; [by left|right]. split; [done|].
  exists pre, r, (post ++ log'). split; [|exact Hr]. by rewrite <- app_assoc.
Qed.

(** The invariant: the configuration does not change, the application id is
    plain and was configured or found, and the cached service token was granted
    in this run. *)
Definition inv (c0 : Client) (st : St) : Prop :=
  same_config c0 (cl st) ∧ app_ok (cl st) ∧ app_of c0 (sent st) (resolvedAppID (cl st)) ∧
  (service.svcToken (tokens (cl st)) = "" ∨ granted st (service.svcToken (tokens (cl st)))).

(** A request that was sent when the invariant held, by a call that began with
    the application id [app0]. *)
Definition accounted (c0 : Client) (ctx : ctxutil.context) (call : call) (app0 : string) (st' : St) (r : HttpRequest)
  : Prop :=
  ∃ c, same_config c0 c ∧ may_send ctx call c r ∧ app_of c0 (sent st') (resolvedAppID c) ∧
       (app0 ≠ "" → resolvedAppID c = app0) ∧
       (service.svcToken (tokens c) = "" ∨ granted st' (service.svcToken (tokens c))).

Lemma accounted_mono c0 ctx call app0 st st' l r :
  same_config (cl st) (cl st') → sent st' = sent st ++ l →
  accounted c0 ctx call app0 st r → accounted c0 ctx call app0 st' r.
Proof.
  intros Hc Hl (c & Hcc & Hm & Ha & H0' & Ht). exists c. split_and!; [done|done|rewrite Hl; by apply app_of_mono|done|].
  destruct Ht as [?|Ht]; [by left|right]. by eapply granted_mono.
Qed.

Lemma Do_state r st :
  cl (Do r st).2 = cl st ∧ sent (Do r st).2 = sent st ++ [r] ∧ ticks (Do r st).2 = ticks st.
Proof. unfold Do. by destruct (serve (sent st) r). Qed.

Lemma inv_same c0 st st' l :
  same_config (cl st) (cl st') → resolvedAppID (cl st') = resolvedAppID (cl st) → sent st' = sent st ++ l →
  service.svcToken (tokens (cl st')) = service.svcToken (tokens (cl st)) → inv c0 st → inv c0 st'.
Proof.
  intros Hc Ha Hs Htok (Hc0 & Hok & Hof & Ht). unfold inv, app_ok in *. rewrite Ha, Hs, Htok.
  split_and!; [by etrans|done|by apply app_of_mono|]. destruct Ht as [?|Ht]; [by left|right].
  by eapply granted_mono.
Qed.

Lemma step_inv c0 ctx call st st' :
  step ctx call st st' → inv c0 st →
  inv c0 st' ∧ same_config (cl st) (cl st') ∧
  ∃ rs, sent st' = sent st ++ rs ∧ Forall (accounted c0 ctx call (resolvedAppID (cl st)) st') rs.
Proof.
  intros Hstep Hinv. assert (∀ st1, sent st1 = sent st → inv c0 st1 → same_config (cl st) (cl st1) →
    inv c0 st1 ∧ same_config (cl st) (cl st1) ∧
    ∃ rs, sent st1 = sent st ++ rs ∧ Forall (accounted c0 ctx call (resolvedAppID (cl st)) st1) rs) as Hnone.
  { intros st1 Hsent Hinv1 Hc. split_and!; [done|done|]. exists []. rewrite app_nil_r. split; [done|constructor]. }
  destruct Hstep as [st|st|st r Hr|st id Happ0 Hid Hfound|st t Hsec Ht].
  - apply Hnone; [done| |done]. eapply (inv_same _ st _ []); [done|done|by rewrite app_nil_r|done|done].
  - apply Hnone; [done| |done]. eapply (inv_same _ st _ []); [done|done|by rewrite app_nil_r|done|done].
  - destruct (Do_state r st) as (Hcl & Hsent & _).
    assert (inv c0 (Do r st).2) as Hinv' by (by eapply (inv_same _ st _ [r]); rewrite ?Hcl).
    split_and!; [done|by rewrite Hcl|]. exists [r]. split; [done|]. apply Forall_singleton.
    destruct Hinv' as (Hc & _ & Hof & Ht). rewrite Hcl in Hc, Hof, Ht. exists (cl st). by split_and!.
  - destruct Hinv as (Hc & _ & Hof & Ht). apply Hnone; [done| |done].
    assert (resolvedAppID c0 = "") as Hc0 by (destruct Hof as [Hof|[Hof _]]; congruence).
    split_and!; [by etrans|by right| |].
    + right. split; [done|]. eapply found_same_config; [by symmetry|exact Hfound].
    + destruct Ht as [?|Ht]; [by left|right]. eapply (granted_mono st _ []); [by split_and!|by rewrite app_nil_r|done].
  - destruct Hinv as (Hc & Happ & Hof & Ht0).
    assert (same_config (cl st) (cl (store_tokens t st).2)) as Hsc by by split_and!.
    assert (∀ tok, granted st tok → granted (store_tokens t st).2 tok) as Hkeep
      by (intros tok Htok; eapply (granted_mono st _ []); [done|by rewrite app_nil_r|done]).
    apply Hnone; [done| |done]. split_and!; [by etrans|done|done|]. simpl.
    destruct Ht as [Ht|[Ht|Ht]]; [by left| |right; by apply Hkeep].
    rewrite Ht. destruct Ht0 as [?|Ht0]; [by left|right; by apply Hkeep].
Qed.

Lemma step_app_stable ctx call st st' :
  step ctx call st st' → resolvedAppID (cl st) ≠ "" → resolvedAppID (cl st') = resolvedAppID (cl st).
Proof.
  intros Hstep Happ. destruct Hstep as [st|st|st r Hr|st id Hno _ _|st t _ _]; [done|done| |done|done].
  by rewrite (proj1 (Do_state r st)).
Qed.

Lemma steps_inv c0 ctx call st st' :
  steps ctx call st st' → inv c0 st →
  inv c0 st' ∧ same_config (cl st) (cl st') ∧
  ∃ rs, sent st' = sent st ++ rs ∧ Forall (accounted c0 ctx call (resolvedAppID (cl st)) st') rs.
Proof.
  induction 1 as [st|st st1 st' Hstep Hsteps IH]; intros Hinv.
  { split_and!; [done|done|]. exists []. rewrite app_nil_r. split; [done|constructor]. }
  destruct (step_inv _ _ _ _ _ Hstep Hinv) as (Hinv1 & Hc1 & rs1 & Hs1 & Hf1).
  destruct (IH Hinv1) as (Hinv' & Hc & rs & Hs & Hf). split_and!; [done|by etrans|].
  exists (rs1 ++ rs). rewrite Hs, Hs1, app_assoc. split; [done|]. apply Forall_app. split.
  - eapply Forall_impl; [exact Hf1|]. intros r Hr. by eapply accounted_mono.
  - eapply Forall_impl; [exact Hf|]. intros r (c & ? & ? & ? & Hst & ?). exists c. split_and!; [done..| |done].
    intros Hne. pose proof (step_app_stable _ _ _ _ Hstep Hne) as Heq. rewrite Hst; congruence.
Qed.

(** One call keeps the invariant and accounts for what it sends. *)
Lemma call_inv c0 ctx call st :
  inv c0 st →
  let st' := (run_call call ctx st).2 in
  inv c0 st' ∧ ∃ rs, sent st' = sent st ++ rs ∧ Forall (accounted c0 ctx call (resolvedAppID (cl st)) st') rs.
Proof.
  intros Hinv st'. destruct (runs_call ctx call st) as [Hsteps _]; [apply Hinv|].
  destruct (steps_inv _ _ _ _ _ Hsteps Hinv) as (? & _ & ?). done.
Qed.

Lemma run_calls_inv c0 cs st : inv c0 st → inv c0 (run_calls cs st).
Proof.
  revert st. induction cs as [|[ctx call] cs IH]; intros st Hinv; [done|].
  apply IH. by apply call_inv.
Qed.

Lemma start_inv cfg c :
  NewClient cfg = Ok c → cfg_AppID cfg = "" ∨ plain (cfg_AppID cfg) → inv c (start c).
Proof.
  unfold NewClient. intros Hc Happ. destruct (String.eqb _ ""); [done|]. destruct (String.eqb _ ""); [done|].
  injection Hc as <-. unfold inv. split_and!; [done|exact Happ|by left|by left].
Qed.

(** * Credentials *)

Lemma endpoint_credential c call e : endpoint_of c call = Some e → ep_cred e = call_credential call.
Proof. destruct call; cbn [endpoint_of]; intros He; try discriminate He; injection He as <-; reflexivity. Qed.

(** What authenticates a request of a call in a run that ends in [st]. *)
Definition authenticated (st : St) (ctx : ctxutil.context) (call : call) (r : HttpRequest) : Prop :=
  match call_credential call with
  | CredJWT => ctxutil.GetRawJWT ctx ≠ "" ∧ authorization r = bearer (ctxutil.GetRawJWT ctx)
  | CredService => ∃ tok, tok ≠ "" ∧ granted st tok ∧ authorization r = bearer tok
  | CredForm | CredPublic => authorization r = None
  end.

(** The request by which a service-account call asks for its token. *)
Definition asks_for_token (c : Client) (ctx : ctxutil.context) (call : call) (r : HttpRequest) : Prop :=
  call_credential call = CredService ∧ clientSecret c ≠ "" ∧
  ∃ scope, call_scope call scope ∧ sends ctx c (exchange c scope) r.

Lemma accounted_credential c0 ctx call app0 st r :
  accounted c0 ctx call app0 st r → authenticated st ctx call r ∨ asks_for_token c0 ctx call r.
Proof.
  intros (c & Hcc & Hm & _ & _ & Ht).
  assert (credential_ok ctx c (call_credential call) r → authenticated st ctx call r) as Hok.
  { unfold authenticated. destruct (call_credential call); [done| |done..]. intros [Hne Ha].
    exists (service.svcToken (tokens c)). naive_solver. }
  destruct Hm as [e He _ Hs|_ _ Hs|scope Hcred Hscope Hsec Hs].
  - left. apply Hok. rewrite <- (endpoint_credential _ _ _ He). apply Hs.
  - left. apply Hok, Hs.
  - right. pose proof Hcc as (_ & _ & _ & Hsecret & _). split_and!; [done|by rewrite Hsecret|].
    exists scope. split; [done|]. rewrite (exchange_same_config c0 c scope Hcc).
    eapply sends_form_same_config; [by symmetry|done|done].
Qed.

(** C8: in any run of a client (configured with no application id, or with one that
    needs no escaping in a path), whatever was called before and whatever the
    server answered, every request carries the credential of the call that sends
    it, and of no other: for a call on a user's behalf, its Authorization header is
    the JWT of the context of that very call; for a service-account call, it is a
    service token that the server granted to this very client in this run; for
    the others there is none. The one exception is the request by which a
    service-account call asks for its token: the exchange of the client's own
    credentials, for the scope the call needs, with no Authorization header. A
    call on a user's behalf whose context has no JWT sends nothing. *)
Theorem requests_carry_their_own_credential (cfg : ClientConfig) (c : Client)
    (past : list (ctxutil.context * call)) (ctx : ctxutil.context) (call : call) :
  NewClient cfg = Ok c → cfg_AppID cfg = "" ∨ plain (cfg_AppID cfg) →
  let st := run_calls past (start c) in
  let st' := (run_call call ctx st).2 in
  ∃ rs, sent st' = sent st ++ rs ∧
    Forall (λ r, authenticated st' ctx call r ∨ asks_for_token c ctx call r) rs ∧
    (call_credential call = CredJWT → ctxutil.GetRawJWT ctx = "" → rs = []).
Proof.
  intros Hc Happ st st'.
  destruct (call_inv c ctx call st) as (_ & rs & Hs & Hf); [by eapply run_calls_inv, start_inv|].
  assert (Forall (λ r, authenticated st' ctx call r ∨ asks_for_token c ctx call r) rs) as Hall.
  { eapply Forall_impl; [exact Hf|]. intros r. apply accounted_credential. }
  exists rs. split_and!; [exact Hs|done|].
  intros Hj Hjwt. destruct rs as [|r rs]; [done|]. apply Forall_cons in Hall as [[Hr|Hr] _].
  - unfold authenticated in Hr. rewrite Hj in Hr. by destruct Hr.
  - destruct Hr as [Hr _]. congruence.
Qed.

(** * Destinations *)

(** The path of a target holds no question mark. *)
Lemma path_text_bytes b segments :
  b ≠ 47 → b ≠ 37 → segment_keeps b = false → Forall (λ x, x ≠ b) (bytes (path_text segments)).
Proof.
  intros Hslash Hpct Hb. induction segments as [|s l IH]; [constructor|].
  change (path_text (s :: l)) with ("/" +:+ PathEscape s +:+ path_text l).
  rewrite !bytes_app, !Forall_app. split_and!; [|..|done].
  - constructor; [|constructor]. change (47 ≠ b). congruence.
  - eapply Forall_impl; [apply PathEscape_bytes|]. intros x [Hx|Hx] ->; congruence.
Qed.

Lemma split_path w segments :
  Forall (λ x, x ≠ 47) (bytes w) → str_split "/" (w +:+ path_text segments) = w :: (PathEscape <$> segments).
Proof.
  revert w. induction segments as [|s l IH]; intros w Hw.
  { change (path_text []) with "". rewrite append_nil_r. by apply str_split_nosep. }
  change (path_text (s :: l)) with (String "/" (PathEscape s +:+ path_text l)).
  rewrite str_split_app by done. rewrite IH; [done|].
  eapply Forall_impl; [apply PathEscape_clean|]. by intros x (? & _).
Qed.

Lemma mapM_unescape l : mapM PathUnescape (PathEscape <$> l) = Some l.
Proof.
  apply mapM_Some, Forall2_fmap_l, Forall_Forall2_diag, Forall_true. intros s. apply PathUnescape_Escape.
Qed.

Lemma str_cut_none sep s : Forall (λ x, x ≠ byte_of sep) (bytes s) → str_cut sep s = None.
Proof.
  induction s as [|c s IH]; [done|]. cbn [bytes]. intros [Hc Hs]%Forall_cons. simpl.
  destruct (Ascii.eqb_spec c sep) as [->|]; [done|]. by rewrite IH.
Qed.

(** A target is read as the segments and parameters it was made from. *)
Lemma parse_target_text e :
  parse_target (target e) = (Some (ep_path e), fold_left values_Add (ep_query e) ∅).
Proof.
  unfold parse_target, target.
  assert (Forall (λ x, x ≠ byte_of "?") (bytes (path_text (ep_path e)))) as Hq by by apply path_text_bytes.
  assert (mapM PathUnescape (tail (str_split "/" (path_text (ep_path e)))) = Some (ep_path e)) as Hp.
  { rewrite <- (append_nil (path_text _)), (split_path "") by constructor. apply mapM_unescape. }
  destruct (ep_query e) as [|kv l].
  - change (query_text []) with "". rewrite append_nil_r, str_cut_none by done. by rewrite Hp.
  - change (query_text (kv :: l)) with (String "?" (str_join "&" (pair_text <$> kv :: l))).
    rewrite str_cut_first by done. rewrite Hp. unfold ParseQuery. by rewrite parse_pairs.
Qed.

(** The endpoint of a call depends on the configuration and the application id. *)
Lemma endpoint_of_with_app c c' call :
  same_config c c' → endpoint_of (with_app c (resolvedAppID c')) call = endpoint_of c' call.
Proof.
  intros (Hb & Ha & Hid & Hsec & Ht).
  assert (∀ token, token_form (with_app c (resolvedAppID c')) token = token_form c' token) as Htok.
  { intros token. unfold token_form, with_secret, clientSecret, with_app in *. simpl. by rewrite Hid, Hsec. }
  assert (∀ a b d, code_form (with_app c (resolvedAppID c')) a b d = code_form c' a b d) as Hcode.
  { intros x y z. unfold code_form, with_secret, clientSecret, with_app in *. simpl. by rewrite Hid, Hsec. }
  assert (∀ rt, refresh_form (with_app c (resolvedAppID c')) rt = refresh_form c' rt) as Href.
  { intros rt. unfold refresh_form, with_secret, clientSecret, with_app in *. simpl. by rewrite Hid, Hsec. }
  destruct call; cbn [endpoint_of]; rewrite ?Htok, ?Hcode, ?Href; cbn [with_app resolvedAppID clientID]; by rewrite ?Hid.
Qed.

(** The endpoints a call may address when the application id is [app]: the
    described one, if the id is known or does not matter; the list of
    applications, if it is not known and does matter; the token endpoint, for a
    service-account call. *)
Definition endpoint_for (c : Client) (app : string) (call : call) (e : endpoint) : Prop :=
  (endpoint_of (with_app c app) call = Some e ∧ (app ≠ "" ∨ app_free c call e)) ∨
  (app = "" ∧ names_app c call ∧ e = lookup (call_credential call)) ∨
  (call_credential call = CredService ∧ ∃ scope, call_scope call scope ∧ e = exchange c scope).

(** C9: the client refines the description of its endpoints. Take any run of a client
    configured with no application id, or with one that needs no escaping in a
    path. Every request of every call has the method, the base URL, the body and
    the target of the endpoint described for the call and the client's own
    application, and a server that splits the path, unescapes its segments and
    parses the query reads exactly the ids and parameters the caller passed,
    whatever bytes they hold. The application's id is the configured one or, if
    none is, the one that the server's list of applications gives for the client
    id; once known it does not change. A call whose endpoint names the
    application may first look it up, only while it is not known; a
    service-account call may first exchange the credentials for a token. *)
Theorem calls_refine_endpoints (cfg : ClientConfig) (c : Client)
    (past : list (ctxutil.context * call)) (ctx : ctxutil.context) (call : call) :
  NewClient cfg = Ok c → cfg_AppID cfg = "" ∨ plain (cfg_AppID cfg) →
  let st := run_calls past (start c) in
  let st' := (run_call call ctx st).2 in
  ∃ rs, sent st' = sent st ++ rs ∧
    Forall (λ r, ∃ app e t,
      (app = cfg_AppID cfg ∨ cfg_AppID cfg = "" ∧ found c (sent st') app) ∧
      (resolvedAppID (cl st) ≠ "" → app = resolvedAppID (cl st)) ∧
      endpoint_for c app call e ∧
      hr_Method r = ep_method e ∧ Some (hr_Body r) = ep_body e ∧ hr_URL r = base c (ep_port e) +:+ t ∧
      parse_target t = (Some (ep_path e), fold_left values_Add (ep_query e) ∅)) rs.
Proof.
  intros Hc Happ st st'.
  destruct (call_inv c ctx call st) as (_ & rs & Hs & Hf); [by eapply run_calls_inv, start_inv|].
  assert (resolvedAppID c = cfg_AppID cfg) as Hcfg.
  { unfold NewClient in Hc. destruct (String.eqb _ ""); [done|]. destruct (String.eqb _ ""); [done|]. by injection Hc as <-. }
  exists rs. split; [exact Hs|]. eapply Forall_impl; [exact Hf|]. intros r (c' & Hcc & Hm & Hof & Hst & _).
  unfold app_of in Hof. rewrite Hcfg in Hof.
  assert (∀ e, endpoint_for c (resolvedAppID c') call e → sends ctx c' e r → ∃ app e t,
      (app = cfg_AppID cfg ∨ cfg_AppID cfg = "" ∧ found c (sent st') app) ∧
      (resolvedAppID (cl st) ≠ "" → app = resolvedAppID (cl st)) ∧ endpoint_for c app call e ∧
      hr_Method r = ep_method e ∧ Some (hr_Body r) = ep_body e ∧ hr_URL r = base c (ep_port e) +:+ t ∧
      parse_target t = (Some (ep_path e), fold_left values_Add (ep_query e) ∅)) as Hgo.
  { intros e Hfor (Hmeth & Hurl & Hbody & _). exists (resolvedAppID c'), e, (target e). split_and!; [done..| |].
    - by rewrite Hurl, (base_same_config c c').
    - apply parse_target_text. }
  assert (∀ app, endpoint_of (with_app c app) call = endpoint_of (with_app c' app) call) as Happs
    by (intros app; apply (endpoint_of_with_app c (with_app c' app)); exact Hcc).
  destruct Hm as [e He Hn Hsend|Ha Hn Hsend|scope Hcred Hsc _ Hsend]; eapply Hgo; try exact Hsend.
  - left. split; [by rewrite endpoint_of_with_app|]. destruct Hn as [?|Hn]; [by left|right].
    intros app. by rewrite Happs.
  - right. left. split_and!; [done| |done]. unfold names_app. by rewrite !Happs.
  - right. right. split; [done|]. exists scope. split; [done|]. by rewrite (exchange_same_config c c').
Qed.

(** * The application id *)

Lemma call_app_stable ctx call st :
  app_ok (cl st) → resolvedAppID (cl st) ≠ "" →
  resolvedAppID (cl (run_call call ctx st).2) = resolvedAppID (cl st).
Proof.
  intros Hok Happ. destruct (runs_call ctx call st Hok) as [Hsteps _]. clear Hok.
  induction Hsteps as [st|st st1 st' Hstep _ IH]; [done|].
  apply step_app_stable in Hstep; [|done]. rewrite IH; [done|by rewrite Hstep].
Qed.

(** * Response bodies *)

(** The number of open bodies: kept; one more when a response is returned; one
    less. *)
Definition keeps {A} (st : St) (m : M A) : Prop := opened (m st).2 = opened st.
Definition opens {A} (st : St) (m : M A) : Prop :=
  opened (m st).2 = match (m st).1 with Ok _ => opened st + 1 | Err _ => opened st end.
Definition closes {A} (st : St) (m : M A) : Prop := opened (m st).2 = opened st - 1.

Lemma keeps_bind {A B} st (m : M A) (f : A → M B) :
  keeps st m → (∀ x st', keeps st' (f x)) → keeps st (m ≫= f).
Proof.
  unfold keeps, mbind, M_bind. intros Hm Hf. destruct (m st) as [[x|e] st']; [|done].
  rewrite Hf. exact Hm.
Qed.

Lemma opens_bind {A B} st (m : M A) (f : A → M B) :
  opens st m → (∀ x st', closes st' (f x)) → keeps st (m ≫= f).
Proof.
  unfold keeps, opens, closes, mbind, M_bind. intros Hm Hf. destruct (m st) as [[x|e] st']; [|done].
  rewrite Hf. simpl in *. lia.
Qed.

Lemma keeps_opens {A B} st (m : M A) (f : A → M B) :
  keeps st m → (∀ x st', opens st' (f x)) → opens st (m ≫= f).
Proof.
  unfold keeps, opens, mbind, M_bind. intros Hm Hf. destruct (m st) as [[x|e] st']; [|done].
  simpl in Hm. by rewrite Hf, Hm.
Qed.

Lemma closes_bind {A B} st (m : M A) (f : A → M B) :
  closes st m → (∀ x st', keeps st' (f x)) → closes st (m ≫= f).
Proof.
  unfold keeps, closes, mbind, M_bind. intros Hm Hf. destruct (m st) as [[x|e] st']; [|done].
  rewrite Hf. exact Hm.
Qed.

Lemma keeps_wrap {A} st label (m : M A) : keeps st m → keeps st (wrap label m).
Proof. unfold keeps, wrap. by destruct (m st) as [[x|e] st']. Qed.
Lemma opens_wrap {A} st label (m : M A) : opens st m → opens st (wrap label m).
Proof. unfold opens, wrap. by destruct (m st) as [[x|e] st']. Qed.
Lemma closes_wrap {A} st label (m : M A) : closes st m → closes st (wrap label m).
Proof. unfold closes, wrap. by destruct (m st) as [[x|e] st']. Qed.

Lemma opens_Do st r : opens st (Do r).
Proof. unfold opens, Do. by destruct (serve _ r). Qed.

Lemma keeps_NewRequest st method u body : keeps st (NewRequest method u body).
Proof. unfold NewRequest. by destruct (url_Parse u). Qed.

Lemma keeps_marshal st b : keeps st (marshal b).
Proof. by destruct b as [|[v|]]. Qed.

Lemma opens_doHTTP st ctx tok method u b : opens st (doHTTP ctx tok method u b).
Proof.
  apply keeps_opens; [apply keeps_wrap, keeps_marshal|]. intros text st1.
  apply keeps_opens; [apply keeps_wrap, keeps_NewRequest|]. intros req st2. apply opens_Do.
Qed.

Lemma opens_doHTTPNoAuth st ctx method u b : opens st (doHTTPNoAuth ctx method u b).
Proof.
  apply keeps_opens; [apply keeps_wrap, keeps_marshal|]. intros text st1.
  apply keeps_opens; [apply keeps_wrap, keeps_NewRequest|]. intros req st2. apply opens_Do.
Qed.

Lemma opens_postForm st ctx u data : opens st (postForm ctx u data).
Proof. apply keeps_opens; [apply keeps_wrap, keeps_NewRequest|]. intros req st2. apply opens_Do. Qed.

Lemma opens_doWithJWT st ctx method u b : opens st (doWithJWT ctx method u b).
Proof. unfold doWithJWT. destruct (String.eqb _ ""); [done|apply opens_doHTTP]. Qed.

Lemma keeps_exchange st ctx scope err : keeps st (exchangeClientCredentials ctx scope err).
Proof.
  apply keeps_bind; [done|]. intros c st1. apply keeps_bind; [done|]. intros u st2.
  apply keeps_bind; [apply keeps_wrap, keeps_NewRequest|]. intros req st3.
  apply keeps_bind; [done|]. intros now st4. apply opens_bind; [apply opens_wrap, opens_Do|]. done.
Qed.

Lemma keeps_ServiceToken st ctx : keeps st (ServiceToken ctx).
Proof.
  apply keeps_bind.
  { unfold token_cached. apply keeps_bind; [done|]. intros c st1. by destruct (String.eqb _ ""). }
  intros [] st1; apply keeps_bind; [done| |done|]; intros c st2; [done|]. simpl. destruct (String.eqb _ ""); [done|].
  apply keeps_bind; [apply keeps_exchange|]. by intros [tr exp] st3.
Qed.

Lemma opens_doWithServiceToken st ctx method u b : opens st (doWithServiceToken ctx method u b).
Proof.
  apply keeps_opens; [|intros; apply opens_doHTTP]. apply keeps_wrap, keeps_bind; [apply keeps_ServiceToken|].
  by intros [tok exp] st1.
Qed.

Lemma keeps_if {A} st (b : bool) (m m' : M A) : keeps st m → keeps st m' → keeps st (if b then m else m').
Proof. by destruct b. Qed.
Lemma closes_if {A} st (b : bool) (m m' : M A) : closes st m → closes st m' → closes st (if b then m else m').
Proof. by destruct b. Qed.

Ltac keeps_prim :=
  lazymatch goal with
  | |- keeps _ (NewRequest _ _ _) => apply keeps_NewRequest
  | |- keeps _ (marshal _) => apply keeps_marshal
  | |- keeps _ (wrap _ _) => apply keeps_wrap; keeps_prim
  | |- keeps _ (unmarshal_as _ _ _ _) => unfold unmarshal_as; destruct (unmarshal _ _ _); reflexivity
  | |- keeps _ (unmarshal_wrapped _ _ _ _ _) =>
      unfold unmarshal_wrapped; destruct (unmarshal _ _ _); [reflexivity|destruct (unmarshal_struct _ _ _); reflexivity]
  | |- _ => first [assumption|reflexivity]
  end.

Ltac opens_prim :=
  lazymatch goal with
  | |- opens _ (wrap _ _) => apply opens_wrap; opens_prim
  | |- opens _ (doWithJWT _ _ _ _) => apply opens_doWithJWT
  | |- opens _ (doWithServiceToken _ _ _ _) => apply opens_doWithServiceToken
  | |- opens _ (doHTTPNoAuth _ _ _ _) => apply opens_doHTTPNoAuth
  | |- opens _ (postForm _ _ _) => apply opens_postForm
  | |- opens _ (Do _) => apply opens_Do
  end.

(** Follow a method from the request to the end of its response. *)
Ltac bodies :=
  repeat first
    [ progress intros | progress cbv zeta
    | apply keeps_if | apply closes_if
    | match goal with
      | |- keeps _ (?m ≫= _) => first [apply opens_bind; [opens_prim|] | apply keeps_bind; [keeps_prim|]]
      | |- closes _ (?m ≫= _) => apply closes_bind; [first [reflexivity|apply closes_wrap; reflexivity]|]
      | |- keeps _ (match ?x with _ => _ end) => destruct x
      | |- closes _ (match ?x with _ => _ end) => destruct x
      end
    | keeps_prim | reflexivity ].

Lemma keeps_getAppID st ctx : keeps st (getAppID ctx).
Proof. unfold getAppID, parseAppID. bodies. Qed.

Lemma keeps_getAppIDAsService st ctx : resolvedAppID (cl st) ≠ "" → keeps st (getAppIDAsService ctx).
Proof.
  intros Happ. unfold getAppIDAsService, mbind, M_bind, keeps, self. simpl.
  by rewrite (proj2 (String.eqb_neq _ _) Happ).
Qed.

Lemma keeps_ignore {A} st (m : M A) : keeps st m → keeps st (ignore m).
Proof. intros Hm. by apply keeps_bind. Qed.

Ltac unfold_head m := lazymatch m with ?f _ => unfold_head f | _ => unfold m end.

Lemma keeps_ServiceTokenWithScopes st ctx scopes : keeps st (ServiceTokenWithScopes ctx scopes).
Proof.
  unfold ServiceTokenWithScopes. destruct (service.normaliseScopes scopes) as [set|]; [|done].
  apply keeps_bind; [done|]. intros c st1. destruct (String.eqb _ ""); [done|].
  destruct (service.scopedEntry _ _) as [l t]. apply keeps_bind; [done|]. intros [] st2.
  destruct (service.entries t !! l) as [e|]; [|done]. apply keeps_bind.
  { unfold entry_live. by destruct (String.eqb _ ""). }
  intros [] st3; [done|]. apply keeps_bind; [apply keeps_exchange|]. intros [tr exp] st4.
  by destruct (service.check_granted _ _).
Qed.

Lemma keeps_Decide st ctx req : resolvedAppID (cl st) ≠ "" → keeps st (Decide ctx req).
Proof.
  intros Happ. apply keeps_bind; [by apply keeps_wrap, keeps_getAppIDAsService|]. intros app st1.
  apply keeps_bind.
  { apply keeps_wrap, keeps_bind; [apply keeps_ServiceToken|]. by intros [tok exp] st2. }
  bodies.
Qed.

Lemma keeps_stream st ctx opts received broken :
  keeps st (StreamSecurityEvents (λ s _, (None, s)) ctx opts received broken (λ _, false) false tt).
Proof.
  unfold StreamSecurityEvents. bodies. destruct (scan_lines _) as [lines long].
  by destruct (loop _ _ _ _ _ _ _) as [e s'].
Qed.

(** A call closes every response body it opened, unless it is a service-account
    call that has to look up the application id. *)
Lemma call_keeps ctx call st :
  call_credential call ≠ CredService ∨ resolvedAppID (cl st) ≠ "" → keeps st (run_call call ctx).
Proof.
  intros Happ.
  pose proof (λ st, keeps_getAppID st ctx) as Hget.
  destruct call; cbn [run_call]; try apply keeps_ignore.
  all: try (lazymatch goal with |- keeps _ ?m => unfold_head m end;
            apply keeps_bind; [apply keeps_wrap, Hget|]; bodies; fail).
  all: try (destruct Happ as [Happ|Happ]; [by destruct Happ|]).
  all: try (lazymatch goal with |- keeps _ ?m => unfold_head m end;
            apply keeps_bind; [apply keeps_wrap, keeps_getAppIDAsService; assumption|]; bodies; fail).
  all: try (lazymatch goal with |- keeps _ ?m => unfold_head m end; bodies; fail).
  - by apply keeps_Decide.
  - apply keeps_stream.
  - apply keeps_ServiceToken.
  - apply keeps_ServiceTokenWithScopes.
Qed.


End runs.

(** * A sample network *)

Module sample.

#[local] Instance sample_time : TimeJson := {| time_parse _ := Some 0; time_format _ := Some "" |}.
#[local] Instance sample_url : UrlLib :=
  {| url_Parse s := Some {| u_Scheme := "https"; u_Host := "auth.example.com"; u_Tail := s |};
     url_String u := u_Scheme u +:+ "://" +:+ u_Host u |}.
#[local] Instance sample_ip : service.IPLib := {| service.canonical_ip _ := None |}.

(** The token endpoint grants a token; everything else is refused with 401. *)
Definition answer (_ : list HttpRequest) (r : HttpRequest) : http_answer :=
  if has_prefix (hr_URL r) "https://auth.example.com/oauth/token"
  then Answer 200 (json_encode (JObj [("access_token", JStr "svc"); ("expires_in", JNum "3600")]))
  else Answer 401 "".
#[local] Instance sample_net : Network := {| serve := answer; clock _ := 0 |}.

Definition cfg (app : string) : ClientConfig :=
  {| cfg_BaseURL := "https://auth.example.com"; cfg_AdminBaseURL := "http://127.0.0.1:8081"; cfg_ClientID := "cid";
     cfg_ClientSecret := "s3cret"; cfg_AppID := app; cfg_Timeout := 0 |}.

Definition made (app : string) : Client :=
  match NewClient (cfg app) with Ok c => c | Err _ =>
    {| baseURL := ""; adminBaseURL := ""; clientID := ""; resolvedAppID := ""; httpTimeout := 0;
       tokens := service.new_client "" |} end.

Definition alice : ctxutil.context := WithJWT ctxutil.Background "jwt-a".
Definition bob : ctxutil.context := WithJWT ctxutil.Background "jwt-b".

Definition past : list (ctxutil.context * call) :=
  [(alice, CGetUser "7/../8?x"); (bob, CGetUserAsService "9"); (ctxutil.Background, CBlockUser "1")].

(** What went over the wire: the method, the URL and the Authorization header. *)
Example wire :
  (λ r, (hr_Method r, hr_URL r, authorization r)) <$> sent (run_calls past (start (made "5"))) =
  [("GET", "http://127.0.0.1:8081/api/apps/5/users/7%2F..%2F8%3Fx", Some ["Bearer jwt-a"]);
   ("POST", "https://auth.example.com/oauth/token", None);
   ("GET", "http://127.0.0.1:8081/api/apps/5/service/users/9", Some ["Bearer svc"])].
Proof. vm_compute. reflexivity. Qed.

(** Each service-account call of a client without an application id leaves the
    refused look-up's response open. *)
Example failed_lookup_leaks_body :
  opened (run_calls [(bob, CGetUserAsService "9"); (bob, CSendMagicLink "a@b.c")] (start (made ""))) = 2.
Proof. vm_compute. reflexivity. Qed.

(** After the calls of others, Alice's call goes with her JWT; without a JWT
    nothing goes. *)
Lemma requests_carry_their_own_credential_witness :
  (∃ r, sent (run_call (CBlockUser "1") alice (run_calls past (start (made "5")))).2 =
        sent (run_calls past (start (made "5"))) ++ [r] ∧ authorization r = bearer "jwt-a") ∧
  sent (run_call (CBlockUser "1") ctxutil.Background (run_calls past (start (made "5")))).2 =
    sent (run_calls past (start (made "5"))).
Proof.
  split.
  - destruct (requests_carry_their_own_credential (cfg "5") (made "5") past alice (CBlockUser "1"))
      as (rs & Hs & Hf & _); [reflexivity|right; split; [discriminate|reflexivity]|].
    assert (∃ r, rs = [r]) as [r ->].
    { apply (f_equal (drop (length (sent (run_calls past (start (made "5"))))))) in Hs.
      rewrite drop_app_length in Hs. vm_compute in Hs. eexists. symmetry. exact Hs. }
    exists r. split; [exact Hs|]. apply Forall_cons in Hf as [[Hr|Hr] _]; [apply Hr|destruct Hr as [[=] _]].
  - destruct (requests_carry_their_own_credential (cfg "5") (made "5") past ctxutil.Background (CBlockUser "1"))
      as (rs & Hs & _ & Hnone); [reflexivity|right; split; [discriminate|reflexivity]|].
    etransitivity; [exact Hs|]. rewrite Hnone; [apply app_nil_r|reflexivity|reflexivity].
Defined.

Lemma calls_refine_endpoints_witness :
  ∃ r t, sent (run_call (CGetUser "a/b") alice (start (made "5"))).2 = [r] ∧
    hr_URL r = "http://127.0.0.1:8081" +:+ t ∧
    (parse_target t).1 = Some ["api"; "apps"; "5"; "users"; "a/b"].
Proof.
  destruct (calls_refine_endpoints (cfg "5") (made "5") [] alice (CGetUser "a/b"))
    as (rs & Hs & Hf); [reflexivity|right; split; [discriminate|reflexivity]|].
  assert (∃ r, rs = [r]) as [r ->] by (vm_compute in Hs; eexists; symmetry; exact Hs).
  apply Forall_cons in Hf as [(app & e & t & _ & Happ & Hfor & _ & _ & Hu & Ht) _].
  assert (app = "5") as -> by (apply Happ; discriminate).
  destruct Hfor as [[He _]|[([=] & _)|([=] & _)]]. injection He as <-.
  exists r, t. split; [exact Hs|]. split; [exact Hu|]. rewrite Ht. reflexivity.
Defined.


End sample.

End runs.
