(* ===== verification/Integration.v ===== *)
(** The Socrate client in the places its interfaces are used: as the token
    refresher of the gateway (src/bff/gateway.go over src/socrate/bff.go) and as
    the decision point of the enforcement point (src/pep/pep.go over
    src/socrate/policy.go). The theorems of those packages, proved against the
    interfaces, become statements about the server's answers. *)

From S2P Require Import Prelude GoText GoUrl GoJson CtxUtil Http SocrateToken Session SessionStore PostgresStore PendingLogin BffMisc Gateway Pep SocrateService SocrateHttp SocrateUsers.

Module integration.
Import socrate client users.

Section refresher.
Context `{UrlLib, Network, service.IPLib}.

(** * The refresher *)

(** The client in state [cst] as a refresher. *)
Definition client_refresher (ctx : ctxutil.context) (cst : client.St) : gateway.TokenRefresher := λ refreshToken,
  match (RefreshToken_ ctx refreshToken cst).1 with
  | Ok ts => Ok (Some ts)
  | Err e => Err e
  end.

Definition token_url (cst : client.St) : string := baseURL (cl cst) +:+ "/oauth/token".

Definition refresh_request (ctx : ctxutil.context) (cst : client.St) (refreshToken : string) : HttpRequest :=
  {| hr_Method := "POST"; hr_URL := token_url cst;
     hr_Header := service.setCorrelationID ctx (service.ApplyClientAttribution ctx
                    (header_Set ∅ "Content-Type" "application/x-www-form-urlencoded"));
     hr_Body := values_Encode (refresh_form (cl cst) refreshToken) |}.

(** The answer to the refresh request. *)
Definition refresh_answer (ctx : ctxutil.context) (cst : client.St) (refreshToken : string) : http_answer :=
  serve (sent cst) (refresh_request ctx cst refreshToken).

Lemma RefreshToken_result ctx cst rt :
  (RefreshToken_ ctx rt cst).1 =
  match url_Parse (token_url cst) with
  | Some _ => token_answer "refresh token" (refresh_answer ctx cst rt)
  | None => Err (EWrap "refresh token" (EWrap "build form request" (EMsg "invalid URL")))
  end.
Proof.
  unfold RefreshToken_, postForm, NewRequest, wrap, mbind, M_bind, self, oauthURL, mret, M_ret. simpl.
  unfold refresh_answer, refresh_request, token_url. destruct (url_Parse _); [|done]. simpl. unfold Do, with_headers. simpl.
  match goal with |- context [serve (sent cst) ?r] => destruct (serve (sent cst) r) end; reflexivity.
Qed.

(** The form of a refresh, read back. *)
Lemma refresh_form_read c rt : ParseQuery (values_Encode (refresh_form c rt)) = refresh_form c rt.
Proof.
  apply ParseQuery_Encode. unfold refresh_form, with_secret, values_Set, values_of. intros k l Hk.
  assert (∀ m : gmap string (list string), map_Forall (λ _ l, l ≠ []) m → m !! k = Some l → l ≠ []) as Hall.
  { intros m Hm Hl. by apply (Hm k). }
  eapply Hall; [|exact Hk]. destruct (negb _); repeat apply map_Forall_insert_2; done.
Qed.

(** Socrate rejected the refresh token: it answered the refresh request with an
    error whose code says so. *)
Definition rejected (ctx : ctxutil.context) (cst : client.St) (rt : string) : Prop :=
  is_Some (url_Parse (token_url cst)) ∧
  ∃ status b, refresh_answer ctx cst rt = Answer status b ∧ slen b ≤ maxResponseBytes ∧ status ≠ 200 ∧
    oe_Code (newOAuthError status b) ∈ ["invalid_grant"; "invalid_client"; "unauthorized_client"; "invalid_scope"].

Lemma fatal_rejected ctx cst rt e :
  client_refresher ctx cst rt = Err e → gateway.IsFatalRefreshError e = true ↔ rejected ctx cst rt.
Proof.
  unfold client_refresher, rejected. rewrite RefreshToken_result. unfold gateway.IsFatalRefreshError.
  destruct (url_Parse (token_url cst)) as [u|].
  2:{ intros [= <-]. simpl. split; [done|]. intros ([x [=]] & _). }
  destruct (refresh_answer ctx cst rt) as [|s|s b] eqn:Ha; unfold token_answer, decodeTokenSet; simpl.
  - intros [= <-]. simpl. split; [done|]. intros (_ & ? & ? & [=] & _).
  - intros [= <-]. simpl. split; [done|]. intros (_ & ? & ? & [=] & _).
  - destruct (maxResponseBytes <? slen b) eqn:Hl; bool_to_prop.
    { intros [= <-]. simpl. split; [done|]. intros (_ & ? & ? & [= <- <-] & ? & _). lia. }
    destruct (Z.eqb_spec s 200) as [->|Hs]; simpl.
    { destruct (unmarshal_struct _ _ b); [done|]. intros [= <-]. simpl. split; [done|].
      intros (_ & ? & ? & [= <- <-] & _ & ? & _). done. }
    intros [= <-]. simpl. rewrite contains_spec. split.
    + intros Hc. split; [by eexists|]. by exists s, b.
    + by intros (_ & ? & ? & [= <- <-] & _ & _ & Hc).
Qed.

(** C18: end to end, a browser session dies on a refresh only when Socrate rejected
    its refresh token. Take the gateway over any session store with the Socrate
    client as its refresher, authentication on, and a request (handled on its own)
    whose cookie finds a session, whose CSRF check passes, whose session's token
    is not valid for longer than the leeway and whose refresh fails. The form of
    the refresh request reads back as exactly the refresh token of that session
    with the client's credentials. If Socrate rejected it, with a readable answer
    other than 200 with one of the four codes that say the grant is dead, the
    browser gets 401 and its cookie is cleared, and the store's
    Delete is called for the session, so that look-ups do not find it, provided
    it takes effect (in PostgreSQL the row must exist and its statement succeed; a
    failing statement leaves the session). In every other case (unreachable
    server, server error, oversized or unreadable answer) the browser gets 502
    and the store is left as the look-up left it. *)
Theorem session_dies_only_when_rejected {SSt : Type} `{store.SessionStoreLaws SSt}
    (g : gateway.Gateway) (ck : gateway.Clock) (ctx : ctxutil.context) (cst : client.St)
    (h h1 : session.heap) (st st1 : SSt) (w : ResponseWriter) (r : Request) (l : session.loc) (s : session.Session) (e : goerr) :
  let refresh := client_refresher ctx cst in
  gateway.DisableAuth g = false →
  gateway.SessionFromRequest g (gateway.at_get ck) h st r = (Some l, (h1, st1)) → h1 !! l = Some s →
  gateway.CheckCSRF g r s = true →
  session.AccessValid s (gateway.at_enter ck) (gateway.refreshLeeway g) = false →
  session.AccessValid s (gateway.at_recheck ck) (gateway.refreshLeeway g) = false →
  refresh (session.refreshToken s) = Err e →
  ParseQuery (hr_Body (refresh_request ctx cst (session.refreshToken s))) = refresh_form (cl cst) (session.refreshToken s) ∧
  ∃ w', (gateway.ProxyWithSession g ck refresh h st w r).1 = Reply w' ∧
    (rejected ctx cst (session.refreshToken s) →
       w' = http_Error (bff.ClearSession (gateway.Cookie_ g) w) "session expired" 401 ∧
       ∃ st2, (gateway.ProxyWithSession g ck refresh h st w r).2 = (h1, st2) ∧
         st2 = store.store_Delete (gateway.at_delete ck) st1 (session.id s) ∧
         (store.store_deletes st1 (session.id s) →
          store.store_dead st2 (session.id s) (gateway.at_delete ck) ∧
          ∀ now h, (store.store_Get now h st2 (session.id s)).1 = None)) ∧
    (¬ rejected ctx cst (session.refreshToken s) →
       w' = http_Error w "token refresh unavailable" 502 ∧
       (gateway.ProxyWithSession g ck refresh h st w r).2 = (h1, st1)).
Proof.
  intros refresh Hd Hs Hl Hc Hv1 Hv2 Hr. split; [apply refresh_form_read|].
  destruct (gateway.refresh_failure g ck refresh h h1 st st1 w r l s e Hd Hs Hl Hc Hv1 Hv2 Hr) as (w' & Hw & Hcase).
  exists w'. split; [done|]. pose proof (fatal_rejected ctx cst (session.refreshToken s) e Hr) as Hiff.
  destruct (gateway.IsFatalRefreshError e).
  - split; [|intros Hn; by destruct Hn; apply Hiff]. intros _. destruct Hcase as (Hw' & Hst & Hdel). split; [done|].
    eexists. split; [exact Hst|]. split; [done|]. intros Hd2. specialize (Hdel Hd2). rewrite Hst in Hdel.
    split; [done|]. intros now h'. by eapply store.dead_Get.
  - split; [|done]. intros Hrej. by apply Hiff in Hrej.
Qed.

End refresher.

(** * The decision point *)

Section decider.
Context `{UrlLib, Network, service.IPLib}.

(** The client as a decision point: the [n]-th question of a check finds it in
    the state [csts n]. *)
Definition client_decider (ctx : ctxutil.context) (csts : nat → client.St) : pep.Decider := λ n q,
  match (Decide ctx q (csts n)).1 with
  | Ok answer => answer
  | Err e => (None, Some e)
  end.

(** A decision without an error is the 200 answer to the last request sent. *)
Lemma Decide_decision ctx q st d :
  (Decide ctx q st).1 = Ok (Some d, None) →
  ∃ b, last_answer (Decide ctx q st).2 (Answer 200 b) ∧ service.decode_Decision b = Some d.
Proof.
  destruct (Decide ctx q st) as [res st'] eqn:Hd. simpl. intros ->.
  apply bind_Ok in Hd as (app & st1 & _ & Hd). apply bind_Ok in Hd as (tok & st2 & _ & Hd).
  apply bind_Ok in Hd as (text & st3 & _ & Hd). apply bind_Ok in Hd as (u & st4 & _ & Hd).
  apply bind_Ok in Hd as (req & st5 & _ & Hd). apply bind_Ok in Hd as (resp & st6 & Hdo & Hr).
  apply wrap_Ok, Do_Ok in Hdo as (Hs & Ha & Hne & _). injection Hr as Hr <-.
  unfold service.read_decision in Hr. destruct resp as [|z|z b]; [done|done|]. simpl in Hr.
  destruct (maxResponseBytes <? slen b); [done|]. destruct (Z.eqb_spec z 200) as [->|]; [|by destruct (z =? 503), (z =? 400)].
  destruct (service.decode_Decision b) as [d'|] eqn:Hdec; [|done]. injection Hr as ->.
  exists b. split; [|done]. simpl. eexists _, _. split; [exact Hs|exact Ha].
Qed.

(** C19: end to end, under an enforce floor a check proceeds only on Socrate's word.
    With the Socrate client as the decision point, an enforcer built by New whose
    minimum mode is enforce lets an action proceed only if the last answer the
    client got to its question was a 200 whose body is a decision that allows the
    action. The question is the one asked, plain or with the minimum mode in its
    mode field, or, when it is repeated, with that field empty. And the context of
    the caller honours every obligation of that decision, if none has an empty
    name; in general those before the first one that has, which hides the
    others ([empty_obligation_is_dropped]). *)
Theorem enforced_action_was_allowed (e : pep.Enforcer) (csts : nat → client.St) (now : Time)
    (ctx : ctxutil.context) (req : policy.DecideRequest) :
  pep.configured e → pep.MinimumMode (pep.cfg e) = policy.PolicyModeEnforce →
  (pep.check e (client_decider ctx csts) now ctx req).1 = pep.Proceed →
  ∃ n q b d,
    (n = 0%nat ∧ (q = req ∨ q = policy.with_pep_mode req policy.PolicyModeEnforce) ∨ n = 1%nat ∧ q = policy.with_pep_mode req "") ∧
    last_answer (Decide ctx q (csts n)).2 (Answer 200 b) ∧ service.decode_Decision b = Some d ∧
    policy.Allow d = true ∧ Forall (pep.honoured e now ctx) (pep.heeded (policy.Obligations d)) ∧
    ("" ∉ policy.Obligations d → Forall (pep.honoured e now ctx) (policy.Obligations d)).
Proof.
  intros Hc Hf Hp. apply pep.enforce_floor_iff in Hp as (d & Ha & Hallow & Hob); [|done|done].
  assert (∀ n q, client_decider ctx csts n q = (Some d, None) →
    ∃ b, last_answer (Decide ctx q (csts n)).2 (Answer 200 b) ∧ service.decode_Decision b = Some d) as Hdec.
  { intros n q Hq. apply Decide_decision. unfold client_decider in Hq.
    destruct (Decide ctx q (csts n)).1 as [x|err]; [by rewrite Hq|done]. }
  unfold pep.answer, pep.decide_ in Ha.
  set (sent := negb _ && _) in Ha. set (first := client_decider ctx csts 0%nat _) in Ha.
  assert (∃ n q, (n = 0%nat ∧ (q = req ∨ q = policy.with_pep_mode req policy.PolicyModeEnforce) ∨
                  n = 1%nat ∧ q = policy.with_pep_mode req "") ∧ client_decider ctx csts n q = (Some d, None))
    as (n & q & Hq & Hans).
  { destruct (sent && _).
    - exists 1%nat, (policy.with_pep_mode req ""). split; [by right|].
      by destruct (client_decider ctx csts 1%nat _) as [[d'|] [err|]]; simpl in *.
    - exists 0%nat, (if sent then policy.with_pep_mode req (pep.MinimumMode (pep.cfg e)) else req).
      split; [left; split; [done|]; rewrite Hf; destruct sent; auto|]. fold first. by destruct first as [[d'|] [err|]]; simpl in *. }
  destruct (Hdec n q Hans) as (b & Hb & Hd). exists n, q, b, d. split_and!; try done.
  intros Hne. by rewrite pep.heeded_named in Hob.
Qed.

End decider.

(** * Witnesses *)

Module Demo.
Import gateway.Demo.

#[export] Instance demo_url : UrlLib :=
  {| url_Parse s := Some {| u_Scheme := ""; u_Host := ""; u_Tail := s |}; url_String u := u_Tail u |}.
#[export] Instance demo_ip : service.IPLib := {| service.canonical_ip _ := None |}.

(** The token endpoint grants service tokens and refuses refresh tokens; the
    decision point allows. *)
Definition serve_demo (_ : list HttpRequest) (r : HttpRequest) : http_answer :=
  if String.eqb (hr_URL r) "https://auth/oauth/token" then
    if decide (ParseQuery (hr_Body r) !! "grant_type" = Some ["client_credentials"])
    then Answer 200 (json_encode (JObj [("access_token", JStr "svc"); ("expires_in", JNum "3600")]))
    else Answer 400 (json_encode (JObj [("error", JStr "invalid_grant")]))
  else Answer 200 (json_encode (JObj [("allow", JBool true); ("mode", JStr "enforce")])).
#[export] Instance demo_net : Network := {| serve := serve_demo; SocrateHttp.clock _ := 0 |}.

End Demo.

Section witnesses.
Import Demo.

Definition demo_st : client.St :=
  {| cl := {| baseURL := "https://auth"; adminBaseURL := "http://admin"; clientID := "c"; resolvedAppID := "5";
              httpTimeout := 0; tokens := service.new_client "s3cret" |}; sent := []; opened := 0; ticks := 0 |}.

Lemma session_dies_only_when_rejected_witness :
  rejected ctxutil.Background demo_st (session.refreshToken gateway.Demo.sess) ∧
  (gateway.ProxyWithSession gateway.Demo.g (gateway.Demo.clock (2000 * Second))
     (client_refresher ctxutil.Background demo_st) gateway.Demo.h0 gateway.Demo.st0 new_response gateway.Demo.req).1 =
  Reply (http_Error (bff.ClearSession (gateway.Cookie_ gateway.Demo.g) new_response) "session expired" 401).
Proof.
  assert (rejected ctxutil.Background demo_st (session.refreshToken gateway.Demo.sess)) as Hrej.
  { split; [by eexists|]. exists 400, (json_encode (JObj [("error", JStr "invalid_grant")])).
    split; [vm_compute; reflexivity|]. split; [vm_compute; discriminate|]. split; [discriminate|].
    vm_compute. apply list_elem_of_here. }
  split; [exact Hrej|].
  destruct (session_dies_only_when_rejected gateway.Demo.g (gateway.Demo.clock (2000 * Second)) ctxutil.Background demo_st
    gateway.Demo.h0 gateway.Demo.h0 gateway.Demo.st0 gateway.Demo.st0 new_response gateway.Demo.req 1
    gateway.Demo.sess (EOAuth (newOAuthError 400 (json_encode (JObj [("error", JStr "invalid_grant")])))))
    as (_ & w' & Hw & Hd & _); [vm_compute; reflexivity ..|].
  rewrite Hw. f_equal. exact (proj1 (Hd Hrej)).
Defined.

Lemma enforced_action_was_allowed_witness :
  ∃ b d, service.decode_Decision b = Some d ∧ policy.Allow d = true ∧
    Forall (pep.honoured pep.demo_enforcer 0 pep.demo_ctx) (pep.heeded (policy.Obligations d)).
Proof.
  destruct (enforced_action_was_allowed pep.demo_enforcer (λ _, demo_st) 0 pep.demo_ctx pep.demo_req)
    as (n & q & b & d & _ & _ & Hd & Ha & Hob & _);
    [exact pep.demo_configured|reflexivity|vm_compute; reflexivity|].
  exists b, d. exact (conj Hd (conj Ha Hob)).
Defined.

End witnesses.

End integration.
