(* ===== verification/Ailang.v ===== *)
(** Language enforcement for generated text (package [ailang]): the stopword
    heuristic (src/ailang/validator.go), the prompts (prompt_builder.go), the
    JSON-aware translator (translator.go) and the guard that composes them
    (language_guard.go, types.go). The language model is an interface with a
    state of its own; letters and case outside Latin-1 are a parameter. *)

From S2P Require Import Prelude GoText Utf8 GoJson JsonRoundtrip GoFloat.

(** Unicode's tables beyond Latin-1, as package [unicode] has them. *)
Class UnicodeLib := { uni_letter : Z → bool; uni_lower : Z → Z }.
Class UnicodeLaws `{UnicodeLib} := {
  lower_scalar v : 256 ≤ v → scalar v → scalar (uni_lower v);
  space_lower v : 256 ≤ v → is_space v = true → uni_lower v = v ∧ uni_letter v = false;
}.

(** The text [json.Marshal] writes for the float64 that a JSON number denotes. *)
Class FloatText := { float_text : string → string }.
Class FloatTextLaws `{FloatText} := {
  float_text_number lit : number_literal lit → number_literal (float_text lit);
}.

Module ailang.

(** * validator.go *)

(** [ailang/validator.go: frStopwords] *)
Definition frStopwords : list string :=
  ["le"; "la"; "les"; "un"; "une"; "des";
   "du"; "au"; "aux";
   "de"; "en"; "dans"; "sur"; "avec"; "pour";
   "par"; "vers"; "sans"; "sous";
   "et"; "ou"; "mais"; "donc"; "car"; "ni";
   "que"; "qui"; "dont"; "quand"; "comme";
   "je"; "tu"; "il"; "elle"; "nous"; "vous";
   "ils"; "elles"; "se"; "ce"; "cela"; "on";
   "ne"; "pas"; "plus"; "très"; "bien"; "aussi";
   "est"; "sont"; "était"; "avoir"; "être";
   "cette"; "ces"; "son"; "sa"; "ses";
   "leur"; "leurs"; "mon"; "ma"; "mes";
   "ton"; "ta"; "tes"].

(** [ailang/validator.go: enStopwords] *)
Definition enStopwords : list string :=
  ["the"; "a"; "an";
   "in"; "on"; "at"; "to"; "for"; "of";
   "with"; "by"; "from"; "into"; "about";
   "and"; "or"; "but"; "if"; "than"; "though";
   "that"; "which"; "when"; "while";
   "it"; "its"; "they"; "them"; "their";
   "we"; "our"; "you"; "your";
   "he"; "she"; "his"; "her"; "this"; "these";
   "is"; "are"; "was"; "were"; "be"; "been";
   "being"; "have"; "has"; "had"; "do"; "does";
   "did"; "will"; "would"; "could"; "should";
   "may"; "might"; "shall"; "can";
   "not"; "also"; "very"; "just"; "as"].

(** [ailang/validator.go:139-139] minTokensForCheck *)
Definition minTokensForCheck : nat := 5.
(** [ailang/validator.go:144-144] dominanceThreshold
    The float64 nearest to 0.60. *)
Definition dominanceThreshold : float64.t := float64.div (float64.of_Z 3) (float64.of_Z 5).

(** [unicode.IsLetter]. *)
Definition is_letter `{UnicodeLib} (r : Z) : bool :=
  if r <? 256 then
    ((65 <=? r) && (r <=? 90)) || ((97 <=? r) && (r <=? 122)) || (r =? 170) || (r =? 181) || (r =? 186) ||
    ((192 <=? r) && (r <=? 214)) || ((216 <=? r) && (r <=? 246)) || ((248 <=? r) && (r <=? 255))
  else uni_letter r.

(** [unicode.ToLower]. *)
Definition lower `{UnicodeLib} (r : Z) : Z :=
  if r <? 256 then
    if ((65 <=? r) && (r <=? 90)) || ((192 <=? r) && (r <=? 214)) || ((216 <=? r) && (r <=? 222)) then r + 32 else r
  else uni_lower r.

(** [strings.ToLower]. *)
Definition to_lower `{UnicodeLib} (s : string) : string :=
  fold_right (λ r acc, encode_rune (lower (r_val r)) +:+ acc) "" (runes s).

(** [ailang/validator.go:151-161] the loop of tokenize *)
Fixpoint tokens `{UnicodeLib} (l : list Z) (buf : string) : list string :=
  match l with
  | [] => if String.eqb buf "" then [] else [buf]
  | r :: l' =>
      if is_letter r then tokens l' (buf +:+ encode_rune r)
      else if String.eqb buf "" then tokens l' "" else buf :: tokens l' ""
  end.

(** [ailang/validator.go: tokenize] *)
Definition tokenize `{UnicodeLib} (text : string) : list string := tokens (r_val <$> runes (to_lower text)) "".

(** [ailang/validator.go: countStopwords] *)
Definition countStopwords (words : list string) : Z * Z :=
  fold_left (λ '(fr, en) w,
    (if contains frStopwords w then fr + 1 else fr, if contains enStopwords w then en + 1 else en)) words (0, 0).

(** [ailang/validator.go: IsCorrectLanguage] *)
Definition IsCorrectLanguage `{UnicodeLib} (text locale : string) : bool :=
  if String.eqb text "" then false
  else if negb (String.eqb locale "fr") && negb (String.eqb locale "en") then true
  else
    let words := tokenize text in
    if (length words <? minTokensForCheck)%nat then true
    else
      let '(frScore, enScore) := countStopwords words in
      let total := frScore + enScore in
      if total =? 0 then true
      else if String.eqb locale "fr" then
        float64.leb dominanceThreshold (float64.div (float64.of_Z frScore) (float64.of_Z total))
      else if String.eqb locale "en" then
        float64.leb dominanceThreshold (float64.div (float64.of_Z enScore) (float64.of_Z total))
      else true.

(** ** Documents decoded into [any] *)

(** A decoded document: a number keeps its literal, and the entries of a map are
    listed in the order in which a loop over it visits them. *)
Inductive value :=
| VNil
| VBool (b : bool)
| VNum (lit : string)
| VStr (s : string)
| VArr (l : list value)
| VMap (m : list (string * value)).

(** The last value of a repeated key is kept. *)
Fixpoint keep_last {V} (l : list (string * V)) : list (string * V) :=
  match l with
  | [] => []
  | kv :: l' => if contains l'.*1 kv.1 then keep_last l' else kv :: keep_last l'
  end.

Fixpoint of_json (v : json) : value :=
  match v with
  | JNull => VNil
  | JBool b => VBool b
  | JNum lit => VNum lit
  | JStr s => VStr s
  | JArr l => VArr (of_json <$> l)
  | JObj l => VMap (keep_last ((λ kv, (kv.1, of_json kv.2)) <$> l))
  end.

(** [json.Unmarshal(text, &v)] for [var v any]. *)
Definition unmarshal_any (text : string) : option value :=
  match json_parse text with
  | Some v => if overflows v then None else Some (of_json v)
  | None => None
  end.

(** [ailang/validator.go: gatherStrings] *)
Fixpoint gatherStrings (v : value) : string :=
  match v with
  | VStr s => s +:+ " "
  | VMap m => fold_right (λ kv acc, gatherStrings kv.2 +:+ acc) "" m
  | VArr l => fold_right (λ x acc, gatherStrings x +:+ acc) "" l
  | _ => ""
  end.

(** [ailang/validator.go: collectJSONStrings] *)
Definition collectJSONStrings (raw : string) : string :=
  match unmarshal_any raw with
  | None => ""
  | Some v => trim_space (gatherStrings v)
  end.

(** [ailang/validator.go: looksLikeJSON] *)
Definition looksLikeJSON (s : string) : bool :=
  let s := trim_space s in
  match s with
  | String c _ => (1 <? slen s) && ((byte_of c =? 123) || (byte_of c =? 91)) && json_valid s
  | EmptyString => false
  end.

(** [ailang/validator.go: ValidateText] *)
Definition ValidateText `{UnicodeLib} (text locale : string) : bool :=
  let text := trim_space text in
  if String.eqb text "" then false
  else if looksLikeJSON text then
    let corpus := collectJSONStrings text in
    if String.eqb corpus "" then true else IsCorrectLanguage corpus locale
  else IsCorrectLanguage text locale.

(** * types.go *)

(** [ailang/types.go: PromptInput]
    The metadata the package reads is the value under "module", if it is a
    string. *)
Record PromptInput := { Prompt : string; Locale : string; Module_ : option string }.

(** [ailang/types.go: AIResponse] *)
Record AIResponse := { Text : string; Language : string; Raw : string; Valid : bool; RetryCount : Z }.

(** [ailang/types.go: AIConfig] *)
Record AIConfig := { MaxRetries : Z; EnableTranslation : bool; StrictLanguageCheck : bool }.

(** [ailang/types.go: DefaultAIConfig] *)
Definition DefaultAIConfig : AIConfig :=
  {| MaxRetries := 1; EnableTranslation := true; StrictLanguageCheck := true |}.

(** [ailang/types.go: RawCaller]
    A language model, whose answers may depend on earlier calls; an error is its
    message. *)
Class RawCaller (St : Type) := { Call : St → string → result string string * St }.

(** * prompt_builder.go *)

(** [ailang/prompt_builder.go: labelFor] *)
Definition labelFor (locale : string) : string :=
  if String.eqb locale "fr" then "French (français)"
  else if String.eqb locale "en" then "English" else locale.

(** [ailang/prompt_builder.go: BuildPrompt] *)
Definition BuildPrompt (input : PromptInput) : string :=
  let lang := labelFor (Locale input) in
  "OUTPUT LANGUAGE RULE (mandatory):
- The response MUST be written entirely in " +:+ lang +:+ ".
- Every word, sentence, and punctuation mark must be in " +:+ lang +:+ ".
- Do NOT mix languages under any circumstances.
- If you cannot comply with this rule, your answer is invalid and must be rewritten from scratch in " +:+ lang +:+ ".

" +:+ Prompt input.

(** [ailang/prompt_builder.go: BuildRetryPrompt] *)
Definition BuildRetryPrompt (input : PromptInput) : string :=
  let lang := labelFor (Locale input) in
  "⚠️  CRITICAL LANGUAGE VIOLATION — REWRITE REQUIRED

Your previous response was REJECTED because it was not written in " +:+ lang +:+ ".

MANDATORY CORRECTION RULES:
1. Rewrite the entire answer in " +:+ lang +:+ ".
2. Every single word must be in " +:+ lang +:+ " — no exceptions, no mixing.
3. Do NOT include any words from any other language.
4. If you include a single non-" +:+ lang +:+ " word, the answer will be rejected again.

Original request (answer it entirely in " +:+ lang +:+ "):
" +:+ Prompt input.

(** [ailang/prompt_builder.go: BuildTranslationPrompt] *)
Definition BuildTranslationPrompt (text locale : string) : string :=
  "Translate the following text into " +:+ labelFor locale +:+ ".

TRANSLATION RULES:
- Output ONLY the translated content. No explanations, no preamble.
- If the input is a JSON object or array:
    • Translate ONLY the string values.
    • Leave all keys, numbers, booleans, and null values unchanged.
    • The output MUST be valid JSON with the same structure.
- Preserve formatting (newlines, bullet points, etc.) where present.
- Preserve proper nouns and technical terms that should not be translated.

Text to translate:
" +:+ text.

(** * translator.go *)

(** A text and the error returned with it, if any. *)
Inductive terr := CallError (msg : string) | EmptyAnswer | ParseError.

Section translator.
Context {St : Type} `{RawCaller St} `{FloatText}.

(** [ailang/translator.go: Translator.translatePlain] *)
Definition translatePlain (st : St) (text locale : string) : (string * option terr) * St :=
  match Call st (BuildTranslationPrompt text locale) with
  | (Err e, st) => ((text, Some (CallError e)), st)
  | (Ok result, st) =>
      let result := trim_space result in
      if String.eqb result "" then ((text, Some EmptyAnswer), st) else ((result, None), st)
  end.

(** [ailang/translator.go: Translator.walkTranslate]
    It never fails: a string that cannot be translated is kept. *)
Fixpoint walkTranslate (st : St) (v : value) (locale : string) : value * St :=
  match v with
  | VStr s =>
      match translatePlain st s locale with
      | ((_, Some _), st) => (v, st)
      | ((translated, None), st) => (VStr translated, st)
      end
  | VMap m =>
      let '(m, st) := (fix go st m :=
        match m with
        | [] => ([], st)
        | (k, x) :: m' =>
            let '(x, st) := walkTranslate st x locale in
            let '(m', st) := go st m' in ((k, x) :: m', st)
        end) st m in
      (VMap m, st)
  | VArr l =>
      let '(l, st) := (fix go st l :=
        match l with
        | [] => ([], st)
        | x :: l' =>
            let '(x, st) := walkTranslate st x locale in
            let '(l', st) := go st l' in (x :: l', st)
        end) st l in
      (VArr l, st)
  | _ => (v, st)
  end.

(** [json.Marshal] of a decoded document: keys in sorted order. *)
Definition key_le (a b : string * json) : Prop := String.leb a.1 b.1 = true.
#[local] Instance key_le_dec a b : Decision (key_le a b).
Proof. unfold key_le. apply _. Defined.

Fixpoint to_json (v : value) : json :=
  match v with
  | VNil => JNull
  | VBool b => JBool b
  | VNum lit => JNum (float_text lit)
  | VStr s => JStr s
  | VArr l => JArr (to_json <$> l)
  | VMap m => JObj (merge_sort key_le ((λ kv, (kv.1, to_json kv.2)) <$> m))
  end.

(** [ailang/translator.go: Translator.translateJSONValues] *)
Definition translateJSONValues (st : St) (raw locale : string) : (string * option terr) * St :=
  match unmarshal_any raw with
  | None => ((raw, Some ParseError), st)
  | Some v =>
      let '(translated, st) := walkTranslate st v locale in
      ((json_encode (to_json translated), None), st)
  end.

(** [ailang/translator.go:157-164] the candidate between two delimiters *)
Definition fragment (opening closing : ascii) (s : string) : option string :=
  match index_byte opening s, last_index_byte closing s with
  | Some i, Some j =>
      if (i <? j)%nat then
        let candidate := slice i (j + 1) s in if json_valid candidate then Some candidate else None
      else None
  | _, _ => None
  end.

(** [ailang/translator.go: extractJSONFragment] *)
Definition extractJSONFragment (s : string) : string :=
  match fragment "{" "}" s with
  | Some candidate => candidate
  | None => match fragment "[" "]" s with Some candidate => candidate | None => s end
  end.

(** [ailang/translator.go: Translator.translateJSON] *)
Definition translateJSON (st : St) (raw locale : string) : (string * option terr) * St :=
  match Call st (BuildTranslationPrompt raw locale) with
  | (Err e, st) => ((raw, Some (CallError e)), st)
  | (Ok result, st) =>
      let result := trim_space result in
      if String.eqb result "" then ((raw, Some EmptyAnswer), st)
      else if json_valid result then ((result, None), st)
      else
        let extracted := extractJSONFragment result in
        if json_valid extracted then ((extracted, None), st)
        else translateJSONValues st raw locale
  end.

(** [ailang/translator.go: Translator.Translate] *)
Definition Translate (st : St) (text locale : string) : (string * option terr) * St :=
  let text := trim_space text in
  if String.eqb text "" then (("", None), st)
  else if looksLikeJSON text then translateJSON st text locale
  else translatePlain st text locale.

End translator.

(** * language_guard.go *)

(** [ailang/language_guard.go: moduleOf] *)
Definition moduleOf (input : PromptInput) : string :=
  match Module_ input with
  | Some m => if negb (String.eqb m "") then m else "unknown"
  | None => "unknown"
  end.

(** A message captured by the reporter, with its tags. *)
Record event := { ev_msg : string; ev_locale : string; ev_retry : Z; ev_module : string }.

Definition event_of (msg : string) (input : PromptInput) (retry : Z) : event :=
  {| ev_msg := msg; ev_locale := Locale input; ev_retry := retry; ev_module := moduleOf input |}.

(** [ailang/language_guard.go: LanguageGuard.emitMismatch] *)
Definition emitMismatch (input : PromptInput) (retryCount : Z) : event :=
  event_of "AI language mismatch" input retryCount.

Definition fallback_used : string := "AI language mismatch — translation fallback used".
Definition exhausted : string := "AI language enforcement failed — all strategies exhausted".

Inductive gerr := GenerateError (msg : string) | EmptyResponse.

Section guard.
Context {St : Type} `{RawCaller St} `{FloatText} `{UnicodeLib}.

(** [ailang/language_guard.go:106-126] the reinforced retry: its text, when it
    is in the language asked for *)
Definition retry (st : St) (input : PromptInput) : option string * St :=
  match Call st (BuildRetryPrompt input) with
  | (Err _, st) => (None, st)
  | (Ok retryRaw, st) =>
      let retryRaw := trim_space retryRaw in
      (if negb (String.eqb retryRaw "") && ValidateText retryRaw (Locale input) then Some retryRaw else None, st)
  end.

(** [ailang/language_guard.go:129-159] the translation fallback: its text, when
    it is in the language asked for *)
Definition fallback (st : St) (raw : string) (input : PromptInput) : option string * St :=
  let '((translated, tErr), st) := Translate st raw (Locale input) in
  let translated := trim_space translated in
  match tErr with
  | None =>
      (if negb (String.eqb translated "") && ValidateText translated (Locale input) then Some translated else None, st)
  | Some _ => (None, st)
  end.

(** [ailang/language_guard.go: LanguageGuard.Generate]
    The events are those the reporter captures, in order. *)
Definition Generate (cfg : AIConfig) (st : St) (input : PromptInput)
  : result gerr AIResponse * list event * St :=
  let input := if String.eqb (Locale input) ""
               then {| Prompt := Prompt input; Locale := "fr"; Module_ := Module_ input |} else input in
  match Call st (BuildPrompt input) with
  | (Err e, st) => (Err (GenerateError e), [], st)
  | (Ok raw, st) =>
      let raw := trim_space raw in
      if String.eqb raw "" then (Err EmptyResponse, [], st)
      else
        let resp text raw valid n :=
          {| Text := text; Language := Locale input; Raw := raw; Valid := valid; RetryCount := n |} in
        if negb (StrictLanguageCheck cfg) || ValidateText raw (Locale input) then (Ok (resp raw raw true 0), [], st)
        else
          let evs := [emitMismatch input 0] in
          let '(retried, st, n, evs) :=
            if 0 <? MaxRetries cfg then
              let '(o, st) := retry st input in
              (o, st, 1, match o with Some _ => evs | None => evs ++ [emitMismatch input 1] end)
            else (None, st, 0, evs) in
          match retried with
          | Some retryRaw => (Ok (resp retryRaw retryRaw true n), evs, st)
          | None =>
              let '(translated, st) :=
                if EnableTranslation cfg then fallback st raw input else (None, st) in
              match translated with
              | Some text => (Ok (resp text raw true n), evs ++ [event_of fallback_used input n], st)
              | None => (Ok (resp raw raw false n), evs ++ [event_of exhausted input n], st)
              end
          end
  end.

End guard.

(** * The verdict does not depend on the order of maps *)

Section verdict.
Context `{UnicodeLaws}.

Lemma lower_ok v : scalar v → scalar (lower v).
Proof.
  intros Hv. unfold lower. destruct (Z.ltb_spec v 256); [|by apply lower_scalar].
  destruct (_ || _ || _) eqn:Hc; [|done]. unfold scalar in *. lia.
Qed.

Lemma space_not_letter v : is_space v = true → is_letter (lower v) = false.
Proof.
  intros Hs. unfold is_letter, lower. destruct (Z.ltb_spec v 256) as [Hv|Hv].
  - assert (v = 9 ∨ v = 10 ∨ v = 11 ∨ v = 12 ∨ v = 13 ∨ v = 32 ∨ v = 133 ∨ v = 160) as Hcases.
    { unfold is_space in Hs. rewrite !orb_true_iff, !andb_true_iff, !Z.leb_le, !Z.eqb_eq in Hs. lia. }
    destruct Hcases as [->|[->|[->|[->|[->|[->|[->| ->]]]]]]]; reflexivity.
  - destruct (space_lower v Hv Hs) as [-> ->]. by rewrite (proj2 (Z.ltb_ge _ _) Hv).
Qed.

Lemma runes_scalar s : Forall (λ r, scalar (r_val r)) (runes s).
Proof.
  eapply Forall_impl; [apply runes_wf|]. intros r [[? _]|(c & -> & _)]; [done|].
  right. simpl. unfold rune_error. lia.
Qed.

Lemma tokenize_vals s : tokenize s = tokens (lower ∘ r_val <$> runes s) "".
Proof.
  unfold tokenize. f_equal.
  assert (runes (to_lower s) = (λ r, Rune (lower (r_val r)) (encode_rune (lower (r_val r)))) <$> runes s) as ->.
  { unfold to_lower. induction (runes_scalar s) as [|r l Hr _ IH]; [done|].
    cbn [fold_right fmap list_fmap]. by rewrite runes_encode, IH by by apply lower_ok. }
  by rewrite <- list_fmap_compose.
Qed.

Lemma tokens_sep l1 r l2 buf :
  is_letter r = false → tokens (l1 ++ r :: l2) buf = tokens l1 buf ++ tokens l2 "".
Proof.
  intros Hr. revert buf. induction l1 as [|x l1 IH]; intros buf; simpl.
  - rewrite Hr. by destruct String.eqb.
  - destruct (is_letter x); [apply IH|]. destruct String.eqb; [apply IH|]. by rewrite IH.
Qed.

Lemma tokens_back l k buf : Forall (λ r, is_letter r = false) k → tokens (l ++ k) buf = tokens l buf.
Proof.
  destruct 1 as [|r k Hr Hk]; [by rewrite app_nil_r|]. rewrite tokens_sep by done.
  assert (tokens k "" = []) as ->; [|by rewrite app_nil_r].
  induction Hk as [|x k Hx Hk IH]; [done|]. simpl. by rewrite Hx.
Qed.

Lemma tokens_front l k : Forall (λ r, is_letter r = false) k → tokens (k ++ l) "" = tokens l "".
Proof. induction 1 as [|r k Hr Hk IH]; [done|]. simpl. by rewrite Hr. Qed.

Definition spaces (l : list rune) : Prop := Forall (λ r, is_space (r_val r) = true) l.

Lemma drop_while_spaces l : ∃ k, l = k ++ drop_while (λ r, is_space (r_val r)) l ∧ spaces k.
Proof.
  induction l as [|r l (k & Hk & Hs)]; simpl; [exists []; by split; [|constructor]|].
  destruct (is_space (r_val r)) eqn:Hr; [|exists []; by split; [|constructor]].
  exists (r :: k). split; [simpl; congruence|by constructor].
Qed.

Lemma trim_runes_spaces l : ∃ k k', l = k ++ trim_runes l ++ k' ∧ spaces k ∧ spaces k'.
Proof.
  unfold trim_runes. set (p := λ r : rune, is_space (r_val r)).
  destruct (drop_while_spaces l) as (k & Hk & Hs). fold p in Hk.
  destruct (drop_while_spaces (reverse (drop_while p l))) as (k' & Hk' & Hs'). fold p in Hk'.
  exists k, (reverse k'). split_and!; [|done|by apply Forall_reverse].
  rewrite <- reverse_app, <- Hk', reverse_involutive. done.
Qed.

Lemma spaces_not_letters k : spaces k → Forall (λ r, is_letter r = false) (lower ∘ r_val <$> k).
Proof. intros Hk. apply Forall_fmap. eapply Forall_impl; [exact Hk|]. intros r. apply space_not_letter. Qed.

Lemma tokenize_trim s : tokenize (trim_space s) = tokenize s.
Proof.
  rewrite !tokenize_vals, runes_trim_space. destruct (trim_runes_spaces (runes s)) as (k & k' & Hk & Hs & Hs').
  rewrite Hk at 2. rewrite !fmap_app, tokens_front, tokens_back by by apply spaces_not_letters. done.
Qed.

Lemma trim_space_empty s : trim_space s = "" ↔ spaces (runes s).
Proof.
  destruct (trim_runes_spaces (runes s)) as (k & k' & Hk & Hs & Hs'). split.
  - intros He. apply (f_equal runes) in He. rewrite runes_trim_space in He. rewrite Hk, He. simpl.
    by apply Forall_app.
  - intros Hall. unfold trim_space. assert (trim_runes (runes s) = []) as ->; [|done].
    unfold trim_runes. set (p := λ r : rune, is_space (r_val r)).
    assert (drop_while p (runes s) = []) as ->; [|done].
    clear -Hall. induction Hall as [|r l Hr Hl IH]; [done|]. simpl. unfold p at 1. by rewrite Hr.
Qed.

(** The strings of a document, in the order in which they are visited. *)
Fixpoint leaves (v : value) : list string :=
  match v with
  | VStr s => [s]
  | VMap m => concat ((λ kv, leaves kv.2) <$> m)
  | VArr l => concat (leaves <$> l)
  | _ => []
  end.

Lemma value_ind' (P : value → Prop) :
  P VNil → (∀ b, P (VBool b)) → (∀ n, P (VNum n)) → (∀ s, P (VStr s)) →
  (∀ l, Forall P l → P (VArr l)) → (∀ m, Forall (λ kv, P kv.2) m → P (VMap m)) → ∀ v, P v.
Proof.
  intros H0' H1 H2 H3 H4 H5. fix IH 1. intros [| b | n | s | l | m].
  - apply H0'.
  - apply H1.
  - apply H2.
  - apply H3.
  - apply H4. induction l as [|x l IHl]; constructor; auto.
  - apply H5. induction m as [|[k x] m IHm]; constructor; auto.
Qed.

Definition spaced (s : string) : list rune := runes s ++ [Rune 32 " "].

Lemma runes_gather v : runes (gatherStrings v) = concat (spaced <$> leaves v).
Proof.
  assert (∀ s t, runes (s +:+ String " " t) = spaced s ++ runes t) as Hsp.
  { intros s t. rewrite runes_app_ascii by (vm_compute; reflexivity). unfold spaced. by rewrite <- app_assoc. }
  assert (∀ v t, runes (gatherStrings v +:+ t) = concat (spaced <$> leaves v) ++ runes t) as Hg.
  { clear v. intros v. induction v as [|b|n|s|l IH|m IH] using value_ind'; intros t; try done.
    - simpl. rewrite append_assoc, append_cons, append_nil, Hsp. by rewrite app_nil_r.
    - cbn [gatherStrings leaves]. induction IH as [|x l Hx Hl IHl]; [done|].
      cbn [fold_right fmap list_fmap concat]. rewrite append_assoc, Hx, IHl.
      by rewrite fmap_app, concat_app, app_assoc.
    - cbn [gatherStrings leaves]. induction IH as [|x l Hx Hl IHl]; [done|].
      cbn [fold_right fmap list_fmap concat]. rewrite append_assoc, Hx, IHl.
      by rewrite fmap_app, concat_app, app_assoc. }
  rewrite <- (append_nil_r (gatherStrings v)), Hg. apply app_nil_r.
Qed.

Lemma tokenize_gather v : tokenize (gatherStrings v) = concat (tokenize <$> leaves v).
Proof.
  rewrite tokenize_vals, runes_gather. induction (leaves v) as [|s l IH]; [done|].
  cbn [fmap list_fmap concat]. rewrite fmap_app. unfold spaced at 1. rewrite fmap_app, <- app_assoc.
  simpl (_ <$> [_]). cbn [app]. rewrite tokens_sep by (by apply space_not_letter). by rewrite IH, tokenize_vals.
Qed.

(** Two documents that differ in the order of the entries of their maps. *)
Inductive same : value → value → Prop :=
| same_refl v : same v v
| same_arr l l' : Forall2 same l l' → same (VArr l) (VArr l')
| same_map m m1 m' :
    m ≡ₚ m1 → Forall2 (λ a b, a.1 = b.1 ∧ same a.2 b.2) m1 m' → same (VMap m) (VMap m').

Lemma same_leaves v v' : same v v' → leaves v ≡ₚ leaves v'.
Proof.
  revert v v'. fix IH 3. intros v v' [w|l l' Hl|m m1 m' Hp Hm]; [done| |]; cbn [leaves].
  - induction Hl as [|x y l l' Hxy _ IHl]; [done|]. cbn [fmap list_fmap concat].
    apply Permutation_app; [by apply IH|done].
  - transitivity (concat ((λ kv, leaves kv.2) <$> m1)).
    { clear -Hp. induction Hp as [|x l1 l2 _ IHp|x y l|l1 l2 l3 _ IH1 _ IH2]; simpl; [done| | |by etrans].
      - by apply Permutation_app_head.
      - rewrite !app_assoc. apply Permutation_app_tail, Permutation_app_comm. }
    clear Hp. induction Hm as [|x y l l' [_ Hxy] _ IHl]; [done|]. cbn [fmap list_fmap concat].
    apply Permutation_app; [by apply IH|done].
Qed.

Lemma countStopwords_spec words :
  countStopwords words =
    (Z.of_nat (length (filter (.∈ frStopwords) words)), Z.of_nat (length (filter (.∈ enStopwords) words))).
Proof.
  unfold countStopwords.
  assert (∀ fr en, fold_left (λ '(fr, en) w,
      (if contains frStopwords w then fr + 1 else fr, if contains enStopwords w then en + 1 else en)) words (fr, en) =
    (fr + Z.of_nat (length (filter (.∈ frStopwords) words)), en + Z.of_nat (length (filter (.∈ enStopwords) words))))
    as Hgen; [|by rewrite Hgen].
  induction words as [|w words IH]; intros fr en; cbn [fold_left].
  - simpl. by rewrite !Z.add_0_r.
  - rewrite IH, !filter_cons. unfold contains.
    do 2 (case_bool_decide; [rewrite decide_True by done|rewrite decide_False by done]);
      f_equal; cbn [length]; lia.
Qed.

Lemma countStopwords_perm w w' : w ≡ₚ w' → countStopwords w = countStopwords w'.
Proof.
  intros Hp. rewrite !countStopwords_spec.
  by rewrite (filter_Permutation (.∈ frStopwords) w w' Hp), (filter_Permutation (.∈ enStopwords) w w' Hp).
Qed.

Lemma IsCorrectLanguage_words s s' locale :
  s ≠ "" → s' ≠ "" → tokenize s ≡ₚ tokenize s' → IsCorrectLanguage s locale = IsCorrectLanguage s' locale.
Proof.
  intros Hs Hs' Hp. unfold IsCorrectLanguage.
  rewrite (proj2 (String.eqb_neq _ _) Hs), (proj2 (String.eqb_neq _ _) Hs').
  by rewrite (Permutation_length Hp), (countStopwords_perm _ _ Hp).
Qed.

Definition corpus_verdict (v : value) (locale : string) : bool :=
  let corpus := trim_space (gatherStrings v) in
  if String.eqb corpus "" then true else IsCorrectLanguage corpus locale.

(** C39: the verdict on a JSON document is a function of the document: Go visits
    the entries of a map in an order that changes from run to run, and the
    strings are collected in that order, yet whatever the order the verdict is
    the same. *)
Theorem verdict_ignores_map_order (text locale : string) (v v' : value) :
  looksLikeJSON (trim_space text) = true → unmarshal_any (trim_space text) = Some v → same v v' →
  ValidateText text locale = corpus_verdict v' locale.
Proof.
  intros Hj Hu Hsame%same_leaves. unfold ValidateText. rewrite Hj. unfold collectJSONStrings. rewrite Hu.
  destruct (String.eqb_spec (trim_space text) "") as [He|_]; [by rewrite He in Hj|].
  fold (corpus_verdict v locale). unfold corpus_verdict.
  assert (trim_space (gatherStrings v) = "" ↔ trim_space (gatherStrings v') = "") as Hempty.
  { rewrite !trim_space_empty, !runes_gather. unfold spaces. by rewrite Hsame. }
  destruct (String.eqb_spec (trim_space (gatherStrings v)) "") as [He|Hne],
    (String.eqb_spec (trim_space (gatherStrings v')) "") as [He'|Hne']; try tauto.
  apply IsCorrectLanguage_words; [done..|]. rewrite !tokenize_trim, !tokenize_gather. by rewrite Hsame.
Qed.

End verdict.

(** * Translation *)

Section translation.
Context {St : Type} `{RawCaller St} `{FloatTextLaws}.

(** Same structure, keys and order; strings may differ, everything else is
    unchanged. *)
Inductive shape : value → value → Prop :=
| shape_str s s' : shape (VStr s) (VStr s')
| shape_nil : shape VNil VNil
| shape_bool b : shape (VBool b) (VBool b)
| shape_num n : shape (VNum n) (VNum n)
| shape_arr l l' : Forall2 shape l l' → shape (VArr l) (VArr l')
| shape_map m m' : Forall2 (λ a b, a.1 = b.1 ∧ shape a.2 b.2) m m' → shape (VMap m) (VMap m').

Lemma walkTranslate_shape (st : St) v locale : shape v (walkTranslate st v locale).1.
Proof.
  revert st. induction v as [|b|n|s|l IH|m IH] using value_ind'; intros st; try constructor; cbn [walkTranslate].
  - destruct translatePlain as [[t [e|]] st']; constructor.
  - match goal with |- context [?f st l] => set (go := f) end.
    assert (∀ st, Forall2 shape l (go st l).1) as Hgo.
    { clear st. induction IH as [|x l Hx Hl IHl]; intros st; simpl; [constructor|].
      specialize (Hx st). destruct (walkTranslate st x locale) as [x' st1]. simpl in Hx.
      specialize (IHl st1). fold go. destruct (go st1 l) as [l' st2]. by constructor. }
    specialize (Hgo st). destruct (go st l) as [l' st']. by constructor.
  - match goal with |- context [?f st m] => set (go := f) end.
    assert (∀ st, Forall2 (λ a b, a.1 = b.1 ∧ shape a.2 b.2) m (go st m).1) as Hgo.
    { clear st. induction IH as [|[k x] m Hx Hm IHm]; intros st; simpl; [constructor|].
      specialize (Hx st). simpl in Hx. destruct (walkTranslate st x locale) as [x' st1]. simpl in Hx.
      specialize (IHm st1). fold go. destruct (go st1 m) as [m' st2]. by constructor. }
    specialize (Hgo st). destruct (go st m) as [m' st']. by constructor.
Qed.

(** The number literals of a decoded document are JSON numbers. *)
Fixpoint numbers_ok (v : value) : bool :=
  match v with
  | VNum lit => bool_decide (lex_number lit = Some (lit, ""))
  | VArr l => forallb numbers_ok l
  | VMap m => forallb (λ kv, numbers_ok kv.2) m
  | _ => true
  end.

Lemma shape_numbers v v' : shape v v' → numbers_ok v = true → numbers_ok v' = true.
Proof.
  revert v v'. fix IH 3. intros v v' [s s'| | | |l l' Hl|m m' Hm]; try done; cbn [numbers_ok].
  - induction Hl as [|x y l l' Hxy _ IHl]; [done|]. cbn [forallb]. rewrite !andb_true_iff.
    intros [Hx Hr]. split; [exact (IH _ _ Hxy Hx)|exact (IHl Hr)].
  - induction Hm as [|x y l l' [_ Hxy] _ IHl]; [done|]. cbn [forallb]. rewrite !andb_true_iff.
    intros [Hx Hr]. split; [exact (IH _ _ Hxy Hx)|exact (IHl Hr)].
Qed.

Lemma keep_last_sub {V} (l : list (string * V)) kv : kv ∈ keep_last l → kv ∈ l.
Proof.
  induction l as [|x l IH]; [done|]. simpl. destruct (contains _ _); rewrite ?elem_of_cons; naive_solver.
Qed.

Lemma of_json_numbers v : json_wf v = true → numbers_ok (of_json v) = true.
Proof.
  induction v as [|b|lit|s|l IH|l IH] using json_ind'; try done; cbn [json_wf of_json numbers_ok].
  - rewrite !forallb_forall. intros Hl x Hx%list_elem_of_In. apply list_elem_of_fmap in Hx as (y & -> & Hy).
    rewrite Forall_forall in IH. apply IH; [done|]. by apply Hl, list_elem_of_In.
  - rewrite !forallb_forall. intros Hl x Hx%list_elem_of_In. apply keep_last_sub in Hx.
    apply list_elem_of_fmap in Hx as (y & -> & Hy). simpl.
    rewrite Forall_forall in IH. apply IH; [done|]. by apply Hl, list_elem_of_In.
Qed.

Lemma to_json_wf v : numbers_ok v = true → json_wf (to_json v) = true.
Proof.
  induction v as [|b|lit|s|l IH|m IH] using value_ind'; try done; cbn [json_wf to_json numbers_ok].
  - rewrite !bool_decide_eq_true. apply float_text_number.
  - rewrite !forallb_forall. intros Hl x Hx%list_elem_of_In. apply list_elem_of_fmap in Hx as (y & -> & Hy).
    rewrite Forall_forall in IH. apply IH; [done|]. by apply Hl, list_elem_of_In.
  - rewrite !forallb_forall. intros Hl x Hx%list_elem_of_In. rewrite merge_sort_Permutation in Hx.
    apply list_elem_of_fmap in Hx as (y & -> & Hy). simpl.
    rewrite Forall_forall in IH. apply IH; [done|]. by apply Hl, list_elem_of_In.
Qed.

Lemma unmarshal_numbers text v : unmarshal_any text = Some v → numbers_ok v = true.
Proof.
  unfold unmarshal_any. destruct json_parse as [x|] eqn:Hp; [|done]. destruct (overflows x); [done|].
  intros [= <-]. by eapply of_json_numbers, json_parse_wf.
Qed.

(** Translating value by value gives a document of the same structure. *)
Lemma translateJSONValues_spec (st : St) raw locale out st' :
  translateJSONValues st raw locale = ((out, None), st') →
  ∃ v v', unmarshal_any raw = Some v ∧ shape v v' ∧ json_parse out = Some (canon (to_json v')).
Proof.
  unfold translateJSONValues. destruct (unmarshal_any raw) as [v|] eqn:Hu; [|done].
  pose proof (walkTranslate_shape st v locale) as Hs. destruct (walkTranslate st v locale) as [v' st1].
  simpl in Hs. intros [= <- _]. exists v, v'. split_and!; [done..|].
  apply json_roundtrip, to_json_wf. eapply shape_numbers; [done|]. by eapply unmarshal_numbers.
Qed.

(** A JSON document is translated into a JSON document: whenever the
    translator reports no error its output parses, either the model's own JSON
    answer (or the part of it between the outermost delimiters) or, when the
    model broke the structure, the original document with the same keys, the
    same order and the same values except for its strings. *)
Theorem json_translation_is_json (st : St) (text locale out : string) (st' : St) :
  looksLikeJSON (trim_space text) = true → Translate st text locale = ((out, None), st') →
  json_valid out = true ∧
  ((∃ answer st1, Call st (BuildTranslationPrompt (trim_space text) locale) = (Ok answer, st1) ∧
      (out = trim_space answer ∨ out = extractJSONFragment (trim_space answer))) ∨
   ∃ v v', unmarshal_any (trim_space text) = Some v ∧ shape v v' ∧ json_parse out = Some (canon (to_json v'))).
Proof.
  intros Hj. unfold Translate. rewrite Hj.
  destruct (String.eqb_spec (trim_space text) "") as [He|_]; [by rewrite He in Hj|].
  unfold translateJSON. destruct (Call st _) as [[answer|e] st1] eqn:Hc; [|done].
  destruct String.eqb; [done|]. destruct (json_valid (trim_space answer)) eqn:Hv.
  { intros [= <- <-]. split; [done|]. left. eauto. }
  destruct (json_valid (extractJSONFragment _)) eqn:Hx.
  { intros [= <- <-]. split; [done|]. left. eauto. }
  intros (v & v' & Hu & Hs & Hp)%translateJSONValues_spec. split; [|right; eauto].
  unfold json_valid. rewrite Hp. by apply bool_decide_eq_true.
Qed.

End translation.

(** * The guard *)

Section guarantee.
Context {St : Type} `{RawCaller St} `{FloatText} `{UnicodeLib}.

Definition target (input : PromptInput) : string := if String.eqb (Locale input) "" then "fr" else Locale input.

Lemma retry_Some (st : St) input text st' :
  retry st input = (Some text, st') → text ≠ "" ∧ ValidateText text (Locale input) = true.
Proof.
  unfold retry. destruct Call as [[a|e] st1]; [|done]. destruct (_ && _) eqn:Hc; [|done].
  intros [= <- <-]. apply andb_true_iff in Hc as [Hne Hv]. split; [|done].
  by destruct (String.eqb_spec (trim_space a) "").
Qed.

Lemma fallback_Some (st : St) raw input text st' :
  fallback st raw input = (Some text, st') → text ≠ "" ∧ ValidateText text (Locale input) = true.
Proof.
  unfold fallback. destruct Translate as [[a [e|]] st1]; [done|]. destruct (_ && _) eqn:Hc; [|done].
  intros [= <- <-]. apply andb_true_iff in Hc as [Hne Hv]. split; [|done].
  by destruct (String.eqb_spec (trim_space a) "").
Qed.

(** The outcomes of [Generate]. *)
Lemma Generate_Ok (cfg : AIConfig) (st : St) (input : PromptInput) (r : AIResponse)
    (evs : list event) (st' : St) :
  Generate cfg st input = (Ok r, evs, st') →
  let first := Call st (BuildPrompt {| Prompt := Prompt input; Locale := target input; Module_ := Module_ input |}) in
  Language r = target input ∧ Text r ≠ "" ∧
  (RetryCount r = 0 ∨ RetryCount r = 1 ∧ 0 < MaxRetries cfg) ∧
  (StrictLanguageCheck cfg = false → Valid r = true ∧ evs = [] ∧ st' = first.2) ∧
  (StrictLanguageCheck cfg = true →
     Valid r = ValidateText (Text r) (target input) ∧
     (Valid r = false →
        (∃ answer, first.1 = Ok answer ∧ Text r = trim_space answer ∧ Raw r = Text r) ∧
        ∃ ev, last evs = Some ev ∧ ev_msg ev = exhausted)).
Proof.
  unfold Generate.
  assert ((if String.eqb (Locale input) ""
           then {| Prompt := Prompt input; Locale := "fr"; Module_ := Module_ input |} else input) =
          {| Prompt := Prompt input; Locale := target input; Module_ := Module_ input |}) as ->.
  { unfold target. destruct String.eqb; [done|]. by destruct input. }
  set (inp := {| Prompt := Prompt input; Locale := target input; Module_ := Module_ input |}).
  destruct (Call st (BuildPrompt inp)) as [[answer|e] st1] eqn:Hc; [|done].
  destruct (String.eqb_spec (trim_space answer) "") as [|Hne]; [done|].
  destruct (StrictLanguageCheck cfg) eqn:Hstrict; cbn [negb orb].
  2: { intros [= <- <- <-]. simpl. split_and!; try done. by left. }
  destruct (ValidateText (trim_space answer) (Locale inp)) eqn:Hv.
  { intros [= <- <- <-]. simpl. split_and!; try done. by left. }
  set (attempt := if 0 <? MaxRetries cfg then _ else _).
  assert (∃ o st2 n es, attempt = (o, st2, n, es) ∧ (n = 0 ∨ n = 1 ∧ 0 < MaxRetries cfg) ∧
    (∀ text, o = Some text → text ≠ "" ∧ ValidateText text (Locale inp) = true)) as
    (o & st2 & n & es & -> & Hn & Ho).
  { unfold attempt. destruct (Z.ltb_spec 0 (MaxRetries cfg)); [|eexists _, _, _, _; split_and!; [done|by left|done]].
    destruct (retry st1 inp) as [o st2] eqn:Hr. eexists _, _, _, _. split_and!; [done|by right|].
    intros text ->. by eapply retry_Some. }
  destruct o as [text|].
  { intros [= <- <- <-]. destruct (Ho text eq_refl) as [Ht1 Ht2]. simpl. split_and!; try done. }
  destruct (if EnableTranslation cfg then _ else _) as [[text|] st3] eqn:Hf.
  - destruct (EnableTranslation cfg); [|done]. apply fallback_Some in Hf as [Ht1 Ht2].
    intros [= <- <- <-]. simpl. split_and!; try done.
  - intros [= <- <- <-]. simpl. split_and!; try done. intros _. split; [exact (eq_sym Hv)|]. intros _.
    split; [eauto|]. eexists. rewrite last_snoc. done.
Qed.

(** C30: what the guard hands out as valid is valid: with the strict check on, a
    response marked valid is not empty and passes the language check for the
    locale asked for ("fr" when none was given), whether it is the first answer,
    the retry or the translation; a response marked invalid is the first answer,
    failed the check, and was reported as exhausted; without the check nothing
    is called twice. At most one retry is counted, and only if retries are
    configured. *)
Theorem guard_marks_only_checked_text (cfg : AIConfig) (st : St) (input : PromptInput) (r : AIResponse)
    (evs : list event) (st' : St) :
  Generate cfg st input = (Ok r, evs, st') →
  let first := Call st (BuildPrompt {| Prompt := Prompt input; Locale := target input; Module_ := Module_ input |}) in
  Language r = target input ∧ Text r ≠ "" ∧
  (RetryCount r = 0 ∨ RetryCount r = 1 ∧ 0 < MaxRetries cfg) ∧
  (StrictLanguageCheck cfg = false → Valid r = true ∧ evs = [] ∧ st' = first.2) ∧
  (StrictLanguageCheck cfg = true →
     Valid r = ValidateText (Text r) (target input) ∧
     (Valid r = false →
        (∃ answer, first.1 = Ok answer ∧ Text r = trim_space answer ∧ Raw r = Text r) ∧
        ∃ ev, last evs = Some ev ∧ ev_msg ev = exhausted)).
Proof. apply Generate_Ok. Qed.

End guarantee.

(** * The cost of a response *)

(** A model whose calls are counted. *)
Class Metered (St : Type) `{RawCaller St} := {
  calls : St → nat;
  calls_Call st prompt : calls (Call st prompt).2 = S (calls st);
}.

Section cost.
Context {St : Type} `{Metered St} `{FloatText} `{UnicodeLib}.

Lemma translatePlain_calls (st : St) text locale : calls (translatePlain st text locale).2 = S (calls st).
Proof.
  unfold translatePlain. pose proof (calls_Call st (BuildTranslationPrompt text locale)) as Hc.
  destruct Call as [[a|e] st1]; simpl in *; [|done]. by destruct String.eqb.
Qed.

Lemma walkTranslate_calls (st : St) v locale :
  calls (walkTranslate st v locale).2 = (calls st + length (leaves v))%nat.
Proof.
  revert st. induction v as [|b|n|s|l IH|m IH] using value_ind'; intros st; cbn [walkTranslate leaves length];
    try (simpl; lia).
  - pose proof (translatePlain_calls st s locale) as Hc.
    destruct translatePlain as [[t [e|]] st']; simpl in *; lia.
  - match goal with |- context [?f st l] => set (go := f) end.
    assert (∀ st, calls (go st l).2 = (calls st + length (concat (leaves <$> l)))%nat) as Hgo.
    { clear st. induction IH as [|x l Hx Hl IHl]; intros st; [simpl; lia|]. cbn [go]. fold go.
      specialize (Hx st). destruct (walkTranslate st x locale) as [x' st1]. simpl in Hx.
      specialize (IHl st1). destruct (go st1 l) as [l' st2]. cbn [snd] in *. rewrite fmap_cons; cbn [concat]; rewrite length_app. lia. }
    specialize (Hgo st). by destruct (go st l) as [l' st'].
  - match goal with |- context [?f st m] => set (go := f) end.
    assert (∀ st, calls (go st m).2 = (calls st + length (concat ((λ kv, leaves kv.2) <$> m)))%nat) as Hgo.
    { clear st. induction IH as [|[k x] m Hx Hm IHm]; intros st; [simpl; lia|]. cbn [go]. fold go.
      specialize (Hx st). simpl in Hx. destruct (walkTranslate st x locale) as [x' st1]. simpl in Hx.
      specialize (IHm st1). destruct (go st1 m) as [m' st2]. cbn [snd] in *. rewrite fmap_cons; cbn [concat snd]; rewrite length_app. lia. }
    specialize (Hgo st). by destruct (go st m) as [m' st'].
Qed.

(** The number of strings in a text that is a JSON document. *)
Definition strings_in (text : string) : nat :=
  match unmarshal_any text with Some v => length (leaves v) | None => 0 end.

Lemma Translate_calls (st : St) text locale :
  trim_space text = text →
  (calls (Translate st text locale).2 ≤ calls st + 1 + strings_in text)%nat.
Proof.
  intros Htrim. unfold Translate. rewrite Htrim. destruct String.eqb; [simpl; lia|].
  destruct looksLikeJSON; [|rewrite translatePlain_calls; lia].
  unfold translateJSON. pose proof (calls_Call st (BuildTranslationPrompt text locale)) as Hc.
  destruct Call as [[a|e] st1]; simpl in Hc; [|simpl; lia].
  destruct String.eqb; [simpl; lia|]. destruct json_valid; [simpl; lia|]. destruct json_valid; [simpl; lia|].
  unfold translateJSONValues, strings_in. destruct unmarshal_any as [v|]; [|simpl; lia].
  pose proof (walkTranslate_calls st1 v locale) as Hw. destruct walkTranslate as [v' st2]. simpl in *. lia.
Qed.

Lemma retry_calls (st : St) input : calls (retry st input).2 = S (calls st).
Proof.
  unfold retry. pose proof (calls_Call st (BuildRetryPrompt input)) as Hc. by destruct Call as [[a|e] st1].
Qed.

Lemma fallback_calls (st : St) raw input :
  trim_space raw = raw → (calls (fallback st raw input).2 ≤ calls st + 1 + strings_in raw)%nat.
Proof.
  intros Hr. unfold fallback. pose proof (Translate_calls st raw (Locale input) Hr) as Hc.
  by destruct Translate as [[t [e|]] st1].
Qed.

(** The guard is bounded in cost: one call of the model when the first answer
    is accepted or the check is off, and otherwise at most three, plus one per
    string of the first answer in the single case where that answer is a JSON
    document whose translation the model broke. *)
Theorem guard_calls_bounded (cfg : AIConfig) (st : St) (input : PromptInput) :
  let answer := (Call st (BuildPrompt {| Prompt := Prompt input; Locale := target input;
                                         Module_ := Module_ input |})).1 in
  let st' := (Generate cfg st input).2 in
  match answer with
  | Err _ => calls st' = S (calls st)
  | Ok a =>
      if negb (StrictLanguageCheck cfg) || ValidateText (trim_space a) (target input)
      then calls st' = S (calls st)
      else (calls st' ≤ calls st + 3 + strings_in (trim_space a))%nat
  end.
Proof.
  unfold Generate.
  assert ((if String.eqb (Locale input) ""
           then {| Prompt := Prompt input; Locale := "fr"; Module_ := Module_ input |} else input) =
          {| Prompt := Prompt input; Locale := target input; Module_ := Module_ input |}) as ->.
  { unfold target. destruct String.eqb; [done|]. by destruct input. }
  set (inp := {| Prompt := Prompt input; Locale := target input; Module_ := Module_ input |}).
  pose proof (calls_Call st (BuildPrompt inp)) as Hc.
  destruct (Call st (BuildPrompt inp)) as [[answer|e] st1]; simpl in Hc |- *; [|done].
  change (target input) with (Locale inp).
  destruct (String.eqb (trim_space answer) "").
  { destruct (negb _ || _); simpl; lia. }
  destruct (negb _ || _); [done|].
  set (attempt := if 0 <? MaxRetries cfg then _ else _).
  assert (∃ o st2 n es, attempt = (o, st2, n, es) ∧ (calls st2 ≤ calls st + 2)%nat) as
    (o & st2 & n & es & -> & Hst2).
  { unfold attempt. destruct (0 <? MaxRetries cfg); [|eexists _, _, _, _; split; [done|lia]].
    pose proof (retry_calls st1 inp) as Hr. destruct (retry st1 inp) as [o st2].
    eexists _, _, _, _. split; [done|]. simpl in Hr. lia. }
  destruct o as [text|]; [simpl; lia|].
  pose proof (fallback_calls st2 (trim_space answer) inp (trim_space_idemp answer)) as Hf.
  destruct (EnableTranslation cfg).
  - destruct (fallback st2 (trim_space answer) inp) as [[text|] st3]; simpl in *; lia.
  - simpl. lia.
Qed.

End cost.

(** * Witnesses *)

(** A model that answers from a script, and counts. *)
Record Script := { script : list (result string string); used : nat }.

Module Demo.
#[global] Instance unicode : UnicodeLib := {| uni_letter _ := false; uni_lower v := v |}.
#[global] Instance unicode_laws : UnicodeLaws.
Proof. constructor; [done|]. by intros v _ _. Qed.
#[global] Instance floats : FloatText := {| float_text lit := lit |}.
#[global] Instance floats_laws : FloatTextLaws.
Proof. by constructor. Qed.
#[global] Instance scripted : RawCaller Script :=
  {| Call s _ := match script s with
                 | [] => (Err "down", {| script := []; used := S (used s) |})
                 | a :: l => (a, {| script := l; used := S (used s) |})
                 end |}.
#[global, refine] Instance scripted_meter : Metered Script := {| calls := used |}.
Proof. intros st prompt. simpl. by destruct (script st). Defined.

Definition english : string := "The plan is on track and the team will do it in time".
Definition french : string := "Le plan est dans les temps et nous sommes dans les délais".
Definition ask : PromptInput := {| Prompt := "Explique."; Locale := ""; Module_ := Some "insight" |}.
Definition doc : string := json_encode (JObj [("a", JStr "the cat is on the mat"); ("b", JStr "and it sat")]).
End Demo.
Import Demo.

Example validate_ex :
  ValidateText english "fr" = false ∧ ValidateText english "en" = true ∧ ValidateText french "fr" = true ∧
  ValidateText doc "fr" = false ∧ ValidateText doc "en" = true ∧ ValidateText "Bonjour" "en" = true.
Proof. vm_compute. done. Qed.

Lemma verdict_ignores_map_order_witness :
  ValidateText doc "en" = corpus_verdict (VMap [("b", VStr "and it sat"); ("a", VStr "the cat is on the mat")]) "en".
Proof.
  apply (verdict_ignores_map_order doc "en"
           (VMap [("a", VStr "the cat is on the mat"); ("b", VStr "and it sat")])).
  - vm_compute. reflexivity.
  - vm_compute. reflexivity.
  - eapply same_map; [apply Permutation_swap|]. repeat constructor; simpl; try reflexivity; apply same_refl.
Defined.

(** The model breaks the structure once, then translates string by string. *)
Lemma json_translation_is_json_witness :
  let st := {| script := [Ok "Voici : le chat"; Ok "le chat"; Ok "et il"]; used := 0 |} in
  (Translate st doc "fr").1.2 = None ∧ json_valid (Translate st doc "fr").1.1 = true.
Proof.
  intros st. assert ((Translate st doc "fr").1.2 = None) as Hn by (vm_compute; reflexivity). split; [exact Hn|].
  apply (json_translation_is_json st doc "fr" (Translate st doc "fr").1.1 (Translate st doc "fr").2).
  - vm_compute. reflexivity.
  - destruct (Translate st doc "fr") as [[out e] st']. simpl in Hn. rewrite Hn. reflexivity.
Defined.

Lemma guard_marks_only_checked_text_witness :
  let st := {| script := [Ok english; Ok french]; used := 0 |} in
  ∃ r evs st', Generate DefaultAIConfig st ask = (Ok r, evs, st') ∧ Text r = french ∧
    Valid r = ValidateText (Text r) "fr".
Proof.
  intros st. eexists _, _, _. split; [vm_compute; reflexivity|]. split; [vm_compute; reflexivity|].
  eapply (guard_marks_only_checked_text DefaultAIConfig st ask).
  - vm_compute. reflexivity.
  - reflexivity.
Defined.

Lemma guard_calls_bounded_witness :
  (calls (Generate DefaultAIConfig {| script := [Ok english; Ok english; Ok french]; used := 0 |} ask).2 ≤ 3)%nat.
Proof.
  pose proof (guard_calls_bounded DefaultAIConfig {| script := [Ok english; Ok english; Ok french]; used := 0 |} ask) as Hb.
  vm_compute in Hb |- *. exact Hb.
Defined.

End ailang.
