(* ===== verification/AiGateway.v ===== *)
(** The clients of language models (package [aigateway]): the hosted providers
    (src/aigateway/client.go), Ollama (ollama_client.go), the decorator that
    enforces the language (safe_client.go), the factory (factory.go), locale and
    module in contexts (context.go) and JSON extraction (json.go). A server is
    an interface with a state of its own. *)

From S2P Require Import Prelude GoText Utf8 GoJson JsonRoundtrip GoFloat Numbers CtxUtil Http SocrateToken Ailang.

Module aigateway.
Import ailang socrate numbers.

(** * context.go *)

(** [aigateway/context.go: WithLocale] *)
Definition WithLocale (ctx : ctxutil.context) (locale : string) : ctxutil.context :=
  ctxutil.WithValue ctx ctxutil.localeCtxKey (ctxutil.VString locale).

(** [aigateway/context.go: LocaleFromContext] *)
Definition LocaleFromContext (ctx : ctxutil.context) : string :=
  match ctxutil.Value ctx ctxutil.localeCtxKey with
  | Some (ctxutil.VString v) => if negb (String.eqb v "") then v else "fr"
  | _ => "fr"
  end.

(** [aigateway/context.go: WithModule] *)
Definition WithModule (ctx : ctxutil.context) (module : string) : ctxutil.context :=
  ctxutil.WithValue ctx ctxutil.moduleCtxKey (ctxutil.VString module).

(** [aigateway/context.go: moduleFromContext] *)
Definition moduleFromContext (ctx : ctxutil.context) : string :=
  match ctxutil.Value ctx ctxutil.moduleCtxKey with
  | Some (ctxutil.VString v) => if negb (String.eqb v "") then v else "unknown"
  | _ => "unknown"
  end.

(** * json.go *)

(** [aigateway/json.go: ExtractJSON] *)
Definition ExtractJSON (response : string) : option string :=
  match index_byte "{" response, last_index_byte "}" response with
  | Some start, Some end_ => if (end_ <=? start)%nat then None else Some (slice start (end_ + 1) response)
  | _, _ => None
  end.

(** [aigateway/json.go: ExtractJSONInto]
    [decode] is [json.Unmarshal] into the destination. *)
Definition ExtractJSONInto {A} (response : string) (decode : string → option A) : result string A :=
  match ExtractJSON response with
  | None => Err "aigateway: no valid JSON object found in AI response"
  | Some raw => match decode raw with
                | Some x => Ok x
                | None => Err "aigateway: unmarshal AI JSON"
                end
  end.

(** * client.go *)

(** [aigateway/client.go: Config] *)
Record Config := {
  Provider : string;
  APIKey : string;
  Model : string;
  AllowedModels : list string;
  MaxTokens : Z;
  TimeoutSec : Z;
}.

(** [aigateway/client.go: Client] *)
Record Client := {
  provider : string;
  apiKey : string;
  model : string;
  allowedModels : list string;
  maxTokens : Z;
  httpTimeout : Duration;
  openAIBaseURL : string;
  claudeBaseURL : string;
}.

(** [aigateway/client.go: New] *)
Definition New (cfg : Config) : Client :=
  let timeout := seconds (TimeoutSec cfg) in
  {| provider := Provider cfg; apiKey := APIKey cfg; model := Model cfg; allowedModels := AllowedModels cfg;
     maxTokens := MaxTokens cfg; httpTimeout := if timeout =? 0 then 30 * Second else timeout;
     openAIBaseURL := "https://api.openai.com/v1/chat/completions";
     claudeBaseURL := "https://api.anthropic.com/v1/messages" |}.

(** [aigateway/client.go: Client.IsConfigured] *)
Definition IsConfigured (c : Client) : bool := negb (String.eqb (apiKey c) "").

(** [aigateway/client.go: Client.Provider]
    A nil client is [None]. *)
Definition client_Provider (c : option Client) : string := match c with None => "" | Some c => provider c end.

(** A POST of a JSON body. *)
Record post := { p_url : string; p_header : Header; p_body : string; p_timeout : Duration }.

(** A server: what it answers may depend on what it was sent before. *)
Class Server (St : Type) := { send : St → post → http_answer * St }.

(** [aigateway/client.go:154-154] maxAIResponseBytes *)
Definition maxAIResponseBytes : Z := 10485760.

(** The bytes of a body a reader limited to [n] yields. *)
Definition limited (n : Z) (body : string) : string := String.substring 0 (Z.to_nat n) body.

(** [json.NewDecoder(r).Decode(&v)] into a struct. *)
Definition decode_struct {A} (dec : list (string * json) → option A) (zero : A) (text : string) : option A :=
  match json_decode_first text with
  | Some (JObj l) => dec l
  | Some JNull => Some zero
  | _ => None
  end.

Definition decode_message (cur : string) (l : list (string * json)) : option string :=
  decode_field decode_string cur "content" l.
Definition decode_choice (cur : string) (l : list (string * json)) : option string :=
  decode_field (decode_object decode_message) cur "message" l.

Definition json_headers : Header := header_Set ∅ "Content-Type" "application/json".

Definition user_message (prompt : string) : json :=
  JArr [JObj [("content", JStr prompt); ("role", JStr "user")]].

Section clients.
Context {St : Type} `{Server St}.

(** [aigateway/client.go: Client.callOpenAI] *)
Definition callOpenAI (c : Client) (st : St) (prompt : string) (maxTokens : Z) : result string string * St :=
  let body := json_encode (JObj [("max_tokens", JNum (itoa maxTokens)); ("messages", user_message prompt);
                                 ("model", JStr "gpt-4"); ("temperature", JNum "0.7")]) in
  let req := {| p_url := openAIBaseURL c; p_header := header_Set json_headers "Authorization" ("Bearer " +:+ apiKey c);
                p_body := body; p_timeout := httpTimeout c |} in
  let '(a, st) := send st req in
  (match a with
   | TransportError => Err "openai request"
   | BodyError s => if negb (s =? 200) then Err ("OpenAI API HTTP " +:+ itoa s +:+ ": ") else Err "decode openai response"
   | Answer s b =>
       if negb (s =? 200) then Err ("OpenAI API HTTP " +:+ itoa s +:+ ": " +:+ limited maxAIResponseBytes b)
       else match decode_struct (λ l, decode_field (decode_slice (decode_object decode_choice) "") [] "choices" l) []
                    (limited maxAIResponseBytes b) with
            | None => Err "decode openai response"
            | Some [] => Err "no response from OpenAI"
            | Some (content :: _) => Ok content
            end
   end, st).

Definition decode_block (cur : string * string) (l : list (string * json)) : option (string * string) :=
  ty ← decode_field decode_string cur.1 "type" l;
  text ← decode_field decode_string cur.2 "text" l;
  Some (ty, text).

(** [aigateway/client.go: Client.callClaude] *)
Definition callClaude (c : Client) (st : St) (prompt : string) (maxTokens : Z) : result string string * St :=
  if bool_decide (allowedModels c ≠ []) && negb (contains (allowedModels c) (model c)) then
    (Err ("aigateway: model " +:+ model c +:+ " not in allowed list"), st)
  else
    let body := json_encode (JObj [("max_tokens", JNum (itoa maxTokens)); ("messages", user_message prompt);
                                   ("model", JStr (model c))]) in
    let req := {| p_url := claudeBaseURL c;
                  p_header := header_Set (header_Set json_headers "x-api-key" (apiKey c))
                                "anthropic-version" "2023-06-01";
                  p_body := body; p_timeout := httpTimeout c |} in
    let '(a, st) := send st req in
    (match a with
     | TransportError => Err "claude request"
     | BodyError s => if negb (s =? 200) then Err ("claude API HTTP " +:+ itoa s +:+ ": ") else Err "decode claude response"
     | Answer s b =>
         if negb (s =? 200) then Err ("claude API HTTP " +:+ itoa s +:+ ": " +:+ limited maxAIResponseBytes b)
         else match decode_struct (λ l, decode_field (decode_slice (decode_object decode_block) ("", "")) [] "content" l) []
                      (limited maxAIResponseBytes b) with
              | None => Err "decode claude response"
              | Some [] => Err "no response from Claude"
              | Some ((_, text) :: _) => Ok text
              end
     end, st).

(** [aigateway/client.go: Client.CallWithMaxTokens] *)
Definition CallWithMaxTokens (c : Client) (st : St) (prompt : string) (maxTokens : Z) : result string string * St :=
  if String.eqb (apiKey c) "" then (Err "aigateway: API key not configured", st)
  else if String.eqb (provider c) "openai" then callOpenAI c st prompt maxTokens
  else if String.eqb (provider c) "claude" then callClaude c st prompt maxTokens
  else (Err ("aigateway: unsupported provider " +:+ provider c), st).

(** [aigateway/client.go: Client.Call] *)
Definition client_Call (c : Client) (st : St) (prompt : string) : result string string * St :=
  CallWithMaxTokens c st prompt (maxTokens c).

End clients.

(** * ollama_client.go *)

(** [aigateway/ollama_client.go: OllamaClient] *)
Record OllamaClient := { o_baseURL : string; o_model : string; o_httpTimeout : Duration; o_apiGenerateURL : string }.

(** [strings.TrimRight(s, sep)] for a one-byte cutset. *)
Fixpoint trim_right (c : ascii) (s : string) : string :=
  match s with
  | EmptyString => EmptyString
  | String d s' =>
      let t := trim_right c s' in
      if Ascii.eqb d c && String.eqb t "" then EmptyString else String d t
  end.

(** [aigateway/ollama_client.go: NewOllamaClient] *)
Definition NewOllamaClient (baseURL model : string) (timeoutSec : Z) : OllamaClient :=
  let timeout := seconds timeoutSec in
  let base := trim_right "/" baseURL in
  {| o_baseURL := base; o_model := model; o_httpTimeout := if timeout =? 0 then 60 * Second else timeout;
     o_apiGenerateURL := base +:+ "/api/generate" |}.

(** [aigateway/ollama_client.go: ollamaResponse] *)
Record ollamaResponse := { or_Model : string; or_Response : string; or_Done : bool; or_Error : string }.

Definition decode_ollama (l : list (string * json)) : option ollamaResponse :=
  m ← decode_field decode_string "" "model" l;
  r ← decode_field decode_string "" "response" l;
  d ← decode_field decode_bool false "done" l;
  e ← decode_field decode_string "" "error" l;
  Some {| or_Model := m; or_Response := r; or_Done := d; or_Error := e |}.

(** [aigateway/ollama_client.go: OllamaClient.callWithOptions]
    A zero [numPredict] is omitted from the body. *)
Definition callWithOptions {St} `{Server St} (c : OllamaClient) (st : St) (prompt : string) (numPredict : Z)
  : result string string * St :=
  let body := json_encode (JObj ([("model", JStr (o_model c)); ("prompt", JStr prompt); ("stream", JBool false)] ++
                if numPredict =? 0 then [] else [("num_predict", JNum (itoa numPredict))])) in
  let '(a, st) := send st {| p_url := o_apiGenerateURL c; p_header := json_headers; p_body := body;
                             p_timeout := o_httpTimeout c |} in
  (match a with
   | TransportError => Err "aigateway/ollama: http"
   | BodyError s => if negb (s =? 200) then Err ("aigateway/ollama: HTTP " +:+ itoa s +:+ ": ")
                    else Err "aigateway/ollama: decode response"
   | Answer s b =>
       if negb (s =? 200) then Err ("aigateway/ollama: HTTP " +:+ itoa s +:+ ": " +:+ b)
       else match decode_struct decode_ollama {| or_Model := ""; or_Response := ""; or_Done := false; or_Error := "" |} b with
            | None => Err "aigateway/ollama: decode response"
            | Some r =>
                if negb (String.eqb (or_Error r) "") then Err ("aigateway/ollama: provider error: " +:+ or_Error r)
                else if negb (or_Done r) then Err "aigateway/ollama: incomplete response"
                else Ok (or_Response r)
            end
   end, st).

(** [aigateway/ollama_client.go: OllamaClient.IsConfigured] *)
Definition ollama_IsConfigured (c : option OllamaClient) : bool :=
  match c with None => false | Some c => negb (String.eqb (o_model c) "") && negb (String.eqb (o_baseURL c) "") end.

(** [aigateway/ollama_client.go: OllamaClient.Model] *)
Definition ollama_Model (c : option OllamaClient) : string := match c with None => "" | Some c => o_model c end.

(** [aigateway/ollama_client.go: OllamaClient.call] *)
Definition ollama_call {St} `{Server St} (c : OllamaClient) (st : St) (prompt : string) : result string string * St :=
  callWithOptions c st prompt 0.

(** [aigateway/ollama_client.go: OllamaClient.Call] *)
Definition ollama_Call {St} `{Server St} (c : OllamaClient) (st : St) (prompt : string) : result string string * St :=
  ollama_call c st prompt.

(** [aigateway/ollama_client.go: OllamaClient.CallWithMaxTokens] *)
Definition ollama_CallWithMaxTokens {St} `{Server St} (c : OllamaClient) (st : St) (prompt : string) (maxTokens : Z)
  : result string string * St := callWithOptions c st prompt maxTokens.

(** * caller.go, safe_client.go, factory.go *)

(** [aigateway/factory.go: GatewayConfig] *)
Record GatewayConfig := {
  g_Config : Config;
  g_OllamaBaseURL : string;
  g_Locale : string;
  g_MaxRetry : Z;
  g_EnableTranslation : bool;
  g_StrictLangCheck : bool;
}.

(** [aigateway/factory.go: DefaultGatewayConfig] *)
Definition DefaultGatewayConfig (base : Config) : GatewayConfig :=
  {| g_Config := base; g_OllamaBaseURL := ""; g_Locale := ""; g_MaxRetry := 1; g_EnableTranslation := true;
     g_StrictLangCheck := true |}.

(** The raw client the factory selects. *)
Inductive raw_client := RawOllama (c : OllamaClient) | RawClient (c : Client).

Definition raw_Call {St} `{Server St} (c : raw_client) (st : St) (prompt : string) : result string string * St :=
  match c with
  | RawOllama c => ollama_Call c st prompt
  | RawClient c => client_Call c st prompt
  end.

(** [aigateway/safe_client.go: SafeClient] *)
Record SafeClient := { inner : raw_client; guard_cfg : AIConfig }.

(** [aigateway/safe_client.go: NewSafeClient] *)
Definition NewSafeClient (inner : raw_client) (cfg : AIConfig) : SafeClient := {| inner := inner; guard_cfg := cfg |}.

(** [aigateway/factory.go: NewAIClient] *)
Definition NewAIClient (cfg : GatewayConfig) : SafeClient :=
  let c := g_Config cfg in
  let raw := if String.eqb (Provider c) "ollama"
             then RawOllama (NewOllamaClient (g_OllamaBaseURL cfg) (Model c) (TimeoutSec c))
             else RawClient (New c) in
  let maxRetry := if g_MaxRetry cfg <=? 0 then 1 else g_MaxRetry cfg in
  NewSafeClient raw {| MaxRetries := maxRetry; EnableTranslation := g_EnableTranslation cfg;
                       StrictLanguageCheck := g_StrictLangCheck cfg |}.

Section safe.
Context {St : Type} `{Server St} `{FloatText} `{UnicodeLib}.

(** [AIClient] (caller.go): a client together with the server it talks to is a model for the guard. *)
#[local] Instance raw_caller (c : raw_client) : RawCaller St := {| Call := raw_Call c |}.

(** [aigateway/safe_client.go: SafeClient.ResponseDetail] *)
Definition ResponseDetail (s : SafeClient) (ctx : ctxutil.context) (st : St) (prompt : string)
  : result gerr AIResponse * list event * St :=
  @Generate St (raw_caller (inner s)) _ _ (guard_cfg s) st
    {| Prompt := prompt; Locale := LocaleFromContext ctx; Module_ := Some (moduleFromContext ctx) |}.

(** [aigateway/safe_client.go: SafeClient.Call] *)
Definition SafeClient_Call (s : SafeClient) (ctx : ctxutil.context) (st : St) (prompt : string)
  : result gerr string * list event * St :=
  match ResponseDetail s ctx st prompt with
  | (Err e, evs, st) => (Err e, evs, st)
  | (Ok resp, evs, st) => (Ok (Text resp), evs, st)
  end.

End safe.

(** * What is sent to a provider *)

(** ** Requests *)

Section requests.
Context {St : Type} `{Server St}.

(** The body of a request, as the provider reads it. *)
Definition request_body (maxTokens : Z) (prompt model : string) (more : list (string * json)) : json :=
  JObj ([("max_tokens", JNum (itoa maxTokens));
         ("messages", JArr [JObj [("content", JStr (replace_invalid prompt)); ("role", JStr "user")]]);
         ("model", JStr (replace_invalid model))] ++ more).

(** C38: a prompt leaves the process only in one request, to the configured
    provider, Claude or OpenAI, and authenticated with the configured key, whose
    body is the JSON document with the prompt, bytes that are not UTF-8
    replaced, as its single user message and with the configured token limit.
    Claude is asked for the configured model, which is an allowed one when a
    list of allowed models is set. OpenAI is always asked for gpt-4: the
    configured model and the list are not looked at, contrary to their
    documentation. Nothing is sent, and an error returned, exactly in the other
    cases: there is no key, the provider is neither of the two, or it is Claude
    and its model is not allowed. *)
Theorem provider_request (c : Client) (st : St) (prompt : string) :
  in_int64 (maxTokens c) →
  let '(r, st') := client_Call c st prompt in
  (st' = st ∧ (∃ e, r = Err e) ∧
   (apiKey c = "" ∨ provider c ∉ ["claude"; "openai"] ∨
    provider c = "claude" ∧ allowedModels c ≠ [] ∧ model c ∉ allowedModels c)) ∨
  apiKey c ≠ "" ∧ ∃ req, st' = (send st req).2 ∧
    ((provider c = "claude" ∧ p_url req = claudeBaseURL c ∧
      (allowedModels c = [] ∨ model c ∈ allowedModels c) ∧
      p_header req !! "X-Api-Key" = Some [apiKey c] ∧
      json_parse (p_body req) = Some (request_body (maxTokens c) prompt (model c) [])) ∨
     (provider c = "openai" ∧ p_url req = openAIBaseURL c ∧
      p_header req !! "Authorization" = Some ["Bearer " +:+ apiKey c] ∧
      json_parse (p_body req) =
        Some (request_body (maxTokens c) prompt "gpt-4" [("temperature", JNum "0.7")]))).
Proof.
  intros Hmt%itoa_number. unfold client_Call, CallWithMaxTokens.
  destruct (String.eqb_spec (apiKey c) "") as [|Hkey]; [left; eauto|].
  destruct (String.eqb_spec (provider c) "openai") as [Ho|Hno].
  { unfold callOpenAI. set (req := {| p_url := _ |}). destruct (send st req) as [a st'] eqn:Hs. right.
    split; [done|]. exists req. rewrite Hs. split; [done|]. right. split_and!; [done|reflexivity| |].
    - simpl. unfold header_Set. change (canonical_key "Authorization") with "Authorization".
      by rewrite lookup_insert_eq.
    - cbn [req p_body]. rewrite json_roundtrip; [reflexivity|].
      cbn [json_wf forallb snd user_message]. rewrite (bool_decide_eq_true_2 _ Hmt). reflexivity. }
  destruct (String.eqb_spec (provider c) "claude") as [Hc|Hnc]; [|left; split_and!; [done|eauto|set_solver]].
  unfold callClaude. destruct (_ && _) eqn:Hallow.
  { apply andb_true_iff in Hallow as [Ha%bool_decide_eq_true Hm%negb_true_iff].
    left. split_and!; [done|eauto|]. right. right. split_and!; [done|done|]. rewrite <- contains_spec. congruence. }
  set (req := {| p_url := _ |}). destruct (send st req) as [a st'] eqn:Hs. right.
  split; [done|]. exists req. rewrite Hs. split; [done|]. left. split_and!; [done|reflexivity| | |].
  - apply andb_false_iff in Hallow as [Hn|Hn].
    + left. apply bool_decide_eq_false in Hn. by apply dec_stable.
    + right. apply negb_false_iff in Hn. by apply contains_spec.
  - simpl. unfold header_Set. change (canonical_key "x-api-key") with "X-Api-Key".
    change (canonical_key "anthropic-version") with "Anthropic-Version".
    rewrite lookup_insert_ne by done. by rewrite lookup_insert_eq.
  - cbn [req p_body]. rewrite json_roundtrip; [reflexivity|].
    cbn [json_wf forallb snd user_message]. by rewrite (bool_decide_eq_true_2 _ Hmt).
Qed.

End requests.

(** * The safe client *)

Section safety.
Context {St : Type} `{Server St} `{FloatText} `{UnicodeLib}.

Lemma LocaleFromContext_nonempty ctx : LocaleFromContext ctx ≠ "".
Proof.
  unfold LocaleFromContext. destruct ctxutil.Value as [[]|]; try done.
  by destruct (String.eqb_spec s "").
Qed.

(** A client built by the factory with the strict check returns either an
    error, or a text that is not empty and passes the language check for the
    locale of the context, or (after one retry and, if enabled, a translation
    have failed) the provider's own text, whose failure has been reported. *)
Theorem safe_call_outcomes (cfg : GatewayConfig) (ctx : ctxutil.context) (st : St) (prompt text : string)
    (evs : list event) (st' : St) :
  SafeClient_Call (NewAIClient cfg) ctx st prompt = (Ok text, evs, st') → g_StrictLangCheck cfg = true →
  text ≠ "" ∧
  (ValidateText text (LocaleFromContext ctx) = true ∨
   (∃ answer st1, raw_Call (inner (NewAIClient cfg)) st
       (BuildPrompt {| Prompt := prompt; Locale := LocaleFromContext ctx;
                       Module_ := Some (moduleFromContext ctx) |}) = (Ok answer, st1) ∧ text = trim_space answer) ∧
   ∃ ev, last evs = Some ev ∧ ev_msg ev = exhausted).
Proof.
  unfold SafeClient_Call. destruct ResponseDetail as [[[r|e] evs0] st0] eqn:Hr; [|done].
  intros [= <- <- <-] Hstrict. unfold ResponseDetail in Hr.
  apply (@Generate_Ok St (raw_caller (inner (NewAIClient cfg)))) in Hr as (_ & Hne & _ & _ & Hs).
  destruct (Hs Hstrict) as [Hv Hinv]. split; [done|].
  assert (target {| Prompt := prompt; Locale := LocaleFromContext ctx; Module_ := Some (moduleFromContext ctx) |}
          = LocaleFromContext ctx) as Ht.
  { unfold target. simpl. by rewrite (proj2 (String.eqb_neq _ _) (LocaleFromContext_nonempty ctx)). }
  rewrite Ht in *. destruct (Valid r) eqn:Hvalid; [left; done|right].
  destruct (Hinv eq_refl) as [(answer & Ha & Htext & _) Hev]. split; [|done].
  simpl in Ha. destruct (raw_Call _ st _) as [a st1] eqn:Hraw. simpl in Ha. subst a. eauto.
Qed.

End safety.

(** * Witnesses *)

(** A server that always answers the same and remembers what it was sent. *)
Record Echo := { reply : http_answer; received : list post }.

Module Demo.
Import ailang.Demo.
#[global] Instance echo : Server Echo :=
  {| send st req := (reply st, {| reply := reply st; received := received st ++ [req] |}) |}.

Definition config (provider : string) : Config :=
  {| Provider := provider; APIKey := "k"; Model := "m1"; AllowedModels := ["m1"]; MaxTokens := 100; TimeoutSec := 0 |}.
Definition gateway : GatewayConfig :=
  {| g_Config := config "claude"; g_OllamaBaseURL := ""; g_Locale := ""; g_MaxRetry := 0;
     g_EnableTranslation := true; g_StrictLangCheck := true |}.
Definition claude_says (text : string) : Echo :=
  {| reply := Answer 200 (json_encode (JObj [("content", JArr [JObj [("type", JStr "text"); ("text", JStr text)]])]));
     received := [] |}.
End Demo.
Import ailang.Demo aigateway.Demo.

Lemma provider_request_witness :
  let c := New (config "claude") in
  ∃ req, (client_Call c (claude_says "ok") "hello").2 = (send (claude_says "ok") req).2 ∧
    json_parse (p_body req) = Some (request_body 100 "hello" "m1" []).
Proof.
  intros c. pose proof (provider_request c (claude_says "ok") "hello") as Hp.
  destruct (client_Call c (claude_says "ok") "hello") as [r st'] eqn:Hc.
  destruct Hp as [[Hst _]|(_ & req & Hst & [(_ & _ & _ & _ & Hb)|(Ho & _)])].
  - vm_compute. split; congruence.
  - apply (f_equal (λ x, length (received x.2))) in Hc. vm_compute in Hc. rewrite Hst in Hc. discriminate Hc.
  - exists req. split; [exact Hst|exact Hb].
  - discriminate Ho.
Defined.

Lemma safe_call_outcomes_witness :
  let o := SafeClient_Call (NewAIClient gateway) (WithLocale ctxutil.Background "en") (claude_says english) "Explain." in
  o.1 = (Ok english, []) ∧ english ≠ "".
Proof.
  intros o. assert (o.1 = (Ok english, [])) as Ho by (vm_compute; reflexivity). split; [exact Ho|].
  apply (safe_call_outcomes gateway (WithLocale ctxutil.Background "en") (claude_says english) "Explain."
           english [] o.2).
  - fold o. destruct o as [[r e] st']. simpl in Ho. rewrite Ho. reflexivity.
  - reflexivity.
Defined.

(** [SafeClient.Call] drops the validity flag: a model that keeps answering in
    another language has its text returned without an error. *)
Theorem wrong_language_is_returned :
  let o := SafeClient_Call (NewAIClient gateway) (WithLocale ctxutil.Background "fr") (claude_says english) "Explique." in
  o.1.1 = Ok english ∧ ValidateText english "fr" = false ∧ length (received o.2) = 3%nat.
Proof. vm_compute. done. Qed.

(** The OpenAI call ignores the configured model and the list of allowed ones. *)
Theorem openai_ignores_allowed_models :
  let o := client_Call (New (config "openai")) (claude_says "x") "hello" in
  (λ req, json_parse (p_body req)) <$> received o.2 =
    [Some (request_body 100 "hello" "gpt-4" [("temperature", JNum "0.7")])] ∧
  AllowedModels (config "openai") = ["m1"].
Proof. vm_compute. done. Qed.

End aigateway.
