(* ===== verification/ContextTypes.v ===== *)
(** The types of the values in a request's context (src/ctxutil,
    src/socrate/attribution.go, src/aigateway/context.go). A getter asserts a
    dynamic type and answers a zero value when the assertion fails; the theorem
    is that, in every context the library builds, no assertion ever fails. *)

From S2P Require Import Prelude GoText GoJson GoFloat CtxUtil Http ApiError JwtKeys JwtAuth BffMisc Pep Tiering RateLimit HttpWare Stack SocrateService AiGateway.

Module ctxtypes.
Import ctxutil.

(** * Types *)

(** The Go types stored in a context. *)
Inductive sort := TUUID | TString | TStrMap | TInt | TInt64 | TStrings | TLogger | TAttribution.

#[global] Instance sort_eq_dec : EqDecision sort.
Proof. solve_decision. Defined.

Definition sort_of (v : ctxvalue) : sort :=
  match v with
  | VUUID _ => TUUID | VString _ => TString | VStrMap _ => TStrMap | VInt _ => TInt | VInt64 _ => TInt64
  | VStrings _ => TStrings | VLogger _ => TLogger | VAttribution _ => TAttribution
  end.

(** The type each key is read at. *)
Definition asserted : list (ctxkey * sort) :=
  [(tenantIDKey, TUUID); (userIDKey, TUUID); (userPlanKey, TString); (userRoleKey, TString);
   (userEmailKey, TString); (userNameKey, TString); (userSubKey, TString); (appRolesKey, TStrMap);
   (tokenVersionKey, TInt); (authTimeKey, TInt64); (amrKey, TStrings); (audiencesKey, TStrings);
   (scopesKey, TStrings); (rawJWTKey, TString); (loggerKey, TLogger); (requestIDKey, TString);
   (clientAttributionKey, TAttribution); (localeCtxKey, TString); (moduleCtxKey, TString)].

(** The two slices that are copied in are nil or hold an element. *)
Definition copied (k : ctxkey) (v : ctxvalue) : bool :=
  match v with
  | VStrings (Some []) => negb (bool_decide (k = audiencesKey) || bool_decide (k = scopesKey))
  | _ => true
  end.

Definition well_typed (kv : ctxkey * ctxvalue) : bool :=
  bool_decide ((kv.1, sort_of kv.2) ∈ asserted) && copied kv.1 kv.2.

Definition typed (ctx : context) : Prop := Forall well_typed ctx.

(** The contexts the exported functions of the three packages can build. *)
Inductive built : context → Prop :=
| built_background : built Background
| built_tenant ctx u : built ctx → built (WithTenantID ctx u)
| built_user ctx u : built ctx → built (WithUserID ctx u)
| built_role ctx s : built ctx → built (WithUserRole ctx s)
| built_plan ctx s : built ctx → built (WithUserPlan ctx s)
| built_email ctx s : built ctx → built (WithUserEmail ctx s)
| built_name ctx s : built ctx → built (WithUserName ctx s)
| built_sub ctx s : built ctx → built (WithUserSub ctx s)
| built_app_roles ctx m : built ctx → built (WithAppRoles ctx m)
| built_version ctx n : built ctx → built (WithTokenVersion ctx n)
| built_auth_time ctx n : built ctx → built (WithAuthTime ctx n)
| built_amr ctx l : built ctx → built (WithAMR ctx l)
| built_audiences ctx l : built ctx → built (WithAudiences ctx l)
| built_scopes ctx l : built ctx → built (WithScopes ctx l)
| built_jwt ctx s : built ctx → built (WithRawJWT ctx s)
| built_logger ctx n : built ctx → built (WithLogger ctx n)
| built_request_id ctx s : built ctx → built (WithRequestID ctx s)
| built_attribution ctx a : built ctx → built (service.WithClientAttribution ctx a)
| built_locale ctx s : built ctx → built (aigateway.WithLocale ctx s)
| built_module ctx s : built ctx → built (aigateway.WithModule ctx s).

Create HintDb built.
#[export] Hint Constructors built : built.

(** * Typing of contexts *)

Lemma copy_strings_nonempty l : copy_strings l ≠ Some [].
Proof. by destruct l. Qed.

Lemma built_typed ctx : built ctx → typed ctx.
Proof.
  induction 1; [apply Forall_nil_2|..]; apply Forall_cons_2; try done.
  - by destruct l as [[]|].
  - by destruct l.
  - by destruct l.
Qed.

(** A value found in a typed context has the type its key is read at. *)
Lemma typed_Value ctx k v : typed ctx → Value ctx k = Some v → well_typed (k, v).
Proof.
  induction 1 as [|[k' v'] ctx Hv _ IH]; [done|]. simpl. destruct (decide (k' = k)) as [->|]; [|done]. by intros [= ->].
Qed.

Lemma asserted_functional k t t' : (k, t) ∈ asserted → (k, t') ∈ asserted → t = t'.
Proof.
  intros H1 H2. assert (Forall (λ p, Forall (λ q, p.1 = q.1 → p.2 = q.2) asserted) asserted) as Hall
    by (apply (bool_decide_unpack _); by vm_compute).
  rewrite Forall_forall in Hall. specialize (Hall _ H1). rewrite Forall_forall in Hall. by apply (Hall _ H2).
Qed.

Lemma typed_sort ctx k v t :
  typed ctx → (k, t) ∈ asserted → Value ctx k = Some v → sort_of v = t ∧ copied k v = true.
Proof.
  intros Ht Hin Hv. pose proof (typed_Value _ _ _ Ht Hv) as Hw. unfold well_typed in Hw.
  apply andb_True in Hw as [Hs%bool_decide_unpack Hc%Is_true_true]. split; [|done]. by eapply asserted_functional.
Qed.

(** [reads ctx k wrap v]: reading [k] answers the value [v] that is stored, or
    nothing is stored under [k]. *)
Definition reads {A} (ctx : context) (k : ctxkey) (wrap : A → ctxvalue) (v : A) : Prop :=
  Value ctx k = None ∨ Value ctx k = Some (wrap v).

(** What every getter asserts holds of a typed context. *)
Record assertions_hold (ctx : context) : Prop := {
  reads_tenant : reads ctx tenantIDKey VUUID (GetTenantID ctx);
  reads_user : reads ctx userIDKey VUUID (GetUserID ctx);
  reads_role : reads ctx userRoleKey VString (GetUserRole ctx);
  reads_plan : reads ctx userPlanKey VString (GetUserPlan ctx) ∨ Value ctx userPlanKey = Some (VString "");
  reads_email : reads ctx userEmailKey VString (GetUserEmail ctx);
  reads_name : reads ctx userNameKey VString (GetUserName ctx);
  reads_sub : reads ctx userSubKey VString (GetUserSub ctx);
  reads_app_roles : reads ctx appRolesKey VStrMap (GetAppRoles ctx);
  reads_version : reads ctx tokenVersionKey VInt (GetTokenVersion ctx);
  reads_auth_time : reads ctx authTimeKey VInt64 (GetAuthTime ctx);
  reads_amr : reads ctx amrKey VStrings (GetAMR ctx);
  reads_audiences : reads ctx audiencesKey VStrings (GetAudiences ctx);
  reads_scopes : reads ctx scopesKey VStrings (GetScopes ctx);
  reads_jwt : reads ctx rawJWTKey VString (GetRawJWT ctx);
  reads_logger standard : reads ctx loggerKey VLogger (GetLogger standard ctx);
  reads_request_id : reads ctx requestIDKey VString (GetRequestID ctx);
  reads_attribution : service.ClientAttributionFrom ctx = None ∧ Value ctx clientAttributionKey = None ∨
    ∃ a, service.ClientAttributionFrom ctx = Some a ∧ Value ctx clientAttributionKey = Some (VAttribution a);
  reads_locale : reads ctx localeCtxKey VString (aigateway.LocaleFromContext ctx) ∨ Value ctx localeCtxKey = Some (VString "");
  reads_module : reads ctx moduleCtxKey VString (aigateway.moduleFromContext ctx) ∨ Value ctx moduleCtxKey = Some (VString "");
}.

(** The constructor of a value found under a key of known type. *)
Ltac by_sort Ht :=
  lazymatch goal with
  | |- context [Value ?ctx ?k] =>
      let Hv := fresh in let t := eval vm_compute in (snd <$> list_find (λ p, p.1 = k) asserted) in
      lazymatch t with
      | Some (?p : (_ * sort)%type) =>
          let t' := eval vm_compute in p.2 in
          destruct (Value ctx k) as [[]|] eqn:Hv; try (eapply (typed_sort _ _ _ t') in Hv as [? ?];
            [|exact Ht|apply (bool_decide_unpack _); by vm_compute]; try done)
      end
  end.

Lemma typed_assertions ctx : typed ctx → assertions_hold ctx.
Proof.
  intros Ht. split; intros; unfold reads, GetTenantID, GetUserID, GetUserRole, GetUserPlan, GetUserEmail, GetUserName, GetUserSub,
    GetAppRoles, GetTokenVersion, GetAuthTime, GetAMR, GetAudiences, GetScopes, GetRawJWT, GetLogger, GetRequestID,
    service.ClientAttributionFrom, aigateway.LocaleFromContext, aigateway.moduleFromContext; by_sort Ht; try (by eauto).
  - destruct (String.eqb_spec s ""); subst; eauto.
  - destruct l as [[|]|]; [by vm_compute in H0|by right..].
  - destruct l as [[|]|]; [by vm_compute in H0|by right..].
  - destruct (String.eqb_spec s ""); subst; eauto.
  - destruct (String.eqb_spec s ""); subst; eauto.
Qed.

(** * The middlewares build contexts *)

(** A middleware hands on only contexts the library builds. *)
Definition builds {S} (g : stack.SGate S) : Prop :=
  ∀ st w r w' r' st', built (req_ctx r) → g st w r = (Some (Next w' r'), st') → built (req_ctx r').

Lemma builds_seq {S} (g1 g2 : stack.SGate S) : builds g1 → builds g2 → builds (stack.seq g1 g2).
Proof. intros H1 H2 st w r w' r' st' Hb (w1 & r1 & st1 & Hg1 & Hg2)%stack.seq_Next. eauto. Qed.

Lemma builds_pure {S} (g : Gate) :
  (∀ w r w' r', built (req_ctx r) → g w r = Next w' r' → built (req_ctx r')) → builds (S := S) (stack.pure g).
Proof. intros H st w r w' r' st' Hb [Hg _]%stack.pure_Next. eauto. Qed.

#[export] Hint Resolve builds_seq builds_pure : built.

Section service.
Context `{JwtLib, UuidLib, QuoteLib, ratelimit.RateLib, ratelimit.NetLib} (uuid_String : UUID → string).

Lemma built_if (b : bool) ctx ctx' : built ctx → built ctx' → built (if b then ctx else ctx').
Proof. by destruct b. Qed.
Hint Resolve built_if : built.

Lemma inject_identity_built m ctx claims : built ctx → built (jwtauth.inject_identity m ctx claims).
Proof.
  intros Hb. unfold jwtauth.inject_identity. cbv zeta.
  destruct (jwtauth.acceptedAudiences m _); destruct (Amr claims);
    repeat first [assumption | apply built_if | constructor].
Qed.

Lemma auth_gate_builds svc a : builds (stack.auth_gate svc a).
Proof.
  intros st w r w' r' st' Hb (Hh & _)%stack.auth_gate_Next.
  destruct (jwtauth.Handler_Next _ _ _ _ _ _ _ _ Hh) as (token & claims & _ & _ & _ & _ & _ & tenant & _ & ->).
  cbv zeta. cbn [req_ctx with_ctx]. apply inject_identity_built. destruct tenant, (jwtauth.Scopes claims); eauto with built.
Qed.

Lemma protected_builds svc a : builds (stack.protected uuid_String svc a).
Proof.
  assert (builds (stack.authorized uuid_String svc a)) as Hrest.
  { intros st w r w' r' st' Hb Hg. by destruct (stack.authorized_same _ _ _ _ _ _ _ _ _ Hg) as [-> _]. }
  apply builds_seq; [|done]. repeat apply builds_seq; auto using auth_gate_builds; apply builds_pure; intros w r w' r' Hb.
  - unfold httpware.RequestID. intros [= <- <-]. by constructor.
  - unfold httpware.SecurityHeaders. by intros [= <- <-].
  - unfold httpware.RequireTenant, httpware.RequireTenantWith. case_match; [done|]. by intros [= <- <-].
Qed.

(** C23: no type assertion on a request's context ever fails. Behind the whole
    stack, in a context that started from the With functions of ctxutil, socrate
    and aigateway, every getter answers the value that is stored under its key,
    and a default only where nothing is stored (or, for the plan, the locale and
    the module, where the text is empty); and the tenant is really stored. *)
Theorem context_reads_are_typed (svc : stack.Service) (a : stack.Arrival) (st st' : stack.St) (w w' : ResponseWriter)
    (r r' : Request) :
  built (req_ctx r) → stack.protected uuid_String svc a st w r = (Some (Next w' r'), st') →
  assertions_hold (req_ctx r') ∧
  Value (req_ctx r') tenantIDKey = Some (VUUID (GetTenantID (req_ctx r'))) ∧ GetTenantID (req_ctx r') ≠ uuid_Nil.
Proof.
  intros Hb Hp. pose proof (protected_builds _ _ _ _ _ _ _ _ Hb Hp) as Hb'.
  pose proof (typed_assertions _ (built_typed _ Hb')) as Hr. pose proof (stack.protected_tenant _ _ _ _ _ _ _ _ _ Hp) as Ht.
  split_and!; [done| |done]. destruct (reads_tenant _ Hr) as [Hn|]; [|done]. unfold GetTenantID in Ht. by rewrite Hn in Ht.
Qed.

End service.

(** * A context that is not one of the library's *)

(** The hypothesis matters: a value of another type under a key reads as nothing. *)
Example foreign_value_reads_as_absent : GetTenantID (WithValue Background tenantIDKey (VString "t7")) = uuid_Nil.
Proof. reflexivity. Qed.

Module sample.
Import stack.sample.
#[local] Existing Instances lib uuids quotes.

Lemma context_reads_are_typed_witness :
  Value (req_ctx seen.2) tenantIDKey = Some (VUUID 7) ∧ assertions_hold (req_ctx seen.2).
Proof.
  destruct (context_reads_are_typed ratelimit.Demo.show_uuid svc arrival fresh out.2 new_response seen.1
    jwtauth.Demo.request seen.2) as (Hr & Hv & _).
  - exact built_background.
  - vm_compute. reflexivity.
  - split; [exact Hv|exact Hr].
Defined.

End sample.

End ctxtypes.
