(* ===== verification/GormLogger.v ===== *)
(** The GORM logger (package [gormlogger], src/gormlogger/logger.go): which
    record each call of GORM produces, if any. GORM's levels are ordered
    Silent < Error < Warn < Info. *)

From S2P Require Import Prelude GoText SocrateToken.

Module gormlogger.
Import socrate.

(** The log levels of gorm.io/gorm/logger, numbered as there. *)
Definition Silent : Z := 1.
Definition Error_ : Z := 2.
Definition Warn_ : Z := 3.
Definition Info_ : Z := 4.

(** gorm.ErrRecordNotFound. *)
Definition ErrRecordNotFound : string := "record not found".

(** [gormlogger/logger.go: GormLogger]
    The entry it writes to is a parameter of nothing modelled here. *)
Record GormLogger := {
  level : Z;
  slowThreshold : Duration;
  ignoreNotFound : bool;
  redactSQL : bool;
}.

(** [gormlogger/logger.go: Option] *)
Inductive Option_ := WithSQLRedaction.

(** [gormlogger/logger.go: New] *)
Definition New (level : Z) (slowThreshold : Duration) (ignoreNotFound : bool) (opts : list Option_) : GormLogger :=
  fold_left (λ l o, match o with
                    | WithSQLRedaction => {| gormlogger.level := gormlogger.level l; slowThreshold := gormlogger.slowThreshold l;
                                             ignoreNotFound := gormlogger.ignoreNotFound l; redactSQL := true |}
                    end) opts
    {| gormlogger.level := level; slowThreshold := slowThreshold; ignoreNotFound := ignoreNotFound; redactSQL := false |}.

(** [gormlogger/logger.go: GormLogger.LogMode] *)
Definition LogMode (l : GormLogger) (lv : Z) : GormLogger :=
  {| level := lv; slowThreshold := slowThreshold l; ignoreNotFound := ignoreNotFound l; redactSQL := redactSQL l |}.

(** A record handed to logrus: its level and message, and the fields of a
    statement. *)
Inductive severity := LDebug | LInfo | LWarn | LError.
Record entry := {
  en_level : severity;
  en_msg : string;
  en_elapsed_ms : Z;
  en_rows : Z;
  en_sql : string;
  en_err : option goerr;
}.

(** A formatted message: the format and its arguments, as they are handed over. *)
Record message := { ms_level : severity; ms_format : string; ms_args : list string }.

(** [gormlogger/logger.go: GormLogger.Info] *)
Definition Info (l : GormLogger) (s : string) (args : list string) : option message :=
  if Info_ <=? level l then Some {| ms_level := LInfo; ms_format := s; ms_args := args |} else None.
(** [gormlogger/logger.go: GormLogger.Warn] *)
Definition Warn (l : GormLogger) (s : string) (args : list string) : option message :=
  if Warn_ <=? level l then Some {| ms_level := LWarn; ms_format := s; ms_args := args |} else None.
(** [gormlogger/logger.go: GormLogger.Error] *)
Definition Error (l : GormLogger) (s : string) (args : list string) : option message :=
  if Error_ <=? level l then Some {| ms_level := LError; ms_format := s; ms_args := args |} else None.

(** [gormlogger/logger.go: GormLogger.Trace]
    [elapsed] is the time since the statement began, [sql] and [rows] what GORM
    reports about it. *)
Definition Trace (l : GormLogger) (elapsed : Duration) (sql : string) (rows : Z) (err : option goerr) : option entry :=
  if level l =? Silent then None
  else
    let sql := if redactSQL l then "[redacted]" else sql in
    let record lv msg e := Some {| en_level := lv; en_msg := msg; en_elapsed_ms := Z.quot elapsed Millisecond;
                                   en_rows := rows; en_sql := sql; en_err := e |} in
    match err with
    | Some e =>
        if ignoreNotFound l && errors_Is e ErrRecordNotFound then
          if Info_ <=? level l then record LDebug "sql not found" None else None
        else if Error_ <=? level l then record LError "sql error" (Some e) else None
    | None =>
        if (0 <? slowThreshold l) && (slowThreshold l <? elapsed) then
          if Warn_ <=? level l then record LWarn "slow sql query" None else None
        else if Info_ <=? level l then record LDebug "sql query" None else None
    end.

(** Switching the level up adds records and takes none away: what is logged at
    one level is logged, unchanged, at every higher one. *)
Theorem levels_are_cumulative (l : GormLogger) (lo hi : Z) (s : string) (args : list string) :
  lo ≤ hi →
  (∀ m, Info (LogMode l lo) s args = Some m → Info (LogMode l hi) s args = Some m) ∧
  (∀ m, Warn (LogMode l lo) s args = Some m → Warn (LogMode l hi) s args = Some m) ∧
  (∀ m, Error (LogMode l lo) s args = Some m → Error (LogMode l hi) s args = Some m).
Proof.
  intros Hle. unfold Info, Warn, Error. cbn [level LogMode].
  assert (∀ th (m : message) (x : option message), (if th <=? lo then x else None) = Some m → (if th <=? hi then x else None) = Some m) as Hmono.
  { intros th m x. destruct (Z.leb_spec th lo); [|done]. by rewrite (proj2 (Z.leb_le th hi)) by lia. }
  split_and!; intros m; apply Hmono.
Qed.

Lemma New_redacts opts l0 :
  redactSQL (fold_left (λ l o, match o with
     | WithSQLRedaction => {| level := level l; slowThreshold := slowThreshold l;
                              ignoreNotFound := ignoreNotFound l; redactSQL := true |} end) opts l0) =
  redactSQL l0 || bool_decide (opts ≠ []).
Proof.
  revert l0. induction opts as [|[] opts IH]; intros l0; cbn [fold_left]; [by rewrite orb_false_r|].
  rewrite IH. simpl. by rewrite orb_true_r.
Qed.

(** With redaction on, no record carries a statement, at any level the logger
    is switched to; and what is recorded follows the level: nothing when silent,
    every failure from the error level up (a missing record excepted, when it is
    to be ignored), and a slow statement from the warning level up. *)
Theorem trace_records (lv0 lv : Z) (slow : Duration) (ignore : bool) (opts : list Option_) (elapsed : Duration)
    (sql : string) (rows : Z) (err : option goerr) :
  let l := LogMode (New lv0 slow ignore opts) lv in
  (∀ en, Trace l elapsed sql rows err = Some en →
     lv ≠ Silent ∧ en_rows en = rows ∧ en_sql en = (if bool_decide (opts = []) then sql else "[redacted]")) ∧
  (∀ e, err = Some e → ¬ (ignore = true ∧ errors_Is e ErrRecordNotFound = true) →
     (∃ en, Trace l elapsed sql rows err = Some en ∧ en_level en = LError ∧ en_err en = Some e) ↔ Error_ ≤ lv) ∧
  (err = None → 0 < slow < elapsed →
     (∃ en, Trace l elapsed sql rows err = Some en ∧ en_level en = LWarn) ↔ Warn_ ≤ lv).
Proof.
  intros l.
  assert (redactSQL l = bool_decide (opts ≠ []) ∧ slowThreshold l = slow ∧ ignoreNotFound l = ignore ∧ level l = lv)
    as (Hr & Hs & Hi & Hl).
  { unfold l, LogMode, New. cbn [redactSQL slowThreshold ignoreNotFound level]. rewrite New_redacts.
    split_and!; [done| | |done]; clear; generalize false; induction opts as [|[] opts IH]; intros b; simpl; [done| |done|];
      apply IH. }
  unfold Trace. rewrite Hr, Hs, Hi, Hl. split_and!.
  - intros en. destruct (Z.eqb_spec lv Silent); [done|].
    assert (bool_decide (opts ≠ []) = negb (bool_decide (opts = []))) as -> by by destruct opts.
    intros Hen. split; [done|]. destruct err as [e|]; repeat (split_match_in Hen); try done;
      injection Hen as <-; simpl; by destruct opts.
  - intros e -> Hnot. assert (ignore && errors_Is e ErrRecordNotFound = false) as ->.
    { apply not_true_is_false. rewrite andb_true_iff. done. }
    unfold Silent, Error_. destruct (Z.eqb_spec lv 1); [naive_solver lia|].
    destruct (Z.leb_spec 2 lv); naive_solver lia.
  - intros -> [H1 H2]. rewrite (proj2 (Z.ltb_lt _ _) H1), (proj2 (Z.ltb_lt _ _) H2). simpl.
    unfold Silent, Warn_. destruct (Z.eqb_spec lv 1); [naive_solver lia|].
    destruct (Z.leb_spec 3 lv); naive_solver lia.
Qed.

Lemma trace_records_witness :
  ∃ en, Trace (LogMode (New Info_ Second true [WithSQLRedaction]) Error_) Second "SELECT 1" 1 (Some (EMsg "x")) = Some en ∧
    en_sql en = "[redacted]".
Proof.
  eexists. split; [vm_compute; reflexivity|].
  refine (proj2 (proj2 (proj1 (trace_records Info_ Error_ Second true [WithSQLRedaction] Second "SELECT 1" 1
            (Some (EMsg "x"))) _ _))).
  vm_compute. reflexivity.
Defined.

End gormlogger.
