(* ===== verification/Conformance.v ===== *)
(** The conformance fixtures (package [conformance]): loading a fixture with its
    placeholders resolved (src/conformance/conformance.go) and matching a
    document against one (match.go). The embedded files, the JWT library, UUIDs,
    SHA-256 and the random source are parameters. *)

From S2P Require Import Prelude GoText GoUrl Utf8 GoJson GoFloat JwtKeys Http PendingLogin BffMisc.

Module conformance.
Import jwtkeys.

(** * Text *)

(** [strings.ReplaceAll] for a non-empty [old]; [skip] bytes of a match are
    still to be passed over. *)
Fixpoint replace_from (old new : string) (skip : nat) (s : string) : string :=
  match s with
  | EmptyString => EmptyString
  | String c s' =>
      match skip with
      | S k => replace_from old new k s'
      | O => if has_prefix s old then new +:+ replace_from old new (String.length old - 1) s'
             else String c (replace_from old new 0 s')
      end
  end.
Definition ReplaceAll (s old new : string) : string := replace_from old new 0 s.

(** [strings.SplitN(s, sep, 2)] when [s] holds [sep]. *)
Fixpoint cut_at (sep s : string) : option (string * string) :=
  if has_prefix s sep then Some ("", String.substring (String.length sep) (String.length s - String.length sep) s)
  else match s with
       | EmptyString => None
       | String c s' => match cut_at sep s' with Some (a, b) => Some (String c a, b) | None => None end
       end.

Definition has_suffix (s suf : string) : bool :=
  let n := String.length s in
  let k := String.length suf in
  (k <=? n)%nat && String.eqb (String.substring (n - k) k s) suf.

(** A list mapped with the index of each element, from [i]. *)
Definition mapi {A B} (f : nat → A → B) : nat → list A → list B :=
  fix go i l := match l with [] => [] | x :: l' => f i x :: go (S i) l' end.

(** [v == s] for a value of type any. *)
Definition is_str (s : string) (v : json) : bool := match v with JStr t => String.eqb t s | _ => false end.

(** * Parameters (conformance.go) *)

(** [conformance/conformance.go:27-27] DefaultIssuer *)
Definition DefaultIssuer : string := "https://socrate.example.com".
(** [conformance/conformance.go:28-28] DefaultClientID *)
Definition DefaultClientID : string := "my-app".
(** [conformance/conformance.go:29-29] DefaultAudience *)
Definition DefaultAudience : string := "https://api.example.com".
(** [conformance/conformance.go:30-30] DefaultSubject *)
Definition DefaultSubject : string := "42".
(** [conformance/conformance.go:31-31] DefaultAppID *)
Definition DefaultAppID : Z := 7.
(** [conformance/conformance.go:32-32] DefaultRole *)
Definition DefaultRole : string := "user".
(** [conformance/conformance.go:33-33] DefaultEmail *)
Definition DefaultEmail : string := "user@example.com".
(** [conformance/conformance.go:34-34] DefaultName *)
Definition DefaultName : string := "Example User".
(** [conformance/conformance.go:35-35] DefaultTenantID *)
Definition DefaultTenantID : string := "00000000-0000-4000-8000-000000000001".
(** [conformance/conformance.go:36-36] DefaultClaimsNamespace *)
Definition DefaultClaimsNamespace : string := "https://socrate/".
(** [conformance/conformance.go:37-37] DefaultTTL *)
Definition DefaultTTL : Duration := 15 * Minute.
(** [conformance/conformance.go:38-38] DefaultRefreshTTL *)
Definition DefaultRefreshTTL : Duration := 7 * 24 * Hour.

(** [conformance/conformance.go: Key]
    Of a private key, its modulus and public exponent; nil is [None]. *)
Record Key := { key_ID : string; key_Private : option PublicKey }.

(** [conformance/conformance.go: Params] *)
Record Params := {
  p_Issuer : string; p_ClientID : string; p_Audiences : list string; p_Subject : string; p_AppID : Z;
  p_Role : string; p_Email : string; p_Name : string; p_Scope : string; p_Nonce : string; p_TenantID : string;
  p_Attributes : option (gmap string json); p_ClaimsNamespace : string; p_TokenVersion : Z; p_JKT : string;
  p_Now : Time; p_AuthTime : Time; p_TTL : Duration; p_RefreshTTL : Duration;
  p_AccessToken : string; p_RefreshToken : string; p_IDToken : string; p_Keys : list Key;
}.

Definition no_params : Params :=
  {| p_Issuer := ""; p_ClientID := ""; p_Audiences := []; p_Subject := ""; p_AppID := 0; p_Role := ""; p_Email := "";
     p_Name := ""; p_Scope := ""; p_Nonce := ""; p_TenantID := ""; p_Attributes := None; p_ClaimsNamespace := "";
     p_TokenVersion := 0; p_JKT := ""; p_Now := 0; p_AuthTime := 0; p_TTL := 0; p_RefreshTTL := 0;
     p_AccessToken := ""; p_RefreshToken := ""; p_IDToken := ""; p_Keys := [] |}.

Definition with_keys (keys : list Key) : Params :=
  {| p_Issuer := ""; p_ClientID := ""; p_Audiences := []; p_Subject := ""; p_AppID := 0; p_Role := ""; p_Email := "";
     p_Name := ""; p_Scope := ""; p_Nonce := ""; p_TenantID := ""; p_Attributes := None; p_ClaimsNamespace := "";
     p_TokenVersion := 0; p_JKT := ""; p_Now := 0; p_AuthTime := 0; p_TTL := 0; p_RefreshTTL := 0;
     p_AccessToken := ""; p_RefreshToken := ""; p_IDToken := ""; p_Keys := keys |}.

Definition with_issuer (issuer : string) : Params :=
  {| p_Issuer := issuer; p_ClientID := ""; p_Audiences := []; p_Subject := ""; p_AppID := 0; p_Role := ""; p_Email := "";
     p_Name := ""; p_Scope := ""; p_Nonce := ""; p_TenantID := ""; p_Attributes := None; p_ClaimsNamespace := "";
     p_TokenVersion := 0; p_JKT := ""; p_Now := 0; p_AuthTime := 0; p_TTL := 0; p_RefreshTTL := 0;
     p_AccessToken := ""; p_RefreshToken := ""; p_IDToken := ""; p_Keys := [] |}.

(** [conformance/conformance.go: or] *)
Definition or_ (v def : string) : string := if String.eqb v "" then def else v.

(** [conformance/conformance.go: placeholder] *)
Definition placeholder (s : string) : option (string * string) :=
  let n := String.length s in
  let inner := String.substring 1 (n - 2) s in
  if (n <? 3)%nat || negb (has_prefix s "<") || negb (has_suffix s ">") ||
     contains_byte 60 inner || contains_byte 62 inner then None
  else Some (match str_cut ":" inner with Some kv => kv | None => (inner, "") end).

(** [conformance/conformance.go:208-208] issuerToken *)
Definition issuerToken : string := "<issuer>".
(** [conformance/conformance.go:209-209] nsToken *)
Definition nsToken : string := "<ns>".

(** * Loading *)

(** The embedded files, the random source and the libraries; what is drawn is
    numbered by the place in the document it is drawn for. *)
Class Lib := {
  fixtureFS : list (string * string);
  rand_bytes : string → Z → string;
  new_uuid : string → string;
  sum256 : string → string;
  jwt_sign : json → json → PublicKey → option string;
  time_now : Time;
}.

Section load.
Context `{Lib}.
Variable p : Params.

(** [conformance/conformance.go: newResolver] *)
Definition now : Time := if time_IsZero (p_Now p) then time_now else p_Now p.
(** [conformance/conformance.go: resolver.clientID] *)
Definition clientID : string := or_ (p_ClientID p) DefaultClientID.
(** [conformance/conformance.go: resolver.role] *)
Definition role : string := or_ (p_Role p) DefaultRole.
(** [conformance/conformance.go: resolver.ns] *)
Definition ns : string := or_ (p_ClaimsNamespace p) DefaultClaimsNamespace.
(** [conformance/conformance.go: resolver.issuer] *)
Definition issuer : string := or_ (p_Issuer p) DefaultIssuer.
(** [conformance/conformance.go: resolver.ttl] *)
Definition ttl : Duration := if 0 <? p_TTL p then p_TTL p else DefaultTTL.

(** [conformance/conformance.go: randomB64] *)
Definition randomB64 (at_ : string) (n : Z) : string := b64_encode (rand_bytes at_ n).

(** [conformance/conformance.go: atHash] *)
Definition atHash (accessToken : string) : string :=
  let sum := sum256 accessToken in b64_encode (String.substring 0 (String.length sum / 2) sum).

Definition int_json (z : Z) : result string json := Ok (JNum (itoa z)).

(** [conformance/conformance.go: resolver.value] *)
Definition value (at_ kind arg : string) : result string json :=
  match kind with
  | "issuer" => Ok (JStr issuer)
  | "client_id" => Ok (JStr clientID)
  | "sub" => Ok (JStr (or_ (p_Subject p) DefaultSubject))
  | "app_sub" => Ok (JStr ("app:" +:+ itoa (if p_AppID p =? 0 then DefaultAppID else p_AppID p)))
  | "role" => Ok (JStr role)
  | "app_roles" => Ok (JObj [(clientID, JStr role)])
  | "email" => Ok (JStr (or_ (p_Email p) DefaultEmail))
  | "name" => Ok (JStr (or_ (p_Name p) DefaultName))
  | "nonce" => Ok (JStr (or_ (p_Nonce p) (randomB64 at_ 12)))
  | "tenant_id" => Ok (JStr (or_ (p_TenantID p) DefaultTenantID))
  | "attribute" =>
      match default {["department" := JStr "engineering"]} (p_Attributes p) !! arg with
      | Some v => Ok v
      | None => Err "no such attribute in Params.Attributes"
      end
  | "scope" => Ok (JStr (or_ (p_Scope p) arg))
  | "iat" | "nbf" => int_json (unix_of now)
  | "auth_time" => int_json (if time_IsZero (p_AuthTime p) then unix_of now else unix_of (p_AuthTime p))
  | "exp" => int_json (unix_of (time_Add now ttl))
  | "refresh_exp" =>
      int_json (unix_of (time_Add now (if p_RefreshTTL p <=? 0 then DefaultRefreshTTL else p_RefreshTTL p)))
  | "expires_in" => int_json (float64.trunc (float64.seconds_of ttl))
  | "jti" => Ok (JStr (new_uuid at_))
  | "kid" =>
      match p_Keys p with
      | k :: _ => if String.eqb (key_ID k) "" then Ok (JStr (new_uuid at_)) else Ok (JStr (key_ID k))
      | [] => Ok (JStr (new_uuid at_))
      end
  | "token_version" => int_json (if 0 <? p_TokenVersion p then p_TokenVersion p else 1)
  | "at_hash" =>
      if String.eqb (p_AccessToken p) "" then Ok (JStr (randomB64 at_ 16)) else Ok (JStr (atHash (p_AccessToken p)))
  | "jkt" => Ok (JStr (or_ (p_JKT p) (randomB64 at_ 32)))
  | "access_token" =>
      if String.eqb (p_AccessToken p) "" then Err "needs the token in Params" else Ok (JStr (p_AccessToken p))
  | "refresh_token" =>
      if String.eqb (p_RefreshToken p) "" then Err "needs the token in Params" else Ok (JStr (p_RefreshToken p))
  | "id_token" =>
      if String.eqb (p_IDToken p) "" then Err "needs the token in Params" else Ok (JStr (p_IDToken p))
  | _ => Err "unknown placeholder"
  end.

(** [conformance/match.go: join] *)
Definition join (path key : string) : string := if String.eqb path "" then key else path +:+ "." +:+ key.
(** The path of an element. *)
Definition index (path : string) (i : nat) : string := path +:+ "[" +:+ itoa (Z.of_nat i) +:+ "]".

Definition audiences : list json :=
  JStr <$> match p_Audiences p with [] => [DefaultAudience] | l => l end.

(** [conformance/conformance.go: resolver.resolve]
    [at_] is the place in the document. *)
Fixpoint resolve (at_ : string) (v : json) : result string json :=
  match v with
  | JObj l =>
      rmap JObj (rsequence ((λ kv, rmap (pair (ReplaceAll kv.1 nsToken ns)) (resolve (join at_ kv.1) kv.2)) <$> l))
  | JArr l =>
      rmap (JArr ∘ mjoin) (rsequence (mapi (λ i el,
        if is_str "<audience>" el then Ok audiences else rmap (λ x, [x]) (resolve (index at_ i) el)) 0 l))
  | JStr s =>
      match placeholder s with
      | None => Ok (JStr (ReplaceAll s issuerToken issuer))
      | Some (kind, arg) => value at_ kind arg
      end
  | _ => Ok v
  end.

(** [big.Int.Bytes]: big-endian, without leading zeros. *)
Fixpoint be_bytes (fuel : nat) (z : Z) (acc : string) : string :=
  match fuel with
  | O => acc
  | S k => if z <=? 0 then acc else be_bytes k (z / 256) (String (of_byte (z mod 256)) acc)
  end.
Definition big_bytes (z : Z) : string := be_bytes (Z.to_nat (bit_len z)) z "".

(** [conformance/conformance.go:315-325] the entry of one key *)
Definition key_entry (tmpl : list (string * json)) (id : string) (key : PublicKey) : list (string * json) :=
  (λ kv, (kv.1, if is_str "<kid>" kv.2 then JStr id
                else if is_str "<n>" kv.2 then JStr (b64_encode (big_bytes (pk_N key))) else kv.2)) <$> tmpl.

(** [conformance/conformance.go: resolver.resolveJWKS] *)
Definition resolveJWKS (doc : list (string * json)) : result string json :=
  match raw_map doc !! "keys" with
  | Some (JArr [t]) =>
      let tmpl := match t with JObj l => l | _ => [] end in
      match p_Keys p with
      | [] => Err "the jwks fixture needs Params.Keys (or use JWKS)"
      | keys =>
          rmap (λ entries, JObj [("keys", JArr entries)])
            (rsequence ((λ k,
               match key_Private k with
               | None => Err "every key needs an ID and a private key"
               | Some key =>
                   if String.eqb (key_ID k) "" then Err "every key needs an ID and a private key"
                   else
                     let entry := key_entry tmpl (key_ID k) key in
                     if negb (is_str (b64_encode (big_bytes (pk_E key))) (default JNull (raw_map entry !! "e")))
                     then Err "exponent is not Socrate's (65537)"
                     else Ok (JObj entry)
               end) <$> keys))
      end
  | _ => Err "the jwks fixture must hold one key template"
  end.

End load.

(** ** Fixtures *)

Section fixtures.
Context `{Lib}.

(** [conformance/conformance.go: Names] *)
Definition Names : list string :=
  merge_sort string_le (omap (λ f, if has_prefix f.1 "fixtures/" && has_suffix f.1 ".json"
    then Some (String.substring 9 (String.length f.1 - 14) f.1) else None) fixtureFS).

(** [strings.Contains(name, "..")]. *)
Definition has_dots (name : string) : bool := match cut_at ".." name with Some _ => true | None => false end.

(** [conformance/conformance.go: Raw] *)
Definition Raw (name : string) : option string :=
  if String.eqb name "" || has_dots name then None
  else match list_find (λ f : string * string, f.1 = "fixtures/" +:+ name +:+ ".json") fixtureFS with
       | Some (_, f) => Some f.2
       | None => None
       end.

(** [conformance/conformance.go: parse]
    A null document is a nil map. *)
Definition parse (name : string) : result string (list (string * json)) :=
  match Raw name with
  | None => Err "conformance: unknown fixture"
  | Some b =>
      match json_parse b with
      | Some (JObj l) => if overflows (JObj l) then Err "conformance: fixture" else Ok l
      | Some JNull => Ok []
      | _ => Err "conformance: fixture"
      end
  end.

(** [conformance/conformance.go: Load] *)
Definition Load (name : string) (p : Params) : result string json :=
  rbind (parse name) (λ doc, if String.eqb name "jwks" then resolveJWKS p doc else resolve p "" (JObj doc)).

(** [conformance/conformance.go: Discovery] *)
Definition Discovery (issuer : string) : result string json := Load "discovery" (with_issuer issuer).

(** [conformance/conformance.go: JWKS] *)
Definition JWKS (keys : list Key) : result string json :=
  match keys with
  | [] => Err "conformance: JWKS needs at least one key"
  | _ => Load "jwks" (with_keys keys)
  end.

(** [conformance/conformance.go: Sign] *)
Definition Sign (name : string) (p : Params) (key : Key) : result string string :=
  if negb (has_prefix name "access/") && negb (has_prefix name "id_token/") && negb (has_prefix name "refresh_token/")
  then Err "conformance: not a token fixture"
  else
    match key_Private key with
    | None => Err "conformance: Sign needs a key with an ID and a private key"
    | Some priv =>
        if String.eqb (key_ID key) "" then Err "conformance: Sign needs a key with an ID and a private key"
        else
          rbind (Load name p) (λ claims,
          rbind (Load "jose_header" (with_keys [key])) (λ header,
          match jwt_sign header claims priv with
          | Some s => Ok s
          | None => Err "conformance: sign"
          end))
    end.

End fixtures.

(** * Matching (match.go) *)

(** ** Patterns *)

Definition digit (b : Z) : bool := (48 <=? b) && (b <=? 57).
Definition hex (b : Z) : bool := digit b || ((97 <=? b) && (b <=? 102)).
Definition b64url (b : Z) : bool := url_alnum b || (b =? 95) || (b =? 45).
Definition nonempty (test : Z → bool) (s : string) : bool := negb (String.eqb s "") && all_bytes test s.

(** [conformance/match.go:16-16] reDecimal *)
Definition reDecimal (s : string) : bool := nonempty digit s.
(** [conformance/match.go:17-17] reAppSub *)
Definition reAppSub (s : string) : bool :=
  has_prefix s "app:" && reDecimal (String.substring 4 (String.length s - 4) s).
(** [conformance/match.go:18-18] reUUID *)
Definition reUUID (s : string) : bool :=
  match str_split "-" s with
  | [a; b; c; d; e] =>
      (String.length a =? 8)%nat && (String.length b =? 4)%nat && (String.length c =? 4)%nat &&
      (String.length d =? 4)%nat && (String.length e =? 12)%nat &&
      all_bytes hex a && all_bytes hex b && all_bytes hex c && all_bytes hex d && all_bytes hex e
  | _ => false
  end.
(** [conformance/match.go:19-19] reB64URL *)
Definition reB64URL (s : string) : bool := nonempty b64url s.
(** [conformance/match.go:20-20] reJWS *)
Definition reJWS (s : string) : bool :=
  match str_split "." s with [a; b; c] => reB64URL a && reB64URL b && reB64URL c | _ => false end.
(** [conformance/match.go:21-21] reEmail *)
Definition reEmail (s : string) : bool :=
  let plain := nonempty (λ b, negb (contains [9; 10; 12; 13; 32] b)) in
  match str_split "@" s with [a; b] => plain a && plain b | _ => false end.

(** ** Differences *)

(** A difference: where, what kind, and the value it shows, if any. *)
Record diff := { d_path : string; d_what : string; d_shown : option json }.

(** [conformance/match.go: matcher.fail] *)
Definition fail (path what : string) (shown : option json) : list diff :=
  [{| d_path := if String.eqb path "" then "(document)" else path; d_what := what; d_shown := shown |}].

(** [conformance/match.go: number] *)
Definition number (v : json) : option float64.t :=
  match v with JNum lit => float64.of_literal lit | _ => None end.

(** [conformance/match.go: sameJSON]
    Both sides as encoding/json decodes them again: numbers as float64 (out of
    range, nothing), objects as maps. *)
Fixpoint sameJSON (a b : json) {struct a} : bool :=
  match a, b with
  | JNull, JNull => true
  | JNull, JNum y => bool_decide (float64.of_literal y = None)
  | JNum x, JNull => bool_decide (float64.of_literal x = None)
  | JBool x, JBool y => Bool.eqb x y
  | JStr x, JStr y => String.eqb x y
  | JNum x, JNum y =>
      match float64.of_literal x, float64.of_literal y with
      | Some f, Some g => float64.eqb f g
      | None, None => true
      | _, _ => false
      end
  | JArr l, JArr k =>
      (length l =? length k)%nat && forallb id (zip_with (λ f y, f y) (sameJSON <$> l) k)
  | JObj l, JObj k =>
      let fs : gmap string (json → bool) := list_to_map (reverse ((λ kv, (kv.1, sameJSON kv.2)) <$> l)) in
      bool_decide (dom fs = dom (raw_map k)) &&
      forallb (λ x, match fs !! x, raw_map k !! x with Some f, Some y => f y | _, _ => false end) (elements (dom fs))
  | _, _ => false
  end.

(** [conformance/match.go: sortedKeys] *)
Definition sortedKeys {V} (m : gmap string V) : list string := merge_sort string_le (elements (dom m)).

(** A decoded document: an object is a map, which is encoded with its keys in
    order. *)
Fixpoint as_map (v : json) : json :=
  match v with
  | JObj l =>
      let m : gmap string json := list_to_map (reverse ((λ kv, (kv.1, as_map kv.2)) <$> l)) in
      JObj ((λ k, (k, default JNull (m !! k))) <$> sortedKeys m)
  | JArr l => JArr (as_map <$> l)
  | _ => v
  end.

(** [conformance/match.go: describe]
    How a difference shows a value; a decoded value can always be marshalled. *)
Definition describe (v : json) : string :=
  match v with
  | JNull => "null"
  | _ => let s := json_encode (as_map v) in
         if 120 <? slen s then slice 0 117 s +:+ "..." else s
  end.

(** A difference never shows more than 120 bytes of a document. *)
Theorem describe_bounded (v : json) : slen (describe v) ≤ 120.
Proof.
  assert (∀ s : string, slen (if 120 <? slen s then slice 0 117 s +:+ "..." else s) ≤ 120) as Hs.
  { intros s. destruct (Z.ltb_spec 120 (slen s)); [|done]. rewrite slen_app. unfold slice, slen in *.
    assert (∀ n (t : string), (String.length (String.substring 0 n t) ≤ n)%nat) as Hsub.
    { intros n t. revert n. induction t as [|c t IH]; intros [|n]; simpl; [lia..|]. specialize (IH n). lia. }
    specialize (Hsub (117 - 0)%nat s). simpl in *. lia. }
  destruct v; [done|apply Hs..].
Qed.

(** ** Rules *)

Section rules.
Variable p : Params.

(** [conformance/match.go:217-229] the closure str *)
Definition rule_str (path : string) (re : option (string → bool)) (exact : string) (got : json) : list diff :=
  match got with
  | JStr s =>
      if negb (String.eqb exact "") then if String.eqb s exact then [] else fail path "want exactly" (Some got)
      else match re with
           | Some re => if re s then [] else fail path "pattern" (Some got)
           | None => if String.eqb s "" then fail path "empty string" None else []
           end
  | _ => fail path "want a string" (Some got)
  end.

(** [conformance/match.go:230-235] the closure integer *)
Definition rule_integer (path : string) (got : json) : list diff :=
  match number got with
  | Some n => if negb (float64.is_integer n) || float64.ltb n (float64.of_Z 1)
              then fail path "want an integer of at least 1" (Some got) else []
  | None => fail path "want an integer of at least 1" (Some got)
  end.

(** A token is never shown. *)
Definition rule_token (path exact : string) (got : json) : list diff :=
  match got with
  | JStr s => if negb (reJWS s) then fail path "want a compact JWS" None
              else if negb (String.eqb exact "") && negb (String.eqb s exact)
                   then fail path "not the token given in Params" None else []
  | _ => fail path "want a compact JWS" None
  end.

Definition rule_roles (path : string) (got : json) : list diff :=
  match got with
  | JObj l =>
      let obj := raw_map l in
      if decide (obj = ∅) then fail path "want an object of roles" (Some got)
      else
        mjoin ((λ k, match obj !! k with
                     | Some (JStr s) => if String.eqb s "" then fail (join path k) "want a role" (obj !! k) else []
                     | v => fail (join path k) "want a role" v
                     end) <$> sortedKeys obj) ++
        (if String.eqb (p_ClientID p) "" then []
         else match obj !! p_ClientID p with
              | None => fail path "no entry for the client" None
              | Some role =>
                  if negb (String.eqb (p_Role p) "") && negb (is_str (p_Role p) role)
                  then fail (join path (p_ClientID p)) "want the role" (Some role) else []
              end)
  | _ => fail path "want an object of roles" (Some got)
  end.

(** [conformance/match.go: matcher.rule] *)
Definition rule (path kind arg : string) (got : json) : list diff :=
  match kind with
  | "issuer" => rule_str path None (p_Issuer p) got
  | "client_id" => rule_str path None (p_ClientID p) got
  | "sub" => rule_str path (Some reDecimal) (p_Subject p) got
  | "app_sub" =>
      rule_str path (Some reAppSub) (if p_AppID p =? 0 then "" else "app:" +:+ itoa (p_AppID p)) got
  | "role" => rule_str path None (p_Role p) got
  | "email" => rule_str path (Some reEmail) (p_Email p) got
  | "name" => rule_str path None (p_Name p) got
  | "nonce" => rule_str path None (p_Nonce p) got
  | "tenant_id" => rule_str path (Some reUUID) (p_TenantID p) got
  | "jti" | "kid" => rule_str path (Some reUUID) "" got
  | "at_hash" | "n" => rule_str path (Some reB64URL) "" got
  | "jkt" =>
      if negb (String.eqb (p_JKT p) "") then rule_str path None (p_JKT p) got
      else match got with
           | JStr s => if (String.length s =? 43)%nat && reB64URL s then [] else fail path "want a thumbprint" (Some got)
           | _ => fail path "want a thumbprint" (Some got)
           end
  | "access_token" => rule_token path (p_AccessToken p) got
  | "refresh_token" => rule_token path (p_RefreshToken p) got
  | "id_token" => rule_token path (p_IDToken p) got
  | "scope" => rule_str path None (or_ (p_Scope p) arg) got
  | "attribute" =>
      match got with
      | JNull => fail path "want the attribute" None
      | _ => match default ∅ (p_Attributes p) !! arg with
             | Some v => if sameJSON v got then [] else fail path "want the attribute" (Some got)
             | None => []
             end
      end
  | "iat" | "nbf" | "auth_time" | "exp" | "refresh_exp" | "expires_in" => rule_integer path got
  | "token_version" =>
      if 0 <? p_TokenVersion p then
        match number got with
        | Some n => if float64.eqb n (float64.of_Z (p_TokenVersion p)) then [] else fail path "want the version" (Some got)
        | None => fail path "want the version" (Some got)
        end
      else rule_integer path got
  | "app_roles" => rule_roles path got
  | _ => fail path "fixture error: unknown placeholder" None
  end.

(** ** Documents *)

(** [conformance/match.go: matcher.ns] *)
Definition m_ns : string := or_ (p_ClaimsNamespace p) DefaultClaimsNamespace.

(** What a fixture's value demands of a document's value at a path. *)
Abbreviation check_at := (string → json → list diff) (only parsing).

(** [conformance/match.go:100-115] a string that is not a placeholder *)
Definition match_text (w path : string) (got : json) : list diff :=
  match got with
  | JStr g =>
      let '(w, accepted) :=
        match cut_at issuerToken w with
        | None => (w, false)
        | Some (before, after) =>
            if negb (String.eqb (p_Issuer p) "") then (ReplaceAll w issuerToken (p_Issuer p), false)
            else (w, has_prefix g before && has_suffix g after &&
                     (String.length before + String.length after <? String.length g)%nat)
        end in
      if accepted : bool then [] else if String.eqb g w then [] else fail path "want the string" (Some got)
  | _ => fail path "want a string" (Some got)
  end.

(** [conformance/match.go: matcher.matchObject]
    The expected members, already renamed, with what each demands. *)
Definition matchObject (path : string) (expected : gmap string check_at) (g : gmap string json) : list diff :=
  mjoin ((λ k, match g !! k, expected !! k with
               | None, _ => fail (join path k) "missing" None
               | Some gv, Some chk => chk (join path k) gv
               | _, None => []
               end) <$> sortedKeys expected) ++
  mjoin ((λ k, match expected !! k with
               | Some _ => []
               | None => fail (join path k) "not in the fixture" (g !! k)
               end) <$> sortedKeys g) ++
  match number (default JNull (g !! "iat")), number (default JNull (g !! "exp")) with
  | Some iat, Some exp => if float64.leb exp iat then fail (join path "exp") "not after iat" None else []
  | _, _ => []
  end.

(** The elements of an array against what is demanded of each. *)
Definition match_each (path : string) (from : nat) (ws : list check_at) (g : list json) : list diff :=
  mjoin (mapi (λ i wg, wg.1 (index path i) wg.2) from (zip ws g)).

(** [conformance/match.go:185-203] what follows the fixed entries of an audience *)
Definition match_audiences (path : string) (i : nat) (rest : list json) : list diff :=
  match p_Audiences p with
  | [] => mjoin (mapi (λ j el, match el with
                               | JStr s => if String.eqb s "" then fail (index path j) "want an audience" (Some el) else []
                               | _ => fail (index path j) "want an audience" (Some el)
                               end) i rest)
  | auds =>
      if negb (length rest =? length auds)%nat then fail path "want the audiences" (Some (JArr rest))
      else mjoin (mapi (λ j ar, if String.eqb (match ar.2 with JStr s => s | _ => "" end) ar.1 then []
                                else fail (index path j) "want the audience" (Some ar.2))
                    i (zip auds rest))
  end.

(** [conformance/match.go: matcher.matchArray]
    The elements of the fixture's array, with what each demands. *)
Definition matchArray (jwks : bool) (path : string) (w : list (json * check_at)) (g : list json) : list diff :=
  match (if jwks && String.eqb path "keys" then w else []) with
  | [(_, chk)] =>
      (match g with [] => fail path "no key" None | _ => [] end) ++ mjoin (mapi (λ i el, chk (index path i) el) 0 g)
  | _ =>
      match list_find (λ wc : json * check_at, is_str "<audience>" wc.1 = true) w with
      | Some (i, _) =>
          if negb (i =? length w - 1)%nat then fail path "fixture error: <audience> must be the last entry" None
          else if (length g <? i + 1)%nat then fail path "want fixed entries and audiences" (Some (JArr g))
          else match_each path 0 (take i w).*2 (take i g) ++ match_audiences path i (drop i g)
      | None =>
          if negb (length g =? length w)%nat then fail path "want as many entries" (Some (JArr g))
          else match_each path 0 w.*2 g
      end
  end.

(** [conformance/match.go: matcher.match] *)
Fixpoint match_ (jwks : bool) (want : json) (path : string) (got : json) {struct want} : list diff :=
  match want with
  | JObj w =>
      match got with
      | JObj g =>
          matchObject path
            (list_to_map (reverse ((λ kv, (ReplaceAll kv.1 nsToken m_ns, match_ jwks kv.2)) <$> w))) (raw_map g)
      | _ => fail path "want an object" (Some got)
      end
  | JArr w =>
      match got with
      | JArr g => matchArray jwks path ((λ x, (x, match_ jwks x)) <$> w) g
      | _ => fail path "want an array" (Some got)
      end
  | JStr w =>
      match placeholder w with
      | Some (kind, arg) => rule path kind arg got
      | None => match_text w path got
      end
  | JBool w => match got with
               | JBool g => if Bool.eqb g w then [] else fail path "want the boolean" (Some got)
               | _ => fail path "want the boolean" (Some got)
               end
  | JNum w => match number got, float64.of_literal w with
              | Some g, Some f => if float64.eqb g f then [] else fail path "want the number" (Some got)
              | _, _ => fail path "want the number" (Some got)
              end
  | JNull => match got with JNull => [] | _ => fail path "want null" (Some got) end
  end.

End rules.

(** [conformance/match.go: Match]
    [got] is the document marshalled, [None] when it cannot be. *)
Definition Match `{Lib} (name : string) (got : option string) (p : Params) : result string (list diff) :=
  rbind (parse name) (λ want,
    match got with
    | None => Err "conformance: marshal the document"
    | Some b =>
        match json_decode_first b with
        | None => Err "conformance: decode the document"
        | Some doc => Ok (match_ p (String.eqb name "jwks") (JObj want) "" doc)
        end
    end).

End conformance.
