(* ===== verification/FixtureFiles.v ===== *)
(** The fixture files embedded by src/conformance/conformance.go (the directory
    src/conformance/fixtures), with single quotes for double quotes. *)

From S2P Require Import Prelude GoText GoJson.

Module fixture_files.

Definition all : list (string * string) := [
("fixtures/access/audience_dual.json", dq "{
  'acr': 'pwd',
  'amr': [
    'pwd'
  ],
  'app_roles': '<app_roles>',
  'aud': [
    '<client_id>',
    '<audience>'
  ],
  'auth_time': '<auth_time>',
  'exp': '<exp>',
  'iat': '<iat>',
  'iss': '<issuer>',
  'jti': '<jti>',
  'nbf': '<nbf>',
  'role': '<role>',
  'roles': [
    '<role>'
  ],
  'scope': '<scope:openid profile email>',
  'sub': '<sub>',
  'token_version': '<token_version>',
  'type': 'access'
}
");
("fixtures/access/authorization_code.json", dq "{
  'acr': 'pwd',
  'amr': ['pwd'],
  'app_roles': '<app_roles>',
  'aud': ['<client_id>'],
  'auth_time': '<auth_time>',
  'exp': '<exp>',
  'iat': '<iat>',
  'iss': '<issuer>',
  'jti': '<jti>',
  'nbf': '<nbf>',
  'role': '<role>',
  'roles': ['<role>'],
  'scope': '<scope:openid profile email>',
  'sub': '<sub>',
  'token_version': '<token_version>',
  'type': 'access'
}
");
("fixtures/access/authorization_code_mfa.json", dq "{
  'acr': 'mfa',
  'amr': [
    'pwd',
    'otp',
    'mfa'
  ],
  'app_roles': '<app_roles>',
  'aud': [
    '<client_id>'
  ],
  'auth_time': '<auth_time>',
  'exp': '<exp>',
  'iat': '<iat>',
  'iss': '<issuer>',
  'jti': '<jti>',
  'nbf': '<nbf>',
  'role': '<role>',
  'roles': [
    '<role>'
  ],
  'scope': '<scope:openid profile email>',
  'sub': '<sub>',
  'token_version': '<token_version>',
  'type': 'access'
}
");
("fixtures/access/client_credentials.json", dq "{
  'aud': [
    '<client_id>'
  ],
  'exp': '<exp>',
  'iat': '<iat>',
  'iss': '<issuer>',
  'jti': '<jti>',
  'nbf': '<nbf>',
  'scope': '<scope:api>',
  'sub': '<app_sub>',
  'type': 'access'
}
");
("fixtures/access/client_credentials_audience_dual.json", dq "{
  'aud': [
    '<client_id>',
    '<audience>'
  ],
  'exp': '<exp>',
  'iat': '<iat>',
  'iss': '<issuer>',
  'jti': '<jti>',
  'nbf': '<nbf>',
  'scope': '<scope:api>',
  'sub': '<app_sub>',
  'type': 'access'
}
");
("fixtures/access/client_credentials_custom_claims.json", dq "{
  '<ns>client': '<client_id>',
  '<ns>tenant_id': '<tenant_id>',
  'aud': [
    '<client_id>'
  ],
  'exp': '<exp>',
  'iat': '<iat>',
  'iss': '<issuer>',
  'jti': '<jti>',
  'nbf': '<nbf>',
  'scope': '<scope:api>',
  'sub': '<app_sub>',
  'type': 'access'
}
");
("fixtures/access/client_credentials_dpop.json", dq "{
  'aud': [
    '<client_id>'
  ],
  'cnf': {
    'jkt': '<jkt>'
  },
  'exp': '<exp>',
  'iat': '<iat>',
  'iss': '<issuer>',
  'jti': '<jti>',
  'nbf': '<nbf>',
  'scope': '<scope:api>',
  'sub': '<app_sub>',
  'type': 'access'
}
");
("fixtures/access/custom_claims.json", dq "{
  '<ns>client': '<client_id>',
  '<ns>department': '<attribute:department>',
  '<ns>tenant_id': '<tenant_id>',
  'acr': 'pwd',
  'amr': [
    'pwd'
  ],
  'app_roles': '<app_roles>',
  'aud': [
    '<client_id>'
  ],
  'auth_time': '<auth_time>',
  'exp': '<exp>',
  'iat': '<iat>',
  'iss': '<issuer>',
  'jti': '<jti>',
  'nbf': '<nbf>',
  'role': '<role>',
  'roles': [
    '<role>'
  ],
  'scope': '<scope:openid profile email>',
  'sub': '<sub>',
  'token_version': '<token_version>',
  'type': 'access'
}
");
("fixtures/access/refresh.json", dq "{
  'acr': 'pwd',
  'amr': [
    'pwd'
  ],
  'app_roles': '<app_roles>',
  'aud': [
    '<client_id>'
  ],
  'auth_time': '<auth_time>',
  'exp': '<exp>',
  'iat': '<iat>',
  'iss': '<issuer>',
  'jti': '<jti>',
  'nbf': '<nbf>',
  'role': '<role>',
  'roles': [
    '<role>'
  ],
  'scope': '<scope:openid profile email>',
  'sub': '<sub>',
  'token_version': '<token_version>',
  'type': 'access'
}
");
("fixtures/discovery.json", dq "{
  'issuer': '<issuer>',
  'authorization_endpoint': '<issuer>/oauth/authorize',
  'token_endpoint': '<issuer>/oauth/token',
  'userinfo_endpoint': '<issuer>/oauth/userinfo',
  'jwks_uri': '<issuer>/.well-known/jwks.json',
  'introspection_endpoint': '<issuer>/oauth/introspect',
  'revocation_endpoint': '<issuer>/oauth/revoke',
  'response_types_supported': [
    'code'
  ],
  'grant_types_supported': [
    'authorization_code',
    'refresh_token',
    'client_credentials'
  ],
  'subject_types_supported': [
    'public'
  ],
  'id_token_signing_alg_values_supported': [
    'RS256'
  ],
  'scopes_supported': [
    'openid',
    'email',
    'profile',
    'offline_access',
    'api'
  ],
  'token_endpoint_auth_methods_supported': [
    'client_secret_basic',
    'client_secret_post'
  ],
  'claims_supported': [
    'sub',
    'iss',
    'aud',
    'exp',
    'iat',
    'nbf',
    'email',
    'email_verified',
    'name',
    'preferred_username',
    'picture',
    'role',
    'app_roles',
    'token_version',
    'auth_time',
    'acr',
    'amr',
    'act',
    'cnf'
  ],
  'code_challenge_methods_supported': [
    'S256'
  ],
  'prompt_values_supported': [
    'none',
    'login'
  ],
  'acr_values_supported': [
    'pwd',
    'mfa'
  ],
  'authorization_response_iss_parameter_supported': true
}
");
("fixtures/discovery_dpop.json", dq "{
  'issuer': '<issuer>',
  'authorization_endpoint': '<issuer>/oauth/authorize',
  'token_endpoint': '<issuer>/oauth/token',
  'userinfo_endpoint': '<issuer>/oauth/userinfo',
  'jwks_uri': '<issuer>/.well-known/jwks.json',
  'introspection_endpoint': '<issuer>/oauth/introspect',
  'revocation_endpoint': '<issuer>/oauth/revoke',
  'response_types_supported': [
    'code'
  ],
  'grant_types_supported': [
    'authorization_code',
    'refresh_token',
    'client_credentials'
  ],
  'subject_types_supported': [
    'public'
  ],
  'id_token_signing_alg_values_supported': [
    'RS256'
  ],
  'scopes_supported': [
    'openid',
    'email',
    'profile',
    'offline_access',
    'api'
  ],
  'token_endpoint_auth_methods_supported': [
    'client_secret_basic',
    'client_secret_post'
  ],
  'claims_supported': [
    'sub',
    'iss',
    'aud',
    'exp',
    'iat',
    'nbf',
    'email',
    'email_verified',
    'name',
    'preferred_username',
    'picture',
    'role',
    'app_roles',
    'token_version',
    'auth_time',
    'acr',
    'amr',
    'act',
    'cnf'
  ],
  'code_challenge_methods_supported': [
    'S256'
  ],
  'prompt_values_supported': [
    'none',
    'login'
  ],
  'acr_values_supported': [
    'pwd',
    'mfa'
  ],
  'dpop_signing_alg_values_supported': [
    'ES256'
  ],
  'authorization_response_iss_parameter_supported': true
}
");
("fixtures/id_token/authorization_code.json", dq "{
  'acr': 'pwd',
  'amr': [
    'pwd'
  ],
  'app_roles': '<app_roles>',
  'at_hash': '<at_hash>',
  'aud': [
    '<client_id>'
  ],
  'auth_time': '<auth_time>',
  'email': '<email>',
  'email_verified': true,
  'exp': '<exp>',
  'iat': '<iat>',
  'iss': '<issuer>',
  'jti': '<jti>',
  'name': '<name>',
  'nbf': '<nbf>',
  'nonce': '<nonce>',
  'preferred_username': '<email>',
  'role': '<role>',
  'sub': '<sub>',
  'type': 'id_token'
}
");
("fixtures/id_token/authorization_code_mfa.json", dq "{
  'acr': 'mfa',
  'amr': [
    'pwd',
    'otp',
    'mfa'
  ],
  'app_roles': '<app_roles>',
  'at_hash': '<at_hash>',
  'aud': [
    '<client_id>'
  ],
  'auth_time': '<auth_time>',
  'email': '<email>',
  'email_verified': true,
  'exp': '<exp>',
  'iat': '<iat>',
  'iss': '<issuer>',
  'jti': '<jti>',
  'name': '<name>',
  'nbf': '<nbf>',
  'nonce': '<nonce>',
  'preferred_username': '<email>',
  'role': '<role>',
  'sub': '<sub>',
  'type': 'id_token'
}
");
("fixtures/id_token/custom_claims.json", dq "{
  '<ns>tenant_id': '<tenant_id>',
  'acr': 'pwd',
  'amr': [
    'pwd'
  ],
  'app_roles': '<app_roles>',
  'at_hash': '<at_hash>',
  'aud': [
    '<client_id>'
  ],
  'auth_time': '<auth_time>',
  'email': '<email>',
  'email_verified': true,
  'exp': '<exp>',
  'iat': '<iat>',
  'iss': '<issuer>',
  'jti': '<jti>',
  'name': '<name>',
  'nbf': '<nbf>',
  'nonce': '<nonce>',
  'preferred_username': '<email>',
  'role': '<role>',
  'sub': '<sub>',
  'type': 'id_token'
}
");
("fixtures/id_token/refresh.json", dq "{
  'acr': 'pwd',
  'amr': [
    'pwd'
  ],
  'app_roles': '<app_roles>',
  'at_hash': '<at_hash>',
  'aud': [
    '<client_id>'
  ],
  'auth_time': '<auth_time>',
  'email': '<email>',
  'email_verified': true,
  'exp': '<exp>',
  'iat': '<iat>',
  'iss': '<issuer>',
  'jti': '<jti>',
  'name': '<name>',
  'nbf': '<nbf>',
  'preferred_username': '<email>',
  'role': '<role>',
  'sub': '<sub>',
  'type': 'id_token'
}
");
("fixtures/introspection/access.json", dq "{
  'acr': 'pwd',
  'active': true,
  'amr': [
    'pwd'
  ],
  'aud': [
    '<client_id>'
  ],
  'auth_time': '<auth_time>',
  'client_id': '<client_id>',
  'exp': '<exp>',
  'iat': '<iat>',
  'scope': '<scope:openid profile email>',
  'sub': '<sub>',
  'token_type': 'Bearer',
  'username': '<email>'
}
");
("fixtures/introspection/client_credentials.json", dq "{
  'active': true,
  'aud': [
    '<client_id>'
  ],
  'client_id': '<client_id>',
  'exp': '<exp>',
  'iat': '<iat>',
  'scope': '<scope:api>',
  'sub': '<app_sub>',
  'token_type': 'Bearer'
}
");
("fixtures/introspection/inactive.json", dq "{
  'active': false
}
");
("fixtures/jose_header.json", dq "{
  'alg': 'RS256',
  'kid': '<kid>',
  'typ': 'JWT'
}
");
("fixtures/jwks.json", dq "{
  'keys': [
    {
      'kty': 'RSA',
      'use': 'sig',
      'kid': '<kid>',
      'alg': 'RS256',
      'n': '<n>',
      'e': 'AQAB'
    }
  ]
}
");
("fixtures/refresh_token/authorization_code.json", dq "{
  'acr': 'pwd',
  'amr': [
    'pwd'
  ],
  'app_roles': '<app_roles>',
  'aud': [
    '<client_id>'
  ],
  'auth_time': '<auth_time>',
  'exp': '<refresh_exp>',
  'iat': '<iat>',
  'iss': '<issuer>',
  'jti': '<jti>',
  'nbf': '<nbf>',
  'role': '<role>',
  'roles': [
    '<role>'
  ],
  'scope': '<scope:openid profile email>',
  'sub': '<sub>',
  'type': 'refresh',
  'ver': '<token_version>'
}
");
("fixtures/token_response/authorization_code.json", dq "{
  'access_token': '<access_token>',
  'app_roles': '<app_roles>',
  'expires_in': '<expires_in>',
  'id_token': '<id_token>',
  'refresh_token': '<refresh_token>',
  'roles': [
    '<role>'
  ],
  'scope': '<scope:openid profile email>',
  'token_type': 'Bearer'
}
");
("fixtures/token_response/client_credentials.json", dq "{
  'access_token': '<access_token>',
  'expires_in': '<expires_in>',
  'scope': '<scope:api>',
  'token_type': 'Bearer'
}
");
("fixtures/token_response/refresh.json", dq "{
  'access_token': '<access_token>',
  'app_roles': '<app_roles>',
  'expires_in': '<expires_in>',
  'id_token': '<id_token>',
  'refresh_token': '<refresh_token>',
  'roles': [
    '<role>'
  ],
  'scope': '<scope:openid profile email>',
  'token_type': 'Bearer'
}
");
("fixtures/userinfo.json", dq "{
  'app_roles': '<app_roles>',
  'email': '<email>',
  'email_verified': true,
  'name': '<name>',
  'preferred_username': '<email>',
  'role': '<role>',
  'sub': '<sub>'
}
")
].

End fixture_files.
