(* ===== verification/FixtureMatch.v ===== *)
(** What [Load] produces, [Match] accepts: every document resolved from a
    well-formed fixture (src/conformance/conformance.go) satisfies the rules of
    match.go, whatever order its members are written in, for parameters in
    range; and what [Match] accepts follows the fixture. *)

From S2P Require Import Prelude GoText GoUrl Utf8 GoJson JsonRoundtrip GoFloat Numbers JwtKeys Http PendingLogin BffMisc Conformance FixtureFiles.
From Stdlib Require Import Floats.SpecFloat.

Module fixtures.
Import jwtkeys conformance numbers.

(** * Text *)

Lemma append_inj_r (a b c : string) : a +:+ c = b +:+ c → a = b.
Proof.
  revert b. induction a as [|x a IH]; intros [|y b]; rewrite ?append_nil, ?append_cons; [done| | |].
  - intros Hc. apply (f_equal String.length) in Hc. simpl in Hc. rewrite slength_app in Hc. lia.
  - intros Hc. apply (f_equal String.length) in Hc. simpl in Hc. rewrite slength_app in Hc. lia.
  - intros [= -> Hab]. by rewrite (IH b).
Qed.

Lemma has_prefix_app a b : has_prefix (a +:+ b) a = true.
Proof.
  unfold has_prefix. induction a as [|c a IH]; [by destruct b|]. rewrite append_cons. simpl.
  by destruct (ascii_dec c c).
Qed.

Lemma has_prefix_inv s a : has_prefix s a = true → s = a +:+ String.substring (String.length a) (String.length s - String.length a) s.
Proof.
  unfold has_prefix. revert s. induction a as [|c a IH]; intros s Hp.
  - rewrite append_nil. simpl. by rewrite Nat.sub_0_r, substring_zero.
  - destruct s as [|d s]; [done|]. simpl in Hp. destruct (ascii_dec c d) as [->|]; [|done].
    rewrite append_cons. simpl. f_equal. by apply IH.
Qed.

Lemma substring_skip a b n : String.substring (String.length a) n (a +:+ b) = String.substring 0 n b.
Proof. induction a as [|c a IH]; [by rewrite append_nil|]. rewrite append_cons. simpl. exact IH. Qed.

Lemma has_suffix_app a b : has_suffix (a +:+ b) b = true.
Proof.
  unfold has_suffix. rewrite slength_app. replace (_ + _ - _)%nat with (String.length a) by lia.
  rewrite substring_skip, substring_zero by done. rewrite (proj2 (Nat.leb_le _ _)) by lia. apply String.eqb_refl.
Qed.

Lemma cut_at_spec sep s a b : cut_at sep s = Some (a, b) → s = a +:+ sep +:+ b.
Proof.
  revert a b. induction s as [|c s IH]; intros a b; cbn [cut_at].
  - destruct (has_prefix "" sep) eqn:Hp; [|done]. intros [= <- <-]. rewrite append_nil. by apply has_prefix_inv.
  - destruct (has_prefix (String c s) sep) eqn:Hp.
    + intros [= <- <-]. rewrite append_nil. by apply has_prefix_inv.
    + destruct (cut_at sep s) as [[a' b']|]; [|done]. intros [= <- <-]. rewrite append_cons. f_equal. by apply IH.
Qed.

Lemma replace_skip old new u s : replace_from old new (String.length u) (u +:+ s) = replace_from old new 0 s.
Proof. induction u as [|c u IH]; [by rewrite append_nil|]. rewrite append_cons. simpl. exact IH. Qed.

(** The text without the token stays, and each token is replaced in turn. *)
Lemma ReplaceAll_none old new s : cut_at old s = None → ReplaceAll s old new = s.
Proof.
  unfold ReplaceAll. induction s as [|c s IH]; [done|]. cbn [cut_at replace_from].
  destruct (has_prefix _ _); [done|]. destruct (cut_at old s) as [[]|]; [done|]. intros _. by rewrite IH.
Qed.

Lemma ReplaceAll_cut old new s a b :
  old ≠ "" → cut_at old s = Some (a, b) → ReplaceAll s old new = a +:+ new +:+ ReplaceAll b old new.
Proof.
  unfold ReplaceAll. intros Hold. revert a b. induction s as [|c s IH]; intros a b; cbn [cut_at].
  - destruct old; [done|]. done.
  - destruct (has_prefix (String c s) old) eqn:Hp.
    + intros [= <- <-]. rewrite append_nil. cbn [replace_from]. rewrite Hp.
      pose proof (has_prefix_inv _ _ Hp) as Hs. destruct old as [|d old]; [done|].
      rewrite append_cons in Hs. injection Hs as -> Hs. simpl in Hs. f_equal.
      rewrite Hs at 1. simpl. rewrite Nat.sub_0_r. apply replace_skip.
    + destruct (cut_at old s) as [[a' b']|] eqn:Hcut; [|done]. intros [= <- <-].
      cbn [replace_from]. rewrite Hp, append_cons. f_equal. by apply IH.
Qed.

(** * Random text *)

Lemma b64_char_url v : 0 ≤ v < 64 → b64url (byte_of (b64_char v)) = true.
Proof.
  intros Hv. assert (v ∈ seqZ 0 64) as Hin by (apply elem_of_seqZ; lia).
  assert (forallb (λ v, b64url (byte_of (b64_char v))) (seqZ 0 64) = true) as Hall by (vm_compute; reflexivity).
  rewrite forallb_forall in Hall. by apply (Hall v), list_elem_of_In.
Qed.

Lemma b64_encode_url s : s ≠ "" → reB64URL (b64_encode s) = true.
Proof.
  intros Hs. unfold reB64URL, nonempty. apply andb_true_iff. split.
  - destruct s as [|c s]; [done|]. apply negb_true_iff, String.eqb_neq. unfold b64_encode. cbn [bytes].
    destruct (bytes s) as [|? [|? ?]]; done.
  - unfold b64_encode. pose proof (bff.b64_encode_range (bytes s) (bytes_range s)) as Hr.
    induction Hr as [|v vs Hv _ IH]; [done|]. cbn [fold_right all_bytes]. by rewrite b64_char_url.
Qed.

Lemma b64_encode_length s : String.length (b64_encode s) = length (b64_encode_bytes (bytes s)).
Proof. unfold b64_encode. induction (b64_encode_bytes (bytes s)) as [|v vs IH]; [done|]. simpl. by rewrite IH. Qed.

Lemma bytes_length s : length (bytes s) = String.length s.
Proof. induction s as [|c s IH]; [done|]. simpl. by rewrite IH. Qed.

Lemma b64_encode_32 s : String.length s = 32%nat → String.length (b64_encode s) = 43%nat.
Proof.
  intros Hs. rewrite b64_encode_length. rewrite <- bytes_length in Hs. revert Hs. generalize (bytes s). clear s. intros l Hl.
  do 32 (destruct l as [|? l]; [done|]). by destruct l.
Qed.

(** * Documents up to the order of their members *)

Lemma mjoin_nil {A} (l : list (list A)) : Forall (λ x, x = []) l → mjoin l = [].
Proof. induction 1 as [|x l -> _ IH]; [done|]. exact IH. Qed.

Lemma mjoin_nil_inv {A} (l : list (list A)) : mjoin l = [] → Forall (λ x, x = []) l.
Proof. induction l as [|x l IH]; [constructor|]. simpl. intros [-> Hl]%app_nil. constructor; [done|by apply IH]. Qed.

Lemma sortedKeys_elem {V} k (m : gmap string V) : k ∈ sortedKeys m ↔ is_Some (m !! k).
Proof. unfold sortedKeys. by rewrite merge_sort_Permutation, elem_of_elements, elem_of_dom. Qed.

Lemma list_to_map_Forall2 {A B} (R : A → B → Prop) (l : list (string * A)) (k : list (string * B)) x :
  Forall2 (λ a b, a.1 = b.1 ∧ R a.2 b.2) l k →
  option_Forall2 R ((list_to_map l : gmap string A) !! x) ((list_to_map k : gmap string B) !! x).
Proof.
  induction 1 as [|[a u] [b v] l k [Hab HR] _ IH]; simpl in *; [rewrite !lookup_empty; constructor|]. subst b.
  destruct (decide (x = a)) as [->|Hne]; [rewrite !lookup_insert_eq; by constructor|].
  by rewrite !lookup_insert_ne.
Qed.

(** The same document, whatever order the members of its objects are written
    in: of several members with one name the last counts, as for a decoder that
    fills a map. *)
Inductive same : json → json → Prop :=
  | same_refl v : same v v
  | same_array l k : Forall2 same l k → same (JArr l) (JArr k)
  | same_object l k : (∀ x, option_Forall2 same (raw_map l !! x) (raw_map k !! x)) → same (JObj l) (JObj k).

Lemma same_number v v' : same v v' → number v = number v'.
Proof. by intros []. Qed.

Lemma same_str v v' s : same v v' → v = JStr s → v' = JStr s.
Proof. by intros []. Qed.

Lemma same_dom (g g' : gmap string json) : (∀ x, option_Forall2 same (g !! x) (g' !! x)) → dom g = dom g'.
Proof.
  intros Hs. apply set_eq. intros x. rewrite !elem_of_dom. by destruct (Hs x); split; intros [? [=]]; eauto.
Qed.

(** A value equal to one of two documents that are the same equals the other. *)
Lemma sameJSON_same v got got' : sameJSON v got = true → same got got' → sameJSON v got' = true.
Proof.
  revert got got'. induction v as [|b|lit|s|l IH|l IH] using json_ind'; intros got got' Hv Hs;
    (destruct Hs as [got|g k Hg|g k Hg]; [done|..]); try done; cbn [sameJSON] in *.
  - apply andb_true_iff in Hv as [Hl Hv]. rewrite <- (Forall2_length _ _ _ Hg), Hl. simpl. clear Hl.
    revert g k Hg Hv. induction IH as [|x l Hx _ IHl]; intros g k Hg Hv; [done|].
    destruct Hg as [|y z g k Hy Hg]; [done|]. simpl in *. apply andb_true_iff in Hv as [Hv1 Hv2].
    apply andb_true_iff. split; [by eapply Hx|by eapply IHl].
  - apply andb_true_iff in Hv as [Hd%bool_decide_eq_true Hv]. pose proof (same_dom _ _ Hg) as Hdom.
    apply andb_true_iff. split; [apply bool_decide_eq_true; congruence|].
    rewrite forallb_forall in *. intros x Hx. specialize (Hv x Hx).
    destruct (list_to_map _ !! x) as [f|] eqn:Hf in Hv |- *; [|done].
    apply elem_of_list_to_map_2, elem_of_reverse, list_elem_of_fmap in Hf as ([n v] & [= -> ->] & Hin).
    rewrite Forall_forall in IH. destruct (Hg n) as [y z Hyz|]; [|done]. by eapply (IH _ Hin).
Qed.

(** The keys of a marshalled map are in order; it is the same document. *)
Lemma same_as_map v : same v (as_map v).
Proof.
  induction v as [| | | |l IH|l IH] using json_ind'; try by constructor.
  - cbn [as_map]. apply same_array. induction IH; by constructor.
  - cbn [as_map]. set (m := list_to_map _ : gmap string json). apply same_object. intros x.
    assert (raw_map ((λ k, (k, default JNull (m !! k))) <$> sortedKeys m) !! x = m !! x) as ->.
    { unfold raw_map. destruct (m !! x) as [v|] eqn:Hx.
      - apply elem_of_list_to_map_1.
        + rewrite fmap_reverse, <- list_fmap_compose, list_fmap_id, (reverse_Permutation (sortedKeys m)).
          unfold sortedKeys. rewrite merge_sort_Permutation. apply NoDup_elements.
        + apply elem_of_reverse, list_elem_of_fmap. exists x. rewrite Hx. split; [done|]. apply sortedKeys_elem. eauto.
      - apply not_elem_of_list_to_map_1. intros (kv & -> & Hin)%list_elem_of_fmap.
        apply elem_of_reverse, list_elem_of_fmap in Hin as (k & -> & [? Hk]%sortedKeys_elem). simpl in *. congruence. }
    apply list_to_map_Forall2, Forall2_reverse, Forall2_fmap_r, Forall_Forall2_diag.
    apply (Forall_impl _ _ _ IH). intros kv Hkv. by split.
Qed.

Section same_document.
Variable p : Params.

Lemma roles_same path l k :
  (∀ x, option_Forall2 same (raw_map l !! x) (raw_map k !! x)) →
  rule_roles p path (JObj l) = [] → rule_roles p path (JObj k) = [].
Proof.
  intros Hs. unfold rule_roles. destruct (decide (raw_map l = ∅)) as [|Hne]; [done|]. intros [Hr Hc]%app_nil.
  assert (raw_map l = raw_map k) as <-; [|by rewrite decide_False, Hr, Hc].
  apply map_eq. intros x. apply mjoin_nil_inv in Hr. rewrite Forall_fmap, Forall_forall in Hr.
  destruct (raw_map l !! x) as [v|] eqn:Hv; [|by specialize (Hs x); rewrite Hv in Hs; inversion Hs].
  specialize (Hr x (proj2 (sortedKeys_elem _ _) (mk_is_Some _ _ Hv))). unfold compose in Hr. rewrite Hv in Hr.
  specialize (Hs x). rewrite Hv in Hs. inversion Hs as [? z Hz|]; subst. f_equal.
  destruct v as [| | |w| |]; try done. symmetry. by eapply same_str.
Qed.

Lemma rule_structured path kind arg got :
  (∀ s, got ≠ JStr s) → number got = None → rule p path kind arg got = [] → kind = "attribute" ∨ kind = "app_roles".
Proof.
  intros Hstr Hnum.
  assert (∀ re ex, rule_str path re ex got ≠ []) as H1 by (intros; destruct got; try discriminate; by destruct (Hstr s)).
  assert (rule_integer path got ≠ []) as H2 by (unfold rule_integer; by rewrite Hnum).
  assert (∀ t, rule_token path t got ≠ []) as H3 by (intros; destruct got; try discriminate; by destruct (Hstr s)).
  unfold rule. rewrite Hnum.
  replace (match got with JStr s => if (String.length s =? 43)%nat && reB64URL s then [] else fail path "want a thumbprint" (Some got)
     | _ => fail path "want a thumbprint" (Some got) end) with (fail path "want a thumbprint" (Some got))
    by (destruct got; try done; by destruct (Hstr s)).
  generalize (rule_roles p path got).
  generalize (match got with
      | JNull => fail path "want the attribute" None
      | _ => match default ∅ (p_Attributes p) !! arg with
             | Some v => if sameJSON v got then [] else fail path "want the attribute" (Some got)
             | None => []
             end
      end). intros att roles.
  clear Hstr Hnum.
  repeat match goal with |- context [match ?x with _ => _ end] => is_var x; destruct x; try discriminate end;
    try (intros; by left); try (intros; by right); repeat case_match; intros Hm; exfalso; try discriminate;
    first [exact (H1 _ _ Hm)|exact (H2 Hm)|exact (H3 _ Hm)].
Qed.

Lemma rule_same path kind arg got got' : same got got' → rule p path kind arg got = [] → rule p path kind arg got' = [].
Proof.
  intros Hs Hr. assert (∀ v, sameJSON v got = true → sameJSON v got' = true) as Hatt.
  { intros v Hv. by eapply sameJSON_same. }
  destruct Hs as [got|l k Hl|l k Hl]; [done|..]; pose proof Hr as Hk;
    (apply rule_structured in Hk as [->| ->]; [| |done|done]); revert Hr; cbn [rule]; [|done| |by apply roles_same];
    (destruct (default ∅ (p_Attributes p) !! arg) as [v|]; [|done]);
    destruct (sameJSON v _) eqn:Hv; try discriminate; by rewrite Hatt.
Qed.

Lemma text_same w path got got' : same got got' → match_text p w path got = [] → match_text p w path got' = [].
Proof. by intros []. Qed.

Lemma matchObject_same path (expected : gmap string (string → json → list diff)) (g g' : gmap string json) :
  (∀ k chk, expected !! k = Some chk → ∀ path v v', same v v' → chk path v = [] → chk path v' = []) →
  (∀ x, option_Forall2 same (g !! x) (g' !! x)) → matchObject path expected g = [] → matchObject path expected g' = [].
Proof.
  intros Hchk Hs. unfold matchObject. intros [Hw [Hg Ht]%app_nil]%app_nil. apply mjoin_nil_inv in Hw, Hg.
  rewrite Forall_fmap, Forall_forall in Hw, Hg.
  assert (∀ k, number (default JNull (g !! k)) = number (default JNull (g' !! k))) as Hn.
  { intros k. destruct (Hs k); [by apply same_number|done]. }
  rewrite <- !Hn, Ht. rewrite !mjoin_nil; [done|..]; apply Forall_fmap, Forall_forall; intros k Hk; unfold compose.
  - assert (k ∈ sortedKeys g) as Hkg.
    { apply sortedKeys_elem. apply sortedKeys_elem in Hk as [? Hk]. destruct (Hs k); [eauto|done]. }
    specialize (Hg k Hkg). unfold compose in Hg. destruct (expected !! k); [done|].
    apply sortedKeys_elem in Hkg as [v Hv]. rewrite Hv in Hg. done.
  - specialize (Hw k Hk). unfold compose in Hw. apply sortedKeys_elem in Hk as [chk Hk]. rewrite Hk in *.
    destruct (Hs k) as [v v' Hv|]; [|done]. by eapply Hchk.
Qed.

Lemma match_each_same path i l g g' :
  Forall (λ x, ∀ path got got', same got got' → match_ p false x path got = [] → match_ p false x path got' = []) l →
  Forall2 same g g' →
  match_each path i ((λ x, (x, match_ p false x)) <$> l).*2 g = [] →
  match_each path i ((λ x, (x, match_ p false x)) <$> l).*2 g' = [].
Proof.
  unfold match_each. rewrite <- list_fmap_compose. unfold compose. simpl. intros Hl. revert i g g'.
  induction Hl as [|x l Hx _ IH]; intros i g g' Hg; [done|]. destruct Hg as [|y y' g g' Hy Hg]; [done|]. simpl.
  intros [Hxy Hm]%app_nil. rewrite (Hx _ _ _ Hy Hxy). by eapply IH.
Qed.

Lemma audiences_same path i g g' :
  Forall2 same g g' → match_audiences p path i g = [] → match_audiences p path i g' = [].
Proof.
  intros Hg. unfold match_audiences. destruct (p_Audiences p) as [|a auds].
  - revert i. induction Hg as [|y y' g g' Hy _ IH]; intros i; [done|]. simpl. intros [Hxy Hm]%app_nil.
    rewrite (IH _ Hm), app_nil_r. destruct y as [| | |s| |]; try done. by rewrite (same_str _ _ s Hy).
  - rewrite <- (Forall2_length _ _ _ Hg). destruct (_ =? _)%nat; [|done]. simpl negb. cbv iota.
    generalize (a :: auds). clear a auds. revert i. induction Hg as [|y y' g g' Hy _ IH]; intros i [|a auds]; try done.
    cbn [zip zip_with mapi mjoin list_join fst snd]. intros [Hxy Hm]%app_nil. apply app_nil.
    split; [destruct Hy; [done|by destruct a..]|exact (IH _ _ Hm)].
Qed.

(** Whether a document is accepted does not depend on the order of members. *)
Lemma match_same want path got got' :
  same got got' → match_ p false want path got = [] → match_ p false want path got' = [].
Proof.
  revert path got got'. induction want as [|b|lit|s|l IH|l IH] using json_ind'; intros path got got' Hs; cbn [match_].
  - by destruct Hs.
  - by destruct Hs.
  - by rewrite (same_number _ _ Hs); destruct Hs.
  - destruct (placeholder s) as [[kind arg]|]; [by apply rule_same|by apply text_same].
  - destruct Hs as [got|g k Hg|]; [done| |done]. unfold matchArray. simpl andb. cbv iota.
    rewrite <- (Forall2_length _ _ _ Hg). destruct (list_find _ _) as [[i wc]|].
    + destruct (negb _); [done|]. destruct (_ <? _)%nat; [done|]. intros [Hm Ha]%app_nil. rewrite <- !fmap_take in *.
      rewrite (match_each_same _ _ _ _ _ (Forall_take _ _ _ IH) (Forall2_take _ _ _ i Hg) Hm).
      simpl. eapply audiences_same; [by apply Forall2_drop|done].
    + destruct (negb _); [done|]. by apply match_each_same.
  - destruct Hs as [got| |g k Hg]; [done|done|]. apply matchObject_same; [|done].
    intros x chk Hx pth v v'. apply elem_of_list_to_map_2, elem_of_reverse, list_elem_of_fmap in Hx as (kv & [= -> ->] & Hin).
    rewrite Forall_forall in IH. by apply IH.
Qed.

End same_document.

(** * Well-formed fixtures and parameters *)

(** What the libraries promise: UUIDs in their text form, as many random bytes
    as were asked for, and 32 bytes of hash. *)
Class LibLaws `{Lib} := {
  new_uuid_text : ∀ at_, reUUID (new_uuid at_) = true;
  rand_bytes_length : ∀ at_ n, 0 ≤ n → slen (rand_bytes at_ n) = n;
  sum256_length : ∀ s, slen (sum256 s) = 32;
}.

Section fixtures.
Context `{LibLaws}.
Variable p : Params.

Definition refresh_ttl : Duration := if p_RefreshTTL p <=? 0 then DefaultRefreshTTL else p_RefreshTTL p.
Definition exact_int (z : Z) : bool := (0 <? z) && (z <? 2 ^ 53).

(** Times after 1970 that a float64 holds, lifetimes of at least a second, and a
    first key whose ID is a UUID. *)
Definition good_params : bool :=
  exact_int (unix_of (now p)) &&
  exact_int (if time_IsZero (p_AuthTime p) then unix_of (now p) else unix_of (p_AuthTime p)) &&
  (Second <=? ttl p) && exact_int (unix_of (time_Add (now p) (ttl p))) &&
  (Second <=? refresh_ttl) && exact_int (unix_of (time_Add (now p) refresh_ttl)) &&
  exact_int (float64.trunc (float64.seconds_of (ttl p))) &&
  (p_TokenVersion p <? 2 ^ 53) &&
  match p_Keys p with k :: _ => String.eqb (key_ID k) "" || reUUID (key_ID k) | [] => true end.

(** The placeholders that always have a value, and what the others need. *)
Definition plain_kinds : list string :=
  ["issuer"; "client_id"; "sub"; "app_sub"; "role"; "app_roles"; "email"; "name"; "nonce"; "tenant_id"; "iat"; "nbf";
   "auth_time"; "exp"; "refresh_exp"; "expires_in"; "jti"; "kid"; "token_version"; "at_hash"; "jkt"].

Definition attribute_ok (v : json) : bool := match v with JNull => false | _ => sameJSON v v end.

Definition has_value (kind arg : string) : bool :=
  if bool_decide (kind ∈ plain_kinds) then true
  else if String.eqb kind "scope" then negb (String.eqb (or_ (p_Scope p) arg) "")
  else if String.eqb kind "attribute" then
    match default {["department" := JStr "engineering"]} (p_Attributes p) !! arg with
    | Some v => attribute_ok v
    | None => false
    end
  else if String.eqb kind "access_token" then reJWS (p_AccessToken p)
  else if String.eqb kind "refresh_token" then reJWS (p_RefreshToken p)
  else if String.eqb kind "id_token" then reJWS (p_IDToken p)
  else false.

(** The issuer stands at most once in a text. *)
Definition text_ok (s : string) : bool :=
  match cut_at issuerToken s with
  | Some (_, after) => match cut_at issuerToken after with Some _ => false | None => true end
  | None => true
  end.

Definition rename (kv : string * json) : string * json := (ReplaceAll kv.1 nsToken (ns p), kv.2).

(** Issue and expiry times stand together, as the resolver fills them. *)
Definition times_ok (m : gmap string json) : bool :=
  match m !! "iat", m !! "exp" with
  | Some iat, Some exp => is_str "<iat>" iat && (is_str "<exp>" exp || is_str "<refresh_exp>" exp)
  | _, _ => true
  end.

Fixpoint fixture_ok (v : json) : bool :=
  match v with
  | JObj l =>
      bool_decide (NoDup (rename <$> l).*1) && times_ok (raw_map (rename <$> l)) && forallb (λ kv, fixture_ok kv.2) l
  | JArr l =>
      forallb (λ x, is_str "<audience>" x || fixture_ok x) l &&
      forallb (λ x, negb (is_str "<audience>" x)) (removelast l)
  | JStr s => match placeholder s with Some (kind, arg) => has_value kind arg | None => text_ok s end
  | JNum lit => match float64.of_literal lit with Some f => float64.eqb f f | None => false end
  | _ => true
  end.

(** * Placeholders *)

Definition accepted (kind arg : string) (v : json) : Prop := ∀ path, rule p path kind arg v = [].

Lemma or_nonempty s d : d ≠ "" → String.eqb (or_ s d) "" = false.
Proof. intros Hd. unfold or_. destruct (String.eqb s "") eqn:Hs; [by apply String.eqb_neq|done]. Qed.

(** A value set in the parameters is demanded exactly; the default satisfies the
    pattern. *)
Lemma rule_str_or path re s d :
  match re with Some re => re d = true | None => d ≠ "" end → rule_str path re s (JStr (or_ s d)) = [].
Proof.
  intros Hd. unfold rule_str, or_. destruct (String.eqb s "") eqn:Hs; simpl.
  - destruct re as [re|]; [by rewrite Hd|]. by apply String.eqb_neq in Hd as ->.
  - by rewrite String.eqb_refl.
Qed.

Lemma exact_int_spec z : exact_int z = true → 0 < z < 2 ^ 53.
Proof. unfold exact_int. intros [?%Z.ltb_lt ?%Z.ltb_lt]%andb_true_iff. lia. Qed.

Lemma number_itoa z : exact_int z = true → number (JNum (itoa z)) = Some (float64.of_Z z).
Proof. intros Hz%exact_int_spec. by apply of_literal_itoa. Qed.

Lemma rule_integer_itoa path z : exact_int z = true → rule_integer path (JNum (itoa z)) = [].
Proof.
  intros Hz. unfold rule_integer. rewrite number_itoa by done. apply exact_int_spec in Hz.
  rewrite is_integer_of_Z by done. unfold float64.ltb, SFltb. rewrite compare_of_Z by (done || lia).
  by destruct (Z.compare_spec z 1); simpl; try done; lia.
Qed.

Lemma rule_token_jws path s : reJWS s = true → rule_token path s (JStr s) = [].
Proof. intros Hs. unfold rule_token. by rewrite Hs, String.eqb_refl, andb_false_r. Qed.

Lemma rand_nonempty at_ n : 0 < n → rand_bytes at_ n ≠ "".
Proof.
  intros Hn Heq. pose proof (rand_bytes_length at_ n ltac:(lia)) as Hl. rewrite Heq in Hl. unfold slen in Hl.
  simpl in Hl. lia.
Qed.

Lemma atHash_text s : reB64URL (atHash s) = true.
Proof.
  unfold atHash. apply b64_encode_url. pose proof (sum256_length s) as Hl. unfold slen in Hl.
  destruct (sum256 s) as [|c w]; [simpl in Hl; lia|]. by replace (String.length (String c w)) with 32%nat by lia.
Qed.

Lemma rule_roles_self path : rule_roles p path (JObj [(clientID p, JStr (role p))]) = [].
Proof.
  unfold rule_roles. set (v := JStr (role p)).
  assert (raw_map [(clientID p, v)] = {[clientID p := v]}) as -> by done.
  rewrite decide_False by (apply map_non_empty_singleton).
  unfold sortedKeys. rewrite dom_singleton_L, elements_singleton.
  change (merge_sort string_le [clientID p]) with [clientID p]. cbn [fmap list_fmap mjoin list_join].
  rewrite lookup_singleton_eq. subst v. cbv iota.
  assert (String.eqb (role p) "" = false) as -> by (by apply or_nonempty). simpl.
  unfold clientID, role, or_ in *. destruct (String.eqb (p_ClientID p) "") eqn:Hc; [done|].
  rewrite lookup_singleton_eq. simpl. destruct (String.eqb (p_Role p) ""); [done|]. by rewrite String.eqb_refl.
Qed.

Context (Hgood : good_params = true).

Lemma good_params_spec :
  exact_int (unix_of (now p)) = true ∧
  exact_int (if time_IsZero (p_AuthTime p) then unix_of (now p) else unix_of (p_AuthTime p)) = true ∧
  Second ≤ ttl p ∧ exact_int (unix_of (time_Add (now p) (ttl p))) = true ∧
  Second ≤ refresh_ttl ∧ exact_int (unix_of (time_Add (now p) refresh_ttl)) = true ∧
  exact_int (float64.trunc (float64.seconds_of (ttl p))) = true ∧ p_TokenVersion p < 2 ^ 53 ∧
  match p_Keys p with k :: _ => String.eqb (key_ID k) "" || reUUID (key_ID k) = true | [] => True end.
Proof.
  unfold good_params in Hgood. rewrite !andb_true_iff, !Z.leb_le, Z.ltb_lt in Hgood.
  destruct Hgood as [[[[[[[[? ?] ?] ?] ?] ?] ?] ?] Hk]. split_and!; try done. by destruct (p_Keys p).
Qed.

Lemma kid_accepted at_ : ∃ s, value p at_ "kid" "" = Ok (JStr s) ∧ reUUID s = true.
Proof.
  destruct good_params_spec as (_ & _ & _ & _ & _ & _ & _ & _ & Hk). cbn [value].
  destruct (p_Keys p) as [|k l]; [eexists; split; [done|apply new_uuid_text]|].
  destruct (String.eqb (key_ID k) ""); [eexists; split; [done|apply new_uuid_text]|]. by exists (key_ID k).
Qed.

Lemma token_version_accepted at_ :
  ∃ v, value p at_ "token_version" "" = Ok v ∧ accepted "token_version" "" v.
Proof.
  destruct good_params_spec as (_ & _ & _ & _ & _ & _ & _ & Hv & _). unfold accepted. cbn [value rule].
  destruct (Z.ltb_spec 0 (p_TokenVersion p)) as [Hpos|]; eexists; (split; [done|]); intros path.
  - rewrite number_itoa by (unfold exact_int; by rewrite !(proj2 (Z.ltb_lt _ _))).
    unfold float64.eqb, SFeqb. rewrite compare_of_Z by done. by rewrite Z.compare_refl.
  - by apply rule_integer_itoa.
Qed.

Lemma plain_accepted kind at_ arg :
  kind ∈ plain_kinds → ∃ v, value p at_ kind arg = Ok v ∧ accepted kind arg v.
Proof.
  intros Hk. destruct good_params_spec as (Hnow & Hauth & _ & Hexp & _ & Hrexp & Hin & _ & _). unfold accepted.
  unfold plain_kinds in Hk. repeat (apply elem_of_cons in Hk as [->|Hk]); [..|by apply not_elem_of_nil in Hk];
    try (eexists; split; [reflexivity|]; intros path;
         first [by apply rule_integer_itoa|by apply rule_str_or|apply rule_roles_self]).
  - eexists. split; [reflexivity|]. intros path. cbn [rule]. unfold rule_str. destruct (p_AppID p =? 0) eqn:Ha; [done|].
    simpl. by rewrite String.eqb_refl.
  - eexists. split; [reflexivity|]. intros path. apply rule_str_or. intros He.
    by pose proof (b64_encode_url (rand_bytes at_ 12) (rand_nonempty at_ 12 ltac:(lia))) as Hb; unfold randomB64 in He; rewrite He in Hb.
  - eexists. split; [reflexivity|]. intros path. cbn [rule]. unfold rule_str. simpl. by rewrite new_uuid_text.
  - destruct (kid_accepted at_) as (s & Hs & Hu). exists (JStr s). split; [exact Hs|]. intros path. cbn [rule].
    unfold rule_str. simpl. by rewrite Hu.
  - exact (token_version_accepted at_).
  - assert (∃ s, value p at_ "at_hash" arg = Ok (JStr s) ∧ reB64URL s = true) as (s & Hs & Hb).
    { cbn [value]. destruct (String.eqb (p_AccessToken p) ""); eexists; (split; [done|]); [|apply atHash_text].
      apply b64_encode_url, rand_nonempty. lia. }
    exists (JStr s). split; [exact Hs|]. intros path. cbn [rule]. unfold rule_str. simpl. by rewrite Hb.
  - eexists. split; [reflexivity|]. intros path. cbn [rule]. unfold or_.
    destruct (String.eqb (p_JKT p) "") eqn:Hj; simpl; [|unfold rule_str; by rewrite Hj, String.eqb_refl].
    pose proof (rand_bytes_length at_ 32 ltac:(lia)) as Hl. unfold slen in Hl.
    unfold randomB64. rewrite b64_encode_32 by lia. by rewrite b64_encode_url by (apply rand_nonempty; lia).
Qed.

Lemma placeholder_accepted kind at_ arg :
  has_value kind arg = true → ∃ v, value p at_ kind arg = Ok v ∧ accepted kind arg v.
Proof.
  unfold has_value. case_bool_decide as Hk; [intros _; by apply plain_accepted|]. clear Hk. unfold accepted.
  assert (∀ s, reJWS s = true → String.eqb s "" = false) as Hjws by (intros [|c s]; done).
  destruct (String.eqb_spec kind "scope") as [->|_]; [|destruct (String.eqb_spec kind "attribute") as [->|_];
    [|destruct (String.eqb_spec kind "access_token") as [->|_]; [|destruct (String.eqb_spec kind "refresh_token") as [->|_];
    [|destruct (String.eqb_spec kind "id_token") as [->|_]; [|done]]]]]; cbn [value].
  - intros Hs%negb_true_iff. eexists. split; [reflexivity|]. intros path. cbn [rule]. unfold rule_str.
    by rewrite Hs, String.eqb_refl.
  - destruct (default _ (p_Attributes p) !! arg) as [v|] eqn:Hv; [|done]. intros Hok. exists v. split; [done|].
    intros path. cbn [rule]. destruct (p_Attributes p) as [m|]; cbn [default from_option id] in *.
    + rewrite Hv. by destruct v; cbn [attribute_ok] in Hok; rewrite ?Hok.
    + rewrite lookup_empty. by destruct v.
  - intros Hs. rewrite (Hjws _ Hs). eexists. split; [reflexivity|]. intros path. by apply rule_token_jws.
  - intros Hs. rewrite (Hjws _ Hs). eexists. split; [reflexivity|]. intros path. by apply rule_token_jws.
  - intros Hs. rewrite (Hjws _ Hs). eexists. split; [reflexivity|]. intros path. by apply rule_token_jws.
Qed.

(** * Documents *)

Definition conforms (want out : json) : Prop := ∀ path, match_ p false want path out = [].

Lemma text_accepted s path :
  text_ok s = true → match_text p s path (JStr (ReplaceAll s issuerToken (issuer p))) = [].
Proof.
  unfold text_ok, match_text. destruct (cut_at issuerToken s) as [[before after]|] eqn:Hc.
  - destruct (cut_at issuerToken after) eqn:Ha; [done|]. intros _. unfold issuer, or_.
    destruct (String.eqb (p_Issuer p) ""); simpl; [|by rewrite String.eqb_refl].
    assert (issuerToken ≠ "") as Hne by (unfold issuerToken; done).
    rewrite (ReplaceAll_cut _ _ _ _ _ Hne Hc), (ReplaceAll_none _ _ _ Ha).
    rewrite has_prefix_app. rewrite <- append_assoc at 1. rewrite has_suffix_app, !slength_app.
    by rewrite (proj2 (Nat.ltb_lt _ _)) by (simpl; lia).
  - intros _. rewrite ReplaceAll_none by done. by rewrite String.eqb_refl.
Qed.

(** The document has the fixture's members, and each conforms. *)
Lemma matchObject_ok path (expected : gmap string (string → json → list diff)) (g : gmap string json) :
  (∀ k, option_Forall2 (λ chk v, ∀ path, chk path v = []) (expected !! k) (g !! k)) →
  (∀ iat exp, number (default JNull (g !! "iat")) = Some iat → number (default JNull (g !! "exp")) = Some exp →
     float64.leb exp iat = false) →
  matchObject path expected g = [].
Proof.
  intros Hall Htimes. unfold matchObject. rewrite !mjoin_nil; simpl.
  - destruct (number (default JNull (g !! "iat"))) as [iat|]; [|done].
    destruct (number (default JNull (g !! "exp"))) as [exp|]; [|done]. by rewrite (Htimes iat exp).
  - apply Forall_fmap, Forall_forall. intros k [? Hk]%sortedKeys_elem. unfold compose. by destruct (Hall k).
  - apply Forall_fmap, Forall_forall. intros k [? Hk]%sortedKeys_elem. unfold compose.
    destruct (Hall k) as [chk v Hv|]; [by apply Hv|done].
Qed.

Lemma now_before d : Second ≤ d → unix_of (now p) < unix_of (time_Add (now p) d).
Proof.
  intros Hd. unfold unix_of, time_Add. assert ((now p + Second) / Second ≤ (now p + d) / Second).
  { apply Z.div_le_mono; [done|lia]. }
  replace (now p + Second) with (now p + 1 * Second) in * by lia. rewrite Z.div_add in * by done. lia.
Qed.

Lemma resolve_time at_ v out :
  resolve p at_ v = Ok out →
  (is_str "<iat>" v = true → out = JNum (itoa (unix_of (now p)))) ∧
  (is_str "<exp>" v = true → out = JNum (itoa (unix_of (time_Add (now p) (ttl p))))) ∧
  (is_str "<refresh_exp>" v = true → out = JNum (itoa (unix_of (time_Add (now p) refresh_ttl)))).
Proof.
  intros Hr. split_and!; destruct v; try done; simpl; intros ->%String.eqb_eq; revert Hr; by intros [= <-].
Qed.

(** One value: it resolves, and to a document that conforms. *)
Definition sound (want : json) : Prop :=
  ∀ at_, ∃ out, resolve p at_ want = Ok out ∧ conforms want out.

Lemma members_resolve l at_ :
  Forall (λ kv, sound kv.2) l →
  ∃ outs, resolve p at_ (JObj l) = Ok (JObj outs) ∧
    Forall2 (λ kv o, (rename kv).1 = o.1 ∧ (∃ at', resolve p at' kv.2 = Ok o.2) ∧ conforms kv.2 o.2) l outs.
Proof.
  intros Hl. assert (∃ outs,
    rsequence ((λ kv, rmap (pair (ReplaceAll kv.1 nsToken (ns p))) (resolve p (join at_ kv.1) kv.2)) <$> l) = Ok outs ∧
    Forall2 (λ kv o, (rename kv).1 = o.1 ∧ (∃ at', resolve p at' kv.2 = Ok o.2) ∧ conforms kv.2 o.2) l outs)
    as (outs & Hs & Ho).
  { induction Hl as [|[k v] l Hv _ (outs & Hs & Ho)]; [by exists []|].
    destruct (Hv (join at_ k)) as (out & Hr & Hc). exists ((ReplaceAll k nsToken (ns p), out) :: outs).
    split; [|constructor; [eauto|done]]. cbn [fmap list_fmap rsequence fst snd]. simpl in Hr. rewrite Hr. simpl.
    simpl in Hs. by rewrite Hs. }
  exists outs. split; [|done]. cbn [resolve]. by rewrite Hs.
Qed.

Lemma object_sound l :
  times_ok (raw_map (rename <$> l)) = true → Forall (λ kv, sound kv.2) l → sound (JObj l).
Proof.
  intros Ht Hl at_. destruct (members_resolve l at_ Hl) as (outs & Hr & Ho). exists (JObj outs). split; [done|].
  intros path. cbn [match_]. apply matchObject_ok.
  - intros k. apply list_to_map_Forall2, Forall2_reverse, Forall2_fmap_l.
    apply (Forall2_impl _ _ _ _ Ho). intros kv o (Hk & _ & Hc). split; [exact Hk|]. apply Hc.
  - assert (∀ k, option_Forall2 (λ v o, ∃ at', resolve p at' v = Ok o) (raw_map (rename <$> l) !! k) (raw_map outs !! k))
      as Hmap.
    { intros k. apply list_to_map_Forall2, Forall2_reverse, Forall2_fmap_l. apply (Forall2_impl _ _ _ _ Ho). naive_solver. }
    intros iat exp. unfold times_ok in Ht. pose proof (Hmap "iat") as Hi. pose proof (Hmap "exp") as He.
    destruct Hi as [vi oi [ai Hi]|]; [|done]. destruct He as [ve oe [ae He]|]; [|done].
    apply andb_true_iff in Ht as [Hiat Hexp]. apply resolve_time in Hi as [Hi _]. rewrite (Hi Hiat).
    destruct good_params_spec as (Hnow & _ & Httl & Hx & Hrttl & Hrx & _).
    assert (∃ d, oe = JNum (itoa (unix_of (time_Add (now p) d))) ∧ Second ≤ d ∧
      exact_int (unix_of (time_Add (now p) d)) = true) as (d & -> & Hd & Hxd).
    { apply resolve_time in He as (_ & He1 & He2). apply orb_true_iff in Hexp as [Hexp|Hexp]; eauto. }
    cbn [default from_option id]. rewrite !number_itoa by done. intros [= <-] [= <-].
    apply exact_int_spec in Hnow, Hxd. pose proof (now_before d Hd).
    unfold float64.leb, SFleb. rewrite compare_of_Z by done. by rewrite (proj2 (Z.compare_gt_iff _ _)) by lia.
Qed.

(** ** Arrays *)

Definition is_audience (x : json) : bool := is_str "<audience>" x.

Lemma elements_resolve l at_ i :
  Forall sound l → Forall (λ x, is_audience x = false) l →
  ∃ outs, rsequence (mapi (λ i el, if is_str "<audience>" el then Ok (audiences p)
                                   else rmap (λ x, [x]) (resolve p (index at_ i) el)) i l) = Ok ((λ x, [x]) <$> outs) ∧
    Forall2 conforms l outs.
Proof.
  intros Hl. revert i. induction Hl as [|v l Hv _ IH]; intros i Ha; [by exists []|].
  apply Forall_cons in Ha as [Hna Ha]. destruct (Hv (index at_ i)) as (out & Hr & Hc).
  destruct (IH (S i) Ha) as (outs & Hs & Ho). exists (out :: outs). split; [|by constructor].
  cbn [mapi rsequence]. unfold is_audience in Hna. rewrite Hna, Hr. simpl. by rewrite Hs.
Qed.

Lemma mjoin_singletons {A} (l : list A) : mjoin ((λ x, [x]) <$> l) = l.
Proof. induction l as [|x l IH]; [done|]. simpl. by rewrite <- IH at 2. Qed.

Lemma mapi_app {A B} (f : nat → A → B) i l k : mapi f i (l ++ k) = mapi f i l ++ mapi f (i + length l) k.
Proof.
  revert i. induction l as [|x l IH]; intros i; simpl; [by rewrite Nat.add_0_r|].
  rewrite IH. by rewrite Nat.add_succ_r.
Qed.

Lemma mapi_nil {A B} (f : nat → A → list B) i l : Forall (λ x, ∀ i, f i x = []) l → mjoin (mapi f i l) = [].
Proof. intros Hl. revert i. induction Hl as [|x l Hx _ IH]; intros i; [done|]. simpl. rewrite Hx. apply IH. Qed.

Lemma match_each_ok path i l outs :
  Forall2 conforms l outs → match_each path i (((λ x, (x, match_ p false x)) <$> l).*2) outs = [].
Proof.
  intros Hl. unfold match_each. apply mapi_nil. rewrite <- list_fmap_compose.
  induction Hl as [|w o l outs Hc _ IH]; [done|]. simpl. constructor; [intros j; apply Hc|exact IH].
Qed.

Lemma audiences_accepted path i : match_audiences p path i (audiences p) = [].
Proof.
  unfold match_audiences, audiences. destruct (p_Audiences p) as [|a l]; [done|].
  rewrite length_fmap, Nat.eqb_refl. simpl negb. cbv iota. apply mapi_nil.
  induction (a :: l) as [|x k IH]; [done|]. simpl. constructor; [|exact IH]. intros j. simpl. by rewrite String.eqb_refl.
Qed.

Lemma audiences_length : (1 ≤ length (audiences p))%nat.
Proof. unfold audiences. destruct (p_Audiences p); simpl; lia. Qed.

Lemma find_audience (l : list json) :
  Forall (λ x, is_audience x = false) l →
  Forall (λ wc : json * (string → json → list diff), is_str "<audience>" wc.1 ≠ true)
    ((λ x, (x, match_ p false x)) <$> l).
Proof. intros Hl. apply Forall_fmap. apply (Forall_impl _ _ _ Hl). intros x Hx. unfold compose. by rewrite not_true_iff_false. Qed.

Lemma fixed_array_sound l : Forall sound l → Forall (λ x, is_audience x = false) l → sound (JArr l).
Proof.
  intros Hl Ha at_. destruct (elements_resolve l at_ 0 Hl Ha) as (outs & Hs & Ho). exists (JArr outs). split.
  - cbn [resolve]. rewrite Hs. simpl. unfold compose. by rewrite mjoin_singletons.
  - intros path. cbn [match_]. unfold matchArray. simpl andb. cbv iota.
    rewrite (proj2 (list_find_None _ _) (find_audience l Ha)).
    rewrite length_fmap, (Forall2_length _ _ _ Ho), Nat.eqb_refl. by apply match_each_ok.
Qed.

Lemma audience_array_sound l : Forall sound l → Forall (λ x, is_audience x = false) l → sound (JArr (l ++ [JStr "<audience>"])).
Proof.
  intros Hl Ha at_. destruct (elements_resolve l at_ 0 Hl Ha) as (outs & Hs & Ho). exists (JArr (outs ++ audiences p)). split.
  - cbn [resolve]. rewrite mapi_app. apply rsequence_ok in Hs.
    match goal with |- context [rsequence (?a ++ ?b)] =>
      assert (rsequence (a ++ b) = Ok (((λ x, [x]) <$> outs) ++ [audiences p])) as -> end.
    { apply rsequence_ok, Forall2_app; [done|]. by constructor. }
    simpl. unfold compose. f_equal. f_equal. change @list_join with (@mjoin list _).
    rewrite join_app, mjoin_singletons. simpl. by rewrite app_nil_r.
  - intros path. cbn [match_]. unfold matchArray. simpl andb. cbv iota.
    assert (length outs = length l) as Hlen by (symmetry; by eapply Forall2_length).
    rewrite fmap_app. rewrite list_find_app_r; [|by apply list_find_None, find_audience].
    set (k := (λ x, (x, match_ p false x)) <$> l). assert (length k = length outs) as Hk.
    { unfold k. by rewrite length_fmap. }
    simpl list_find. cbn [fmap option_fmap option_map prod_map fst Nat.add list_fmap]. rewrite Hk.
    rewrite !length_app, Hk. simpl length. replace (length outs + 1 - 1)%nat with (length outs) by lia.
    rewrite Nat.eqb_refl. simpl negb. cbv iota. pose proof audiences_length.
    rewrite (proj2 (Nat.ltb_ge _ _)) by lia. rewrite (take_app_length' k), take_app_length', drop_app_length' by done.
    unfold k. rewrite match_each_ok by done. apply audiences_accepted.
Qed.

Lemma array_sound l :
  Forall (λ x, is_audience x = true ∨ sound x) l → forallb (λ x, negb (is_audience x)) (removelast l) = true → sound (JArr l).
Proof.
  intros Hl Ha. destruct (decide (l = [])) as [->|Hne]; [by apply fixed_array_sound|].
  destruct (exists_last Hne) as (k & x & ->). rewrite removelast_last in Ha.
  assert (Forall (λ x, is_audience x = false) k) as Hk.
  { rewrite forallb_forall in Ha. apply Forall_forall. intros y Hy%list_elem_of_In. by apply negb_true_iff, Ha. }
  apply Forall_app in Hl as [Hl Hx].
  assert (Forall sound k) as Hsound.
  { rewrite Forall_forall in *. intros y Hy. destruct (Hl y Hy) as [Hy'|]; [|done]. by rewrite (Hk y Hy) in Hy'. }
  destruct (is_audience x) eqn:Hax.
  - destruct x; try done. apply String.eqb_eq in Hax as ->. by apply audience_array_sound.
  - apply fixed_array_sound; (apply Forall_app; split; [done|]); [|by constructor].
    apply Forall_cons in Hx as [[Hx|Hx] _]; [by rewrite Hx in Hax|by constructor].
Qed.

Lemma fixture_sound v : fixture_ok v = true → sound v.
Proof.
  induction v as [|b|lit|s|l IH|l IH] using json_ind'; intros Hok.
  - intros at_. by exists JNull.
  - intros at_. exists (JBool b). split; [done|]. intros path. cbn [match_]. by rewrite Bool.eqb_reflx.
  - intros at_. exists (JNum lit). split; [done|]. intros path. cbn [match_ number fixture_ok] in *.
    destruct (float64.of_literal lit) as [f|]; [by rewrite Hok|done].
  - intros at_. cbn [fixture_ok] in Hok. unfold conforms. cbn [resolve match_].
    destruct (placeholder s) as [[kind arg]|]; [by apply placeholder_accepted|].
    eexists. split; [done|]. intros path. by apply text_accepted.
  - cbn [fixture_ok] in Hok. apply andb_true_iff in Hok as [Hall Hlast]. apply array_sound; [|done].
    rewrite forallb_forall in Hall. rewrite Forall_forall in *. intros x Hx.
    specialize (Hall x (proj1 (list_elem_of_In _ _) Hx)). apply orb_true_iff in Hall as [?|?]; [by left|right; by apply IH].
  - cbn [fixture_ok] in Hok. rewrite !andb_true_iff in Hok. destruct Hok as [[_ Ht] Hall]. apply object_sound; [done|].
    rewrite forallb_forall in Hall. rewrite Forall_forall in *. intros x Hx. apply IH; [done|].
    by apply Hall, list_elem_of_In.
Qed.

(** * Properties *)

(** C20: what the loader produces, the matcher accepts. Take a fixture other than
    jwks that is well formed for the parameters (its placeholders have values,
    the token placeholders being compact JWS and the attributes not null and
    equal to themselves; no two members of an object take one name; an issue
    time stands with an expiry time; the registered audiences, if any, end
    their array; a text names the issuer at most once), and parameters whose
    times are after 1970 and, like the token version, below 2^53, whose
    lifetimes are at least a second, and whose first key, if any, has a UUID or
    nothing as its ID; the libraries give UUIDs in lower-case text form, as many
    random bytes as asked for and 32-byte hashes. Then loading succeeds, and
    matching any text that decodes to the loaded document, its members in
    whatever order (json.Marshal sorts them), against the same fixture and
    parameters reports no difference. *)
Theorem loaded_fixture_matches (name : string) (doc : list (string * json)) :
  parse name = Ok doc → name ≠ "jwks" → fixture_ok (JObj doc) = true →
  ∃ out, Load name p = Ok out ∧
    ∀ b got, json_decode_first b = Some got → same out got → Match name (Some b) p = Ok [].
Proof.
  intros Hparse Hname Hok. destruct (fixture_sound _ Hok "") as (out & Hr & Hc). exists out.
  unfold Load, Match. rewrite Hparse. cbn [rbind]. apply String.eqb_neq in Hname as ->. split; [done|].
  intros b got Hb Hs. rewrite Hb. f_equal. eapply match_same; [exact Hs|apply Hc].
Qed.

End fixtures.

(** * Accepted documents *)

Section accepted.
Context `{Lib}.
Variable p : Params.

(** A text with the issuer filled in: any non-empty issuer when the parameters
    leave it open. *)
Definition fills (w g : string) : Prop :=
  g = (if String.eqb (p_Issuer p) "" then w else ReplaceAll w issuerToken (p_Issuer p)) ∨
  ∃ before iss after, cut_at issuerToken w = Some (before, after) ∧ iss ≠ "" ∧ g = before +:+ iss +:+ after.

Definition expires_after (g : gmap string json) : Prop :=
  ∀ iat exp, number (default JNull (g !! "iat")) = Some iat → number (default JNull (g !! "exp")) = Some exp →
    float64.leb exp iat = false.

(** A document that follows a fixture: the same members at every object, none
    missing and none extra, the same literals, each placeholder's rule kept, the
    registered audiences after the fixed ones, expiry after issue. *)
Inductive follows : json → json → Prop :=
  | follows_null : follows JNull JNull
  | follows_bool b : follows (JBool b) (JBool b)
  | follows_num w g f h :
      float64.of_literal w = Some f → float64.of_literal g = Some h → float64.eqb h f = true → follows (JNum w) (JNum g)
  | follows_text w g : placeholder w = None → fills w g → follows (JStr w) (JStr g)
  | follows_hole w kind arg path got :
      placeholder w = Some (kind, arg) → rule p path kind arg got = [] → follows (JStr w) got
  | follows_array w g : Forall2 follows w g → follows (JArr w) (JArr g)
  | follows_audience w g auds :
      Forall2 follows w g → auds ≠ [] →
      (p_Audiences p ≠ [] → Forall2 (λ a x, x = JStr a ∨ (a = "" ∧ ∀ s, x ≠ JStr s)) (p_Audiences p) auds) →
      follows (JArr (w ++ [JStr "<audience>"])) (JArr (g ++ auds))
  | follows_object w g :
      (∀ k, option_Forall2 follows (raw_map (rename p <$> w) !! k) (raw_map g !! k)) → expires_after (raw_map g) →
      follows (JObj w) (JObj g).

Lemma has_prefix_short pre after before :
  has_prefix (pre +:+ after) before = true → (String.length before ≤ String.length pre)%nat → has_prefix pre before = true.
Proof.
  unfold has_prefix. revert pre. induction before as [|c before IH]; intros pre Hp Hl; [by destruct pre|].
  destruct pre as [|d pre]; [simpl in Hl; lia|]. rewrite append_cons in Hp. simpl in *.
  destruct (ascii_dec c d); [|done]. apply IH; [done|lia].
Qed.

Lemma substring_split n s : (n ≤ String.length s)%nat →
  s = String.substring 0 n s +:+ String.substring n (String.length s - n) s.
Proof.
  revert s. induction n as [|n IH]; intros s Hn.
  - rewrite Nat.sub_0_r, (substring_zero (String.length s)) by done. by destruct s.
  - destruct s as [|c s]; [simpl in Hn; lia|]. simpl. rewrite append_cons. f_equal. apply IH. simpl in Hn. lia.
Qed.

Lemma substring_length n s : (n ≤ String.length s)%nat → String.length (String.substring 0 n s) = n.
Proof.
  revert s. induction n as [|n IH]; intros s Hn; [by destruct s|]. destruct s as [|c s]; simpl in *; [lia|].
  rewrite IH; lia.
Qed.

Lemma has_suffix_inv s suf :
  has_suffix s suf = true → ∃ pre, s = pre +:+ suf ∧ String.length s = (String.length pre + String.length suf)%nat.
Proof.
  unfold has_suffix. intros [Hl%Nat.leb_le Hs%String.eqb_eq]%andb_true_iff.
  exists (String.substring 0 (String.length s - String.length suf) s). rewrite substring_length by lia. split; [|lia].
  pose proof (substring_split (String.length s - String.length suf) s ltac:(lia)) as Hsplit.
  replace (String.length s - (String.length s - String.length suf))%nat with (String.length suf) in Hsplit by lia.
  by rewrite Hs in Hsplit.
Qed.

Lemma text_follows w path got : placeholder w = None → match_text p w path got = [] → follows (JStr w) got.
Proof.
  intros Hw. destruct got as [| | |g| |]; try done. cbn [match_text]. intros Hm. apply follows_text; [done|]. revert Hm.
  unfold fills. destruct (cut_at issuerToken w) as [[before after]|] eqn:Hc.
  - destruct (String.eqb (p_Issuer p) "") eqn:Hi; simpl.
    + destruct (_ && _) eqn:Hacc.
      * intros _. right. rewrite !andb_true_iff in Hacc. destruct Hacc as [[Hp Hs] Hl%Nat.ltb_lt].
        apply has_suffix_inv in Hs as (pre & -> & Hlen).
        apply has_prefix_short, has_prefix_inv in Hp; [|lia]. rewrite Hp.
        eexists before, _, after. split; [done|]. split; [|by rewrite append_assoc].
        intros He. rewrite He, append_nil_r in Hp. subst pre. lia.
      * destruct (String.eqb_spec g w); [by left|done].
    + destruct (String.eqb_spec g (ReplaceAll w issuerToken (p_Issuer p))); [by left|done].
  - destruct (String.eqb_spec g w) as [->|]; [|done]. intros _. left.
    destruct (String.eqb (p_Issuer p) ""); [done|]. by rewrite ReplaceAll_none.
Qed.

Lemma match_each_inv path i l g :
  length l = length g →
  Forall (λ x, ∀ path got, match_ p false x path got = [] → follows x got) l →
  match_each path i ((λ x, (x, match_ p false x)) <$> l).*2 g = [] → Forall2 follows l g.
Proof.
  unfold match_each. rewrite <- list_fmap_compose. unfold compose. simpl. intros Hlen Hl. revert i g Hlen.
  induction Hl as [|x l Hx _ IH]; intros i [|y g] Hlen Hm; try done. simpl in Hm.
  apply app_nil in Hm as [Hxy Hm]. constructor; [by eapply Hx|]. eapply IH; [by injection Hlen|exact Hm].
Qed.

Lemma matchObject_inv path (expected : gmap string (string → json → list diff)) (g : gmap string json) :
  matchObject path expected g = [] →
  (∀ k, option_Forall2 (λ chk v, ∃ path, chk path v = []) (expected !! k) (g !! k)) ∧ expires_after g.
Proof.
  unfold matchObject. intros [Hw [Hg Ht]%app_nil]%app_nil. apply mjoin_nil_inv in Hw, Hg.
  rewrite Forall_fmap, Forall_forall in Hw, Hg. split.
  - intros k. destruct (expected !! k) as [chk|] eqn:He.
    + specialize (Hw k (proj2 (sortedKeys_elem k expected) (mk_is_Some _ _ He))). unfold compose in Hw. rewrite He in Hw.
      destruct (g !! k); [constructor; eauto|done].
    + destruct (g !! k) as [v|] eqn:Hk; [|constructor].
      specialize (Hg k (proj2 (sortedKeys_elem k g) (mk_is_Some _ _ Hk))). unfold compose in Hg. by rewrite He in Hg.
  - intros iat exp Hi Hx. rewrite Hi, Hx in Ht. by destruct (float64.leb exp iat).
Qed.

Lemma match_audiences_inv path i rest :
  match_audiences p path i rest = [] → p_Audiences p ≠ [] →
  Forall2 (λ a x, x = JStr a ∨ (a = "" ∧ ∀ s, x ≠ JStr s)) (p_Audiences p) rest.
Proof.
  unfold match_audiences. destruct (p_Audiences p) as [|a l]; [done|]. intros Hm _. revert Hm.
  destruct (length rest =? length (a :: l))%nat eqn:Hlen; [|done]. apply Nat.eqb_eq in Hlen. simpl negb. cbv iota.
  revert i rest Hlen. induction (a :: l) as [|x k IH]; intros i [|y rest] Hlen; try done. cbn [zip zip_with mapi mjoin list_join].
  intros [Hy Hm]%app_nil. constructor; [|eapply IH; [by injection Hlen|exact Hm]]. simpl in Hy.
  destruct (String.eqb_spec (match y with JStr s => s | _ => "" end) x) as [<-|]; [|done].
  destruct y; [right; split; [done|]; congruence..|by left|right; split; [done|]; congruence|right; split; [done|]; congruence].
Qed.

Lemma array_follows l path g :
  Forall (λ x, ∀ path got, match_ p false x path got = [] → follows x got) l →
  matchArray p false path ((λ x, (x, match_ p false x)) <$> l) g = [] → follows (JArr l) (JArr g).
Proof.
  intros Hl. unfold matchArray. simpl andb. cbv iota. destruct (list_find _ _) as [[i wc]|] eqn:Hf.
  - apply list_find_Some in Hf as (Hi & Haud & _). rewrite list_lookup_fmap in Hi.
    destruct (l !! i) as [x|] eqn:Hx; [|done]. injection Hi as <-. simpl in Haud.
    destruct x as [| | |s| |]; try done. apply String.eqb_eq in Haud as ->. rewrite length_fmap.
    destruct (Nat.eqb_spec i (length l - 1)) as [Hi|]; [|done]. simpl negb. cbv iota.
    destruct (Nat.ltb_spec (length g) (i + 1)) as [|Hg]; [done|]. intros [Hm Ha]%app_nil.
    pose proof (lookup_lt_Some _ _ _ Hx). assert (l = take i l ++ [JStr "<audience>"]) as Heq.
    { rewrite <- (take_drop_middle _ _ _ Hx) at 1. by rewrite drop_ge by lia. }
    rewrite Heq, <- (take_drop i g). apply follows_audience.
    + eapply match_each_inv; [rewrite !length_take; lia|by apply Forall_take|]. by rewrite fmap_take.
    + intros Hd. apply (f_equal length) in Hd. rewrite length_drop in Hd. simpl in Hd. lia.
    + by eapply match_audiences_inv.
  - rewrite length_fmap. destruct (Nat.eqb_spec (length g) (length l)) as [Hlen|]; [|done]. simpl negb. cbv iota.
    intros Hm. apply follows_array. by eapply match_each_inv.
Qed.

Lemma match_follows want path got : match_ p false want path got = [] → follows want got.
Proof.
  revert path got. induction want as [|b|lit|s|l IH|l IH] using json_ind'; intros path got; cbn [match_].
  - destruct got; try done. constructor.
  - destruct got as [|g| | | |]; try done. destruct (Bool.eqb g b) eqn:Hb; [|done].
    apply Bool.eqb_prop in Hb as ->. constructor.
  - destruct got as [| |g| | |]; try done. cbn [number]. destruct (float64.of_literal g) as [h|] eqn:Hg; [|done].
    destruct (float64.of_literal lit) as [f|] eqn:Hf; [|done]. destruct (float64.eqb h f) eqn:He; [|done]. econstructor; eauto.
  - destruct (placeholder s) as [[kind arg]|] eqn:Hs; [|by apply text_follows]. by apply follows_hole.
  - destruct got as [| | | |g|]; try done. by apply array_follows.
  - destruct got as [| | | | |g]; try done. intros [Hm Ht]%matchObject_inv. apply follows_object; [|done].
    intros k. specialize (Hm k).
    assert (option_Forall2 (λ chk v, chk = match_ p false v ∧ ∃ kv, kv ∈ l ∧ kv.2 = v)
      ((list_to_map (reverse ((λ kv, (ReplaceAll kv.1 nsToken (m_ns p), match_ p false kv.2)) <$> l)) : gmap string _) !! k)
      (raw_map (rename p <$> l) !! k)) as Hk.
    { apply list_to_map_Forall2, Forall2_reverse, Forall2_fmap_l, Forall2_fmap_r, Forall_Forall2_diag, Forall_forall.
      intros kv Hkv. split; [done|]. split; [done|]. by exists kv. }
    destruct Hk as [chk v [-> (kv & Hkv & <-)]|]; inversion Hm as [c x [pth Hc]|]; constructor.
    rewrite Forall_forall in IH. by eapply (IH kv Hkv).
Qed.


End accepted.

(** * The embedded fixtures *)

Module sample.

Definition uuid : string := "6f1c0f3e-0000-4000-8000-000000000000".

Fixpoint zeros (n : nat) : string := match n with O => "" | S k => String "0" (zeros k) end.

#[export] Instance lib : Lib := {|
  fixtureFS := fixture_files.all; rand_bytes _ n := zeros (Z.to_nat n); new_uuid _ := uuid; sum256 _ := zeros 32;
  jwt_sign _ _ _ := Some "h.p.s"; time_now := (unix_epoch_seconds + 1800000000) * Second |}.

Lemma zeros_length n : slen (zeros n) = Z.of_nat n.
Proof. unfold slen. f_equal. induction n as [|n IH]; [done|]. simpl. by rewrite IH. Qed.

#[export] Instance laws : LibLaws.
Proof. split; [done| |done]. intros at_ n Hn. simpl. rewrite zeros_length. lia. Qed.

Definition key : Key := {| key_ID := uuid; key_Private := Some {| pk_N := 2 ^ 2047 + 1; pk_E := 65537 |} |}.

(** Every field set, as the package's tests set them. *)
Definition full : Params :=
  {| p_Issuer := "https://socrate.test"; p_ClientID := "app-1"; p_Audiences := ["https://api.test"; "urn:svc"];
     p_Subject := "1234"; p_AppID := 99; p_Role := "admin"; p_Email := "ada@example.test"; p_Name := "Ada"; p_Scope := "";
     p_Nonce := "nonce-1"; p_TenantID := "11111111-2222-4333-8444-555555555555";
     p_Attributes := Some {["department" := JStr "research"]}; p_ClaimsNamespace := ""; p_TokenVersion := 3;
     p_JKT := ""; p_Now := 0; p_AuthTime := (unix_epoch_seconds + 1799999000) * Second; p_TTL := 10 * Minute;
     p_RefreshTTL := 24 * Hour; p_AccessToken := "aaa.bbb.ccc"; p_RefreshToken := "ddd.eee.fff";
     p_IDToken := "ggg.hhh.iii"; p_Keys := [key] |}.

(** Every embedded fixture is well formed, with all parameters set; without the
    tokens, all but the token responses are. *)
Definition well_formed (p : Params) (name : string) : bool :=
  match parse name with Ok doc => fixture_ok p (JObj doc) | Err _ => false end.

Example embedded_well_formed :
  length Names = 25%nat ∧ good_params full = true ∧ good_params no_params = true ∧
  List.filter (λ n, negb (well_formed full n)) Names = ["jwks"] ∧
  List.filter (λ n, negb (well_formed no_params n)) Names =
    ["jwks"; "token_response/authorization_code"; "token_response/client_credentials"; "token_response/refresh"].
Proof. vm_compute. repeat split. Qed.

Definition name : string := "access/audience_dual".
Definition doc : list (string * json) := match parse name with Ok d => d | Err _ => [] end.
Definition claims : json := match Load name full with Ok v => v | Err _ => JNull end.

Definition discovery : list (string * json) := match parse "discovery" with Ok d => d | Err _ => [] end.
Definition discovered : json := match Load "discovery" full with Ok v => v | Err _ => JNull end.

(** The discovery document is loaded and marshalled, which reorders its members,
    and matched. *)
Lemma loaded_fixture_matches_witness :
  (∃ out, Load "discovery" full = Ok out) ∧ as_map discovered ≠ discovered ∧
  Match "discovery" (Some (json_encode (as_map discovered))) full = Ok [].
Proof.
  assert (good_params full = true) as Hg by (vm_compute; reflexivity).
  assert (parse "discovery" = Ok discovery) as Hp by (vm_compute; reflexivity).
  assert (fixture_ok full (JObj discovery) = true) as Hok by (vm_compute; reflexivity).
  assert ("discovery" ≠ "jwks") as Hn by discriminate.
  destruct (loaded_fixture_matches full Hg "discovery" discovery Hp Hn Hok) as (out & Hl & Hm).
  split; [by exists out|]. split; [vm_compute; discriminate|]. apply (Hm _ (as_map discovered)).
  - vm_compute. reflexivity.
  - assert (out = discovered) as -> by (unfold discovered; by rewrite Hl). apply same_as_map.
Defined.

Definition extra : json := match claims with JObj l => JObj (("tenant_id", JStr "x") :: l) | v => v end.


End sample.

End fixtures.
