(* ===== verification/PublishedKeys.v ===== *)
(** The keys a test server publishes are the keys the middleware reads: the
    document of [JWKS] (src/conformance/conformance.go), marshalled and fetched
    by fetchJWKS (src/jwtauth/middleware.go). *)

From S2P Require Import Prelude GoText GoUrl Utf8 GoJson JsonRoundtrip JwtKeys BffMisc Conformance FixtureFiles FixtureMatch.

Module published.
Import jwtkeys conformance.

(** * Numbers as bytes *)

Lemma big_of_bytes_app l k : big_of_bytes (l ++ k) = fold_left (λ acc b, acc * 256 + b) k (big_of_bytes l).
Proof. unfold big_of_bytes. by rewrite fold_left_app. Qed.

Lemma be_bytes_acc fuel z acc : bytes (be_bytes fuel z acc) = bytes (be_bytes fuel z "") ++ bytes acc.
Proof.
  revert z acc. induction fuel as [|fuel IH]; intros z acc; [done|]. cbn [be_bytes]. destruct (z <=? 0); [done|].
  rewrite IH, (IH _ (String _ "")). cbn [bytes]. by rewrite <- app_assoc.
Qed.

Lemma be_bytes_value fuel z : 0 ≤ z < 2 ^ Z.of_nat fuel → big_of_bytes (bytes (be_bytes fuel z "")) = z.
Proof.
  revert z. induction fuel as [|fuel IH]; intros z Hz; [simpl in Hz; by assert (z = 0) as -> by lia|]. cbn [be_bytes].
  destruct (Z.leb_spec z 0) as [|Hpos]; [by assert (z = 0) as -> by lia|]. rewrite be_bytes_acc, big_of_bytes_app.
  pose proof (Z.mod_pos_bound z 256 ltac:(lia)). pose proof (Z.div_mod z 256 ltac:(lia)).
  rewrite IH.
  - cbn [bytes fold_left]. rewrite byte_of_of_byte by lia. lia.
  - rewrite Nat2Z.inj_succ, Z.pow_succ_r in Hz by lia. split; [apply Z.div_pos; lia|]. apply Z.div_lt_upper_bound; lia.
Qed.

Lemma big_bytes_value z : 0 < z → big_of_bytes (bytes (big_bytes z)) = z.
Proof.
  intros Hz. unfold big_bytes, bit_len. rewrite (proj2 (Z.eqb_neq z 0)) by lia. pose proof (Z.log2_nonneg z).
  apply be_bytes_value. rewrite Z2Nat.id by lia. split; [lia|]. apply Z.log2_spec. lia.
Qed.

Lemma b64_decode_bytes_encode s : b64_decode_bytes (b64_encode s) = Some (bytes s).
Proof.
  pose proof (bff.b64_roundtrip s) as Hs. unfold b64_decode in Hs.
  unfold b64_decode_bytes, b64_encode. rewrite bff.b64_vals_chars by apply bff.b64_encode_range, bytes_range. simpl.
  by rewrite bff.b64_group_encode by apply bytes_range.
Qed.

(** * Text *)

Lemma ascii_unchanged s : all_bytes (λ b, b <? 128) s = true → replace_invalid s = s.
Proof.
  rewrite replace_invalid_mend. induction s as [|c s IH]; [done|]. cbn [all_bytes runes]. intros [Hc Hs]%andb_true_iff.
  rewrite Hc. cbn [fmap list_fmap]. rewrite unrunes_cons, (IH Hs). unfold mend, rune_valid. cbn [r_val r_raw].
  apply Z.ltb_lt in Hc. rewrite (proj2 (Z.eqb_neq (byte_of c) rune_error)) by (unfold rune_error; lia).
  cbn [andb negb r_raw]. by rewrite append_cons, append_nil.
Qed.

Lemma b64_encode_unchanged s : replace_invalid (b64_encode s) = b64_encode s.
Proof.
  apply ascii_unchanged. unfold b64_encode. pose proof (bff.b64_encode_range (bytes s) (bytes_range s)) as Hr.
  induction Hr as [|v vs Hv _ IH]; [done|]. cbn [fold_right all_bytes]. rewrite IH, andb_true_r.
  pose proof (fixtures.b64_char_url v Hv) as Hb. unfold b64url, url_alnum, digit in Hb. apply Z.ltb_lt.
  rewrite !orb_true_iff, !andb_true_iff, !Z.leb_le, !Z.eqb_eq in Hb. lia.
Qed.

(** * Keys *)

(** The jwks fixture. *)
Definition template : list (string * json) :=
  [("kty", JStr "RSA"); ("use", JStr "sig"); ("kid", JStr "<kid>"); ("alg", JStr "RS256"); ("n", JStr "<n>"); ("e", JStr "AQAB")].
Definition jwks_fixture : list (string * json) := [("keys", JArr [JObj template])].

(** A key as NewKey makes them: an ID that is text, at least 2048 bits, exponent
    65537. *)
Definition publishable (k : Key) : Prop :=
  key_ID k ≠ "" ∧ replace_invalid (key_ID k) = key_ID k ∧
  ∃ pub, key_Private k = Some pub ∧ 0 < pk_N pub ∧ minRSAKeyBits ≤ bit_len (pk_N pub) ∧ pk_E pub = 65537.

Definition entry (k : Key) : list (string * json) :=
  [("kty", JStr "RSA"); ("use", JStr "sig"); ("kid", JStr (key_ID k)); ("alg", JStr "RS256");
   ("n", JStr (b64_encode (big_bytes (match key_Private k with Some pub => pk_N pub | None => 0 end)))); ("e", JStr "AQAB")].

Definition document (ks : list Key) : json := JObj [("keys", JArr ((JObj ∘ entry) <$> ks))].

Lemma document_wf ks : json_wf (document ks) = true.
Proof. simpl. rewrite !andb_true_r. induction ks as [|k ks IH]; [done|]. simpl. exact IH. Qed.

Lemma entry_canon k : publishable k → canon (JObj (entry k)) = JObj (entry k).
Proof.
  intros (_ & Hid & _). unfold entry. cbn [canon fmap list_fmap fst snd]. by rewrite Hid, b64_encode_unchanged.
Qed.

Lemma document_canon ks : Forall publishable ks → canon (document ks) = document ks.
Proof.
  intros Hks. unfold document. cbn [canon fmap list_fmap fst snd].
  assert (canon <$> ((JObj ∘ entry) <$> ks) = (JObj ∘ entry) <$> ks) as Hc.
  { induction Hks as [|k ks Hk _ IH]; [done|]. cbn [fmap list_fmap]. unfold compose at 1 3. rewrite entry_canon by done.
    by f_equal. }
  cbn [fmap] in Hc. by rewrite Hc.
Qed.

(** Publishing succeeds, with one entry per key. *)
Lemma publish `{Lib} ks :
  parse "jwks" = Ok jwks_fixture → ks ≠ [] → Forall publishable ks → JWKS ks = Ok (document ks).
Proof.
  intros Hp Hne Hks. unfold JWKS, Load. rewrite Hp. cbn [rbind]. change (String.eqb "jwks" "jwks") with true. cbv iota.
  assert (rsequence ((λ k, match key_Private k with
               | None => Err "every key needs an ID and a private key"
               | Some key =>
                   if String.eqb (key_ID k) "" then Err "every key needs an ID and a private key"
                   else
                     let entry := key_entry template (key_ID k) key in
                     if negb (is_str (b64_encode (big_bytes (pk_E key))) (default JNull (raw_map entry !! "e")))
                     then Err "exponent is not Socrate's (65537)"
                     else Ok (JObj entry)
               end) <$> ks) = Ok ((JObj ∘ entry) <$> ks)) as Hs.
  { apply rsequence_ok, Forall2_fmap_l, Forall2_fmap_r, Forall_Forall2_diag, (Forall_impl _ _ _ Hks).
    intros k (Hid & _ & pub & Hpub & _ & _ & He). unfold compose, entry. rewrite Hpub. apply String.eqb_neq in Hid as ->.
    rewrite He. change (b64_encode (big_bytes 65537)) with "AQAB". reflexivity. }
  destruct ks as [|k ks]; [done|]. unfold resolveJWKS.
  change (raw_map jwks_fixture !! "keys") with (Some (JArr [JObj template])). cbv iota. cbn [p_Keys with_keys].
  exact (f_equal (rmap (λ entries, JObj [("keys", JArr entries)])) Hs).
Qed.

(** Each entry is read as the key it was made from. *)
Lemma entry_read k pub : publishable k → key_Private k = Some pub →
  ∃ jk, decode_jwksKey zero_jwksKey (JObj (entry k)) = Some jk ∧ Kid jk = key_ID k ∧ usable_key jk = Some pub.
Proof.
  intros (_ & _ & pub' & Hpub' & Hn & Hbits & He) Hpub. rewrite Hpub in Hpub'. injection Hpub' as <-.
  eexists. split; [reflexivity|]. split; [done|]. unfold usable_key. cbn [Kty Use N E]. rewrite Hpub.
  change (negb (String.eqb "RSA" "RSA") || negb (String.eqb "sig" "sig")) with false. cbv iota.
  unfold parseRSAPublicKey. rewrite b64_decode_bytes_encode, big_bytes_value by done.
  change (b64_decode_bytes "AQAB") with (Some [1; 0; 1]). cbv iota. rewrite (proj2 (Z.ltb_ge _ _)) by done.
  destruct pub as [n e]. simpl in *. by subst e.
Qed.

Lemma collect_read (ks : list Key) (m0 : gmap string PublicKey) :
  Forall publishable ks → NoDup (key_ID <$> ks) → (∀ k, k ∈ ks → m0 !! key_ID k = None) →
  ∃ jks, mapM (decode_jwksKey zero_jwksKey) ((JObj ∘ entry) <$> ks) = Some jks ∧
    ∀ kid pub, fold_left (λ m k, match usable_key k with None => m | Some pub => <[Kid k := pub]> m end) jks m0 !! kid
      = Some pub ↔ m0 !! kid = Some pub ∨ ∃ k, k ∈ ks ∧ key_ID k = kid ∧ key_Private k = Some pub.
Proof.
  intros Hks. revert m0. induction Hks as [|k ks Hk _ IH]; intros m0 Hnd Hm0.
  { exists []. split; [done|]. intros kid pub. simpl. split; [by left|]. intros [?|(k & Hin & _)]; [done|].
    by apply not_elem_of_nil in Hin. }
  cbn [fmap list_fmap] in Hnd. apply NoDup_cons in Hnd as [Hnin Hnd].
  pose proof Hk as (Hid & Hu & pub & Hpub & Hrest). destruct (entry_read k pub) as (jk & Hdec & Hkid & Huse); [done|done|].
  destruct (IH (<[key_ID k := pub]> m0)) as (jks & Hmap & Hall); [done| |].
  { intros k' Hk'. rewrite lookup_insert_ne; [apply Hm0; by right|]. intros Heq. apply Hnin. rewrite Heq.
    by apply list_elem_of_fmap_2. }
  exists (jk :: jks). split.
  { apply mapM_Some in Hmap. apply mapM_Some. by constructor. }
  intros kid pub'. cbn [fold_left]. rewrite Huse, Hkid, Hall. setoid_rewrite elem_of_cons.
  destruct (decide (kid = key_ID k)) as [->|Hne].
  - rewrite lookup_insert_eq, (Hm0 k) by by left. split.
    + intros [[= <-]|(k' & Hin & Heq & _)]; [eauto 8|]. destruct Hnin. rewrite <- Heq. by apply list_elem_of_fmap_2.
    + intros [?|(k' & [->|Hin] & Heq & Hp')]; [done|left; congruence|eauto 8].
  - rewrite lookup_insert_ne by done. naive_solver.
Qed.

Lemma publish_read `{Lib} (ks : list Key) (cfg : KeyConfig) :
  parse "jwks" = Ok jwks_fixture → ks ≠ [] → Forall publishable ks → NoDup (key_ID <$> ks) → jwksURL cfg ≠ "" →
  ∃ doc, JWKS ks = Ok doc ∧
    (slen (json_encode doc) ≤ maxJWKSBytes →
     ∃ m, fetched_keys cfg (HttpResp 200 (json_encode doc)) = Some m ∧
       ∀ kid pub, m !! kid = Some pub ↔ ∃ k, k ∈ ks ∧ key_ID k = kid ∧ key_Private k = Some pub).
Proof.
  intros Hp Hne Hks Hnd Hurl. exists (document ks). split; [by apply publish|]. intros Hlen.
  destruct (collect_read ks ∅ Hks Hnd) as (jks & Hmap & Hall); [by intros; apply lookup_empty|].
  exists (collect_keys jks).
  assert (∀ kid pub, collect_keys jks !! kid = Some pub ↔ ∃ k, k ∈ ks ∧ key_ID k = kid ∧ key_Private k = Some pub) as Hm.
  { intros kid pub. unfold collect_keys. rewrite Hall, lookup_empty. naive_solver. }
  split; [|done]. unfold fetched_keys. apply String.eqb_neq in Hurl as ->. change (negb (200 =? 200)) with false. cbv iota.
  rewrite substring_zero by (unfold slen in Hlen; lia).
  assert (json_decode_first (json_encode (document ks)) = Some (document ks)) as ->.
  { pose proof (json_roundtrip _ (document_wf ks)) as Hr. rewrite document_canon in Hr by done.
    unfold json_parse in Hr. unfold json_decode_first. destruct (parse_value _ _) as [[v r]|]; [|done].
    destruct (String.eqb _ _); [|done]. by injection Hr as ->. }
  assert (decode_jwks (document ks) = Some jks) as Hdec.
  { transitivity (mapM (decode_jwksKey zero_jwksKey) ((JObj ∘ entry) <$> ks)); [reflexivity|exact Hmap]. }
  cbn [mbind option_bind]. rewrite Hdec. rewrite bool_decide_eq_false_2; [done|]. intros Hz%map_size_empty_iff.
  destruct ks as [|k ks]; [done|]. apply Forall_cons in Hks as [(_ & _ & pub & Hpub & _) _].
  destruct (Hm (key_ID k) pub) as [_ Hin]. rewrite Hz, lookup_empty in Hin.
  assert (None = Some pub) as [=]. apply Hin. exists k. split; [by left|done].
Qed.

(** C33: the keys a server publishes are the keys the middleware uses. Publishing
    with the embedded fixture, any non-empty list of keys with distinct IDs, each
    with a non-empty ID of valid UTF-8, at least 2048 bits and the exponent 65537
    that Socrate and NewKey use, succeeds. If the document is no longer than the
    middleware reads (maxJWKSBytes), the middleware that fetches it with status
    200 holds under each ID exactly the public key that was published under it,
    and no other key. *)
Theorem published_keys_are_read_back `{Lib} (ks : list Key) (cfg : KeyConfig) :
  parse "jwks" = Ok jwks_fixture → ks ≠ [] → Forall publishable ks → NoDup (key_ID <$> ks) → jwksURL cfg ≠ "" →
  ∃ doc, JWKS ks = Ok doc ∧
    (slen (json_encode doc) ≤ maxJWKSBytes →
     ∃ m, fetched_keys cfg (HttpResp 200 (json_encode doc)) = Some m ∧
       ∀ kid pub, m !! kid = Some pub ↔ ∃ k, k ∈ ks ∧ key_ID k = kid ∧ key_Private k = Some pub).
Proof. apply publish_read. Qed.

Import fixtures.sample.

Definition other : Key := {| key_ID := "second"; key_Private := Some {| pk_N := 2 ^ 2047 + 3; pk_E := 65537 |} |}.
Definition cfg : KeyConfig :=
  {| jwksURL := "https://socrate.test/.well-known/jwks.json"; cacheTTL := Hour; minRefetchInterval := Minute;
     negativeCacheTTL := Minute |}.

(** Two keys are published with the embedded fixture and both are read. *)
Lemma published_keys_are_read_back_witness :
  ∃ doc m, JWKS [key; other] = Ok doc ∧ fetched_keys cfg (HttpResp 200 (json_encode doc)) = Some m ∧
    m !! uuid = key_Private key ∧ m !! "second" = key_Private other.
Proof.
  assert (parse "jwks" = Ok jwks_fixture) as Hp by (vm_compute; reflexivity).
  assert (Forall publishable [key; other]) as Hks.
  { repeat constructor; try discriminate; try (vm_compute; reflexivity); eexists; (split; [reflexivity|]);
      (split; [reflexivity|]); (split; [|reflexivity]); vm_compute; discriminate. }
  assert (NoDup (key_ID <$> [key; other])) as Hnd by (apply (bool_decide_unpack _); vm_compute; exact I).
  assert ([key; other] ≠ []) as Hne by discriminate. assert (jwksURL cfg ≠ "") as Hurl by discriminate.
  destruct (published_keys_are_read_back [key; other] cfg Hp Hne Hks Hnd Hurl) as (doc & Hdoc & Hread).
  assert (Ok doc = Ok (document [key; other]) :> result string json) as [= ->] by (rewrite <- Hdoc; by apply publish).
  destruct Hread as (m & Hm & Hall); [vm_compute; discriminate|]. exists (document [key; other]), m. split; [exact Hdoc|].
  split; [exact Hm|]. split; apply Hall; [exists key|exists other]; (split; [|split; reflexivity]).
  - by left.
  - right. by left.
Defined.

End published.
