(* ===== verification/SignedTokens.v ===== *)
(** From a fixture to an admitted request: a token signed by src/conformance,
    published keys of the same package, and the middleware of src/jwtauth that
    reads both. The two packages only share the wire format: a compact JWS whose
    payload is the JSON text of the claims. *)

From S2P Require Import Prelude GoText GoUrl Utf8 GoJson JsonRoundtrip Numbers CtxUtil Http ApiError JwtKeys JwtAuth BffMisc Conformance FixtureFiles FixtureMatch PublishedKeys.

Module signed.
Import jwtkeys conformance.

(** * The wire format *)

(** How github.com/golang-jwt/jwt reads the two registered claims that are not
    plain JSON strings. *)
Class ClaimsJson := {
  claim_strings : json → option (list string);
  numeric_date : string → option Time;
}.
Class ClaimsJsonLaws `{ClaimsJson} := {
  claim_strings_list l : claim_strings (JArr (JStr <$> l)) = Some l;
  numeric_date_int z : 0 < z < 2 ^ 53 → numeric_date (itoa z) = Some (time_Unix z);
}.

Section claims.
Context `{ClaimsJson}.

Definition decode_aud (_ : list string) (v : json) : option (list string) := claim_strings v.
Definition decode_date (_ : option Time) (v : json) : option (option Time) :=
  match v with JNull => Some None | JNum lit => Some <$> numeric_date lit | _ => None end.

(** [jwtauth/middleware.go:52-71] the JSON names of SocrateClaims *)
Definition decode_claims (l : list (string * json)) : option SocrateClaims :=
  role ← decode_field decode_string "" "role" l;
  appRoles ← decode_field decode_string_map None "app_roles" l;
  tokenVersion ← decode_field decode_int 0 "token_version" l;
  authTime ← decode_field decode_int 0 "auth_time" l;
  amr ← decode_field decode_strings None "amr" l;
  tenantID ← decode_field decode_string "" "tenant_id" l;
  plan ← decode_field decode_string "" "plan" l;
  email ← decode_field decode_string "" "email" l;
  name ← decode_field decode_string "" "name" l;
  iss ← decode_field decode_string "" "iss" l;
  sub ← decode_field decode_string "" "sub" l;
  aud ← decode_field decode_aud [] "aud" l;
  exp ← decode_field decode_date None "exp" l;
  nbf ← decode_field decode_date None "nbf" l;
  iat ← decode_field decode_date None "iat" l;
  jti ← decode_field decode_string "" "jti" l;
  Some {| Role := role; AppRoles := appRoles; TokenVersion := tokenVersion; AuthTime := authTime; Amr := amr;
          TenantID := tenantID; Plan := plan; Email := email; Name := name;
          Registered := {| rc_Issuer := iss; rc_Subject := sub; rc_Audience := aud; rc_ExpiresAt := exp;
                           rc_NotBefore := nbf; rc_IssuedAt := iat; rc_ID := jti |};
          scopes := []; scopesErr := false |}.

End claims.

(** A Go map is marshalled with its keys in order. *)
Fixpoint in_order (v : json) : json :=
  match v with
  | JObj l => JObj (merge_sort (λ a b : string * json, string_le a.1 b.1) ((λ kv, (kv.1, in_order kv.2)) <$> l))
  | JArr l => JArr (in_order <$> l)
  | _ => v
  end.

Definition compact (header payload signature : string) : string :=
  b64_encode header +:+ "." +:+ b64_encode payload +:+ "." +:+ b64_encode signature.

Definition header_of (l : list (string * json)) (alg : string) : JoseHeader :=
  {| jh_alg := alg; jh_kid := match raw_map l !! "kid" with Some (JStr k) => Some k | _ => None end |}.

(** What the JWT library documents: it signs a compact JWS of the marshalled
    header and claims, reads a compact JWS back, verifies a signature with the
    key that made it, and accepts registered claims that are in their time
    window and match the options. *)
Class JwsLaws `{Lib, JwtLib, ClaimsJson} := {
  sign_compact header claims key token :
    jwt_sign header claims key = Some token →
    ∃ signature, token = compact (json_encode (in_order header)) (json_encode (in_order claims)) signature;
  sign_verifies header claims key token : jwt_sign header claims key = Some token → jwt_verify token key = true;
  read_compact header payload signature l alg pl c :
    json_parse header = Some (JObj l) → raw_map l !! "alg" = Some (JStr alg) →
    json_parse payload = Some (JObj pl) → decode_claims pl = Some c →
    jwt_decode (compact header payload signature) = Some (header_of l alg, c);
  claims_accepted o t c exp :
    0 ≤ po_leeway o → rc_ExpiresAt c = Some exp → t < exp →
    (∀ nbf, rc_NotBefore c = Some nbf → nbf ≤ t) → (∀ iat, rc_IssuedAt c = Some iat → iat ≤ t) →
    (∀ i, po_issuer o = Some i → rc_Issuer c = i) →
    (∀ l, po_audiences o = Some l → ∃ a, a ∈ l ∧ a ∈ rc_Audience c) →
    jwt_claims_valid o t c = true;
}.

(** ** Reading a compact token *)

Lemma b64_encode_nodot s : Forall (λ b, b ≠ byte_of ".") (bytes (b64_encode s)).
Proof.
  unfold b64_encode. pose proof (bff.b64_encode_range (bytes s) (bytes_range s)) as Hr.
  induction Hr as [|v vs Hv _ IH]; [constructor|]. cbn [fold_right bytes]. constructor; [|done].
  pose proof (fixtures.b64_char_url v Hv) as Hb. intros Heq. rewrite Heq in Hb. by vm_compute in Hb.
Qed.

Lemma token_payload_compact header payload signature :
  jwtauth.token_payload (compact header payload signature) = Some payload.
Proof.
  unfold jwtauth.token_payload, compact. rewrite !append_cons, !append_nil.
  rewrite str_split_app, str_split_app, str_split_nosep by apply b64_encode_nodot. apply bff.b64_roundtrip.
Qed.

(** * The fixtures *)

(** How the user signed in: with a password, with a second factor, or with a
    client that has audiences registered. *)
Inductive signin := Password | Mfa | DualAudience.

Definition fixture_name (v : signin) : string :=
  match v with
  | Password => "access/authorization_code"
  | Mfa => "access/authorization_code_mfa"
  | DualAudience => "access/audience_dual"
  end.

Definition acr (v : signin) : string := match v with Mfa => "mfa" | _ => "pwd" end.
Definition amr (v : signin) : list string := match v with Mfa => ["pwd"; "otp"; "mfa"] | _ => ["pwd"] end.

(** The embedded files. *)
Definition fixture (v : signin) : list (string * json) :=
  [("acr", JStr (acr v)); ("amr", JArr (JStr <$> amr v)); ("app_roles", JStr "<app_roles>");
   ("aud", JArr (JStr "<client_id>" :: match v with DualAudience => [JStr "<audience>"] | _ => [] end));
   ("auth_time", JStr "<auth_time>"); ("exp", JStr "<exp>"); ("iat", JStr "<iat>"); ("iss", JStr "<issuer>");
   ("jti", JStr "<jti>"); ("nbf", JStr "<nbf>"); ("role", JStr "<role>"); ("roles", JArr [JStr "<role>"]);
   ("scope", JStr "<scope:openid profile email>"); ("sub", JStr "<sub>"); ("token_version", JStr "<token_version>");
   ("type", JStr "access")].
Definition jose_fixture : list (string * json) := [("alg", JStr "RS256"); ("kid", JStr "<kid>"); ("typ", JStr "JWT")].

Section sign.
Context `{Lib, JwtLib, ClaimsJson, UuidLib, QuoteLib}.
Variable p : Params.

Definition subject : string := or_ (p_Subject p) DefaultSubject.
Definition scope : string := or_ (p_Scope p) "openid profile email".
Definition auth_time : Z := if time_IsZero (p_AuthTime p) then unix_of (now p) else unix_of (p_AuthTime p).
Definition version : Z := if 0 <? p_TokenVersion p then p_TokenVersion p else 1.

Definition registered : list string := match p_Audiences p with [] => [DefaultAudience] | l => l end.
Definition aud (v : signin) : list string := clientID p :: match v with DualAudience => registered | _ => [] end.

(** The claims the fixture becomes. *)
Definition claims (v : signin) : list (string * json) :=
  [("acr", JStr (acr v)); ("amr", JArr (JStr <$> amr v)); ("app_roles", JObj [(clientID p, JStr (role p))]);
   ("aud", JArr (JStr <$> (aud v))); ("auth_time", JNum (itoa auth_time)); ("exp", JNum (itoa (unix_of (time_Add (now p) (ttl p)))));
   ("iat", JNum (itoa (unix_of (now p)))); ("iss", JStr (issuer p)); ("jti", JStr (new_uuid "jti"));
   ("nbf", JNum (itoa (unix_of (now p)))); ("role", JStr (role p)); ("roles", JArr [JStr (role p)]);
   ("scope", JStr scope); ("sub", JStr subject); ("token_version", JNum (itoa version)); ("type", JStr "access")].

Lemma fixture_resolves v : resolve p "" (JObj (fixture v)) = Ok (JObj (claims v)).
Proof.
  destruct v; [reflexivity..|]. unfold claims, aud. cbn [fmap list_fmap].
  rewrite <- (app_nil_r (JStr <$> registered)). reflexivity.
Qed.

Lemma in_order_strings l : in_order (JArr (JStr <$> l)) = JArr (JStr <$> l).
Proof. simpl. f_equal. rewrite <- list_fmap_compose. by apply list_fmap_ext. Qed.

Lemma claims_in_order v : in_order (JObj (claims v)) = JObj (claims v).
Proof.
  transitivity (JObj ((λ kv : string * json, if String.eqb kv.1 "aud" then ("aud", in_order (JArr (JStr <$> (aud v)))) else kv) <$> (claims v)));
    [destruct v; reflexivity|]. rewrite in_order_strings. reflexivity.
Qed.

Definition header (kid : string) : list (string * json) := [("alg", JStr "RS256"); ("kid", JStr kid); ("typ", JStr "JWT")].

Lemma header_resolves key : key_ID key ≠ "" → resolve (with_keys [key]) "" (JObj jose_fixture) = Ok (JObj (header (key_ID key))).
Proof.
  intros Hk. apply String.eqb_neq in Hk.
  transitivity (rmap JObj (rsequence [Ok ("alg", JStr "RS256");
    rmap (pair "kid") (if String.eqb (key_ID key) "" then Ok (JStr (new_uuid "kid")) else Ok (JStr (key_ID key)));
    Ok ("typ", JStr "JWT")]) : result string json); [reflexivity|by rewrite Hk].
Qed.

(** The numbers are integers of the range JSON numbers keep exactly, and the
    texts are text. *)
Definition exact (z : Z) : Prop := 0 < z < 2 ^ 53.
Definition text (s : string) : Prop := replace_invalid s = s.

Record proper (v : signin) : Prop := {
  proper_numbers : exact auth_time ∧ exact (unix_of (now p)) ∧ exact (unix_of (time_Add (now p) (ttl p))) ∧ exact version;
  proper_texts : text (clientID p) ∧ text (role p) ∧ text (issuer p) ∧ text (new_uuid "jti") ∧ text scope ∧ text subject ∧ Forall text (aud v);
}.

Lemma exact_wf z : exact z → json_wf (JNum (itoa z)) = true.
Proof.
  intros Hz. simpl. apply bool_decide_eq_true. apply numbers.itoa_number. unfold exact in Hz. int64.
Qed.

Lemma canon_strings l : Forall text l → canon (JArr (JStr <$> l)) = JArr (JStr <$> l).
Proof. intros Hl. simpl. f_equal. rewrite <- list_fmap_compose. apply Forall_fmap_ext_1. eapply Forall_impl; [exact Hl|]. intros x Hx. simpl. by rewrite Hx. Qed.

Lemma wf_strings l : json_wf (JArr (JStr <$> l)) = true.
Proof. induction l as [|x l IH]; [done|]. exact IH. Qed.

Lemma claims_parse v : (proper v) → json_parse (json_encode (JObj (claims v))) = Some (JObj (claims v)).
Proof.
  intros [(Ha & Hn & He & Hv) (Hc & Hr & Hi & Hj & Hs & Hu & Hau)]. rewrite json_roundtrip.
  - transitivity (Some (JObj ((λ kv : string * json, (kv.1, canon kv.2)) <$> (claims v)))); [reflexivity|].
    unfold text in *. unfold claims. cbn [fmap list_fmap fst snd]. rewrite (canon_strings (aud v)) by done.
    cbn [canon fmap list_fmap fst snd]. rewrite Hc, Hr, Hi, Hj, Hs, Hu. by destruct v.
  - transitivity (forallb (json_wf ∘ snd) (claims v)); [reflexivity|]. unfold claims. cbn [forallb compose snd].
    rewrite !exact_wf, !wf_strings by done. reflexivity.
Qed.

Lemma header_parse kid : text kid → json_parse (json_encode (JObj (header kid))) = Some (JObj (header kid)).
Proof. intros Hk. rewrite json_roundtrip by done. unfold header. cbn [canon fmap list_fmap fst snd]. by rewrite Hk. Qed.

(** The claims the middleware reads. *)
Definition read (v : signin) : SocrateClaims :=
  {| Role := role p; AppRoles := Some (list_to_map [(clientID p, role p)] ∪ ∅); TokenVersion := version; AuthTime := auth_time;
     Amr := Some (amr v); TenantID := ""; Plan := ""; Email := ""; Name := "";
     Registered := {| rc_Issuer := issuer p; rc_Subject := subject; rc_Audience := (aud v);
                      rc_ExpiresAt := Some (time_Unix (unix_of (time_Add (now p) (ttl p))));
                      rc_NotBefore := Some (time_Unix (unix_of (now p))); rc_IssuedAt := Some (time_Unix (unix_of (now p)));
                      rc_ID := new_uuid "jti" |};
     scopes := []; scopesErr := false |}.

Lemma claims_read `{!ClaimsJsonLaws} v : (proper v) → decode_claims (claims v) = Some (read v).
Proof.
  intros [(Ha & Hn & He & Hv) _]. unfold decode_claims.
  assert (∀ z, exact z → int_literal (itoa z) = Some z) as Hint by (intros z Hz; apply numbers.int_literal_itoa; unfold exact in Hz; lia).
  assert (∀ z, exact z → decode_date None (JNum (itoa z)) = Some (Some (time_Unix z))) as Hdate.
  { intros z Hz. simpl. by rewrite numeric_date_int by done. }
  transitivity (
    n ← int_literal (itoa version); a ← int_literal (itoa auth_time); au ← claim_strings (JArr (JStr <$> (aud v)));
    e ← decode_date None (JNum (itoa (unix_of (time_Add (now p) (ttl p)))));
    nb ← decode_date None (JNum (itoa (unix_of (now p)))); i ← decode_date None (JNum (itoa (unix_of (now p))));
    Some {| Role := role p; AppRoles := Some (list_to_map [(clientID p, role p)] ∪ ∅); TokenVersion := n; AuthTime := a;
            Amr := Some (amr v); TenantID := ""; Plan := ""; Email := ""; Name := "";
            Registered := {| rc_Issuer := issuer p; rc_Subject := subject; rc_Audience := au; rc_ExpiresAt := e;
                             rc_NotBefore := nb; rc_IssuedAt := i; rc_ID := new_uuid "jti" |};
            scopes := []; scopesErr := false |}); [destruct v; reflexivity|].
  rewrite !Hint, claim_strings_list, !Hdate by done. reflexivity.
Qed.

(** * The token *)

Lemma embedded_fixtures v :
  fixtureFS = fixture_files.all →
  parse (fixture_name v) = Ok (fixture v) ∧ parse "jose_header" = Ok jose_fixture ∧
  parse "jwks" = Ok published.jwks_fixture.
Proof. intros Hfs. unfold parse, Raw. rewrite Hfs. destruct v; vm_compute; done. Qed.

Lemma sign_fixture v key token :
  fixtureFS = fixture_files.all → Sign (fixture_name v) p key = Ok token →
  key_ID key ≠ "" ∧ ∃ pub, key_Private key = Some pub ∧ jwt_sign (JObj (header (key_ID key))) (JObj (claims v)) pub = Some token.
Proof.
  intros (Hf & Hj & _)%(embedded_fixtures v). unfold Sign, Load. rewrite Hf, Hj. cbn [rbind].
  assert (String.eqb (fixture_name v) "jwks" = false ∧ negb (has_prefix (fixture_name v) "access/") = false) as [-> ->] by (by destruct v).
  change (String.eqb "jose_header" "jwks") with false. cbv iota. rewrite fixture_resolves. cbn [andb].
  destruct (key_Private key) as [pub|]; [|done]. destruct (String.eqb_spec (key_ID key) "") as [|Hk]; [done|].
  rewrite header_resolves by done. cbn [rbind]. destruct (jwt_sign _ _ pub) as [tok|] eqn:Hs; [|done]. intros [= <-]. eauto.
Qed.

Lemma signed_nonempty `{!ClaimsJsonLaws, !JwsLaws} v key token :
  fixtureFS = fixture_files.all → Sign (fixture_name v) p key = Ok token → token ≠ "".
Proof.
  intros Hfs (_ & pub & _ & Hsign)%(sign_fixture v); [|done]. destruct (sign_compact _ _ _ _ Hsign) as (sg & ->).
  intros Hnil%(f_equal slen). unfold compact in Hnil. rewrite !slen_app in Hnil. unfold slen in Hnil. simpl in Hnil. lia.
Qed.

Lemma token_read `{!ClaimsJsonLaws, !JwsLaws} v key token :
  fixtureFS = fixture_files.all → (proper v) → text (key_ID key) → Sign (fixture_name v) p key = Ok token →
  jwt_decode token = Some ({| jh_alg := "RS256"; jh_kid := Some (key_ID key) |}, (read v)) ∧
  jwtauth.scopeClaims token = Some (dedup_onto [] (fields scope)) ∧
  ∀ pub, key_Private key = Some pub → jwt_verify token pub = true.
Proof.
  intros Hfs Hp Hkid (Hk & pub & Hpub & Hsign)%sign_fixture; [|done].
  pose proof (sign_verifies _ _ _ _ Hsign) as Hver. destruct (sign_compact _ _ _ _ Hsign) as (sg & Htok).
  rewrite claims_in_order in Htok. change (in_order (JObj (header (key_ID key)))) with (JObj (header (key_ID key))) in Htok.
  split_and!.
  - rewrite Htok. apply (read_compact _ _ _ (header (key_ID key)) "RS256" (claims v) (read v));
      [by apply header_parse|reflexivity|by apply claims_parse|by apply claims_read].
  - rewrite Htok. unfold jwtauth.scopeClaims, unmarshal_struct. by rewrite token_payload_compact, claims_parse.
  - intros pub' Hpub'. congruence.
Qed.

(** * The middleware *)

(** The middleware of a service that accepts the fixture's client. *)
Definition mw (url : string) : jwtauth.Middleware := jwtauth.New url (issuer p) [jwtauth.WithAudience (clientID p)].

Lemma clientID_nonempty : String.eqb (clientID p) "" = false.
Proof. unfold clientID, or_. by destruct (String.eqb (p_ClientID p) "") eqn:E. Qed.

Lemma mw_settings url :
  jwtauth.m_audienceSet (mw url) = true ∧ jwtauth.m_audiences (mw url) = [clientID p] ∧ jwtauth.m_issuer (mw url) = issuer p ∧
  jwtauth.m_leeway (mw url) = 60 * Second ∧ jwtauth.m_revocationCheck (mw url) = None ∧
  jwtauth.m_requiredScopesSet (mw url) = false ∧ jwtauth.m_tenantClaimSet (mw url) = false ∧
  jwtauth.m_jwksURL (mw url) = url ∧ jwtauth.m_minRefetchInterval (mw url) = 15 * Second.
Proof. unfold mw, jwtauth.New, jwtauth.WithAudience. cbn [fold_left]. rewrite clientID_nonempty. done. Qed.

Lemma singleton_list {A} (l : list A) a : NoDup l → (∀ x, x ∈ l ↔ x = a) → l = [a].
Proof.
  intros Hnd Hl. destruct l as [|x [|y l]].
  - destruct (not_elem_of_nil a). by apply Hl.
  - by rewrite (proj1 (Hl x) (list_elem_of_here _ _)).
  - apply NoDup_cons in Hnd as [Hx _]. destruct Hx. rewrite (proj1 (Hl x) (list_elem_of_here _ _)).
    rewrite (proj1 (Hl y)) by (by right; left). by left.
Qed.

(** A key that is only in the document just fetched. *)
Lemma getKey_first cfg kid c answer m pub :
  in_int64 (minRefetchInterval cfg) → minRefetchInterval cfg ≤ c_read c →
  fetched_keys cfg answer = Some m → m !! kid = Some pub →
  ∃ st', getKey cfg empty_cache kid c answer = (Some pub, st', true).
Proof.
  intros Hint Hcool Hf Hm. unfold getKey, classify. cbn [keys empty_cache negativeCache default].
  rewrite !lookup_empty. cbn [lastRefetchAttempt]. rewrite (proj2 (Z.ltb_ge _ _)) by (apply time_Sub_ge; [done|simpl; lia]).
  unfold fetchJWKS. rewrite Hf. cbn [keys]. rewrite Hm. eauto.
Qed.

Lemma time_Unix_le t : exact (unix_of t) → time_Unix (unix_of t) ≤ t.
Proof.
  unfold exact, time_Unix, unix_of. intros Ht. rewrite Z.sub_add.
  unfold unix_epoch_seconds in Ht. rewrite wrap64_id by int64. pose proof (Z.mul_div_le t Second ltac:(by vm_compute)). lia.
Qed.

Lemma registered_valid `{!ClaimsJsonLaws, !JwsLaws} v url t :
  (proper v) → now p ≤ t → t < time_Unix (unix_of (time_Add (now p) (ttl p))) →
  jwt_claims_valid (jwtauth.parser_options (mw url)) t (Registered (read v)) = true.
Proof.
  intros [(_ & Hn & _) _] Hnow Hexp. pose proof (time_Unix_le (now p) Hn) as Hle.
  destruct (mw_settings url) as (Has & Hau & Hi & Hl & _). eapply claims_accepted; [|reflexivity|done|..].
  - simpl. rewrite Hl. by vm_compute.
  - intros nbf [= <-]. lia.
  - intros iat [= <-]. lia.
  - intros i. simpl. rewrite Hi. destruct (String.eqb _ _); [done|]. by intros [= <-].
  - intros l. simpl. rewrite Has, Hau. intros [= <-]. exists (clientID p). split; [by left|]. simpl. by left.
Qed.

Lemma token_validates `{!ClaimsJsonLaws, !JwsLaws} v url key token env doc :
  fixtureFS = fixture_files.all → (proper v) → published.publishable key → url ≠ "" →
  Sign (fixture_name v) p key = Ok token →
  JWKS [key] = Ok doc → slen (json_encode doc) ≤ maxJWKSBytes →
  jwtauth.e_answer env = HttpResp 200 (json_encode doc) → 15 * Second ≤ c_read (jwtauth.e_clock env) →
  now p ≤ jwtauth.e_now env → jwtauth.e_now env < time_Unix (unix_of (time_Add (now p) (ttl p))) →
  ∃ st', jwtauth.validateToken (mw url) empty_cache env token =
    (Some (jwtauth.set_scopes (read v) (Some (dedup_onto [] (fields scope)))), st').
Proof.
  intros Hfs Hp Hkey Hurl Hsign Hdoc Hlen Hans Hcool Hnow Hexp.
  pose proof Hkey as (Hid & Htext & pub & Hpub & _). destruct (token_read v key token Hfs Hp Htext Hsign) as (Hdec & Hsc & Hver).
  destruct (mw_settings url) as (Has & Hau & _ & _ & _ & _ & Htc & Hu & Hmin).
  destruct (embedded_fixtures v Hfs) as (_ & _ & Hjw).
  destruct (published.publish_read [key] (jwtauth.key_config (mw url)) Hjw) as (doc' & Hdoc' & Hread);
    [done|by constructor|apply NoDup_singleton|simpl; by rewrite Hu|].
  rewrite Hdoc in Hdoc'. injection Hdoc' as <-. destruct (Hread Hlen) as (m & Hm & Hall).
  destruct (getKey_first (jwtauth.key_config (mw url)) (key_ID key) (jwtauth.e_clock env) (jwtauth.e_answer env) m pub)
    as [st' Hg]; [simpl; rewrite Hmin; vm_compute; split; discriminate|simpl; by rewrite Hmin|by rewrite Hans| |].
  { apply Hall. exists key. split; [by left|done]. }
  exists st'. unfold jwtauth.validateToken, jwtauth.ParseWithClaims. rewrite Has, Hau, Hdec. cbn [jh_alg jh_kid].
  rewrite bool_decide_eq_false_2 by done. change (negb (String.eqb "RS256" "RS256")) with false. cbn [andb]. cbv iota.
  destruct (key_ID key) as [|ch rest] eqn:Hkid; [done|]. rewrite Hg, (Hver pub Hpub), registered_valid by done.
  cbn [andb]. by rewrite Htc, Hsc.
Qed.

(** What a signed token becomes. *)
Lemma signed_admitted `{!ClaimsJsonLaws, !JwsLaws} (v : signin) (url token : string) (key : Key) (doc : json)
    (env : jwtauth.Env) (w : ResponseWriter) (r : Request) :
  fixtureFS = fixture_files.all → (proper v) → published.publishable key → url ≠ "" →
  Sign (fixture_name v) p key = Ok token →
  JWKS [key] = Ok doc → slen (json_encode doc) ≤ maxJWKSBytes →
  jwtauth.e_answer env = HttpResp 200 (json_encode doc) → 15 * Second ≤ c_read (jwtauth.e_clock env) →
  now p ≤ jwtauth.e_now env → jwtauth.e_now env < time_Unix (unix_of (time_Add (now p) (ttl p))) →
  header_Get (req_Header r) "Authorization" = "Bearer " +:+ token → jwtauth.clean (req_ctx r) →
  ∃ r' st', jwtauth.Handler (mw url) empty_cache env w r = (Next w r', st') ∧
    ctxutil.GetRawJWT (req_ctx r') = token ∧ ctxutil.GetUserSub (req_ctx r') = subject ∧
    ctxutil.GetUserRole (req_ctx r') = role p ∧ ctxutil.GetAuthTime (req_ctx r') = auth_time ∧
    ctxutil.GetAMR (req_ctx r') = Some (amr v) ∧
    ctxutil.GetScopes (req_ctx r') = ctxutil.copy_strings (dedup_onto [] (fields scope)) ∧
    ctxutil.GetAudiences (req_ctx r') = Some [clientID p] ∧ ctxutil.GetTenantID (req_ctx r') = uuid_Nil.
Proof.
  intros Hfs Hp Hkey Hurl Hsign Hdoc Hlen Hans Hcool Hnow Hexp Hauth Hclean.
  destruct (token_validates v url key token env doc Hfs Hp Hkey Hurl Hsign Hdoc Hlen Hans Hcool Hnow Hexp) as [st' Hv].
  assert (jwtauth.extractBearer r = Some token) as Hb by (unfold jwtauth.extractBearer; by rewrite Hauth).
  destruct (mw_settings url) as (Has & Hau & _ & _ & Hrev & Hrs & _).
  assert (∃ r', jwtauth.Handler (mw url) empty_cache env w r = (Next w r', st')) as [r' Hh].
  { unfold jwtauth.Handler. rewrite Hb, Hv, Hrev, Hrs. cbn. eauto. }
  exists r', st'. split; [done|].
  destruct (jwtauth.admitted_identity _ _ _ _ _ _ _ _ Hh Hclean)
    as (token' & cl & Hb' & Hv' & Hraw & Hsub & Hrole & _ & Hat & Hamr & Hsc & Hten).
  rewrite Hb in Hb'. injection Hb' as <-. rewrite Hv in Hv'. injection Hv' as <-.
  split_and!; [done..| |done].
  destruct (jwtauth.admitted_audiences _ _ _ _ _ _ _ _ Hh Hclean) as (token' & cl & Hb' & Hv' & ->).
  rewrite Hb in Hb'. injection Hb' as <-. rewrite Hv in Hv'. injection Hv' as <-.
  change (rc_Audience (Registered (jwtauth.set_scopes (read v) (Some (dedup_onto [] (fields scope)))))) with (aud v).
  assert (jwtauth.acceptedAudiences (mw url) (aud v) = [clientID p]) as ->; [|done].
  apply singleton_list; [apply jwtauth.acceptedAudiences_NoDup|]. intros x.
  rewrite jwtauth.acceptedAudiences_elem, Has, Hau, list_elem_of_singleton. split; [naive_solver|].
  intros ->. split; [by left|]. split; [|done]. apply String.eqb_neq, clientID_nonempty.
Qed.

(** C10: the packages agree on the wire. Take parameters whose texts are valid UTF-8
    and whose numbers (the sign-in, issue and expiry times in seconds and the
    token version) lie between 0 and 2^53, where JSON numbers are exact, and a key
    that can be published (an ID that is text, at least 2048 bits, exponent
    65537). A token signed with it from any of the embedded sign-in fixtures (with
    a password, with a second factor, for a client with registered audiences) is
    sent as the bearer token of the first request of a service that expects the
    parameters' issuer and client, whose context holds no identity yet, and whose
    JWKS endpoint serves the document published for the key, of at most the size
    the service reads; the service's clock lies between the token's issue and
    expiry. Then the request is admitted, and the handler reads from its context
    the parameters, or their defaults: subject, role, scopes, client as the one
    accepted audience, authentication time; the methods of the sign-in; and no
    tenant. *)
Theorem fixture_token_is_admitted `{!ClaimsJsonLaws, !JwsLaws} (v : signin) (url token : string) (key : Key) (doc : json)
    (env : jwtauth.Env) (w : ResponseWriter) (r : Request) :
  fixtureFS = fixture_files.all → (proper v) → published.publishable key → url ≠ "" →
  Sign (fixture_name v) p key = Ok token →
  JWKS [key] = Ok doc → slen (json_encode doc) ≤ maxJWKSBytes →
  jwtauth.e_answer env = HttpResp 200 (json_encode doc) → 15 * Second ≤ c_read (jwtauth.e_clock env) →
  now p ≤ jwtauth.e_now env → jwtauth.e_now env < time_Unix (unix_of (time_Add (now p) (ttl p))) →
  header_Get (req_Header r) "Authorization" = "Bearer " +:+ token → jwtauth.clean (req_ctx r) →
  ∃ r' st', jwtauth.Handler (mw url) empty_cache env w r = (Next w r', st') ∧
    ctxutil.GetRawJWT (req_ctx r') = token ∧ ctxutil.GetUserSub (req_ctx r') = subject ∧
    ctxutil.GetUserRole (req_ctx r') = role p ∧ ctxutil.GetAuthTime (req_ctx r') = auth_time ∧
    ctxutil.GetAMR (req_ctx r') = Some (amr v) ∧
    ctxutil.GetScopes (req_ctx r') = ctxutil.copy_strings (dedup_onto [] (fields scope)) ∧
    ctxutil.GetAudiences (req_ctx r') = Some [clientID p] ∧ ctxutil.GetTenantID (req_ctx r') = uuid_Nil.
Proof. apply signed_admitted. Qed.

End sign.

(** * A library, and a token that goes through *)

Module sample.

#[export] Instance claims_json : ClaimsJson :=
  {| claim_strings v := match v with JArr l => mapM jwtauth.as_string l | JStr s => Some [s] | _ => None end;
     numeric_date lit := time_Unix <$> int_literal lit |}.
#[export] Instance claims_json_laws : ClaimsJsonLaws.
Proof.
  split.
  - intros l. cbn [claim_strings claims_json]. apply mapM_Some, Forall2_fmap_l, Forall_Forall2_diag, Forall_true. done.
  - intros z Hz. simpl. by rewrite numbers.int_literal_itoa by lia.
Qed.

(** A signature that names its key. *)
#[export] Instance lib : Lib := {|
  fixtureFS := fixture_files.all; rand_bytes _ n := fixtures.sample.zeros (Z.to_nat n); new_uuid _ := fixtures.sample.uuid;
  sum256 _ := fixtures.sample.zeros 32;
  jwt_sign header claims key :=
    Some (compact (json_encode (in_order header)) (json_encode (in_order claims)) (big_bytes (pk_N key)));
  time_now := (unix_epoch_seconds + 1800000000) * Second |}.

#[export] Instance jwt : JwtLib := {|
  jwt_decode token :=
    match str_split "." token with
    | [h; pl; _] =>
        match b64_decode h ≫= json_parse, b64_decode pl ≫= json_parse with
        | Some (JObj l), Some (JObj c) =>
            match raw_map l !! "alg" with
            | Some (JStr alg) => pair (header_of l alg) <$> decode_claims c
            | _ => None
            end
        | _, _ => None
        end
    | _ => None
    end;
  jwt_verify token key := match str_split "." token with [_; _; sg] => String.eqb sg (b64_encode (big_bytes (pk_N key))) | _ => false end;
  jwt_claims_valid := jwtauth.Demo.claims_valid |}.

Lemma split_compact h pl sg : str_split "." (compact h pl sg) = [b64_encode h; b64_encode pl; b64_encode sg].
Proof.
  unfold compact. rewrite !append_cons, !append_nil.
  by rewrite str_split_app, str_split_app, str_split_nosep by apply b64_encode_nodot.
Qed.

#[export] Instance jws_laws : JwsLaws.
Proof.
  split.
  - intros h c key token [= <-]. eauto.
  - intros h c key token [= <-]. cbn [jwt_verify jwt]. rewrite split_compact. apply String.eqb_refl.
  - intros h pl sg l alg c cl Hh Ha Hp Hc. cbn [jwt_decode jwt]. rewrite split_compact, !bff.b64_roundtrip. cbn [mbind option_bind].
    by rewrite Hh, Hp, Ha, Hc.
  - intros o t c exp Hl He Ht _ _ Hi Ha. cbn [jwt_claims_valid jwt]. unfold jwtauth.Demo.claims_valid. rewrite He.
    rewrite !andb_true_iff. split_and!.
    + apply Z.ltb_lt. lia.
    + destruct (po_issuer o) as [i|]; [|done]. by rewrite (Hi i eq_refl), String.eqb_refl.
    + destruct (po_audiences o) as [l|]; [|done]. destruct (Ha l eq_refl) as (a & Hin & Hc). apply existsb_exists.
      exists a. split; [by apply list_elem_of_In|by apply contains_spec].
Qed.

#[export] Instance uuids : UuidLib := {| uuid_Parse _ := None; uuid_of_sub _ := 7%N |}.
#[export] Instance quotes : QuoteLib := {| go_quote s := s |}.

Definition params : Params := fixtures.sample.full.
Definition key : Key := fixtures.sample.key.
Definition url : string := "https://socrate.test/.well-known/jwks.json".
Definition token : string := match Sign (fixture_name Mfa) params key with Ok t => t | Err _ => "" end.
Definition doc : json := published.document [key].
Definition env : jwtauth.Env :=
  let t := time_now + Minute in
  {| jwtauth.e_clock := {| c_read := t; c_attempt := t; c_stored := t; c_unknown := t |};
     jwtauth.e_answer := HttpResp 200 (json_encode doc); jwtauth.e_now := t |}.
Definition request : Request :=
  {| req_Method := "GET"; req_Path := "/"; req_RawQuery := ""; req_Pattern := ""; req_RemoteAddr := "";
     req_Header := {[ "Authorization" := ["Bearer " +:+ token] ]}; req_ctx := ctxutil.Background |}.

Lemma params_proper v : proper params v.
Proof.
  split; [vm_compute; repeat split|]. split_and!; [vm_compute; reflexivity..|].
  destruct v; repeat (constructor; [vm_compute; reflexivity|]); constructor.
Qed.

Lemma key_publishable : published.publishable key.
Proof.
  split; [discriminate|]. split; [vm_compute; reflexivity|]. eexists. split; [reflexivity|]. split; [reflexivity|].
  split; [vm_compute; discriminate|reflexivity].
Qed.

(** Ada signs in with a second factor, and the service knows her. *)
Lemma fixture_token_is_admitted_witness :
  ∃ r' st', jwtauth.Handler (mw params url) empty_cache env new_response request = (Next new_response r', st') ∧
    ctxutil.GetUserSub (req_ctx r') = "1234" ∧ ctxutil.GetUserRole (req_ctx r') = "admin" ∧
    ctxutil.GetScopes (req_ctx r') = Some ["openid"; "profile"; "email"] ∧ ctxutil.GetAudiences (req_ctx r') = Some ["app-1"].
Proof.
  destruct (fixture_token_is_admitted params Mfa url token key doc env new_response request)
    as (r' & st' & Hh & _ & Hsub & Hrole & _ & _ & Hsc & Hau & _).
  - reflexivity.
  - exact (params_proper Mfa).
  - exact key_publishable.
  - discriminate.
  - vm_compute. reflexivity.
  - vm_compute. reflexivity.
  - vm_compute. discriminate.
  - reflexivity.
  - vm_compute. discriminate.
  - vm_compute. discriminate.
  - vm_compute. reflexivity.
  - reflexivity.
  - intros k _. reflexivity.
  - exists r', st'. split; [exact Hh|]. split; [exact Hsub|]. split; [exact Hrole|]. split; [|exact Hau].
    rewrite Hsc. vm_compute. reflexivity.
Defined.

End sample.

End signed.
