(* ===== verification/StepUp.v ===== *)
(** Step-up authentication through four packages: a token signed from a sign-in
    fixture (src/conformance) is admitted by the middleware of src/jwtauth, whose
    context src/ctxutil carries to the enforcement point of src/pep, which holds
    the decision's obligations against how and when the user signed in. *)

From S2P Require Import Prelude GoText GoUrl Utf8 GoJson JsonRoundtrip Numbers CtxUtil Http ApiError JwtKeys JwtAuth SocrateToken Pep BffMisc Conformance FixtureFiles FixtureMatch PublishedKeys SignedTokens.

Module stepup.
Import jwtkeys conformance policy pep signed.

(** A decision that allows the action after a fresh sign-in with a second factor. *)
Definition steps_up (d : Decision) : Prop :=
  Allow d = true ∧ Obligations d = [ObligationFreshAuth; ObligationMFA] ∧ Mode d = PolicyModeEnforce.

Definition refused (w : ResponseWriter) (d : Decision) (code : string) : verdict :=
  Reply (WriteDenial w (Some (Some {| Code := code; Status := 403; Decision_ := Some d |}))).2.

(** What the enforcement point answers a user who signed in at [at_] with the
    methods [methods]. *)
Definition expected (e : Enforcer) (t : Time) (d : Decision) (at_ : Z) (methods : list string) (w : ResponseWriter) (r : Request)
  : verdict :=
  if FreshAuthMaxAge (cfg e) <? time_Sub t (time_Unix at_) then refused w d CodeElevationRequired
  else if contains methods "mfa" then Next w r else refused w d CodeMFARequired.

Lemma effectiveMode_enforce e : effectiveMode e PolicyModeEnforce = PolicyModeEnforce.
Proof.
  unfold effectiveMode. change (modeRank PolicyModeEnforce) with (Some 2). cbv iota.
  destruct (2 <? _) eqn:Hr; [|done]. exfalso. unfold modeRank in Hr. revert Hr. by repeat (destruct (String.eqb _ _)).
Qed.

(** The enforcement point on its own. *)
Lemma Middleware_steps_up e dec t (route : Route) w r action resource d at_ methods :
  route r = Some (action, resource) → (∀ n q, dec n q = (Some d, None)) → steps_up d →
  ctxutil.GetRawJWT (req_ctx r) ≠ "" → ctxutil.GetAuthTime (req_ctx r) = at_ → at_ ≠ 0 →
  ctxutil.GetAMR (req_ctx r) = Some methods →
  (Middleware e dec t route w r).1 = Some (expected e t d at_ methods w r).
Proof.
  intros Hroute Hdec (Ha & Ho & Hm) Hraw Hat Hz Hamr. unfold Middleware, Check_, check, decide_. rewrite Hroute.
  rewrite (proj2 (String.eqb_neq _ _) Hraw). rewrite !Hdec. cbn [fst snd]. rewrite andb_false_r. cbn [fst snd].
  rewrite Ha, Ho, Hm. cbn [unmetObligation set_lastMode cfg]. rewrite Hat, Hamr, (proj2 (Z.eqb_neq _ _) Hz).
  rewrite effectiveMode_enforce. unfold expected. change (default [] (Some methods)) with methods. cbn [orb set_accepted cfg].
  destruct (FreshAuthMaxAge (cfg e) <? time_Sub t (time_Unix at_)); [reflexivity|].
  by destruct (contains methods "mfa").
Qed.

Section stepup.
Context `{Lib, JwtLib, ClaimsJson, UuidLib, QuoteLib, !ClaimsJsonLaws, !JwsLaws}.
Variable p : Params.


End stepup.

(** * A payment *)

Module sample.
Import signed.sample.

Definition payment : PolicyResource := {| pr_Type := "invoice"; pr_ID := "17"; pr_Attributes := None |}.
Definition decision : Decision :=
  {| Allow := true; Rule := "pay"; Reason := ""; Obligations := [ObligationFreshAuth; ObligationMFA]; PolicyVersion := 1;
     Mode := PolicyModeEnforce; PEPModeAccepted := true |}.
Definition enforcer : Enforcer :=
  {| cfg := {| HasDecider := true; FreshAuthMaxAge := DefaultFreshAuthMaxAge; FailOpenWhenModeUnknown := false;
               MinimumMode := PolicyModeOff |}; lastMode := None; pepModeAccepted := false; reports := [] |}.


End sample.

End stepup.
